(** * StageGL: the WebGL batching renderer of createjs-es6

    A shallow embedding of [src/utils/EaselJS/display/StageGL.js] (with the
    parts of [AJStageGL.js] and [filters/BitmapCache.js] that call into it)
    and the properties of its batching traversal, texture registry and
    shader set-up.

    Conventions of the embedding.
    - JavaScript numbers that the code only compares, adds as counters or
      indexes with are integers ([Z]); alpha values are rationals ([Q]),
      their rounding is not modelled; the UV coordinates, which the code
      computes by division, are binary64 numbers ([float]) computed with
      the operations of the code.
    - Objects with identity that the code mutates in place (textures, image
      sources) live in stores keyed by a reference; the slot table, the
      texture dictionary and the attached-source lists hold references.
    - A method is a computation in a state-and-exception monad over the
      renderer instance; an exception leaves the mutations made so far.
    - The calls made on the WebGL context and the writes into the vertex
      attribute arrays are recorded, in order, in the [gl_log] of the state. *)

From Stdlib Require Import ZArith QArith Lia Lqa List Bool String Ascii.
From Stdlib Require Import PrimFloat SpecFloat FloatOps.
From stdpp Require Import base option list gmap strings pretty.

Local Open Scope Z_scope.
Set Warnings "-register-all".

(** ** JavaScript numbers *)

Module JS.

Inductive number : Type :=
| NaN
| NegInfinity
| Finite (q : Q)
| PosInfinity.

(** [isNaN(value)] on a value of type number. *)
Definition isNaN (v : number) : bool :=
  match v with NaN => true | _ => false end.

(** [a === b] on numbers: [NaN] equals nothing. *)
Definition strictEq (a b : number) : bool :=
  match a, b with
  | Finite x, Finite y => Qeq_bool x y
  | PosInfinity, PosInfinity => true
  | NegInfinity, NegInfinity => true
  | _, _ => false
  end.

(** [Math.max(a, b)]. *)
Definition Math_max (a b : number) : number :=
  match a, b with
  | NaN, _ | _, NaN => NaN
  | PosInfinity, _ | _, PosInfinity => PosInfinity
  | NegInfinity, y => y
  | x, NegInfinity => x
  | Finite x, Finite y => if Qle_bool x y then Finite y else Finite x
  end.

(** [Math.min(a, b)]. *)
Definition Math_min (a b : number) : number :=
  match a, b with
  | NaN, _ | _, NaN => NaN
  | NegInfinity, _ | _, NegInfinity => NegInfinity
  | PosInfinity, y => y
  | x, PosInfinity => x
  | Finite x, Finite y => if Qle_bool x y then Finite x else Finite y
  end.

(** [a <= b] as a proposition: false as soon as one side is [NaN]. *)
Definition le (a b : number) : Prop :=
  match a, b with
  | NaN, _ | _, NaN => False
  | NegInfinity, _ => True
  | _, PosInfinity => True
  | Finite x, Finite y => (x <= y)%Q
  | _, _ => False
  end.

Definition of_Z (z : Z) : number := Finite (inject_Z z).

(** The binary64 Number that holds the integer [z]: [z] itself up to
    2^53 in absolute value, the nearest Number beyond. *)
Definition Number_of_Z (z : Z) : float :=
  SF2Prim (binary_normalize prec emax z 0 false).

(** [ToInt32], the conversion behind [x | 0], on an integer. *)
Definition toInt32 (z : Z) : Z :=
  let r := z mod 2 ^ 32 in
  if r <? 2 ^ 31 then r else r - 2 ^ 32.

(** [(a / 2) | 0] for an integer [a]: the quotient is truncated toward zero
    and wrapped to 32 bits. *)
Definition half_int32 (a : Z) : Z := toInt32 (Z.quot a 2).

(** [a % n] for integers ([NaN] when [n] is 0, given as [None]); the sign
    follows the dividend. *)
Definition rem (a n : Z) : option Z :=
  if n =? 0 then None else Some (Z.rem a n).

End JS.

(** ** The [autoPurge] accessor (StageGL.js, lines 632-641) and the option
    default of the constructor (line 142). *)

Module AutoPurge.

Import JS.

(** [set autoPurge(value)] returns the value stored in [_autoPurge]. *)
Definition set_autoPurge (value : number) : number :=
  let value := if isNaN value then of_Z 1200 else value in
  let value := if negb (strictEq value (of_Z (-1)))
               then Math_max value (of_Z 10) else value in
  value.

(** The destructuring default [autoPurge = 1200] of the constructor:
    [None] is an absent ([undefined]) option. *)
Definition constructor_autoPurge (option_autoPurge : option number) : number :=
  let autoPurge := default (of_Z 1200) option_autoPurge in
  set_autoPurge autoPurge.

End AutoPurge.

(** ** The renderer instance *)

Module StageGL.

(** References to objects with identity: WebGL textures and image sources
    (an [<img>], a [<canvas>], or anything else handed in as a source).
    A reference is the position of the object in its store. *)
Abbreviation texref := nat (only parsing).
Abbreviation imgref := nat (only parsing).

Inductive sourceKind : Type :=
| ImageElement (src : string)   (* instanceof Image / HTMLImageElement *)
| CanvasElement                 (* instanceof HTMLCanvasElement *)
| OtherSource.

Record image : Type := mkImage {
  i_kind : sourceKind;
  i_width : Z;
  i_height : Z;
  i_ready : bool;               (* complete || naturalWidth *)
  i_isCanvas : bool;            (* _isCanvas *)
  i_invalid : option bool;      (* _invalid, [None] for undefined *)
  i_storeID : option Z;         (* _storeID *)
  i_drawID : option Z           (* _drawID *)
}.

Record texture : Type := mkTexture {
  t_width : option Z;
  t_height : option Z;
  t_activeIndex : option Z;     (* _activeIndex *)
  t_batchID : option Z;         (* _batchID *)
  t_drawID : option Z;          (* _drawID *)
  t_storeID : option Z;         (* _storeID *)
  t_imageData : option (list imgref);  (* _imageData *)
  t_frameBuffer : bool;         (* _frameBuffer is set *)
  t_deleted : bool              (* gl.deleteTexture was called on it *)
}.

(** A compiled program: the per-object batch shader with its sampler
    count, or a cover shader with its custom fragment body. *)
Inductive program : Type :=
| BatchProgram (samplers : Z)
| CoverProgram (frag : option string).

(** An entry of [shaders.blendSources]. The module [../gl/shaders] is not
    among the sources; of an entry only the presence of a [shader] body
    decides control flow, the blend factors are WebGL constants. *)
Record blendSource : Type := mkBlendSource {
  bs_shader : option string
}.

Record shaderData : Type := mkShaderData {
  immediate : bool;
  shader : program
}.

Inductive configName : Type := cfg_default | cfg_micro.

(** What a batch is rendered into: the stage itself (the canvas, whose
    [_frameBuffer] is null) or a render texture. *)
Inductive renderTarget : Type :=
| TargetStage
| TargetTexture (t : texref).

(** The UV rectangle of a card, [{t, l, b, r}]. *)
Record uvRect : Type := mkUV {
  uv_t : float; uv_l : float; uv_b : float; uv_r : float
}.

(** The effects on the WebGL context and on the vertex attribute arrays,
    as far as the properties below observe them. The log is kept newest
    first. Of a card the six UV pairs are recorded as they are assigned,
    vertex by vertex; the six positions are not (they depend on the
    transform matrices, which are not modelled). *)
Inductive gl_event : Type :=
| DrawArrays (reason : string) (prog : option program) (mode : string)
             (count : Z)
    (* _renderBatch: gl.drawArrays(gl.TRIANGLES, 0, count), under the blend
       configuration of [mode] *)
| DrawCover (reason : string) (prog : option program)
    (* _renderCover *)
| WriteCard (cfg : configName) (vertex : Z) (uvs : list (float * float))
            (texIndex : option Z) (cardAlpha : Q) (mode : string)
    (* the six vertices written at [vertex .. vertex + 5], [uvs] their
       (u, v) pairs in that order *)
| BlendFunc (mode : string)
    (* gl.blendEquationSeparate / gl.blendFuncSeparate of a render mode *)
| TexImage2D (img : imgref)
| DeleteTexture (t : texref).

(** The host: the WebGL implementation and the global scope the module
    runs in. *)
Record hostEnv : Type := mkHost {
  blendSources : gmap string blendSource;
  MAX_TEXTURE_IMAGE_UNITS : Z;
  MAX_COMBINED_TEXTURE_IMAGE_UNITS : Z;
  batchShaderCompiles : Z -> bool;     (* by sampler count *)
  coverShaderCompiles : option string -> bool;  (* by fragment body *)
  contextLost : bool;                  (* gl.createTexture returns null *)
  globalObject : gmap string Z         (* properties of the global object *)
}.

Record stage : Type := mkStage {
  host : hostEnv;
  alpha : Q;
  _autoPurge : Z;
  _directDraw : bool;
  isCacheControlled : bool;
  _maxBatchVertexCount : Z;
  _viewportWidth : Z;
  _viewportHeight : Z;
  _activeShader : option program;
  _mainShader : option program;
  _activeConfig : configName;
  _bufferTextureOutput : option renderTarget;
  _bufferTextureConcat : option renderTarget;
  _bufferTextureTemp : option renderTarget;
  _batchTextureOutput : option renderTarget;
  _batchTextureConcat : option renderTarget;
  _batchTextureTemp : option renderTarget;
  _builtShaders : gmap string shaderData;
  _textureDictionary : list (option texref);
  _textureIDs : gmap string Z;
  _batchTextures : list texref;
  _baseTextures : list texref;
  _gpuTextureCount : Z;
  _gpuTextureMax : Z;
  _batchTextureCount : Z;
  _lastTextureInsert : Z;
  _renderMode : string;
  _immediateRender : bool;
  _batchVertexCount : Z;
  _batchID : Z;
  _drawID : Z;
  _renderPerDraw : Z;
  _slotBlacklist : list bool;
  _lastTrackedCanvas : Z;
  batchReason : string;
  textures : list texture;
  images : list image;
  gl_log : list gl_event
}.

Definition eta_stage (st : stage) : stage :=
  mkStage (host st) (alpha st) (_autoPurge st) (_directDraw st)
    (isCacheControlled st) (_maxBatchVertexCount st) (_viewportWidth st)
    (_viewportHeight st)
    (_activeShader st) (_mainShader st) (_activeConfig st)
    (_bufferTextureOutput st) (_bufferTextureConcat st)
    (_bufferTextureTemp st) (_batchTextureOutput st)
    (_batchTextureConcat st) (_batchTextureTemp st) (_builtShaders st)
    (_textureDictionary st) (_textureIDs st) (_batchTextures st)
    (_baseTextures st) (_gpuTextureCount st) (_gpuTextureMax st)
    (_batchTextureCount st) (_lastTextureInsert st) (_renderMode st)
    (_immediateRender st) (_batchVertexCount st) (_batchID st) (_drawID st)
    (_renderPerDraw st) (_slotBlacklist st) (_lastTrackedCanvas st)
    (batchReason st) (textures st) (images st) (gl_log st).

(** [with_field proj v st] builds the instance [st] with the field [proj]
    replaced by [v]. *)
Ltac with_field proj v st :=
  let e := eval cbv beta delta [eta_stage] in (eta_stage st) in
  match eval pattern (proj st) in e with
  | ?f _ => let t := eval cbv beta in (f v) in exact t
  end.

Definition set_viewportWidth (v : Z) (st : stage) : stage :=
  ltac:(with_field _viewportWidth v st).
Definition set_viewportHeight (v : Z) (st : stage) : stage :=
  ltac:(with_field _viewportHeight v st).
Definition set_activeShader (v : option program) (st : stage) : stage :=
  ltac:(with_field _activeShader v st).
Definition set_mainShader (v : option program) (st : stage) : stage :=
  ltac:(with_field _mainShader v st).
Definition set_activeConfig (v : configName) (st : stage) : stage :=
  ltac:(with_field _activeConfig v st).
Definition set_bufferTextureOutput (v : option renderTarget) (st : stage)
  : stage := ltac:(with_field _bufferTextureOutput v st).
Definition set_bufferTextureConcat (v : option renderTarget) (st : stage)
  : stage := ltac:(with_field _bufferTextureConcat v st).
Definition set_bufferTextureTemp (v : option renderTarget) (st : stage)
  : stage := ltac:(with_field _bufferTextureTemp v st).
Definition set_batchTextureOutput (v : option renderTarget) (st : stage)
  : stage := ltac:(with_field _batchTextureOutput v st).
Definition set_batchTextureConcat (v : option renderTarget) (st : stage)
  : stage := ltac:(with_field _batchTextureConcat v st).
Definition set_batchTextureTemp (v : option renderTarget) (st : stage)
  : stage := ltac:(with_field _batchTextureTemp v st).
Definition set_builtShaders (v : gmap string shaderData) (st : stage)
  : stage := ltac:(with_field _builtShaders v st).
Definition set_textureDictionary (v : list (option texref)) (st : stage)
  : stage := ltac:(with_field _textureDictionary v st).
Definition set_textureIDs (v : gmap string Z) (st : stage) : stage :=
  ltac:(with_field _textureIDs v st).
Definition set_batchTextures (v : list texref) (st : stage) : stage :=
  ltac:(with_field _batchTextures v st).
Definition set_baseTextures (v : list texref) (st : stage) : stage :=
  ltac:(with_field _baseTextures v st).
Definition set_gpuTextureCount (v : Z) (st : stage) : stage :=
  ltac:(with_field _gpuTextureCount v st).
Definition set_gpuTextureMax (v : Z) (st : stage) : stage :=
  ltac:(with_field _gpuTextureMax v st).
Definition set_batchTextureCount (v : Z) (st : stage) : stage :=
  ltac:(with_field _batchTextureCount v st).
Definition set_lastTextureInsert (v : Z) (st : stage) : stage :=
  ltac:(with_field _lastTextureInsert v st).
Definition set_renderMode (v : string) (st : stage) : stage :=
  ltac:(with_field _renderMode v st).
Definition set_immediateRender (v : bool) (st : stage) : stage :=
  ltac:(with_field _immediateRender v st).
Definition set_batchVertexCount (v : Z) (st : stage) : stage :=
  ltac:(with_field _batchVertexCount v st).
Definition set_batchID (v : Z) (st : stage) : stage :=
  ltac:(with_field _batchID v st).
Definition set_drawID (v : Z) (st : stage) : stage :=
  ltac:(with_field _drawID v st).
Definition set_renderPerDraw (v : Z) (st : stage) : stage :=
  ltac:(with_field _renderPerDraw v st).
Definition set_lastTrackedCanvas (v : Z) (st : stage) : stage :=
  ltac:(with_field _lastTrackedCanvas v st).
Definition set_batchReason (v : string) (st : stage) : stage :=
  ltac:(with_field batchReason v st).
Definition set_textures (v : list texture) (st : stage) : stage :=
  ltac:(with_field textures v st).
Definition set_images (v : list image) (st : stage) : stage :=
  ltac:(with_field images v st).
Definition set_gl_log (v : list gl_event) (st : stage) : stage :=
  ltac:(with_field gl_log v st).

(** *** Exceptions and the method monad *)

Inductive exn : Type :=
| ReferenceError (ident : string)   (* an identifier bound in no scope *)
| TypeError (what : string)         (* a property read on undefined/null *)
| Thrown (msg : string)             (* [throw "..."] *)
| LoopBound (where_ : string)       (* a loop of the model ran out of fuel *)
| Outside (what : string).          (* control left the modelled code *)

Inductive outcome (A : Type) : Type :=
| Return (a : A)
| Throw (e : exn).
Arguments Return {A} a.
Arguments Throw {A} e.

Definition M (A : Type) : Type := stage -> outcome A * stage.

Definition ret {A} (a : A) : M A := fun st => (Return a, st).
Definition throw {A} (e : exn) : M A := fun st => (Throw e, st).
Definition bind {A B} (m : M A) (k : A -> M B) : M B :=
  fun st => match m st with
            | (Return a, st') => k a st'
            | (Throw e, st') => (Throw e, st')
            end.
Definition gets {A} (f : stage -> A) : M A := fun st => (Return (f st), st).
Definition modify (f : stage -> stage) : M unit :=
  fun st => (Return tt, f st).
(** [try { m } catch (e) { h }] *)
Definition tryCatch {A} (m : M A) (h : exn -> M A) : M A :=
  fun st => match m st with
            | (Return a, st') => (Return a, st')
            | (Throw e, st') => h e st'
            end.

Declare Scope js_scope.
Delimit Scope js_scope with js.
Notation "'let*' x ':=' c 'in' k" := (bind c (fun x => k))
  (at level 10, x name, c at level 100, k at level 200) : js_scope.
Notation "c ';;;' k" := (bind c (fun _ => k))
  (at level 100, k at level 200, right associativity) : js_scope.
Local Open Scope js_scope.

Definition when (b : bool) (m : M unit) : M unit :=
  if b then m else ret tt.

Definition log (e : gl_event) : M unit :=
  modify (fun st => set_gl_log (e :: gl_log st) st).

(** The state after running a method, and its result. *)
Definition exec {A} (m : M A) (st : stage) : stage := snd (m st).
Definition result {A} (m : M A) (st : stage) : outcome A := fst (m st).

(** [for (x of l) body(x)], the loop aborted by an exception. *)
Definition forEach {A} (body : A -> M unit) : list A -> M unit :=
  fix go (l : list A) : M unit :=
    match l with
    | [] => ret tt
    | x :: r => body x ;;; go r
    end.

(** *** Object stores *)

Definition eta_texture (x : texture) : texture :=
  mkTexture (t_width x) (t_height x) (t_activeIndex x) (t_batchID x)
    (t_drawID x) (t_storeID x) (t_imageData x) (t_frameBuffer x)
    (t_deleted x).
Definition eta_image (x : image) : image :=
  mkImage (i_kind x) (i_width x) (i_height x) (i_ready x) (i_isCanvas x)
    (i_invalid x) (i_storeID x) (i_drawID x).

Ltac with_field_of eta proj v x :=
  let e := eval hnf in (eta x) in
  match eval pattern (proj x) in e with
  | ?f _ => let t := eval cbv beta in (f v) in exact t
  end.

Definition set_t_width (v : option Z) (x : texture) : texture :=
  ltac:(with_field_of eta_texture t_width v x).
Definition set_t_height (v : option Z) (x : texture) : texture :=
  ltac:(with_field_of eta_texture t_height v x).
Definition set_t_activeIndex (v : option Z) (x : texture) : texture :=
  ltac:(with_field_of eta_texture t_activeIndex v x).
Definition set_t_batchID (v : option Z) (x : texture) : texture :=
  ltac:(with_field_of eta_texture t_batchID v x).
Definition set_t_drawID (v : option Z) (x : texture) : texture :=
  ltac:(with_field_of eta_texture t_drawID v x).
Definition set_t_storeID (v : option Z) (x : texture) : texture :=
  ltac:(with_field_of eta_texture t_storeID v x).
Definition set_t_imageData (v : option (list imgref)) (x : texture)
  : texture := ltac:(with_field_of eta_texture t_imageData v x).
Definition set_t_frameBuffer (v : bool) (x : texture) : texture :=
  ltac:(with_field_of eta_texture t_frameBuffer v x).
Definition set_t_deleted (v : bool) (x : texture) : texture :=
  ltac:(with_field_of eta_texture t_deleted v x).

Definition set_i_isCanvas (v : bool) (x : image) : image :=
  ltac:(with_field_of eta_image i_isCanvas v x).
Definition set_i_invalid (v : option bool) (x : image) : image :=
  ltac:(with_field_of eta_image i_invalid v x).
Definition set_i_storeID (v : option Z) (x : image) : image :=
  ltac:(with_field_of eta_image i_storeID v x).
Definition set_i_drawID (v : option Z) (x : image) : image :=
  ltac:(with_field_of eta_image i_drawID v x).

(** Dereferencing. A reference that points outside its store cannot arise
    from the code (objects are never removed from the stores); the model
    leaves the modelled code there. *)
Definition getTexture (t : texref) : M texture :=
  fun st => match textures st !! t with
            | Some x => (Return x, st)
            | None => (Throw (Outside "texture reference"), st)
            end.
Definition getImage (i : imgref) : M image :=
  fun st => match images st !! i with
            | Some x => (Return x, st)
            | None => (Throw (Outside "image reference"), st)
            end.
Definition updTexture (t : texref) (f : texture -> texture) : M unit :=
  modify (fun st => set_textures (alter f t (textures st)) st).
Definition updImage (i : imgref) (f : image -> image) : M unit :=
  modify (fun st => set_images (alter f i (images st)) st).

(** [arr[i]] for an index that may be undefined, negative or out of
    range: all read as undefined. *)
Definition at_index {A} (l : list A) (i : option Z) : option A :=
  match i with
  | Some z => if z <? 0 then None else l !! Z.to_nat z
  | None => None
  end.

(** [arr[i] = v] on a JavaScript array of optional entries: a write past
    the end extends the array with holes. *)
Definition array_set {A} (l : list (option A)) (i : nat) (v : option A)
  : list (option A) :=
  if (i <? length l)%nat then <[i := v]> l
  else l ++ replicate (i - length l) None ++ [v].

(** [this._textureDictionary[id]] *)
Definition dictLookup (st : stage) (id : option Z) : option texref :=
  mjoin (at_index (_textureDictionary st) id).

(** *** Flushing: [_renderBatch] (lines 2252-2297) and [_renderCover]
    (lines 2304-2331) *)

Definition _renderBatch : M unit :=
  let* n := gets _batchVertexCount in
  if n <=? 0 then ret tt
  else
    modify (fun st => set_renderPerDraw (_renderPerDraw st + 1) st) ;;;
    let* shaderProgram := gets _activeShader in
    match shaderProgram with
    | None => throw (TypeError "shaderProgram.positionAttribute")
    | Some _ =>
      let* st := gets (fun st => st) in
      log (DrawArrays (batchReason st) shaderProgram (_renderMode st)
             (_batchVertexCount st)) ;;;
      modify (set_batchVertexCount 0) ;;;
      modify (fun st => set_batchID (_batchID st + 1) st)
    end.

Definition _renderCover : M unit :=
  modify (fun st => set_renderPerDraw (_renderPerDraw st + 1) st) ;;;
  let* shaderProgram := gets _activeShader in
  match shaderProgram with
  | None => throw (TypeError "shaderProgram.positionAttribute")
  | Some _ =>
    let* reason := gets batchReason in
    log (DrawCover reason shaderProgram) ;;;
    modify (fun st => set_batchID (_batchID st + 1) st)
  end.

(** [this.batchReason = reason; this._renderBatch();], the form of every
    forced flush. *)
Definition flush (reason : string) : M unit :=
  modify (set_batchReason reason) ;;;
  _renderBatch.

(** *** Shader programs *)

(** [_fetchShaderProgram(coverShader, customVTX, customFRAG, setup)]
    (lines 1308-1381): whether the shader compiles and links is the
    host's answer; on failure the info log is thrown. *)
Definition _fetchShaderProgram (coverShader : bool)
    (customFRAG : option string) : M program :=
  let* h := gets host in
  if coverShader then
    if coverShaderCompiles h customFRAG then ret (CoverProgram customFRAG)
    else throw (Thrown "shader info log")
  else
    let* textureCount := gets _batchTextureCount in
    if batchShaderCompiles h textureCount
    then ret (BatchProgram textureCount)
    else throw (Thrown "shader info log").

(** [resizeTexture(texture, width, height)] (lines 1050-1068). *)
Definition resizeTexture (target : option renderTarget) (width height : Z)
  : M unit :=
  match target with
  | None => throw (TypeError "texture.width")
  | Some TargetStage => throw (TypeError "gl.bindTexture")
  | Some (TargetTexture t) =>
    let* x := getTexture t in
    if decide (t_width x = Some width /\ t_height x = Some height)
    then ret tt
    else updTexture t (fun x => set_t_height (Some height)
                                  (set_t_width (Some width) x))
  end.

(** [gl.createTexture()]: null once the context is lost, otherwise a new
    texture object. *)
Definition createTexture : M (option texref) :=
  let* h := gets host in
  if contextLost h then ret None
  else
    let* t := gets (fun st => length (textures st)) in
    modify (fun st => set_textures
      (textures st ++
         [mkTexture None None None None None None None false false]) st) ;;;
    ret (Some t).

(** [getBaseTexture(width = 1, height = 1)] (lines 1025-1035); an
    argument that is undefined takes the default. The sizes are integers,
    on which [Math.ceil] is the identity. *)
Definition getBaseTexture (width height : option Z) : M (option texref) :=
  let width := default 1 width in
  let height := default 1 height in
  let width := if width >? 0 then width else 1 in
  let height := if height >? 0 then height else 1 in
  let* texture := createTexture in
  resizeTexture (TargetTexture <$> texture) width height ;;;
  ret texture.

(** [_getSafeTexture(width = 1, height = 1)] (lines 1235-1246). *)
Definition _getSafeTexture (width height : option Z) : M (option texref) :=
  let* texture := getBaseTexture width height in
  match texture with
  | Some t => ret (Some t)
  | None => gets (fun st => _baseTextures st !! 0%nat)
  end.

(** Identifier resolution: the innermost scopes first (parameters and
    locals of the function, then the bindings of the module), then the
    properties of the global object; an identifier found nowhere is a
    ReferenceError. A binding holds a number or something else ([None]). *)
Definition scope := list (string * option Z).

Fixpoint lookupScope (sc : scope) (name : string) : option (option Z) :=
  match sc with
  | [] => None
  | (n, v) :: r => if String.eqb n name then Some v else lookupScope r name
  end.

Definition resolveIdentifier (sc : scope) (name : string) : M (option Z) :=
  match lookupScope sc name with
  | Some v => ret v
  | None =>
    let* h := gets host in
    match globalObject h !! name with
    | Some z => ret (Some z)
    | None => throw (ReferenceError name)
    end
  end.

(** The imports and the class binding of the module StageGL.js
    (lines 61-66 and 108). *)
Definition moduleScope : scope :=
  [("Stage", None); ("Container", None); ("shaders", None);
   ("Matrix2D", None); ("Filter", None); ("BitmapCache", None);
   ("StageGL", None)]%string.

(** [getRenderBufferTexture(width, height)] (lines 1079-1104). The
    arguments of [this.getBaseTexture(w, h)] are evaluated left to
    right in the scope of the function. *)
Definition getRenderBufferTexture (width height : Z) : M (option texref) :=
  let sc : scope :=
    [("width", Some width); ("height", Some height); ("gl", None);
     ("renderTexture", None); ("frameBuffer", None)]%string
    ++ moduleScope in
  let* w := resolveIdentifier sc "w" in
  let* h := resolveIdentifier sc "h" in
  let* renderTexture := getBaseTexture w h in
  match renderTexture with
  | None => ret None
  | Some t =>
    let* lost := gets (fun st => contextLost (host st)) in
    if lost then ret None   (* gl.createFramebuffer() returned null *)
    else
      updTexture t (fun x => set_t_height (Some height)
                               (set_t_width (Some width) x)) ;;;
      updTexture t (set_t_frameBuffer true) ;;;
      let* id := gets (fun st => length (_textureDictionary st)) in
      updTexture t (set_t_storeID (Some (Z.of_nat id))) ;;;
      modify (fun st => set_textureDictionary
                (array_set (_textureDictionary st) id (Some t)) st) ;;;
      ret (Some t)
  end.

(** [_initMaterials()] (lines 1519-1563). The [while (!success)] loop
    is run with a bound on its iterations; the count is at most halved 33
    times (see [compileLoop_bound] below). *)
Fixpoint compileLoop (fuel : nat) : M unit :=
  match fuel with
  | O => throw (LoopBound "_initMaterials")
  | S fuel' =>
    tryCatch
      (let* p := _fetchShaderProgram false None in
       modify (set_activeShader (Some p)))
      (fun e =>
         let* n := gets _batchTextureCount in
         if n <=? 1 then throw (Thrown "Cannot compile shader")
         else
           modify (set_batchTextureCount (JS.half_int32 n)) ;;;
           compileLoop fuel')
  end.

Definition _initMaterials : M unit :=
  modify (set_lastTextureInsert (-1)) ;;;
  modify (set_textureDictionary []) ;;;
  modify (set_textureIDs ∅) ;;;
  modify (set_baseTextures []) ;;;
  modify (set_batchTextures []) ;;;
  modify (fun st => set_gpuTextureCount
                      (MAX_TEXTURE_IMAGE_UNITS (host st)) st) ;;;
  modify (fun st => set_gpuTextureMax
                      (MAX_COMBINED_TEXTURE_IMAGE_UNITS (host st)) st) ;;;
  modify (fun st => set_batchTextureCount (_gpuTextureCount st) st) ;;;
  compileLoop 34 ;;;
  modify (fun st => set_mainShader (_activeShader st) st) ;;;
  let* texture := getBaseTexture None None in
  match texture with
  | None => throw (Thrown "Problems creating basic textures")
  | Some t =>
    updTexture t (set_t_storeID (Some (-1))) ;;;
    let* n := gets _batchTextureCount in
    modify (set_baseTextures (replicate (Z.to_nat n) t)) ;;;
    modify (set_batchTextures (replicate (Z.to_nat n) t))
  end.

(** A string used as a condition: the empty string is falsy. *)
Definition truthy (s : option string) : option string :=
  match s with
  | Some s' => if String.eqb s' "" then None else Some s'
  | None => None
  end.

(** [_updateRenderMode(newMode)] (lines 1794-1848). The two tables are
    looked up by the names they hold themselves: a mode named like a
    member of [Object.prototype] ([toString], [constructor], ...), which
    a lookup in a plain object also finds, is outside the model. *)
Definition _updateRenderMode (newMode : option string) : M unit :=
  let newMode := default "source-over"%string newMode in
  let* table := gets (fun st => blendSources (host st)) in
  let '(newMode, blendSrc) :=
    match table !! newMode with
    | Some b => (newMode, Some b)
    | None => ("source-over"%string, table !! "source-over"%string)
    end in
  let* current := gets _renderMode in
  if String.eqb current newMode then ret tt
  else
    let* built := gets _builtShaders in
    let* shaderData :=
      match built !! newMode with
      | Some d => ret (Some d)
      | None =>
        tryCatch
          (match blendSrc with
           | None => throw (TypeError "blendSrc.eqRGB")
           | Some b =>
             let* sh :=
               match truthy (bs_shader b), built !! "source-over"%string with
               | None, Some so => ret (shader so)
               | frag, _ => _fetchShaderProgram true frag
               end in
             let d := mkShaderData (bool_decide (is_Some (bs_shader b))) sh in
             modify (fun st => set_builtShaders
                                 (<[newMode := d]> (_builtShaders st)) st) ;;;
             ret (Some d)
           end)
          (fun e =>
             modify (fun st => set_builtShaders
                                 (delete newMode (_builtShaders st)) st) ;;;
             ret None)
      end in
    match shaderData with
    | None => ret tt            (* SHADER SWITCH FAILURE *)
    | Some d =>
      let* directDraw := gets _directDraw in
      if immediate d && directDraw then ret tt   (* illegal, reverting *)
      else
        when (immediate d) (modify (set_activeConfig cfg_micro)) ;;;
        let* out := gets _batchTextureOutput in
        match out with
        | None => throw (TypeError "_batchTextureOutput._frameBuffer")
        | Some _ =>
          flush "shaderSwap" ;;;
          modify (set_renderMode newMode) ;;;
          modify (set_immediateRender (immediate d)) ;;;
          log (BlendFunc newMode)
        end
    end.

(** *** Texture slots *)

(** [image && ((image._invalid === undefined && image._isCanvas) ||
    image._invalid)] *)
Definition needsUpload (img : image) : bool :=
  match i_invalid img with
  | None => i_isCanvas img
  | Some b => b
  end.

(** [_updateTextureImageData(gl, image)] (lines 1624-1669). *)
Definition _updateTextureImageData (image : imgref) : M unit :=
  let* img := getImage image in
  if negb (i_ready img || i_isCanvas img) then ret tt
  else
    let* texture := gets (fun st => dictLookup st (i_storeID img)) in
    match texture with
    | None => throw (TypeError "texture._activeIndex")
    | Some t =>
      getTexture t ;;;
      log (TexImage2D image) ;;;
      when (bool_decide (is_Some (i_invalid img)))
           (updImage image (set_i_invalid (Some false))) ;;;
      updTexture t (fun x => set_t_height (Some (i_height img))
                               (set_t_width (Some (i_width img)) x))
    end.

(** [texture._imageData && texture._imageData[0]] *)
Definition firstSource (x : texture) : option imgref :=
  match t_imageData x with
  | Some (i :: _) => Some i
  | _ => None
  end.

Definition refreshSource (x : texture) : M unit :=
  match firstSource x with
  | None => ret tt
  | Some i =>
    let* img := getImage i in
    when (needsUpload img) (_updateTextureImageData i)
  end.

Definition blacklisted (st : stage) (look : Z) : bool :=
  default false (at_index (_slotBlacklist st) (Some look)).

(** The [do ... while (look !== start)] scan of [_insertTextureInBatch]
    (lines 1685-1691), which only reads the instance: [Return (Some k)]
    when [found = k], [Return None] when [found] stays -1. *)
Fixpoint scanSlots (st : stage) (start : Z) (fuel : nat) (look : Z)
  : outcome (option Z) :=
  match fuel with
  | O => Throw (LoopBound "_insertTextureInBatch")
  | S fuel' =>
    match at_index (_batchTextures st) (Some look) with
    | None => Throw (TypeError "_batchTextures[look]._batchID")
    | Some occupant =>
      match textures st !! occupant with
      | None => Throw (Outside "texture reference")
      | Some o =>
        if negb (bool_decide (t_batchID o = Some (_batchID st)))
           && negb (blacklisted st look)
        then Return (Some look)
        else
          match JS.rem (look + 1) (_batchTextureCount st) with
          | None => Throw (TypeError "_batchTextures[look]._batchID")
          | Some look' =>
            if look' =? start then Return None
            else scanSlots st start fuel' look'
          end
      end
    end
  end.

Definition findSlot (start : Z) : M (option Z) :=
  fun st =>
    (scanSlots st start (S (Z.to_nat (_batchTextureCount st))) start, st).

(** [_insertTextureInBatch(gl, texture)] (lines 1678-1723). The slot
    written is one the scan has read, so the write is inside the table. *)
Definition _insertTextureInBatch (texture : texref) : M unit :=
  let* x := getTexture texture in
  let* occupant := gets (fun st =>
                     at_index (_batchTextures st) (t_activeIndex x)) in
  (if negb (bool_decide (occupant = Some texture)) then
     let* start := gets (fun st =>
        JS.rem (_lastTextureInsert st + 1) (_batchTextureCount st)) in
     match start with
     | None => throw (TypeError "_batchTextures[look]._batchID")
     | Some start =>
       let* found := findSlot start in
       let* found :=
         match found with
         | Some k => ret k
         | None =>
           flush "textureOverflow" ;;;
           ret start
         end in
       modify (fun st => set_batchTextures
                 (<[Z.to_nat found := texture]> (_batchTextures st)) st) ;;;
       updTexture texture (set_t_activeIndex (Some found)) ;;;
       refreshSource x ;;;
       modify (set_lastTextureInsert found)
     end
   else
     let* drawID := gets _drawID in
     when (negb (bool_decide (t_drawID x = Some drawID))) (refreshSource x))
  ;;;
  let* st := gets (fun st => st) in
  updTexture texture (fun x => set_t_batchID (Some (_batchID st))
                                 (set_t_drawID (Some (_drawID st)) x)).

(** [_loadTextureImage(gl, image)] (lines 1573-1613); the result is
    undefined for an invalid source. *)
Definition _loadTextureImage (image : imgref) : M (option texref) :=
  let* img := getImage image in
  let* srcPath :=
    match i_kind img with
    | ImageElement src =>
      if String.eqb src "" then ret None else ret (Some src)
    | CanvasElement =>
      updImage image (set_i_isCanvas true) ;;;
      modify (fun st => set_lastTrackedCanvas (_lastTrackedCanvas st + 1) st) ;;;
      let* n := gets _lastTrackedCanvas in
      ret (Some ("canvas_" ++ pretty n)%string)
    | OtherSource => ret None
    end in
  match srcPath with
  | None => ret None   (* "Invalid image provided as source" *)
  | Some srcPath =>
    let* known := gets (fun st => _textureIDs st !! srcPath) in
    let* storeID_texture :=
      match known with
      | None =>
        let* storeID := gets (fun st => length (_textureDictionary st)) in
        modify (fun st => set_textureIDs
                  (<[srcPath := Z.of_nat storeID]> (_textureIDs st)) st) ;;;
        updImage image (fun i => set_i_invalid (Some true)
                          (set_i_storeID (Some (Z.of_nat storeID)) i)) ;;;
        let* texture := _getSafeTexture None None in
        modify (fun st => set_textureDictionary
                  (array_set (_textureDictionary st) storeID texture) st) ;;;
        ret (Z.of_nat storeID, texture)
      | Some storeID =>
        updImage image (set_i_storeID (Some storeID)) ;;;
        let* texture := gets (fun st => dictLookup st (Some storeID)) in
        ret (storeID, texture)
      end in
    match storeID_texture with
    | (_, None) => throw (TypeError "texture._storeID")
    | (storeID, Some t) =>
      let* x := getTexture t in
      when (negb (bool_decide (t_storeID x = Some (-1))))
        (updTexture t (fun x =>
           set_t_imageData (Some (default [] (t_imageData x) ++ [image]))
             (set_t_storeID (Some storeID) x))) ;;;
      _insertTextureInBatch t ;;;
      ret (Some t)
    end
  end.

(** [_killTextureObject(texture)] (lines 1733-1771). The slot released
    is one that holds the texture, so its index is inside the slot table
    and, the two tables being filled together, inside [_baseTextures]. *)
Definition _killTextureObject (texture : option texref) : M unit :=
  match texture with
  | None => ret tt
  | Some t =>
    let* x := getTexture t in
    (match t_storeID x with
     | Some storeID =>
       when (0 <=? storeID)
         (modify (fun st => set_textureDictionary
                    (array_set (_textureDictionary st) (Z.to_nat storeID)
                               None) st) ;;;
          modify (fun st => set_textureIDs
                    (filter (fun kv => kv.2 <> storeID) (_textureIDs st))
                    st) ;;;
          forEach (fun i => updImage i (set_i_storeID None))
                  (rev (default [] (t_imageData x))) ;;;
          updTexture t (fun x => set_t_storeID None
                                   (set_t_imageData None x)))
     | None => ret tt
     end) ;;;
    let* st := gets (fun st => st) in
    when (bool_decide (at_index (_batchTextures st) (t_activeIndex x)
                       = Some t))
      (match at_index (_baseTextures st) (t_activeIndex x),
             t_activeIndex x with
       | Some base, Some k =>
         modify (fun st => set_batchTextures
                   (<[Z.to_nat k := base]> (_batchTextures st)) st)
       | _, _ => ret tt
       end) ;;;
    updTexture t (set_t_frameBuffer false) ;;;
    log (DeleteTexture t) ;;;
    updTexture t (set_t_deleted true)
  end.

(** [item._drawID + count <= this._drawID]; an undefined [_drawID]
    makes the sum NaN and the comparison false. *)
Definition expired (count drawID : Z) (img : image) : bool :=
  match i_drawID img with
  | Some d => d + count <=? drawID
  | None => false
  end.

(** The inner loop of [purgeTextures] (lines 951-958): the sources that
    stay attached, in order; the others lose their [_storeID]. *)
Fixpoint purgeSources (count : Z) (data : list imgref) : M (list imgref) :=
  match data with
  | [] => ret []
  | item :: rest =>
    let* img := getImage item in
    let* drawID := gets _drawID in
    if expired count drawID img then
      updImage item (set_i_storeID None) ;;;
      purgeSources count rest
    else
      let* rest' := purgeSources count rest in
      ret (item :: rest')
  end.

(** One iteration of the outer loop of [purgeTextures] (lines 947-960). *)
Definition purgeEntry (count : Z) (i : nat) : M unit :=
  let* texture := gets (fun st => mjoin (_textureDictionary st !! i)) in
  match texture with
  | None => ret tt
  | Some t =>
    let* x := getTexture t in
    match t_imageData x with
    | None => ret tt
    | Some data =>
      let* data' := purgeSources count data in
      updTexture t (set_t_imageData (Some data')) ;;;
      when (bool_decide (data' = [])) (_killTextureObject (Some t))
    end
  end.

(** [purgeTextures(count = 100)] (lines 943-962). *)
Definition purgeTextures (count : option Z) : M unit :=
  let count := default 100 count in
  let* l := gets (fun st => length (_textureDictionary st)) in
  forEach (purgeEntry count) (seq 0 l).

(** *** Immediate rendering *)

(** [_drawCover(out, dst, srcFilter)] (lines 1882-1906) as the traversal
    calls it, with a texture as [srcFilter]: the program is the one built
    for the current render mode. *)
Definition _drawCover : M unit :=
  let* d := gets (fun st => _builtShaders st !! _renderMode st) in
  match d with
  | None => throw (TypeError "_builtShaders[_renderMode].shader")
  | Some d =>
    modify (set_activeShader (Some (shader d))) ;;;
    _renderCover
  end.

(** [_immediateBatchRender()] (lines 2214-2245). *)
Definition _immediateBatchRender : M unit :=
  let* st := gets (fun st => st) in
  (match _batchTextureConcat st with
   | None =>
     let* t := getRenderBufferTexture (_viewportWidth st)
                 (_viewportHeight st) in
     modify (set_batchTextureConcat (TargetTexture <$> t))
   | Some c =>
     resizeTexture (Some c) (_viewportWidth st) (_viewportHeight st)
   end) ;;;
  (match _batchTextureTemp st with
   | None =>
     let* t := getRenderBufferTexture (_viewportWidth st)
                 (_viewportHeight st) in
     modify (set_batchTextureTemp (TargetTexture <$> t)) ;;;
     match t with
     | None => throw (TypeError "_batchTextureTemp._frameBuffer")
     | Some _ => ret tt
     end
   | Some c =>
     resizeTexture (Some c) (_viewportWidth st) (_viewportHeight st)
   end) ;;;
  let* swap := gets _batchTextureOutput in
  modify (fun st => set_batchTextureOutput (_batchTextureConcat st) st) ;;;
  modify (set_batchTextureConcat swap) ;;;
  modify (fun st => set_activeShader (_mainShader st) st) ;;;
  flush "immediatePrep" ;;;
  modify (set_batchReason "immediateResults") ;;;
  let* out := gets _batchTextureOutput in
  match out with
  | None => throw (TypeError "_batchTextureOutput._frameBuffer")
  | Some _ => _drawCover
  end.

(** [updateViewport(width, height)] (lines 971-986). *)
Definition updateViewport (width height : Z) : M unit :=
  let width := Z.abs (JS.toInt32 width) in
  let height := Z.abs (JS.toInt32 height) in
  modify (set_viewportWidth width) ;;;
  modify (set_viewportHeight height) ;;;
  let* st := gets (fun st => st) in
  (match _bufferTextureOutput st with
   | Some (TargetTexture t) =>
     resizeTexture (Some (TargetTexture t)) width height
   | _ => ret tt
   end) ;;;
  (match _bufferTextureConcat st with
   | Some c => resizeTexture (Some c) width height
   | None => ret tt
   end) ;;;
  match _bufferTextureTemp st with
  | Some c => resizeTexture (Some c) width height
  | None => ret tt
  end.

(** *** The offscreen cache of an item (filters/BitmapCache.js) *)

(** The surface of a cache, [_cacheCanvas]: a canvas of its own, or the
    render texture the cache is drawn into. *)
Inductive surface : Type :=
| CanvasSurface (width height : Z)
| TextureSurface (t : texref).

Record bitmapCache : Type := mkCache {
  _autoGenerated : bool;
  _stageGL : bool;                          (* a StageGL renders the cache *)
  _filterCount : Z;
  _drawWidth : Z;
  _drawHeight : Z;
  bc_bufferTextureOutput : option texref;   (* _bufferTextureOutput *)
  bc_bufferTextureConcat : option texref;   (* _bufferTextureConcat *)
  _cacheCanvas : option surface
}.

(** [BitmapCache.update()] (BitmapCache.js, lines 419-458) from the
    allocation of its buffers on (line 432).
    What follows the allocation, [_drawToCache], the drawing of the
    target into the cache by [cacheDraw], is not part of the model:
    control leaves the modelled code there, which the empty result type
    records. *)
Definition BitmapCache_update (c : bitmapCache) : M Empty_set :=
  (if _stageGL c then
     (match bc_bufferTextureOutput c with
      | None =>
        getRenderBufferTexture (_drawWidth c) (_drawHeight c) ;;; ret tt
      | Some t =>
        resizeTexture (Some (TargetTexture t)) (_drawWidth c) (_drawHeight c)
      end) ;;;
     when (1 <=? _filterCount c)
       (match bc_bufferTextureConcat c with
        | None =>
          getRenderBufferTexture (_drawWidth c) (_drawHeight c) ;;; ret tt
        | Some t =>
          resizeTexture (Some (TargetTexture t)) (_drawWidth c)
            (_drawHeight c)
        end)
   else ret tt) ;;;
  throw (Outside "BitmapCache._drawToCache").

(** The test of line 428: the cache has no surface, or one of another
    size than the cache is to have. *)
Definition surfaceStale (c : bitmapCache) : M bool :=
  match _cacheCanvas c with
  | None => ret true
  | Some (CanvasSurface w h) =>
    ret (negb (w =? _drawWidth c) || negb (h =? _drawHeight c))
  | Some (TextureSurface t) =>
    let* x := getTexture t in
    ret (negb (bool_decide (t_width x = Some (_drawWidth c)))
         || negb (bool_decide (t_height x = Some (_drawHeight c))))
  end.

(** [BitmapCache._updateSurface()] (lines 556-610) for a cache defined
    with this StageGL instance as [useGL]: the stage becomes the
    renderer of a cache that has none (line 594), and a stage that is
    [isCacheControlled] is sized with the surface (lines 604-609). The
    result is whether a StageGL renders the cache. *)
Definition _updateSurface (c : bitmapCache) : M bool :=
  let* controlled := gets isCacheControlled in
  (if controlled then
     (match _cacheCanvas c with
      | None => throw (TypeError "surface.width")
      | Some (CanvasSurface _ _) => ret tt
      | Some (TextureSurface t) =>
        updTexture t (fun x => set_t_height (Some (_drawHeight c))
                                 (set_t_width (Some (_drawWidth c)) x))
      end) ;;;
     updateViewport (_drawWidth c) (_drawHeight c)
   else ret tt) ;;;
  ret true.

(** [BitmapCache.define(target, x, y, width, height, scale, {useGL: stage})]
    (lines 397-409) with this StageGL instance as [useGL], and the
    [update()] it ends with up to line 430; [drawWidth] and [drawHeight]
    are the size [update] computes for the surface and [filterCount] its
    count of the filter passes. *)
Definition BitmapCache_define (c : bitmapCache) (drawWidth drawHeight : Z)
    (filterCount : Z) : M Empty_set :=
  let c := mkCache (_autoGenerated c) (_stageGL c) filterCount drawWidth
             drawHeight (bc_bufferTextureOutput c) (bc_bufferTextureConcat c)
             (_cacheCanvas c) in
  let* stale := surfaceStale c in
  let* stageGL := if stale then _updateSurface c else ret (_stageGL c) in
  BitmapCache_update
    (mkCache (_autoGenerated c) stageGL filterCount drawWidth drawHeight
       (bc_bufferTextureOutput c) (bc_bufferTextureConcat c)
       (_cacheCanvas c)).

(** *** The display list *)

Record rectangle : Type := mkRect {
  r_x : float; r_y : float; r_width : float; r_height : float
}.

(** A frame of a sprite sheet. *)
Record frame : Type := mkFrame {
  f_image : option imgref;
  f_rect : rectangle;
  f_uvRect : option uvRect
}.

(** The properties every display object has. The transform is left out;
    [cacheSize] is the surface size [define] computes from the bounds of
    the item and of its filters. *)
Record props : Type := mkProps {
  visible : bool;
  item_alpha : Q;
  compositeOperation : option string;
  cacheCanvas : option imgref;
  filters : option nat;          (* null, or the length of the list *)
  bitmapCache_ : option bitmapCache;
  cacheSize : Z * Z
}.

(** Display objects by render style: a container has [children]; a
    Bitmap has [_webGLRenderStyle] 2, a Sprite 1; anything else (Shape,
    Text, DOMElement) is drawn only through a cache. Of a Sprite,
    [frames] is the [_frames] of its sprite sheet (if it has any) and
    [frame] what [spriteSheet.getFrame(currentFrame)] returns
    (SpriteSheet.js is not among the sources). *)
Inductive displayObject : Type :=
| Container (p : props) (children : list displayObject)
| Bitmap (p : props) (image : option imgref) (sourceRect : option rectangle)
| Sprite (p : props) (frames : option (list frame)) (currentFrame : Z)
         (frame_ : option frame)
| Other (p : props).

Definition propsOf (item : displayObject) : props :=
  match item with
  | Container p _ | Bitmap p _ _ | Sprite p _ _ _ | Other p => p
  end.

Definition INDICIES_PER_CARD : Z := 6.
Definition DEFAULT_MAX_BATCH_SIZE : Z := 10920.
Definition DEFAULT_MIN_BATCH_SIZE : Z := 170.

(** [StageGL.UV_RECT = {t:1, l:0, b:0, r:1}] (line 2406). *)
Definition UV_RECT : uvRect := mkUV 1 0 0 1.

(** The UV rectangle of a Bitmap with a [sourceRect] (lines 2080-2083),
    on an image of the given width and height. *)
Definition sourceRectUV (src : rectangle) (width height : Z) : uvRect :=
  let W := JS.Number_of_Z width in
  let H := JS.Number_of_Z height in
  mkUV (1 - r_y src / H)
       (r_x src / W)
       (1 - (r_y src + r_height src) / H)
       ((r_x src + r_width src) / W).

(** The body of the loop of [buildUVRects] (lines 547-556): the
    [uvRect] the frame has afterwards, which is the one it had, or the
    one computed from its [rect] when its image has a positive size. *)
Definition frameUVRect (f : frame) : M (option uvRect) :=
  match f_uvRect f with
  | Some r => ret (Some r)
  | None =>
    match f_image f with
    | None => throw (TypeError "f.image.width")
    | Some i =>
      let* img := getImage i in
      if (i_width img <=? 0) || (i_height img <=? 0) then ret None
      else ret (Some (sourceRectUV (f_rect f) (i_width img) (i_height img)))
    end
  end.

(** [StageGL.buildUVRects(spritesheet, target, false)] (lines 540-560):
    every frame of the sheet is visited, then the rectangle of the
    target frame is returned, or the generic one of line 559; [None] is
    the [null] of line 541. The rectangles the loop stores in the frames
    are not kept by the model: the display list is given anew with every
    draw. *)
Definition buildUVRects (frames : option (list frame)) (target : Z)
  : M (option uvRect) :=
  match frames with
  | None => ret None
  | Some fs =>
    forEach (fun f => frameUVRect f ;;; ret tt) fs ;;;
    match at_index fs (Some (if target =? -1 then 0 else target)) with
    | None => throw (TypeError "_frames[target].uvRect")
    | Some f =>
      let* r := frameUVRect f in
      ret (Some (default (mkUV 0 0 1 1) r))
    end
  end.

(** The six UV pairs of a card, in the order lines 2150-2160 assign them
    to its vertices. *)
Definition cardUVs (r : uvRect) : list (float * float) :=
  [(uv_l r, uv_t r); (uv_l r, uv_b r); (uv_r r, uv_t r);
   (uv_l r, uv_b r); (uv_r r, uv_t r); (uv_r r, uv_b r)].

(** *** The batching traversal: [_appendToBatch] (lines 1941-2207) *)

(** [concatAlpha > 0.0035] *)
Definition alphaVisible (concatAlpha : Q) : bool :=
  negb (Qle_bool concatAlpha (35 # 10000)).

(** [if (x.compositeOperation) { this._updateRenderMode(...) }] *)
Definition applyCompositeOperation (p : props) : M unit :=
  match truthy (compositeOperation p) with
  | Some m => _updateRenderMode (Some m)
  | None => ret tt
  end.

(** The frame of [_appendToBatch] around its loop (lines 1958-1961 and
    2204-2206), the loop body being [body]. *)
Definition appendChildren (body : displayObject -> M unit) (p : props)
    (children : list displayObject) : M unit :=
  let* previousRenderMode := gets _renderMode in
  applyCompositeOperation p ;;;
  forEach body children ;;;
  let* current := gets _renderMode in
  when (negb (String.eqb current previousRenderMode))
       (_updateRenderMode (Some previousRenderMode)).

(** Lines 1980-2001: an item with filters and no cache gets a cache
    generated, after a flush. [define] does not come back into the
    modelled code. *)
Definition autoCache (ignoreCache : bool) (p : props) : M unit :=
  let* directDraw := gets _directDraw in
  if negb directDraw && negb ignoreCache
     && bool_decide (cacheCanvas p = None)
     && match filters p with Some (S _) => true | _ => false end
  then
    let cache := default (mkCache true false 0 0 0 None None None)
                         (bitmapCache_ p) in
    if _autoGenerated cache then
      flush "cachelessFilterInterupt" ;;;
      let* nothing := BitmapCache_define cache (cacheSize p).1 (cacheSize p).2
                        (Z.of_nat (default 0%nat (filters p))) in
      match nothing : Empty_set with end
    else ret tt
  else ret tt.

(** Lines 2036-2050: the image a card is drawn from; [None] where the
    loop [continue]s. *)
Definition cardSource (item : displayObject) (useCache : option imgref)
  : option imgref :=
  match useCache, item with
  | Some c, _ => Some c
  | None, Bitmap _ image _ => image
  | None, Sprite _ _ _ (Some f) => f_image f
  | None, Sprite _ _ _ None => None
  | None, _ => None
  end.

(** Lines 2073-2117: the UV rectangle of the card, for the image [img]
    it is drawn from. A cached item is drawn whole, after its
    [bitmapCache] has been read for the position; so is a Bitmap without
    [sourceRect]. A Sprite takes the rectangle its frame holds, or has
    the rectangles of its sheet built. An item that is neither cached,
    nor a Bitmap, nor a Sprite has got no image above and does not come
    here. *)
Definition cardUVRect (item : displayObject) (useCache : option imgref)
    (img : image) : M uvRect :=
  match useCache, item with
  | Some _, _ =>
    match bitmapCache_ (propsOf item) with
    | Some _ => ret UV_RECT
    | None => throw (TypeError "src.x")
    end
  | None, Bitmap _ _ (Some src) =>
    ret (sourceRectUV src (i_width img) (i_height img))
  | None, Bitmap _ _ None => ret UV_RECT
  | None, Sprite _ frames currentFrame (Some f) =>
    match f_uvRect f with
    | Some r => ret r
    | None =>
      let* r := buildUVRects frames currentFrame in
      match r with
      | Some r => ret r
      | None => throw (TypeError "uvRect.l")
      end
    end
  | None, _ => throw (TypeError "uvRect.l")
  end.

(** Lines 2052-2069: the texture of an image; [None] where the loop
    [continue]s. *)
Definition resolveTexture (image : imgref) : M (option texref) :=
  let* img := getImage image in
  match i_storeID img with
  | None =>
    let* texture := _loadTextureImage image in
    match texture with
    | None => throw (TypeError "texture._activeIndex")
    | Some t => ret (Some t)
    end
  | Some id =>
    let* texture := gets (fun st => dictLookup st (Some id)) in
    match texture with
    | None => ret None
    | Some t =>
      let* x := getTexture t in
      let* batchID := gets _batchID in
      when (negb (bool_decide (t_batchID x = Some batchID)))
           (_insertTextureInBatch t) ;;;
      ret (Some t)
    end
  end.

(** Lines 2014-2018. *)
Definition flushOnVertexOverflow : M unit :=
  let* st := gets (fun st => st) in
  when (_batchVertexCount st + INDICIES_PER_CARD >? _maxBatchVertexCount st)
       (flush "vertexOverflow").

(** Lines 2119-2192: the six vertices of the card go into the attribute
    arrays at the cursor, which then advances. *)
Definition writeCard (uvRect_ : uvRect) (texIndex : option Z) (cardAlpha : Q)
  : M unit :=
  let* st := gets (fun st => st) in
  log (WriteCard (_activeConfig st) (_batchVertexCount st) (cardUVs uvRect_)
         texIndex cardAlpha (_renderMode st)) ;;;
  modify (fun st => set_batchVertexCount
                      (_batchVertexCount st + INDICIES_PER_CARD) st).

(** Lines 2009-2201: an item drawn as one card. *)
Definition appendCard (item : displayObject) (useCache : option imgref)
    (itemAlpha concatAlpha : Q) : M unit :=
  let* containerRenderMode := gets _renderMode in
  applyCompositeOperation (propsOf item) ;;;
  flushOnVertexOverflow ;;;
  match cardSource item useCache with
  | None => ret tt
  | Some image =>
    let* texture := resolveTexture image in
    match texture with
    | None => ret tt
    | Some t =>
      let* x := getTexture t in
      let texIndex := t_activeIndex x in
      let* drawID := gets _drawID in
      updImage image (set_i_drawID (Some drawID)) ;;;
      let* img := getImage image in
      let* uvRect_ := cardUVRect item useCache img in
      writeCard uvRect_ texIndex (itemAlpha * concatAlpha) ;;;
      let* immediateRender := gets _immediateRender in
      when immediateRender
           (modify (set_activeConfig cfg_default) ;;; _immediateBatchRender) ;;;
      let* current := gets _renderMode in
      when (negb (String.eqb current containerRenderMode))
           (_updateRenderMode (Some containerRenderMode))
    end
  end.

(** The body of the loop of [_appendToBatch] for one child. The
    recursive call [this._appendToBatch(item, cMtx, itemAlpha *
    concatAlpha)] passes no [ignoreCache]. *)
Fixpoint appendItem (concatAlpha : Q) (ignoreCache : bool)
    (item : displayObject) {struct item} : M unit :=
  let p := propsOf item in
  let useCache := if ignoreCache then None else cacheCanvas p in
  if negb (visible p && alphaVisible concatAlpha) then ret tt
  else
    let itemAlpha := item_alpha p in
    when (bool_decide (useCache = None)) (autoCache ignoreCache p) ;;;
    match useCache, item with
    | None, Container _ children =>
      appendChildren (appendItem (itemAlpha * concatAlpha) false) p children
    | _, _ => appendCard item useCache itemAlpha concatAlpha
    end.

Definition _appendToBatch (container : displayObject) (concatAlpha : Q)
    (ignoreCache : bool) : M unit :=
  match container with
  | Container p children =>
    appendChildren (appendItem concatAlpha ignoreCache) p children
  | _ => throw (TypeError "container.children.length")
  end.

(** [_drawContent(content, ignoreCache)] (lines 1857-1869). *)
Definition _drawContent (content : displayObject) (ignoreCache : bool)
  : M unit :=
  modify (fun st => set_activeShader (_mainShader st) st) ;;;
  let* out := gets _batchTextureOutput in
  match out with
  | None => throw (TypeError "_batchTextureOutput._frameBuffer")
  | Some _ =>
    let* a := gets alpha in
    _appendToBatch content a ignoreCache ;;;
    flush "contentEnd"
  end.

(** [draw(context, ignoreCache)] (lines 736-786) on the stage's own
    WebGL context, that is past the test of line 739 (any other context
    is handed to [super.draw], outside this file); [content] is the stage
    as a container. Clearing the canvas only concerns the context. *)
Definition draw (content : displayObject) (ignoreCache : bool) : M unit :=
  let* storeBatchOutput := gets _batchTextureOutput in
  let* storeBatchConcat := gets _batchTextureConcat in
  let* storeBatchTemp := gets _batchTextureTemp in
  modify (set_renderPerDraw 0) ;;;
  modify (set_batchVertexCount 0) ;;;
  modify (fun st => set_drawID (_drawID st + 1) st) ;;;
  let* directDraw := gets _directDraw in
  (if directDraw then modify (set_batchTextureOutput (Some TargetStage))
   else
     modify (fun st => set_batchTextureOutput (_bufferTextureOutput st) st) ;;;
     modify (fun st => set_batchTextureConcat (_bufferTextureConcat st) st) ;;;
     modify (fun st => set_batchTextureTemp (_bufferTextureTemp st) st)) ;;;
  _updateRenderMode (Some "source-over"%string) ;;;
  _drawContent content ignoreCache ;;;
  when (negb directDraw)
    (modify (set_batchReason "finalOutput") ;;;
     let* renders := gets _renderPerDraw in
     when (negb (renders =? 0)) _drawCover) ;;;
  modify (fun st => set_bufferTextureOutput (_batchTextureOutput st) st) ;;;
  modify (fun st => set_bufferTextureConcat (_batchTextureConcat st) st) ;;;
  modify (fun st => set_bufferTextureTemp (_batchTextureTemp st) st) ;;;
  modify (set_batchTextureOutput storeBatchOutput) ;;;
  modify (set_batchTextureConcat storeBatchConcat) ;;;
  modify (set_batchTextureTemp storeBatchTemp) ;;;
  let* st := gets (fun st => st) in
  when (negb (_autoPurge st =? -1)
        && match JS.rem (_drawID st) (JS.half_int32 (_autoPurge st)) with
           | Some r => r =? 0
           | None => true
           end)
       (purgeTextures (Some (_autoPurge st))).

(** [_initializeWebGL()] (lines 648-690) once [_fetchWebGLContext] has
    returned a context for the canvas. *)
Definition _initializeWebGL (canvasWidth canvasHeight : Z) : M unit :=
  _initMaterials ;;;
  _updateRenderMode (Some "source-over"%string) ;;;
  updateViewport canvasWidth canvasHeight ;;;
  let* st := gets (fun st => st) in
  when (negb (_directDraw st))
    (let* t := getRenderBufferTexture (_viewportWidth st)
                 (_viewportHeight st) in
     modify (set_bufferTextureOutput (TargetTexture <$> t))).

(** The capacity of the vertex arrays the constructor derives from the
    [batchSize] option (lines 264-272), for an option that is an integer
    (the option is not validated: another number gives six times its
    clamped value, which need not be a multiple of six). *)
Definition maxBatchVertexCountOf (batchSize : Z) : Z :=
  INDICIES_PER_CARD *
  Z.max (Z.min batchSize DEFAULT_MAX_BATCH_SIZE) DEFAULT_MIN_BATCH_SIZE.

(** *** Vocabulary of the properties *)

(** The sampler count after [k] halvings. *)
Fixpoint halved (n : Z) (k : nat) : Z :=
  match k with
  | O => n
  | S k' => halved (JS.half_int32 n) k'
  end.

(** [P] holds after [m] whenever it holds before, whether [m] returns
    or throws. *)
Definition preserves {A} (P : stage -> Prop) (m : M A) : Prop :=
  forall st, P st -> P (exec m st).

(** The number of cards written, by the log. *)
Fixpoint cardCount (l : list gl_event) : nat :=
  match l with
  | [] => O
  | WriteCard _ _ _ _ _ _ :: r => S (cardCount r)
  | _ :: r => cardCount r
  end.

(** What no method called while drawing changes: the host, the options
    of the constructor, the capacity, the sampler count and the tables
    filled by [_initMaterials]; and no built shader is forgotten. *)
Definition stable (st0 st : stage) : Prop :=
  host st = host st0 /\ alpha st = alpha st0
  /\ _autoPurge st = _autoPurge st0 /\ _directDraw st = _directDraw st0
  /\ _maxBatchVertexCount st = _maxBatchVertexCount st0
  /\ _mainShader st = _mainShader st0
  /\ _gpuTextureCount st = _gpuTextureCount st0
  /\ _batchTextureCount st = _batchTextureCount st0
  /\ _baseTextures st = _baseTextures st0
  /\ _slotBlacklist st = _slotBlacklist st0
  /\ length (_batchTextures st) = length (_batchTextures st0)
  /\ _builtShaders st0 ⊆ _builtShaders st.

(** [stable], and no card was written. *)
Definition quiet (st0 st : stage) : Prop :=
  stable st0 st /\ cardCount (gl_log st) = cardCount (gl_log st0).

(** The vertex cursor a log accounts for, from a cursor [c0] before the
    log: a card advances it by six vertices, a flush resets it. *)
Fixpoint cursorOf (c0 : Z) (l : list gl_event) : Z :=
  match l with
  | [] => c0
  | WriteCard _ _ _ _ _ _ :: r => cursorOf c0 r + INDICIES_PER_CARD
  | DrawArrays _ _ _ _ :: _ => 0
  | _ :: r => cursorOf c0 r
  end.

(** The render modes of the cards of the open batch: those written since
    the last flush. *)
Fixpoint pendingModes (l : list gl_event) : list string :=
  match l with
  | [] => []
  | WriteCard _ _ _ _ _ mode :: r => mode :: pendingModes r
  | DrawArrays _ _ _ _ :: _ => []
  | _ :: r => pendingModes r
  end.

(** The reasons of the flushes forced while the display list is
    traversed. *)
Definition traversalReasons : list string :=
  ["vertexOverflow"; "textureOverflow"; "shaderSwap";
   "cachelessFilterInterupt"; "immediatePrep"]%string.

(** A log (newest first) is that of batching with capacity [C] from a
    cursor [c0]: each card is written at the cursor and fits; each flush
    draws the vertices up to the cursor, which are not none, all of its
    cards were written under the mode it is drawn in, and a flush for
    vertex overflow happens only when one more card would not fit. *)
Fixpoint batchLog (C c0 : Z) (l : list gl_event) : Prop :=
  match l with
  | [] => True
  | WriteCard _ v _ _ _ _ :: r =>
    v = cursorOf c0 r /\ v + INDICIES_PER_CARD <= C /\ batchLog C c0 r
  | DrawArrays reason _ mode n :: r =>
    n = cursorOf c0 r /\ 0 < n
    /\ Forall (fun m => m = mode) (pendingModes r)
    /\ reason ∈ traversalReasons
    /\ (reason = "vertexOverflow"%string -> C < n + INDICIES_PER_CARD)
    /\ batchLog C c0 r
  | _ :: r => batchLog C c0 r
  end.

(** The invariant of the traversal, for a capacity [C], the cursor [c0]
    and the log [log0] it starts from: the log since then is a batching
    log, the cursor is the one it accounts for and leaves room for [room]
    more vertices, and the cards of the open batch were written under the
    current render mode. *)
Definition BatchInv (C c0 : Z) (log0 : list gl_event) (room : Z)
    (st : stage) : Prop :=
  INDICIES_PER_CARD <= C /\ 0 <= c0 <= C /\ 0 <= room <= INDICIES_PER_CARD
  /\ _maxBatchVertexCount st = C
  /\ exists new,
       gl_log st = new ++ log0
       /\ batchLog C c0 new
       /\ _batchVertexCount st = cursorOf c0 new
       /\ _batchVertexCount st + room <= C
       /\ Forall (fun m => m = _renderMode st) (pendingModes new).

(** Events that neither write a card nor draw a batch. *)
Definition noteEvent (e : gl_event) : Prop :=
  match e with
  | WriteCard _ _ _ _ _ _ | DrawArrays _ _ _ _ => False
  | _ => True
  end.

(** *** Instances *)

(** The fields of a new instance as the constructor sets them (lines
    146-511), before [_initializeWebGL]; [sources] are the image objects
    of the page. The stage's own alpha is 1, the default of a display
    object. *)
Definition newStage (h : hostEnv) (directDraw : bool) (batchSize : Z)
    (autoPurge : Z) (sources : list image) : stage :=
  {| host := h; alpha := 1; _autoPurge := autoPurge;
     _directDraw := directDraw; isCacheControlled := false;
     _maxBatchVertexCount := maxBatchVertexCountOf batchSize;
     _viewportWidth := 0; _viewportHeight := 0;
     _activeShader := None; _mainShader := None;
     _activeConfig := cfg_default;
     _bufferTextureOutput := None; _bufferTextureConcat := None;
     _bufferTextureTemp := None;
     _batchTextureOutput := Some TargetStage;
     _batchTextureConcat := None; _batchTextureTemp := None;
     _builtShaders := ∅; _textureDictionary := []; _textureIDs := ∅;
     _batchTextures := []; _baseTextures := [];
     _gpuTextureCount := 8; _gpuTextureMax := 8; _batchTextureCount := 0;
     _lastTextureInsert := -1; _renderMode := ""; _immediateRender := false;
     _batchVertexCount := 0; _batchID := 0; _drawID := 0;
     _renderPerDraw := 0; _slotBlacklist := []; _lastTrackedCanvas := -1;
     batchReason := ""; textures := []; images := sources; gl_log := [] |}.

(** [new StageGL(canvas, options)] on a canvas that yields a WebGL
    context. *)
Definition construct (h : hostEnv) (directDraw : bool) (batchSize : Z)
    (autoPurge : Z) (sources : list image) (canvasWidth canvasHeight : Z)
  : outcome unit * stage :=
  _initializeWebGL canvasWidth canvasHeight
    (newStage h directDraw batchSize autoPurge sources).

(** Modelled from the spec: the table [shaders.blendSources] of
    [../gl/shaders], which is not among the sources. The spec gives
    [source-over] as the default that needs no special blending, and
    [multiply] and [screen] as modes that require a cover program mixing
    two textures; a mode of the other kind, which only changes the
    fixed-function blend factors, stands here under the name [lighter]. *)
Definition specBlendSources : gmap string blendSource :=
  list_to_map
    [("source-over", mkBlendSource None);
     ("lighter", mkBlendSource None);
     ("multiply", mkBlendSource (Some "multiply"));
     ("screen", mkBlendSource (Some "screen"))]%string.

(** A host with eight texture units whose shaders all compile. *)
Definition demoHost : hostEnv :=
  {| blendSources := specBlendSources;
     MAX_TEXTURE_IMAGE_UNITS := 8;
     MAX_COMBINED_TEXTURE_IMAGE_UNITS := 8;
     batchShaderCompiles := fun _ => true;
     coverShaderCompiles := fun _ => true;
     contextLost := false;
     globalObject := ∅ |}.

(** A loaded [<img>] of 64 by 32 pixels. *)
Definition loadedImage (src : string) : image :=
  mkImage (ImageElement src) 64 32 true false None None None.

Definition plainProps (itemAlpha : Q) (mode : option string) : props :=
  mkProps true itemAlpha mode None None None (0, 0).

(** A Bitmap of the image [i] with the given alpha and
    [compositeOperation]. *)
Definition bitmapOf (i : imgref) (itemAlpha : Q) (mode : option string)
  : displayObject :=
  Bitmap (plainProps itemAlpha mode) (Some i) None.

(** The stage of the examples, built with [directDraw] as given and the
    least batch size (170 cards), over [n] loaded images. *)
Definition demoStage (directDraw : bool) (n : nat) : stage :=
  (construct demoHost directDraw 170 1200
     (map (fun k => loadedImage ("img" ++ pretty (Z.of_nat k)))
          (seq 0 n)) 640 480).2.

(** The stage as the container of the [children]. *)
Definition sceneOf (children : list displayObject) : displayObject :=
  Container (plainProps 1 None) children.

(** The draws of a log, oldest first: reason, render mode and vertex
    count of each. *)
Definition drawsOf (l : list gl_event) : list (string * string * Z) :=
  omap (fun e => match e with
                 | DrawArrays reason _ mode n => Some (reason, mode, n)
                 | _ => None
                 end) (rev l).

(** The cards of a log, oldest first: first vertex, alpha and render
    mode of each. *)
Definition cardsOf (l : list gl_event) : list (Z * Q * string) :=
  omap (fun e => match e with
                 | WriteCard _ v _ _ a mode => Some (v, a, mode)
                 | _ => None
                 end) (rev l).

(** The instance once the batch shader compiled with [c] samplers. *)
Definition compiled (c : Z) (st : stage) : stage :=
  set_activeShader (Some (BatchProgram c)) (set_batchTextureCount c st).

(** What the retry loop of [_initMaterials] does from [st], as a
    relation to its outcome: [k] times the compilation fails with a count
    above 1 and the count is halved; then either the compilation
    succeeds and that count stays, or it fails with a count of at most 1
    and the loop throws. *)
Definition loopOutcome (st : stage) (r : outcome unit * stage) : Prop :=
  let n := _batchTextureCount st in
  let compiles := batchShaderCompiles (host st) in
  exists k,
    (forall j, (j < k)%nat -> compiles (halved n j) = false /\ 1 < halved n j)
    /\ ((compiles (halved n k) = true
         /\ r = (Return tt, compiled (halved n k) st))
        \/ (compiles (halved n k) = false /\ halved n k <= 1
            /\ r = (Throw (Thrown "Cannot compile shader"),
                    set_batchTextureCount (halved n k) st))).

(** The global object has no property [w]. *)
Definition unbound_w (st : stage) : Prop :=
  globalObject (host st) !! "w"%string = None.

(** A stage without [directDraw] on such a host. *)
Definition noRenderTarget (st : stage) : Prop :=
  unbound_w st /\ _directDraw st = false.

(** The rest of [_initMaterials], after the loop. *)
Definition initMaterials_rest : M unit :=
  modify (fun st => set_mainShader (_activeShader st) st) ;;;
  let* texture := getBaseTexture None None in
  match texture with
  | None => throw (Thrown "Problems creating basic textures")
  | Some t =>
    updTexture t (set_t_storeID (Some (-1))) ;;;
    let* n := gets _batchTextureCount in
    modify (set_baseTextures (replicate (Z.to_nat n) t)) ;;;
    modify (set_batchTextures (replicate (Z.to_nat n) t))
  end.

(** A slot may be taken over: its occupant was not used in the current
    batch and the slot is not blacklisted. *)
Definition eligible (st : stage) (look : Z) : bool :=
  match at_index (_batchTextures st) (Some look) with
  | Some occupant =>
    match textures st !! occupant with
    | Some o =>
      negb (bool_decide (t_batchID o = Some (_batchID st)))
      && negb (blacklisted st look)
    | None => false
    end
  | None => false
  end.

(** The slots in round-robin order from the one after the last
    insertion: [(last + 1) mod n], then on, wrapping around. *)
Definition roundRobin (st : stage) : list Z :=
  let n := _batchTextureCount st in
  map (fun j => (_lastTextureInsert st + 1 + Z.of_nat j) mod n)
      (seq 0 (Z.to_nat n)).

(** The slot the search is specified to find: the first eligible one in
    round-robin order, if there is one. *)
Definition roundRobinChoice (st : stage) : option Z :=
  find (fun look => eligible st look) (roundRobin st).

(** The instance after a flush that draws, with [prog] as the active
    shader. *)
Definition flushed (reason : string) (prog : program) (st : stage) : stage :=
  let st1 := set_renderPerDraw (_renderPerDraw st + 1)
               (set_batchReason reason st) in
  set_batchID (_batchID st + 1)
    (set_batchVertexCount 0
       (set_gl_log
          (DrawArrays reason (Some prog) (_renderMode st)
             (_batchVertexCount st) :: gl_log st) st1)).

(** What refreshing the image data of a texture leaves alone: the slot
    table and the counters, the slot index recorded on a texture [t], and
    the events already logged. *)
Definition slotView (st0 : stage) (t : texref) (index : option Z)
    (st : stage) : Prop :=
  _batchTextures st = _batchTextures st0
  /\ _batchID st = _batchID st0 /\ _drawID st = _drawID st0
  /\ _lastTextureInsert st = _lastTextureInsert st0
  /\ _batchVertexCount st = _batchVertexCount st0
  /\ (exists x, textures st !! t = Some x /\ t_activeIndex x = index)
  /\ (forall e, e ∈ gl_log st0 -> e ∈ gl_log st).

(** *** The texture registry and its purge *)

(** The texture registered under the store id [i], if any. *)
Definition registered (st : stage) (i : nat) : option texref :=
  mjoin (_textureDictionary st !! i).

(** The test of line 953 on the image [item] of the store. *)
Definition expiredRef (count : Z) (st : stage) (item : imgref) : bool :=
  match images st !! item with
  | Some img => expired count (_drawID st) img
  | None => false
  end.

(** The sources of a list that the test of line 953 leaves attached. *)
Definition keptSources (count : Z) (st : stage) (data : list imgref)
  : list imgref :=
  List.filter (fun item => negb (expiredRef count st item)) data.

(** The images [imgs] are [imgs0] but for the [_storeID] of expired
    images of [data], which is undefined. *)
Definition cleared (count drawID : Z) (data : list imgref)
    (imgs0 imgs : list image) : Prop :=
  length imgs = length imgs0
  /\ forall item img, imgs0 !! item = Some img ->
       imgs !! item = Some img
       \/ (imgs !! item = Some (set_i_storeID None img)
           /\ item ∈ data /\ expired count drawID img = true).

(** The registry as [_loadTextureImage] keeps it: a registered texture
    is in the store under the id it is registered with, and its sources
    are images of the store. *)
Definition registryOK (st : stage) : Prop :=
  forall i t, registered st i = Some t ->
    exists x, textures st !! t = Some x /\ t_storeID x = Some (Z.of_nat i)
      /\ forall data item, t_imageData x = Some data -> item ∈ data ->
           is_Some (images st !! item).

(** The texture [t] is registered under [i] with the source list [data]. *)
Definition attached (st : stage) (i : nat) (t : texref)
    (data : list imgref) : Prop :=
  registered st i = Some t
  /\ exists x, textures st !! t = Some x /\ t_imageData x = Some data.

(** What a purge has done, in [st], with the entry [i] of [st0]: the
    sources that are not expired stay attached, in order; the texture is
    unregistered and deleted when none stays; the expired sources have no
    [_storeID]. *)
Definition purged (count : Z) (st0 st : stage) (i : nat) (t : texref)
    (data : list imgref) : Prop :=
  (keptSources count st0 data <> [] ->
   attached st i t (keptSources count st0 data))
  /\ (keptSources count st0 data = [] ->
      registered st i = None /\ DeleteTexture t ∈ gl_log st
      /\ exists x', textures st !! t = Some x' /\ t_imageData x' = None
           /\ t_deleted x' = true)
  /\ (forall item, item ∈ data -> expiredRef count st0 item = true ->
      exists img, images st !! item = Some img /\ i_storeID img = None).

(** The images of [st] are those of [st0], but that expired sources of
    registered textures may have lost their [_storeID]. *)
Definition sourcesCleared (count : Z) (st0 st : stage) : Prop :=
  length (images st) = length (images st0)
  /\ forall item img, images st0 !! item = Some img ->
       images st !! item = Some img
       \/ (images st !! item = Some (set_i_storeID None img)
           /\ expired count (_drawID st0) img = true
           /\ exists i t data, attached st0 i t data /\ item ∈ data).

(** The events of [st] are those of [st0] and the deletion of textures
    registered in [st0] that no source stays attached to. *)
Definition deletionsOnly (count : Z) (st0 st : stage) : Prop :=
  (forall e, e ∈ gl_log st0 -> e ∈ gl_log st)
  /\ forall e, e ∈ gl_log st -> e ∈ gl_log st0
       \/ exists i t data, e = DeleteTexture t /\ attached st0 i t data
            /\ keptSources count st0 data = [].

(** The outer loop of [purgeTextures] before the entry [k]. *)
Definition PurgeInv (count : Z) (st0 : stage) (k : nat) (st : stage)
  : Prop :=
  _drawID st = _drawID st0
  /\ length (_textureDictionary st) = length (_textureDictionary st0)
  /\ sourcesCleared count st0 st
  /\ deletionsOnly count st0 st
  /\ (forall j, (k <= j)%nat ->
        _textureDictionary st !! j = _textureDictionary st0 !! j)
  /\ (forall j t, (k <= j)%nat -> registered st0 j = Some t ->
        textures st !! t = textures st0 !! t)
  /\ (forall j t, registered st0 j = Some t ->
        registered st j = Some t
        \/ exists data, attached st0 j t data
             /\ keptSources count st0 data = [])
  /\ (forall j t data, (j < k)%nat -> attached st0 j t data ->
        purged count st0 st j t data).

(** Every texture registered in [st] is registered, under the same id,
    in [st0]. *)
Definition registryWithin (st0 st : stage) : Prop :=
  forall i t, registered st i = Some t -> registered st0 i = Some t.

(** The stage of the examples after two draws: both of two bitmaps in
    the first, only the first of them in the second. *)
Definition twoDraws : stage :=
  exec (draw (sceneOf [bitmapOf 0 1 None]) false)
    (exec (draw (sceneOf [bitmapOf 0 1 None; bitmapOf 1 1 None]) false)
       (demoStage true 2)).

(** [registryOK], decided. *)
Definition registryOKb (st : stage) : bool :=
  forallb
    (fun i =>
       match registered st i with
       | None => true
       | Some t =>
         match textures st !! t with
         | None => false
         | Some x =>
           bool_decide (t_storeID x = Some (Z.of_nat i))
           && forallb (fun item => bool_decide (is_Some (images st !! item)))
                      (default [] (t_imageData x))
         end
       end)
    (seq 0 (length (_textureDictionary st))).

(** *** Counting batches *)

(** The number of batches drawn, by the log. *)
Fixpoint drawCount (l : list gl_event) : nat :=
  match l with
  | [] => O
  | DrawArrays _ _ _ _ :: r => S (drawCount r)
  | _ :: r => drawCount r
  end.

(** The vertices drawn, over the batches of the log. *)
Fixpoint vertexSum (l : list gl_event) : Z :=
  match l with
  | [] => 0
  | DrawArrays _ _ _ n :: r => n + vertexSum r
  | _ :: r => vertexSum r
  end.

(** [ceil(a / b)] on integers, for a positive [b]. *)
Definition ceilDiv (a b : Z) : Z := (a + b - 1) / b.

(** 171 bitmaps over nine images in turn: one card more than the least
    capacity holds, and one image more than the stage of the examples
    has texture slots. *)
Definition nineImageScene : displayObject :=
  sceneOf (map (fun k => bitmapOf (k mod 9) 1 None) (seq 0 171)).

(** *** Render modes *)

(** The render mode of the instance is one [_updateRenderMode] can switch
    back to: it is in the table of blend sources, its shader data is
    built, and it is not an immediate mode on a [directDraw] stage. *)
Definition modeRestorable (st : stage) : Prop :=
  is_Some (blendSources (host st) !! _renderMode st)
  /\ exists d, _builtShaders st !! _renderMode st = Some d
       /\ immediate d && _directDraw st = false.

(** The scenario of three bitmaps of which the second has a
    [compositeOperation]. *)
Definition blendScene (mode : string) : displayObject :=
  sceneOf [bitmapOf 0 1 None; bitmapOf 1 1 (Some mode); bitmapOf 2 1 None].

(** No texture was created, loaded, registered or put into a slot, and
    no image was touched. *)
Definition texturesUntouched (st0 st : stage) : Prop :=
  textures st = textures st0 /\ images st = images st0
  /\ _textureDictionary st = _textureDictionary st0
  /\ _textureIDs st = _textureIDs st0
  /\ _batchTextures st = _batchTextures st0.

(** What only the constructor, [updateViewport] and the start of [draw]
    set: the host and the options, the capacity, the draw counter and the
    size of the viewport. *)
Definition sameFrame (st0 st : stage) : Prop :=
  host st = host st0 /\ alpha st = alpha st0
  /\ _autoPurge st = _autoPurge st0 /\ _directDraw st = _directDraw st0
  /\ _maxBatchVertexCount st = _maxBatchVertexCount st0
  /\ _drawID st = _drawID st0
  /\ _viewportWidth st = _viewportWidth st0
  /\ _viewportHeight st = _viewportHeight st0.

(** The registry is well formed on a host whose context is not lost. *)
Definition registrySound (st : stage) : Prop :=
  contextLost (host st) = false /\ registryOK st.

(** No store id is registered for the texture [t]. *)
Definition unregistered (t : texref) (st : stage) : Prop :=
  forall k, registered st k <> Some t.

(** The registry is sound and does not hold the texture [t]. *)
Definition soundWithout (t : texref) (st : stage) : Prop :=
  registrySound st /\ unregistered t st.

(** Nothing is registered, on a host whose context is not lost. *)
Definition emptyRegistry (st : stage) : Prop :=
  contextLost (host st) = false /\ _textureDictionary st = [].

(** The calls of a client on an instance; a draw comes with the display
    list the stage has at the time of the call. *)
Inductive stageCall : Type :=
  | CallDraw (content : displayObject) (ignoreCache : bool)
  | CallPurgeTextures (count : option Z)
  | CallUpdateViewport (width height : Z).

Definition perform (c : stageCall) : M unit :=
  match c with
  | CallDraw content ignoreCache => draw content ignoreCache
  | CallPurgeTextures count => purgeTextures count
  | CallUpdateViewport width height => updateViewport width height
  end.

(** The instance after the calls, each made whether or not the one
    before it returned. *)
Definition afterCalls (calls : list stageCall) (st : stage) : stage :=
  foldl (fun st c => exec (perform c) st) st calls.

(** *** Colours: [colorToObj] (lines 578-611) *)

(** [ToUint32] on an integer. *)
Definition toUint32 (z : Z) : Z := z mod 2 ^ 32.

(** [a & b] on integer Numbers: both sides go through [ToInt32]. *)
Definition bitAnd (a b : Z) : Z := Z.land (JS.toInt32 a) (JS.toInt32 b).

(** [a >>> n]: the left side goes through [ToUint32], the count is taken
    modulo 32. *)
Definition unsignedShiftRight (a n : Z) : Z :=
  Z.shiftr (toUint32 a) (n mod 32).

(** [v / 255] on a number. *)
Definition over255 (v : JS.number) : JS.number :=
  match v with
  | JS.Finite q => JS.Finite (q / 255)
  | other => other
  end.

(** The white space [Number(string)] strips, among the code units below
    256: TAB, LF, VT, FF, CR, SP and NBSP. *)
Definition isWhiteSpace (c : ascii) : bool :=
  let n := nat_of_ascii c in
  ((9 <=? n) && (n <=? 13) || (n =? 32) || (n =? 160))%nat.

Definition hexDigit (c : ascii) : option Z :=
  let n := Z.of_nat (nat_of_ascii c) in
  if (48 <=? n) && (n <=? 57) then Some (n - 48)
  else if (65 <=? n) && (n <=? 70) then Some (n - 55)
  else if (97 <=? n) && (n <=? 102) then Some (n - 87)
  else None.

(** The value of a string of hexadecimal digits, after [acc]. *)
Fixpoint hexDigits (acc : Z) (s : string) : option Z :=
  match s with
  | EmptyString => Some acc
  | String c r =>
    match hexDigit c with
    | Some d => hexDigits (16 * acc + d) r
    | None => None
    end
  end.

(** A string without the white space at its end. *)
Fixpoint trimEnd (s : string) : string :=
  match s with
  | EmptyString => EmptyString
  | String c r =>
    match trimEnd r with
    | EmptyString => if isWhiteSpace c then EmptyString
                     else String c EmptyString
    | r' => String c r'
    end
  end.

(** [Number(`0x${s}`)] for a string [s] of code units below 256: the
    string is stripped of the white space around it, which the prefix
    leaves only at its end, and is then to be [0x] and at least one
    hexadecimal digit. *)
Definition Number_0x (s : string) : JS.number :=
  match trimEnd s with
  | EmptyString => JS.NaN
  | t =>
    match hexDigits 0 t with
    | Some v => JS.of_Z v
    | None => JS.NaN
    end
  end.

(** [color.charAt(i)] *)
Definition charAt (i : nat) (s : string) : string := substring i 1 s.

(** [color.slice(i, j)] for [0 <= i <= j]. *)
Definition slice (i j : nat) (s : string) : string := substring i (j - i) s.

(** The argument of [colorToObj]: a string of code units below 256, or
    an integer Number. *)
Inductive colour : Type :=
  | StringColour (color : string)
  | NumberColour (color : Z).

Record colourObj : Type := mkColour {
  c_r : JS.number; c_g : JS.number; c_b : JS.number; c_a : JS.number
}.

(** [Math.min(Math.max(0, v), 1)] *)
Definition clampUnit (v : JS.number) : JS.number :=
  JS.Math_min (JS.Math_max (JS.of_Z 0) v) (JS.of_Z 1).

(** [StageGL.colorToObj(color)]. The result is [None] for a string that
    starts with [rgba(], whose decimal fields are not modelled. A string
    of another form leaves the four components undefined, which
    [Math.max] turns into [NaN]. *)
Definition colorToObj (color : colour) : option colourObj :=
  let out r g b a :=
    Some (mkColour (clampUnit r) (clampUnit g) (clampUnit b) (clampUnit a)) in
  match color with
  | StringColour color =>
    if String.prefix "#" color then
      let color :=
        if (String.length color =? 4)%nat then
          ("#" ++ charAt 1 color ++ charAt 1 color ++ charAt 2 color
               ++ charAt 2 color ++ charAt 3 color ++ charAt 3 color)%string
        else color in
      out (over255 (Number_0x (slice 1 3 color)))
          (over255 (Number_0x (slice 3 5 color)))
          (over255 (Number_0x (slice 5 7 color)))
          (if (7 <? String.length color)%nat
           then over255 (Number_0x (slice 7 9 color))
           else JS.of_Z 1)
    else if String.prefix "rgba(" color then None
    else out JS.NaN JS.NaN JS.NaN JS.NaN
  | NumberColour color =>
    out (over255 (JS.of_Z (unsignedShiftRight (bitAnd color 0xFF000000) 24)))
        (over255 (JS.of_Z (unsignedShiftRight (bitAnd color 0x00FF0000) 16)))
        (over255 (JS.of_Z (unsignedShiftRight (bitAnd color 0x0000FF00) 8)))
        (over255 (JS.of_Z (bitAnd color 0x000000FF)))
  end.

(** The byte [k] of an integer, counted from the least significant. *)
Definition byteOf (k : Z) (n : Z) : Z := (n / 2 ^ (8 * k)) mod 256.

(** The colour object of the bytes [r], [g], [b] and [a]. *)
Definition colourOfBytes (r g b a : Z) : colourObj :=
  mkColour (JS.Finite (inject_Z r / 255)) (JS.Finite (inject_Z g / 255))
           (JS.Finite (inject_Z b / 255)) (JS.Finite (inject_Z a / 255)).

(** *** Sources sharing a texture *)

(** The source path [src] is registered under the store id [id] for the
    texture [t], whose sources are the images [data], each of which
    carries the id. *)
Definition sourceTracked (src : string) (id : Z) (t : texref)
    (data : list imgref) (st : stage) : Prop :=
  _textureIDs st !! src = Some id
  /\ dictLookup st (Some id) = Some t
  /\ (exists x, textures st !! t = Some x /\ t_storeID x = Some id
        /\ t_imageData x = Some data)
  /\ forall i, i ∈ data ->
       exists img, images st !! i = Some img /\ i_storeID img = Some id.

(** [sourceTracked] in a store of [n] textures. *)
Definition trackedAmong (n : nat) (src : string) (id : Z) (t : texref)
    (data : list imgref) (st : stage) : Prop :=
  sourceTracked src id t data st /\ length (textures st) = n.

(** A stage over two image elements of the same [src]. *)
Definition sharedStage : stage :=
  exec (_initializeWebGL 640 480)
    (newStage demoHost true 170 1200 [loadedImage "a"; loadedImage "a"]).

(** *** Images that are no source *)

(** The image [i] is neither an image element with a [src] nor a canvas,
    and has no store id. *)
Definition noSource (i : imgref) (st : stage) : Prop :=
  exists img, images st !! i = Some img /\ i_storeID img = None
    /\ (i_kind img = ImageElement "" \/ i_kind img = OtherSource).

(** The same on a stage of alpha [a]. *)
Definition unloadable (i : imgref) (a : Q) (st : stage) : Prop :=
  alpha st = a /\ noSource i st.

(** A stage over an image element with a [src] and one without. *)
Definition srclessStage : stage :=
  exec (_initializeWebGL 640 480)
    (newStage demoHost true 170 1200 [loadedImage "a"; loadedImage ""]).

(** The call does not return. *)
Definition neverReturns {A} (m : M A) (st : stage) : Prop :=
  exists e, result m st = Throw e.

(** *** A stage that renders through a buffer *)

(** The stage is not [directDraw], has no buffer to render into, and
    the global object of its host has no [w]. *)
Definition bufferless (st : stage) : Prop :=
  _directDraw st = false /\ _bufferTextureOutput st = None
  /\ globalObject (host st) !! "w"%string = None.

(** The same while a draw runs: the buffer is the batch output. *)
Definition bufferlessDraw (st : stage) : Prop :=
  bufferless st /\ _batchTextureOutput st = None.

(** The call does not return and leaves a state in [P]. *)
Definition throwsKeeping {A} (P : stage -> Prop) (m : M A) (st : stage)
  : Prop :=
  P (exec m st) /\ neverReturns m st.

(** *** Releasing textures by hand: [releaseTexture] (lines 875-931) *)

(** The items of [releaseTexture] modelled: a texture, an image or
    canvas element (whose [children] hold no display object), or a
    Bitmap that has an image and no cache. *)
Inductive releaseItem : Type :=
  | ReleaseTexture (t : texref)
  | ReleaseImage (i : imgref)
  | ReleaseBitmap (image : imgref).

(** [index = data.indexOf(foundImage); if (index >= 0) data.splice(index, 1)] *)
Fixpoint removeFirst (i : imgref) (data : list imgref) : list imgref :=
  match data with
  | [] => []
  | j :: r => if decide (j = i) then r else j :: removeFirst i r
  end.

(** Lines 918-930, for the texture [entry] found under the store id of
    [foundImage]; [found] is the image, or [None] when the object found is
    a texture, which is in no list of sources. *)
Definition releaseFound (found : option imgref) (clearStoreID : M unit)
    (entry : option texref) (safe : bool) : M unit :=
  if safe then
    match entry with
    | None => throw (TypeError "texture._imageData")
    | Some t =>
      let* x := getTexture t in
      match t_imageData x with
      | None => throw (TypeError "data.indexOf")
      | Some data =>
        let data' := match found with
                     | Some i => removeFirst i data
                     | None => data
                     end in
        updTexture t (set_t_imageData (Some data')) ;;;
        clearStoreID ;;;
        when (bool_decide (data' = [])) (_killTextureObject (Some t))
      end
    end
  else _killTextureObject entry.

(** [releaseTexture(item, safe)] for such an item. *)
Definition releaseTexture (item : releaseItem) (safe : bool) : M unit :=
  match item with
  | ReleaseTexture t =>
    let* x := getTexture t in
    match t_storeID x with
    | None => ret tt       (* "No associated texture found on release" *)
    | Some storeID =>
      let* entry := gets (fun st => dictLookup st (Some storeID)) in
      if bool_decide (entry = Some t) then
        _killTextureObject (Some t) ;;;
        updTexture t (set_t_storeID None)
      else
        releaseFound None (updTexture t (set_t_storeID None)) entry safe
    end
  | ReleaseImage i =>
    let* img := getImage i in
    match i_storeID img with
    | None => ret tt       (* "No associated texture found on release" *)
    | Some storeID =>
      let* entry := gets (fun st => dictLookup st (Some storeID)) in
      releaseFound (Some i) (updImage i (set_i_storeID None)) entry safe
    end
  | ReleaseBitmap i =>
    (* no [_storeID] of its own; [_webGLRenderStyle === 2] *)
    let* img := getImage i in
    let* entry := gets (fun st => dictLookup st (i_storeID img)) in
    releaseFound (Some i) (updImage i (set_i_storeID None)) entry safe
  end.

(** The images after [_storeID] is cleared on those of [data], last
    first. *)
Definition clearSources (data : list imgref) (imgs : list image)
  : list image :=
  foldl (fun imgs i => alter (set_i_storeID None) i imgs) imgs (rev data).

(** What [_killTextureObject] leaves of a registered texture [t] of
    store id [id] and sources [data]: the entry and the paths of the id
    are gone, the sources have no store id, and the texture is deleted. *)
Definition killed (id : Z) (t : texref) (data : list imgref)
    (st st' : stage) : Prop :=
  dictLookup st' (Some id) = None
  /\ (forall s, _textureIDs st' !! s <> Some id)
  /\ (forall j, j ∈ data ->
        exists img, images st' !! j = Some img /\ i_storeID img = None)
  /\ (exists x', textures st' !! t = Some x' /\ t_imageData x' = None
        /\ t_storeID x' = None /\ t_deleted x' = true)
  /\ gl_log st' = DeleteTexture t :: gl_log st.

(** The stage over two image elements of the same [src], both loaded. *)
Definition sharedLoaded : stage :=
  (_loadTextureImage 1%nat (_loadTextureImage 0%nat sharedStage).2).2.

(** The stage over two images of the same [src] after the first is
    loaded and then marked invalid again. *)
Definition reflaggedStage : stage :=
  exec (updImage 0 (set_i_invalid (Some true)))
    (_loadTextureImage 0%nat sharedStage).2.

Definition reflaggedImage : image :=
  mkImage (ImageElement "a") 64 32 true false (Some true) (Some 0) None.

Definition reflaggedTexture : texture :=
  mkTexture (Some 64) (Some 32) (Some 0) (Some 0) (Some 0) (Some 0)
    (Some [0%nat]) false false.

(** *** Drawing without the automatic purge *)

(** The textures deleted, by the log. *)
Fixpoint deletions (l : list gl_event) : nat :=
  match l with
  | [] => O
  | DeleteTexture _ :: r => S (deletions r)
  | _ :: r => deletions r
  end.

(** Since [st0] no texture was deleted or unregistered, and the
    automatic purge is off. *)
Definition keepsTextures (st0 st : stage) : Prop :=
  _autoPurge st = -1
  /\ deletions (gl_log st) = deletions (gl_log st0)
  /\ forall i t, registered st0 i = Some t -> registered st i = Some t.

(** The same, with the dictionary [d]. *)
Definition keepsWith (d : list (option texref)) (st0 st : stage) : Prop :=
  keepsTextures st0 st /\ _textureDictionary st = d.

(** A stage of the examples built with [autoPurge: -1], after a draw
    of its first image. *)
Definition unpurgedStage : stage :=
  exec (draw (sceneOf [bitmapOf 0 1 None]) false)
    (exec (_initializeWebGL 640 480)
       (newStage demoHost true 170 (-1) [loadedImage "a"; loadedImage "b"])).

(** *** The slot tables *)

(** The slot tables as [_initMaterials] fills them: one slot for each
    sampler of the batch shader, in [_batchTextures] and in
    [_baseTextures], each holding a texture of the store, and the slot of
    the last insertion is one of them, or -1. *)
Definition slotsOK (st : stage) : Prop :=
  0 < _batchTextureCount st
  /\ length (_batchTextures st) = Z.to_nat (_batchTextureCount st)
  /\ length (_baseTextures st) = Z.to_nat (_batchTextureCount st)
  /\ -1 <= _lastTextureInsert st < _batchTextureCount st
  /\ (forall i occ, _batchTextures st !! i = Some occ ->
        is_Some (textures st !! occ))
  /\ (forall i occ, _baseTextures st !! i = Some occ ->
        is_Some (textures st !! occ)).

(** [slotsOK] with the texture [t] in the store and [k] a slot. *)
Definition slotsFor (t : texref) (k : Z) (st : stage) : Prop :=
  slotsOK st /\ is_Some (textures st !! t)
  /\ 0 <= k < _batchTextureCount st.

(** The sampler count is positive and an int32, and no texture has been
    inserted. *)
Definition samplersOK (st : stage) : Prop :=
  0 < _batchTextureCount st < 2 ^ 31 /\ _lastTextureInsert st = -1.

(** *** Clearing: [clear] (lines 711-723) and [_clearFrameBuffer]
    (lines 1253-1264) *)

(** [v > 0] and [v < 0] on numbers: false for [NaN]. *)
Definition isPositive (v : JS.number) : bool :=
  match v with
  | JS.Finite q => negb (Qle_bool q 0)
  | JS.PosInfinity => true
  | _ => false
  end.

Definition isNegative (v : JS.number) : bool :=
  match v with
  | JS.Finite q => negb (Qle_bool 0 q)
  | JS.NegInfinity => true
  | _ => false
  end.

(** [a * b] on numbers. *)
Definition times (a b : JS.number) : JS.number :=
  match a, b with
  | JS.NaN, _ | _, JS.NaN => JS.NaN
  | JS.Finite x, JS.Finite y => JS.Finite (x * y)
  | JS.Finite x, inf | inf, JS.Finite x =>
    if Qeq_bool x 0 then JS.NaN
    else if isPositive (JS.Finite x) then inf
    else match inf with
         | JS.PosInfinity => JS.NegInfinity
         | _ => JS.PosInfinity
         end
  | JS.PosInfinity, JS.PosInfinity | JS.NegInfinity, JS.NegInfinity =>
    JS.PosInfinity
  | _, _ => JS.NegInfinity
  end.

(** The arguments of the [gl.clearColor] call of [_clearFrameBuffer(alpha)]
    that sets the colour cleared with, for the clear colour [cc]. *)
Definition _clearFrameBuffer (cc : colourObj) (alpha : JS.number)
  : colourObj :=
  let alpha := if isPositive alpha then JS.of_Z 1 else alpha in
  let alpha := if isNegative alpha then JS.of_Z 0 else alpha in
  mkColour (times (c_r cc) alpha) (times (c_g cc) alpha)
           (times (c_b cc) alpha) alpha.

(** [clear()] on an active WebGL context: the colour the canvas is
    cleared with, for a stage built with [transparent] and the clear
    colour [cc]. *)
Definition clear (transparent : bool) (cc : colourObj) : colourObj :=
  _clearFrameBuffer cc (if transparent then c_a cc else JS.of_Z 1).

(** [setClearColor(color)] followed by [clear()]. *)
Definition clearWith (transparent : bool) (color : colour)
  : option colourObj :=
  clear transparent <$> colorToObj color.

(** The three batch targets are [a], [b] and [c]. *)
Definition batchTargets (a b c : option renderTarget) (st : stage) : Prop :=
  _batchTextureOutput st = a /\ _batchTextureConcat st = b
  /\ _batchTextureTemp st = c.

(** *** The UV pairs of the cards *)

Definition imageSize (img : image) : Z * Z := (i_width img, i_height img).

(** The UV pairs of the cards of a log, oldest card first. *)
Definition cardUVsOf (l : list gl_event) : list (list (float * float)) :=
  omap (fun e => match e with
                 | WriteCard _ _ uvs _ _ _ => Some uvs
                 | _ => None
                 end) (rev l).

(** The images have the sizes they have in [st0]. *)
Definition sameSizes (st0 : stage) (imgs : list image) : Prop :=
  imageSize <$> imgs = imageSize <$> images st0.

(** Since [st0] the images have kept [S] and the log has grown by
    events whose cards have UV pairs that satisfy [C]. *)
Definition cardsSince (st0 : stage) (S : list image -> Prop)
    (C : list (list (float * float)) -> Prop) (st : stage) : Prop :=
  S (images st)
  /\ exists new, gl_log st = new ++ gl_log st0 /\ C (cardUVsOf new).

(** The six UV pairs of a card are those of the corners of a rectangle,
    in the order of two triangles that share the diagonal from (l, b) to
    (r, t). *)
Definition cardShaped (uvs : list (float * float)) : Prop :=
  exists l t b r : float,
    uvs = [(l, t); (l, b); (r, t); (l, b); (r, t); (r, b)].

(** The image [i] has no texture yet, or the texture it is registered
    with is in the dictionary. *)
Definition textureKnown (img : image) (st : stage) : Prop :=
  i_storeID img = None \/ is_Some (dictLookup st (i_storeID img)).

(** *** Sprite sheets *)

(** The frame has a [uvRect] already, or an image that is in the store. *)
Definition frameReady (st : stage) (f : frame) : Prop :=
  is_Some (f_uvRect f)
  \/ exists i, f_image f = Some i /\ is_Some (images st !! i).

(** The frame has neither a [uvRect] nor an image. *)
Definition frameBare (f : frame) : Prop :=
  f_uvRect f = None /\ f_image f = None.

(** The frame [target] of a sheet, frame 0 for a target of -1. *)
Definition targetFrame (fs : list frame) (target : Z) : option frame :=
  at_index fs (Some (if target =? -1 then 0 else target)).

End StageGL.

(** ** AJStageGL.js: the second copy of [getRenderBufferTexture] *)

Module AJStageGL.

Import StageGL.
Local Open Scope js_scope.

(** The imports and the class binding of AJStageGL.js (lines 1-7). *)
Definition moduleScope : scope :=
  [("Stage", None); ("Container", None); ("shaders", None);
   ("Matrix2D", None); ("Filter", None); ("BitmapCache", None);
   ("AJStageGL", None)]%string.

(** [getRenderBufferTexture(width, height)] (AJStageGL.js, lines
    528-553), the same text as in StageGL.js. *)
Definition getRenderBufferTexture (width height : Z) : M (option texref) :=
  let sc : scope :=
    [("width", Some width); ("height", Some height); ("gl", None);
     ("renderTexture", None); ("frameBuffer", None)]%string
    ++ moduleScope in
  let* w := resolveIdentifier sc "w" in
  let* h := resolveIdentifier sc "h" in
  let* renderTexture := getBaseTexture w h in
  match renderTexture with
  | None => ret None
  | Some t =>
    let* lost := gets (fun st => contextLost (host st)) in
    if lost then ret None
    else
      updTexture t (fun x => set_t_height (Some height)
                               (set_t_width (Some width) x)) ;;;
      updTexture t (set_t_frameBuffer true) ;;;
      let* id := gets (fun st => length (_textureDictionary st)) in
      updTexture t (set_t_storeID (Some (Z.of_nat id))) ;;;
      modify (fun st => set_textureDictionary
                (array_set (_textureDictionary st) id (Some t)) st) ;;;
      ret (Some t)
  end.

End AJStageGL.

(** * Properties *)

(** ** The auto-purge threshold *)

Module AutoPurgeFacts.

Import JS AutoPurge.

Lemma Math_max_ge_10 (v : number) :
  isNaN v = false -> le (of_Z 10) (Math_max v (of_Z 10)).
Proof.
  destruct v as [| |q|]; simpl; try discriminate; intros _.
  - destruct (Qle_bool q (inject_Z 10)) eqn:E; simpl.
    + apply Qle_refl.
    + destruct (Qlt_le_dec (inject_Z 10) q) as [Hlt|Hle].
      * apply Qlt_le_weak, Hlt.
      * apply Qle_bool_iff in Hle. congruence.
  - exact I.
Qed.

(** C10. The setter stores 1200 for NaN, keeps -1, and stores
    [max(v, 10)] for every other number; the stored value is therefore -1
    or at least 10, and a stage built without the option holds 1200. *)
Theorem autoPurge_setter_clamps (v : number) :
  set_autoPurge v =
    (if isNaN v then of_Z 1200
     else if strictEq v (of_Z (-1)) then v
     else Math_max v (of_Z 10))
  /\ (strictEq (set_autoPurge v) (of_Z (-1)) = true
      \/ le (of_Z 10) (set_autoPurge v))
  /\ constructor_autoPurge None = of_Z 1200.
Proof.
  split; [|split].
  - unfold set_autoPurge. destruct (isNaN v) eqn:En.
    + reflexivity.
    + destruct (strictEq v (of_Z (-1))); reflexivity.
  - unfold set_autoPurge. destruct (isNaN v) eqn:En.
    + right. vm_compute. discriminate.
    + destruct (strictEq v (of_Z (-1))) eqn:Em; simpl.
      * left. exact Em.
      * right. apply Math_max_ge_10, En.
  - reflexivity.
Qed.

End AutoPurgeFacts.

(** ** Running methods *)

Module Run.

Import StageGL.
Local Open Scope js_scope.

Lemma bind_Return {A B} (m : M A) (k : A -> M B) st a st' :
  m st = (Return a, st') -> bind m k st = k a st'.
Proof. unfold bind. by intros ->. Qed.

Lemma bind_Throw {A B} (m : M A) (k : A -> M B) st e st' :
  m st = (Throw e, st') -> bind m k st = (Throw e, st').
Proof. unfold bind. by intros ->. Qed.

Lemma bind_modify_run {B} (f : stage -> stage) (k : unit -> M B) st :
  bind (modify f) k st = k tt (f st).
Proof. reflexivity. Qed.

Lemma bind_gets_run {A B} (f : stage -> A) (k : A -> M B) st :
  bind (gets f) k st = k (f st) st.
Proof. reflexivity. Qed.

Lemma bind_ret_run {A B} (a : A) (k : A -> M B) st :
  bind (ret a) k st = k a st.
Proof. reflexivity. Qed.

Lemma bind_assoc_run {A B C} (m : M A) (k1 : A -> M B) (k2 : B -> M C) st :
  bind m (fun a => bind (k1 a) k2) st = bind (bind m k1) k2 st.
Proof. unfold bind. by destruct (m st) as [[a|e] st']. Qed.

Lemma preserves_ret {A} P (a : A) : preserves P (ret a).
Proof. by intros st H. Qed.

Lemma preserves_throw {A} P e : preserves P (@throw A e).
Proof. by intros st H. Qed.

Lemma preserves_gets {A} P (f : stage -> A) : preserves P (gets f).
Proof. by intros st H. Qed.

Lemma preserves_bind {A B} P (m : M A) (k : A -> M B) :
  preserves P m -> (forall a, preserves P (k a)) -> preserves P (bind m k).
Proof.
  intros Hm Hk st H. specialize (Hm st H). unfold exec, bind in *.
  destruct (m st) as [[a|e] st']; simpl in *; [by apply Hk|done].
Qed.

Lemma preserves_tryCatch {A} P (m : M A) (h : exn -> M A) :
  preserves P m -> (forall e, preserves P (h e)) ->
  preserves P (tryCatch m h).
Proof.
  intros Hm Hh st H. specialize (Hm st H). unfold exec, tryCatch in *.
  destruct (m st) as [[a|e] st']; simpl in *; [done|by apply Hh].
Qed.

Lemma preserves_when P (b : bool) (m : M unit) :
  preserves P m -> preserves P (when b m).
Proof. intros Hm. destruct b; [done|apply preserves_ret]. Qed.

Lemma preserves_forEach {A} P (body : A -> M unit) (l : list A) :
  (forall x, x ∈ l -> preserves P (body x)) -> preserves P (forEach body l).
Proof.
  induction l as [|x r IH]; intros Hb; simpl.
  - apply preserves_ret.
  - apply preserves_bind.
    + apply Hb. left.
    + intros _. apply IH. intros y Hy. apply Hb. by right.
Qed.

Lemma preserves_modify P (f : stage -> stage) :
  (forall st, P st -> P (f st)) -> preserves P (modify f).
Proof. intros Hf st H. by apply Hf. Qed.

End Run.

(** ** What the traversal keeps *)

Module Invariants.

Import StageGL Run.
Local Open Scope js_scope.

Create HintDb quiet.

Ltac pstep :=
  match goal with
  | |- preserves _ (bind _ _) => apply preserves_bind; [|intros ?]
  | |- preserves _ (ret _) => apply preserves_ret
  | |- preserves _ (throw _) => apply preserves_throw
  | |- preserves _ (gets _) => apply preserves_gets
  | |- preserves _ (when _ _) => apply preserves_when
  | |- preserves _ (tryCatch _ _) => apply preserves_tryCatch; [|intros ?]
  | |- preserves _ (forEach _ _) => apply preserves_forEach; intros ? ?
  | |- preserves _ (match ?x with _ => _ end) => destruct x
  end.

Lemma quiet_refl st : quiet st st.
Proof. unfold quiet, stable. repeat split; reflexivity. Qed.

Ltac quiet_leaf :=
  apply preserves_modify; intros ? HQ; unfold quiet, stable in *; simpl;
  rewrite ?length_insert; exact HQ.

Lemma preserves_getTexture P t : preserves P (getTexture t).
Proof. intros st H. unfold exec, getTexture. by destruct (textures st !! t). Qed.
Lemma preserves_getImage P t : preserves P (getImage t).
Proof. intros st H. unfold exec, getImage. by destruct (images st !! t). Qed.

Lemma frameUVRect_state f st o st' :
  frameUVRect f st = (o, st') -> st' = st.
Proof.
  unfold frameUVRect, getImage, bind, ret, throw. intros H.
  repeat case_match; simplify_eq; done.
Qed.

Lemma buildUVRects_state frames target st o st' :
  buildUVRects frames target st = (o, st') -> st' = st.
Proof.
  unfold buildUVRects. destruct frames as [fs|]; [|by intros [= _ <-]].
  assert (Hloop : forall o1 s1,
            forEach (fun f => frameUVRect f ;;; ret tt) fs st = (o1, s1) ->
            s1 = st).
  { induction fs as [|f fs IH]; simpl; intros o1 s1.
    - by intros [= _ <-].
    - unfold bind at 1 2.
      destruct (frameUVRect f st) as [[r|e] s2] eqn:E;
        apply frameUVRect_state in E; subst s2; simpl;
        [apply IH|by intros [= _ <-]]. }
  unfold bind at 1.
  destruct (forEach _ fs st) as [o1 s1].
  specialize (Hloop _ _ eq_refl). subst s1.
  destruct o1 as [[]|e]; [|by intros [= _ <-]].
  destruct (at_index fs _) as [f|]; [|by intros [= _ <-]].
  unfold bind.
  destruct (frameUVRect f st) as [[r|e] s2] eqn:E;
    apply frameUVRect_state in E; subst s2; by intros [= _ <-].
Qed.

Lemma cardUVRect_state item useCache img st o st' :
  cardUVRect item useCache img st = (o, st') -> st' = st.
Proof.
  unfold cardUVRect, ret, throw. intros H.
  repeat case_match; simplify_eq; try done.
  unfold bind in H.
  destruct (buildUVRects _ _ st) as [[r|e] s2] eqn:E;
    apply buildUVRects_state in E; subst s2;
    repeat case_match; by simplify_eq.
Qed.

Lemma preserves_cardUVRect P item useCache img :
  preserves P (cardUVRect item useCache img).
Proof.
  intros st H. unfold exec.
  destruct (cardUVRect item useCache img st) as [o st'] eqn:E.
  apply cardUVRect_state in E. by subst st'.
Qed.

Ltac quiet_tac :=
  repeat first
    [ pstep
    | apply preserves_getTexture
    | apply preserves_getImage
    | solve [auto with quiet]
    | quiet_leaf ].

Lemma quiet_updTexture st0 t f : preserves (quiet st0) (updTexture t f).
Proof. unfold updTexture. quiet_tac. Qed.
Lemma quiet_updImage st0 t f : preserves (quiet st0) (updImage t f).
Proof. unfold updImage. quiet_tac. Qed.
#[export] Hint Resolve quiet_updTexture quiet_updImage : quiet.

Lemma quiet_renderBatch st0 : preserves (quiet st0) _renderBatch.
Proof. unfold _renderBatch, log. quiet_tac. Qed.
Lemma quiet_renderCover st0 : preserves (quiet st0) _renderCover.
Proof. unfold _renderCover, log. quiet_tac. Qed.
#[export] Hint Resolve quiet_renderBatch quiet_renderCover : quiet.

Lemma quiet_flush st0 r : preserves (quiet st0) (flush r).
Proof. unfold flush. quiet_tac. Qed.
#[export] Hint Resolve quiet_flush : quiet.

Lemma quiet_log st0 e :
  match e with WriteCard _ _ _ _ _ _ => False | _ => True end ->
  preserves (quiet st0) (log e).
Proof.
  intros He. unfold log. apply preserves_modify. intros st HQ.
  unfold quiet, stable in *; simpl. destruct e; try done.
Qed.

Lemma quiet_fetchShaderProgram st0 c f :
  preserves (quiet st0) (_fetchShaderProgram c f).
Proof. unfold _fetchShaderProgram. quiet_tac. Qed.
#[export] Hint Resolve quiet_fetchShaderProgram : quiet.

Lemma quiet_resizeTexture st0 t w h :
  preserves (quiet st0) (resizeTexture t w h).
Proof. unfold resizeTexture. quiet_tac. Qed.
#[export] Hint Resolve quiet_resizeTexture : quiet.

Lemma quiet_createTexture st0 : preserves (quiet st0) createTexture.
Proof. unfold createTexture. quiet_tac. Qed.
#[export] Hint Resolve quiet_createTexture : quiet.

Lemma quiet_getBaseTexture st0 w h :
  preserves (quiet st0) (getBaseTexture w h).
Proof. unfold getBaseTexture. quiet_tac. Qed.
#[export] Hint Resolve quiet_getBaseTexture : quiet.

Lemma quiet_getSafeTexture st0 w h :
  preserves (quiet st0) (_getSafeTexture w h).
Proof. unfold _getSafeTexture. quiet_tac. Qed.
#[export] Hint Resolve quiet_getSafeTexture : quiet.

Lemma quiet_resolveIdentifier st0 sc n :
  preserves (quiet st0) (resolveIdentifier sc n).
Proof. unfold resolveIdentifier. quiet_tac. Qed.
#[export] Hint Resolve quiet_resolveIdentifier : quiet.

Lemma quiet_getRenderBufferTexture st0 w h :
  preserves (quiet st0) (getRenderBufferTexture w h).
Proof. unfold getRenderBufferTexture. quiet_tac. Qed.
#[export] Hint Resolve quiet_getRenderBufferTexture : quiet.

Lemma quiet_updateTextureImageData st0 i :
  preserves (quiet st0) (_updateTextureImageData i).
Proof. unfold _updateTextureImageData, log. quiet_tac. Qed.
#[export] Hint Resolve quiet_updateTextureImageData : quiet.

Lemma quiet_refreshSource st0 x : preserves (quiet st0) (refreshSource x).
Proof. unfold refreshSource. quiet_tac. Qed.
#[export] Hint Resolve quiet_refreshSource : quiet.

Lemma preserves_findSlot P start : preserves P (findSlot start).
Proof. by intros st H. Qed.

Lemma quiet_insertTextureInBatch st0 t :
  preserves (quiet st0) (_insertTextureInBatch t).
Proof.
  unfold _insertTextureInBatch.
  repeat first [apply preserves_findSlot | quiet_tac].
Qed.
#[export] Hint Resolve quiet_insertTextureInBatch : quiet.

Lemma quiet_loadTextureImage st0 i :
  preserves (quiet st0) (_loadTextureImage i).
Proof. unfold _loadTextureImage. quiet_tac. Qed.
#[export] Hint Resolve quiet_loadTextureImage : quiet.

Lemma quiet_killTextureObject st0 t :
  preserves (quiet st0) (_killTextureObject t).
Proof. unfold _killTextureObject, log. quiet_tac. Qed.
#[export] Hint Resolve quiet_killTextureObject : quiet.

Lemma quiet_purgeSources st0 c l : preserves (quiet st0) (purgeSources c l).
Proof. induction l as [|i l IH]; simpl; quiet_tac. Qed.
#[export] Hint Resolve quiet_purgeSources : quiet.

Lemma quiet_purgeEntry st0 c i : preserves (quiet st0) (purgeEntry c i).
Proof. unfold purgeEntry. quiet_tac. Qed.
#[export] Hint Resolve quiet_purgeEntry : quiet.

Lemma quiet_purgeTextures st0 c : preserves (quiet st0) (purgeTextures c).
Proof. unfold purgeTextures. quiet_tac. Qed.
#[export] Hint Resolve quiet_purgeTextures : quiet.

Lemma quiet_drawCover st0 : preserves (quiet st0) _drawCover.
Proof. unfold _drawCover. quiet_tac. Qed.
#[export] Hint Resolve quiet_drawCover : quiet.

Lemma quiet_immediateBatchRender st0 :
  preserves (quiet st0) _immediateBatchRender.
Proof. unfold _immediateBatchRender. quiet_tac. Qed.
#[export] Hint Resolve quiet_immediateBatchRender : quiet.

Lemma quiet_BitmapCache_update st0 c :
  preserves (quiet st0) (BitmapCache_update c).
Proof. unfold BitmapCache_update. quiet_tac. Qed.
#[export] Hint Resolve quiet_BitmapCache_update : quiet.

Lemma quiet_autoCache st0 ic p : preserves (quiet st0) (autoCache ic p).
Proof. unfold autoCache, BitmapCache_define, surfaceStale, _updateSurface,
    updateViewport. quiet_tac. Qed.
#[export] Hint Resolve quiet_autoCache : quiet.

Lemma quiet_flushOnVertexOverflow st0 :
  preserves (quiet st0) flushOnVertexOverflow.
Proof. unfold flushOnVertexOverflow. quiet_tac. Qed.
#[export] Hint Resolve quiet_flushOnVertexOverflow : quiet.

Lemma quiet_resolveTexture st0 i : preserves (quiet st0) (resolveTexture i).
Proof. unfold resolveTexture. quiet_tac. Qed.
#[export] Hint Resolve quiet_resolveTexture : quiet.

Lemma preserves_run {A} P (m : M A) st o st' :
  preserves P m -> P st -> m st = (o, st') -> P st'.
Proof. intros Hm HP E. specialize (Hm st HP). unfold exec in Hm. by rewrite E in Hm. Qed.

Lemma fetchShaderProgram_state c f st r st' :
  _fetchShaderProgram c f st = (r, st') -> st' = st.
Proof.
  unfold _fetchShaderProgram, bind, gets, ret, throw; simpl.
  repeat case_match; congruence.
Qed.

(** Symbolic execution of a method on a state: the monad operations are
    computed, a branch is split on its innermost scrutinee. *)
Ltac run_simpl :=
  cbv beta iota zeta
      delta [bind gets modify ret throw when tryCatch exec result fst snd log].

Ltac run_step :=
  run_simpl;
  match goal with
  | |- context [match ?x with _ => _ end] =>
    lazymatch x with
    | context [match _ with _ => _ end] => fail
    | _ => destruct x eqn:?
    end
  end.

Ltac quiet_solve :=
  match goal with
  | HQ : quiet ?st0 _ |- quiet ?st0 _ =>
    solve [ exact HQ
          | let Hsub := fresh in
            destruct HQ as ((?&?&?&?&?&?&?&?&?&?&?&Hsub)&?);
            unfold quiet, stable; simpl;
            repeat split; try assumption;
            rewrite ?length_insert; try assumption;
            etrans; [exact Hsub|];
            first [by apply insert_subseteq | by rewrite delete_id | done] ]
  end.

Lemma quiet_updateRenderMode st0 m :
  preserves (quiet st0) (_updateRenderMode m).
Proof.
  intros st HQ. unfold _updateRenderMode, exec.
  repeat (run_step;
    repeat match goal with
    | H : _fetchShaderProgram _ _ ?s = (_, ?s') |- _ =>
      apply fetchShaderProgram_state in H; subst s'
    | H : flush _ ?s = (_, ?s') |- _ =>
      apply (preserves_run (quiet st0)) in H;
      [|apply quiet_flush|]; [|clear H]
    end).
  all: run_simpl; quiet_solve.
Qed.
#[export] Hint Resolve quiet_updateRenderMode : quiet.

Lemma quiet_applyCompositeOperation st0 p :
  preserves (quiet st0) (applyCompositeOperation p).
Proof. unfold applyCompositeOperation. quiet_tac. Qed.
#[export] Hint Resolve quiet_applyCompositeOperation : quiet.

(** Induction on display objects, with the children of a container. *)
Lemma displayObject_induction (P : displayObject -> Prop) :
  (forall p children, Forall P children -> P (Container p children)) ->
  (forall p image sourceRect, P (Bitmap p image sourceRect)) ->
  (forall p frames currentFrame f, P (Sprite p frames currentFrame f)) ->
  (forall p, P (Other p)) ->
  forall item, P item.
Proof.
  intros HC HB HS HO.
  fix IH 1. intros [p children|p image sourceRect|p fs cf f|p].
  - apply HC. induction children as [|c r IHr]; constructor.
    + apply IH.
    + apply IHr.
  - apply HB.
  - apply HS.
  - apply HO.
Qed.

Section Traversal.

Variables P Q : stage -> Prop.
Hypothesis Q_P : forall st, Q st -> P st.
Hypothesis P_mode : forall m, preserves P (_updateRenderMode m).
Hypothesis P_autoCache : forall ic p, preserves P (autoCache ic p).
Hypothesis P_overflow :
  forall st, P st ->
    match flushOnVertexOverflow st with
    | (Return _, st') => Q st'
    | (Throw _, st') => P st'
    end.
Hypothesis Q_resolve : forall i, preserves Q (resolveTexture i).
Hypothesis Q_updImage : forall i f, preserves Q (updImage i f).
Hypothesis Q_write :
  forall uv ti a st, Q st -> P (exec (writeCard uv ti a) st).
Hypothesis P_config :
  forall c st, P st -> P (set_activeConfig c st).
Hypothesis P_immediate : preserves P _immediateBatchRender.

Lemma run_bind {A B} (R S T : stage -> Prop) (m : M A) (k : A -> M B) :
  (forall st, R st ->
     match m st with
     | (Return _, st') => S st'
     | (Throw _, st') => T st'
     end) ->
  (forall a st, S st -> T (exec (k a) st)) ->
  forall st, R st -> T (exec (bind m k) st).
Proof.
  intros Hm Hk st HR. specialize (Hm st HR). unfold exec, bind in *.
  destruct (m st) as [[a|e] st']; simpl in *; [by apply Hk|done].
Qed.

Lemma run_call {A} (R S : stage -> Prop) (m : M A) :
  (forall st, R st -> R (exec m st)) -> (forall st, R st -> S st) ->
  forall st, R st ->
    match m st with
    | (Return _, st') => R st'
    | (Throw _, st') => S st'
    end.
Proof.
  intros Hm HRS st HR. specialize (Hm st HR). unfold exec in Hm.
  destruct (m st) as [[a|e] st']; simpl in *; auto.
Qed.

Lemma appendCard_preserves item useCache itemAlpha concatAlpha :
  preserves P (appendCard item useCache itemAlpha concatAlpha).
Proof.
  pose proof (fun i => preserves_getTexture Q i) as Q_getTexture.
  pose proof (fun i => preserves_getImage Q i) as Q_getImage.
  unfold appendCard, preserves in *.
  apply (run_bind P P P); [by apply run_call|intros containerRenderMode].
  apply (run_bind P P P); [apply run_call; [|done]|intros _].
  { unfold applyCompositeOperation. destruct (truthy _); [apply P_mode|].
    done. }
  apply (run_bind P Q P); [apply P_overflow|intros _].
  destruct (cardSource item useCache) as [image|];
    [|intros st; apply Q_P].
  apply (run_bind Q Q P);
    [apply run_call; [apply Q_resolve|apply Q_P]|intros [t|]];
    [|intros st; apply Q_P].
  apply (run_bind Q Q P);
    [apply run_call; [apply Q_getTexture|apply Q_P]|intros x].
  apply (run_bind Q Q P); [apply run_call; [done|apply Q_P]|intros drawID].
  apply (run_bind Q Q P);
    [apply run_call; [apply Q_updImage|apply Q_P]|intros _].
  apply (run_bind Q Q P);
    [apply run_call; [apply Q_getImage|apply Q_P]|intros img].
  apply (run_bind Q Q P);
    [apply run_call; [apply preserves_cardUVRect|apply Q_P]|intros uv].
  apply (run_bind Q P P).
  { intros st HQ. apply (Q_write uv (t_activeIndex x)
                           (itemAlpha * concatAlpha)%Q) in HQ.
    unfold exec in HQ. by destruct (writeCard _ _ _ st) as [[?|?] ?]. }
  intros _.
  apply (run_bind P P P); [by apply run_call|intros imm].
  apply (run_bind P P P); [apply run_call; [|done]|intros _].
  { destruct imm; [|done].
    apply (run_bind P P P); [apply run_call; [|done]|intros _].
    - intros st. apply P_config.
    - apply P_immediate. }
  apply (run_bind P P P); [by apply run_call|intros current].
  destruct (negb _); [apply P_mode|done].
Qed.

Lemma appendChildren_preserves body p children :
  (forall c, c ∈ children -> preserves P (body c)) ->
  preserves P (appendChildren body p children).
Proof.
  intros Hbody. unfold appendChildren.
  apply preserves_bind; [apply preserves_gets|intros previousRenderMode].
  apply preserves_bind.
  { unfold applyCompositeOperation. destruct (truthy _); [apply P_mode|].
    apply preserves_ret. }
  intros _.
  apply preserves_bind; [by apply preserves_forEach|intros _].
  apply preserves_bind; [apply preserves_gets|intros current].
  apply preserves_when, P_mode.
Qed.

Lemma appendItem_preserves item :
  forall concatAlpha ignoreCache,
    preserves P (appendItem concatAlpha ignoreCache item).
Proof.
  induction item as [p children IH|p image sourceRect|p fs cf f|p]
    using displayObject_induction; intros concatAlpha ignoreCache;
    simpl.
  all: destruct (negb _); [apply preserves_ret|].
  all: apply preserves_bind;
    [apply preserves_when, P_autoCache|intros _].
  all: try (destruct (if ignoreCache then None else _);
            apply appendCard_preserves).
  destruct (if ignoreCache then None else _);
    [apply appendCard_preserves|].
  apply appendChildren_preserves. intros c Hc.
  rewrite Forall_forall in IH. apply IH, Hc.
Qed.

Lemma appendToBatch_preserves container concatAlpha ignoreCache :
  preserves P (_appendToBatch container concatAlpha ignoreCache).
Proof.
  destruct container; simpl; try apply preserves_throw.
  apply appendChildren_preserves. intros c _. apply appendItem_preserves.
Qed.

End Traversal.

(** ** The batching invariant *)

Create HintDb batch.

Lemma cursorOf_nonneg c0 l : 0 <= c0 -> 0 <= cursorOf c0 l.
Proof.
  intros Hc. induction l as [|e l IH]; simpl; [done|].
  destruct e; unfold INDICIES_PER_CARD; lia.
Qed.

Lemma cursorOf_zero_pending c0 l :
  0 <= c0 -> cursorOf c0 l = 0 -> pendingModes l = [].
Proof.
  intros Hc. induction l as [|e l IH]; simpl; [done|].
  destruct e; try done.
  pose proof (cursorOf_nonneg c0 l Hc). unfold INDICIES_PER_CARD. lia.
Qed.

Lemma BatchInv_log C c0 log0 room e :
  noteEvent e -> preserves (BatchInv C c0 log0 room) (log e).
Proof.
  intros He st (HC & Hc0 & Hroom & Hmax & new & Hlog & Hbl & Hcur & Hfit & Hmodes).
  unfold exec, log, modify; simpl.
  repeat (split; [done|]). exists (e :: new). simpl. rewrite Hlog.
  destruct e; try done.
Qed.

(** A flush leaves the cursor at zero when it returns, and keeps the
    invariant. *)
Lemma flush_run C c0 log0 room reason st :
  reason ∈ traversalReasons ->
  (reason = "vertexOverflow"%string ->
   C < _batchVertexCount st + INDICIES_PER_CARD) ->
  BatchInv C c0 log0 room st ->
  BatchInv C c0 log0 room (exec (flush reason) st)
  /\ (result (flush reason) st = Return tt ->
      _batchVertexCount (exec (flush reason) st) = 0).
Proof.
  intros Hr Hov (HC & Hc0 & Hroom & Hmax & new & Hlog & Hbl & Hcur & Hfit & Hmodes).
  pose proof (cursorOf_nonneg c0 new ltac:(lia)) as Hnn.
  unfold flush, _renderBatch, exec, result.
  run_simpl. simpl.
  destruct (Z.leb_spec (_batchVertexCount st) 0) as [Hle|Hgt]; run_simpl.
  - split; [|simpl; lia].
    repeat (split; [done|]). exists new. simpl. done.
  - simpl. destruct (_activeShader st) as [prog|] eqn:Hs; run_simpl; simpl.
    + split; [|done].
      repeat (split; [done|]).
      exists (DrawArrays reason (Some prog) (_renderMode st)
                (_batchVertexCount st) :: new).
      simpl. rewrite Hlog. repeat split; try done; try lia.
    + split; [|done].
      repeat (split; [done|]). exists new. simpl. done.
Qed.

Lemma BatchInv_flush C c0 log0 room reason :
  reason ∈ traversalReasons -> reason <> "vertexOverflow"%string ->
  preserves (BatchInv C c0 log0 room) (flush reason).
Proof. intros Hr Hne st HB. by apply flush_run. Qed.

Ltac batch_leaf :=
  apply preserves_modify; intros ? HB; exact HB.

Ltac batch_tac :=
  repeat first
    [ pstep
    | apply preserves_getTexture
    | apply preserves_getImage
    | apply preserves_findSlot
    | solve [auto with batch]
    | (apply BatchInv_log; exact I)
    | (apply BatchInv_flush; [by repeat constructor|done])
    | batch_leaf ].

Lemma BatchInv_updTexture C c0 log0 room t f :
  preserves (BatchInv C c0 log0 room) (updTexture t f).
Proof. unfold updTexture. batch_tac. Qed.
Lemma BatchInv_updImage C c0 log0 room t f :
  preserves (BatchInv C c0 log0 room) (updImage t f).
Proof. unfold updImage. batch_tac. Qed.
#[export] Hint Resolve BatchInv_updTexture BatchInv_updImage : batch.

Lemma BatchInv_renderCover C c0 log0 room :
  preserves (BatchInv C c0 log0 room) _renderCover.
Proof. unfold _renderCover. batch_tac. Qed.
#[export] Hint Resolve BatchInv_renderCover : batch.

Lemma BatchInv_fetchShaderProgram C c0 log0 room c f :
  preserves (BatchInv C c0 log0 room) (_fetchShaderProgram c f).
Proof. unfold _fetchShaderProgram. batch_tac. Qed.
#[export] Hint Resolve BatchInv_fetchShaderProgram : batch.

Lemma BatchInv_resizeTexture C c0 log0 room t w h :
  preserves (BatchInv C c0 log0 room) (resizeTexture t w h).
Proof. unfold resizeTexture. batch_tac. Qed.
#[export] Hint Resolve BatchInv_resizeTexture : batch.

Lemma BatchInv_createTexture C c0 log0 room :
  preserves (BatchInv C c0 log0 room) createTexture.
Proof. unfold createTexture. batch_tac. Qed.
#[export] Hint Resolve BatchInv_createTexture : batch.

Lemma BatchInv_getBaseTexture C c0 log0 room w h :
  preserves (BatchInv C c0 log0 room) (getBaseTexture w h).
Proof. unfold getBaseTexture. batch_tac. Qed.
#[export] Hint Resolve BatchInv_getBaseTexture : batch.

Lemma BatchInv_getSafeTexture C c0 log0 room w h :
  preserves (BatchInv C c0 log0 room) (_getSafeTexture w h).
Proof. unfold _getSafeTexture. batch_tac. Qed.
#[export] Hint Resolve BatchInv_getSafeTexture : batch.

Lemma BatchInv_resolveIdentifier C c0 log0 room sc n :
  preserves (BatchInv C c0 log0 room) (resolveIdentifier sc n).
Proof. unfold resolveIdentifier. batch_tac. Qed.
#[export] Hint Resolve BatchInv_resolveIdentifier : batch.

Lemma BatchInv_getRenderBufferTexture C c0 log0 room w h :
  preserves (BatchInv C c0 log0 room) (getRenderBufferTexture w h).
Proof. unfold getRenderBufferTexture. batch_tac. Qed.
#[export] Hint Resolve BatchInv_getRenderBufferTexture : batch.

Lemma BatchInv_updateTextureImageData C c0 log0 room i :
  preserves (BatchInv C c0 log0 room) (_updateTextureImageData i).
Proof. unfold _updateTextureImageData. batch_tac. Qed.
#[export] Hint Resolve BatchInv_updateTextureImageData : batch.

Lemma BatchInv_refreshSource C c0 log0 room x :
  preserves (BatchInv C c0 log0 room) (refreshSource x).
Proof. unfold refreshSource. batch_tac. Qed.
#[export] Hint Resolve BatchInv_refreshSource : batch.

Lemma BatchInv_insertTextureInBatch C c0 log0 room t :
  preserves (BatchInv C c0 log0 room) (_insertTextureInBatch t).
Proof. unfold _insertTextureInBatch. batch_tac. Qed.
#[export] Hint Resolve BatchInv_insertTextureInBatch : batch.

Lemma BatchInv_loadTextureImage C c0 log0 room i :
  preserves (BatchInv C c0 log0 room) (_loadTextureImage i).
Proof. unfold _loadTextureImage. batch_tac. Qed.
#[export] Hint Resolve BatchInv_loadTextureImage : batch.

Lemma BatchInv_resolveTexture C c0 log0 room i :
  preserves (BatchInv C c0 log0 room) (resolveTexture i).
Proof. unfold resolveTexture. batch_tac. Qed.
#[export] Hint Resolve BatchInv_resolveTexture : batch.

Lemma BatchInv_drawCover C c0 log0 room :
  preserves (BatchInv C c0 log0 room) _drawCover.
Proof. unfold _drawCover. batch_tac. Qed.
#[export] Hint Resolve BatchInv_drawCover : batch.

Lemma BatchInv_immediateBatchRender C c0 log0 room :
  preserves (BatchInv C c0 log0 room) _immediateBatchRender.
Proof. unfold _immediateBatchRender. batch_tac. Qed.
#[export] Hint Resolve BatchInv_immediateBatchRender : batch.

Lemma BatchInv_BitmapCache_update C c0 log0 room c :
  preserves (BatchInv C c0 log0 room) (BitmapCache_update c).
Proof. unfold BitmapCache_update. batch_tac. Qed.
#[export] Hint Resolve BatchInv_BitmapCache_update : batch.

Lemma BatchInv_autoCache C c0 log0 room ic p :
  preserves (BatchInv C c0 log0 room) (autoCache ic p).
Proof. unfold autoCache, BitmapCache_define, surfaceStale, _updateSurface,
    updateViewport. batch_tac. Qed.
#[export] Hint Resolve BatchInv_autoCache : batch.

Lemma BatchInv_setRenderMode C c0 log0 room st mode imm :
  BatchInv C c0 log0 room st -> _batchVertexCount st = 0 ->
  BatchInv C c0 log0 room
    (exec (modify (set_renderMode mode) ;;;
           modify (set_immediateRender imm) ;;;
           log (BlendFunc mode)) st).
Proof.
  intros (HC & Hc0 & Hroom & Hmax & new & Hlog & Hbl & Hcur & Hfit & Hmodes)
         Hzero.
  unfold exec; run_simpl; simpl.
  repeat (split; [done|]). exists (BlendFunc mode :: new). simpl.
  rewrite Hlog. repeat split; try done.
  rewrite (cursorOf_zero_pending c0 new); [constructor|lia|congruence].
Qed.

Lemma BatchInv_updateRenderMode C c0 log0 room m :
  preserves (BatchInv C c0 log0 room) (_updateRenderMode m).
Proof.
  intros st HB. unfold _updateRenderMode, exec.
  repeat (run_step;
    repeat match goal with
    | H : _fetchShaderProgram _ _ ?s = (_, ?s') |- _ =>
      apply fetchShaderProgram_state in H; subst s'
    | H : flush "shaderSwap" ?s = (?o, ?s') |- _ =>
      let HB' := fresh "HB" in
      assert (HB' : BatchInv C c0 log0 room s) by exact HB;
      destruct (flush_run C c0 log0 room "shaderSwap" s
                  ltac:(by repeat constructor) ltac:(done) HB')
        as [? ?];
      unfold exec, result in *; rewrite H in *; simpl in *; clear H
    end).
  all: run_simpl; try exact HB; try assumption.
  all: try (match goal with
            | H : BatchInv _ _ _ _ ?s |- _ =>
              apply (BatchInv_setRenderMode C c0 log0 room s); [exact H|]
            end;
            match goal with
            | H : Return ?a = Return () -> _ |- _ => apply H; by destruct a
            end).
Qed.
#[export] Hint Resolve BatchInv_updateRenderMode : batch.

Lemma BatchInv_overflow C c0 log0 st :
  BatchInv C c0 log0 0 st ->
  match flushOnVertexOverflow st with
  | (Return _, st') => BatchInv C c0 log0 INDICIES_PER_CARD st'
  | (Throw _, st') => BatchInv C c0 log0 0 st'
  end.
Proof.
  intros HB. unfold flushOnVertexOverflow. run_simpl.
  destruct (Z.gtb_spec (_batchVertexCount st + INDICIES_PER_CARD)
              (_maxBatchVertexCount st)) as [Hgt|Hle]; run_simpl.
  - destruct (flush_run C c0 log0 0 "vertexOverflow" st) as [HB' Hz];
      [by repeat constructor| |exact HB|].
    { intros _. destruct HB as (_ & _ & _ & <- & _). lia. }
    unfold exec, result in *.
    destruct (flush "vertexOverflow" st) as [[[]|e] st']; simpl in *;
      [|exact HB'].
    specialize (Hz eq_refl).
    destruct HB' as (HC & Hc0 & Hroom & Hmax & new & Hlog & Hbl & Hcur
                     & Hfit & Hmodes).
    unfold INDICIES_PER_CARD in *.
    repeat (split; [done || lia|]). exists new. repeat split; try done. lia.
  - destruct HB as (HC & Hc0 & Hroom & Hmax & new & Hlog & Hbl & Hcur
                    & Hfit & Hmodes).
    unfold INDICIES_PER_CARD in *.
    repeat (split; [done || lia|]). exists new. repeat split; try done. lia.
Qed.

Lemma BatchInv_writeCard C c0 log0 uv ti a st :
  BatchInv C c0 log0 INDICIES_PER_CARD st ->
  BatchInv C c0 log0 0 (exec (writeCard uv ti a) st).
Proof.
  intros (HC & Hc0 & Hroom & Hmax & new & Hlog & Hbl & Hcur & Hfit & Hmodes).
  unfold writeCard, exec. run_simpl. simpl.
  unfold INDICIES_PER_CARD in *.
  repeat (split; [done || lia|]).
  exists (WriteCard (_activeConfig st) (_batchVertexCount st) (cardUVs uv)
            ti a (_renderMode st) :: new).
  simpl. rewrite Hlog. unfold INDICIES_PER_CARD.
  repeat split; try done; try lia.
  by constructor.
Qed.

Lemma BatchInv_room C c0 log0 st :
  BatchInv C c0 log0 INDICIES_PER_CARD st -> BatchInv C c0 log0 0 st.
Proof.
  intros (HC & Hc0 & Hroom & Hmax & new & Hlog & Hbl & Hcur & Hfit & Hmodes).
  unfold INDICIES_PER_CARD in *.
  repeat (split; [done || lia|]). exists new. repeat split; try done. lia.
Qed.

(** The invariant holds throughout the traversal of a display list. *)
Lemma BatchInv_appendToBatch C c0 log0 container concatAlpha ignoreCache :
  preserves (BatchInv C c0 log0 0)
    (_appendToBatch container concatAlpha ignoreCache).
Proof.
  apply (appendToBatch_preserves (BatchInv C c0 log0 0)
           (BatchInv C c0 log0 INDICIES_PER_CARD)).
  - apply BatchInv_room.
  - apply BatchInv_updateRenderMode.
  - apply BatchInv_autoCache.
  - apply BatchInv_overflow.
  - apply BatchInv_resolveTexture.
  - apply BatchInv_updImage.
  - apply BatchInv_writeCard.
  - intros c st HB. exact HB.
  - apply BatchInv_immediateBatchRender.
Qed.

End Invariants.

(** ** What drawing leaves as it was set up *)

Module Stability.

Import StageGL Run Invariants.
Local Open Scope js_scope.

Lemma stable_refl st : stable st st.
Proof. unfold stable. repeat split; reflexivity. Qed.

Lemma stable_trans st0 st1 st2 :
  stable st0 st1 -> stable st1 st2 -> stable st0 st2.
Proof.
  unfold stable. intros (?&?&?&?&?&?&?&?&?&?&?&?) (?&?&?&?&?&?&?&?&?&?&?&?).
  repeat split; try congruence. by etrans.
Qed.

Lemma stable_of_quiet {A} (m : M A) :
  (forall st0, preserves (quiet st0) m) ->
  forall st0, preserves (stable st0) m.
Proof.
  intros Hq st0 st Hs. eapply stable_trans; [exact Hs|].
  apply (Hq st st (quiet_refl st)).
Qed.

Lemma stable_writeCard st0 uv ti a :
  preserves (stable st0) (writeCard uv ti a).
Proof. intros st Hs. unfold writeCard, exec. run_simpl. exact Hs. Qed.

Lemma stable_appendToBatch st0 container concatAlpha ignoreCache :
  preserves (stable st0) (_appendToBatch container concatAlpha ignoreCache).
Proof.
  apply (appendToBatch_preserves (stable st0) (stable st0)).
  - done.
  - intros m. apply stable_of_quiet. intros. apply quiet_updateRenderMode.
  - intros ic p. apply stable_of_quiet. intros. apply quiet_autoCache.
  - intros st Hs. apply run_call; [|done|done].
    apply stable_of_quiet. intros. apply quiet_flushOnVertexOverflow.
  - intros i. apply stable_of_quiet. intros. apply quiet_resolveTexture.
  - intros i f. apply stable_of_quiet. intros. apply quiet_updImage.
  - intros uv ti a st. apply stable_writeCard.
  - intros c st Hs. exact Hs.
  - apply stable_of_quiet. intros. apply quiet_immediateBatchRender.
Qed.

Ltac stable_tac :=
  repeat first
    [ pstep
    | apply stable_appendToBatch
    | (apply stable_of_quiet; intros; solve [auto with quiet])
    | (apply preserves_modify; intros ? HS; exact HS) ].

Lemma stable_drawContent st0 content ignoreCache :
  preserves (stable st0) (_drawContent content ignoreCache).
Proof. unfold _drawContent. stable_tac. Qed.

Lemma stable_draw st0 content ignoreCache :
  preserves (stable st0) (draw content ignoreCache).
Proof.
  unfold draw. stable_tac. apply stable_drawContent.
Qed.


End Stability.

Module ShaderInit.

Import StageGL Run Invariants Stability.
Local Open Scope js_scope.

(** ** Shader initialisation *)

Lemma half_int32_small (a : Z) : 0 <= a < 2 ^ 32 -> JS.half_int32 a = a / 2.
Proof.
  intros Ha. unfold JS.half_int32, JS.toInt32.
  rewrite Z.quot_div_nonneg by lia.
  assert (0 <= a / 2 < 2 ^ 31).
  { split; [apply Z.div_pos; lia|]. apply Z.div_lt_upper_bound; lia. }
  rewrite Z.mod_small by lia.
  destruct (Z.ltb_spec (a / 2) (2 ^ 31)); lia.
Qed.

Lemma half_int32_range (a : Z) : - 2 ^ 31 <= JS.half_int32 a < 2 ^ 31.
Proof.
  unfold JS.half_int32, JS.toInt32.
  pose proof (Z.mod_pos_bound (a ÷ 2) (2 ^ 32) ltac:(lia)).
  destruct (Z.ltb_spec ((a ÷ 2) mod 2 ^ 32) (2 ^ 31)); lia.
Qed.

Lemma set_batchTextureCount_same st :
  set_batchTextureCount (_batchTextureCount st) st = st.
Proof. by destruct st. Qed.

Lemma compileLoop_step (fuel : nat) (st : stage) :
  compileLoop (S fuel) st =
  let n := _batchTextureCount st in
  if batchShaderCompiles (host st) n
  then (Return tt, set_activeShader (Some (BatchProgram n)) st)
  else if n <=? 1 then (Throw (Thrown "Cannot compile shader"), st)
  else compileLoop fuel (set_batchTextureCount (JS.half_int32 n) st).
Proof.
  simpl. unfold tryCatch, bind, _fetchShaderProgram, bind, gets; simpl.
  destruct (batchShaderCompiles (host st) (_batchTextureCount st));
    [reflexivity|].
  simpl. destruct (_batchTextureCount st <=? 1); reflexivity.
Qed.

Lemma compileLoop_bounded (fuel : nat) : forall st,
  (fuel <= 32)%nat ->
  _batchTextureCount st <= 1 \/ 0 <= _batchTextureCount st < 2 ^ Z.of_nat fuel ->
  loopOutcome st (compileLoop (S fuel) st).
Proof.
  induction fuel as [|fuel IH]; intros st Hf Hn; rewrite compileLoop_step;
    cbv zeta.
  - destruct (batchShaderCompiles (host st) (_batchTextureCount st)) eqn:Ec.
    + exists 0%nat. split; [intros j Hj; lia|]. left. split; [exact Ec|].
      unfold compiled. simpl halved. by rewrite set_batchTextureCount_same.
    + destruct (Z.leb_spec (_batchTextureCount st) 1) as [Hle|Hgt].
      * exists 0%nat. split; [intros j Hj; lia|]. right.
        simpl halved. by rewrite set_batchTextureCount_same.
      * simpl in Hn. lia.
  - destruct (batchShaderCompiles (host st) (_batchTextureCount st)) eqn:Ec.
    + exists 0%nat. split; [intros j Hj; lia|]. left. split; [exact Ec|].
      unfold compiled. simpl halved. by rewrite set_batchTextureCount_same.
    + destruct (Z.leb_spec (_batchTextureCount st) 1) as [Hle|Hgt].
      * exists 0%nat. split; [intros j Hj; lia|]. right.
        simpl halved. by rewrite set_batchTextureCount_same.
      * destruct Hn as [?|Hn]; [lia|].
        assert (Hpow : 2 ^ Z.of_nat (S fuel) = 2 * 2 ^ Z.of_nat fuel).
        { rewrite Nat2Z.inj_succ, Z.pow_succ_r; lia. }
        assert (Hpow32 : 2 ^ Z.of_nat (S fuel) <= 2 ^ 32).
        { apply Z.pow_le_mono_r; lia. }
        assert (Hhalf : JS.half_int32 (_batchTextureCount st)
                        = _batchTextureCount st / 2).
        { apply half_int32_small. lia. }
        set (st1 := set_batchTextureCount _ st).
        destruct (IH st1) as (k & Hpre & Hout).
        { lia. }
        { right. subst st1; simpl. rewrite Hhalf. split.
          - apply Z.div_pos; lia.
          - apply Z.div_lt_upper_bound; lia. }
        exists (S k). subst st1; simpl in *. split.
        { intros [|j] Hj; simpl; [split; [exact Ec|lia]|]. apply Hpre. lia. }
        destruct Hout as [[Hc Hr]|(Hc & Hle & Hr)].
        -- left. split; [exact Hc|]. rewrite Hr. reflexivity.
        -- right. split; [exact Hc|]. split; [exact Hle|]. rewrite Hr.
           reflexivity.
Qed.

Lemma compileLoop_34 (st : stage) : loopOutcome st (compileLoop 34 st).
Proof.
  rewrite compileLoop_step; cbv zeta.
  destruct (batchShaderCompiles (host st) (_batchTextureCount st)) eqn:Ec.
  - exists 0%nat. split; [intros j Hj; lia|]. left. split; [exact Ec|].
    unfold compiled. simpl halved. by rewrite set_batchTextureCount_same.
  - destruct (Z.leb_spec (_batchTextureCount st) 1) as [Hle|Hgt].
    + exists 0%nat. split; [intros j Hj; lia|]. right.
      simpl halved. by rewrite set_batchTextureCount_same.
    + set (st1 := set_batchTextureCount _ st).
      destruct (compileLoop_bounded 32 st1) as (k & Hpre & Hout).
      { lia. }
      { subst st1; simpl.
        pose proof (half_int32_range (_batchTextureCount st)).
        change (Z.of_nat 32) with 32. lia. }
      exists (S k). subst st1; simpl in *. split.
      { intros [|j] Hj; simpl; [split; [exact Ec|lia]|]. apply Hpre. lia. }
      destruct Hout as [[Hc Hr]|(Hc & Hle & Hr)].
      * left. split; [exact Hc|]. rewrite Hr. reflexivity.
      * right. split; [exact Hc|]. split; [exact Hle|]. rewrite Hr.
        reflexivity.
Qed.


(** The instance when [_initMaterials] enters its retry loop. *)
Lemma initMaterials_prefix (st : stage) :
  exists st1,
    _initMaterials st =
      (compileLoop 34 ;;;
       modify (fun st => set_mainShader (_activeShader st) st) ;;;
       let* texture := getBaseTexture None None in
       match texture with
       | None => throw (Thrown "Problems creating basic textures")
       | Some t =>
         updTexture t (set_t_storeID (Some (-1))) ;;;
         let* n := gets _batchTextureCount in
         modify (set_baseTextures (replicate (Z.to_nat n) t)) ;;;
         modify (set_batchTextures (replicate (Z.to_nat n) t))
       end) st1
    /\ host st1 = host st /\ _mainShader st1 = _mainShader st
    /\ _batchTextureCount st1 = MAX_TEXTURE_IMAGE_UNITS (host st).
Proof.
  unfold _initMaterials. rewrite !bind_modify_run.
  match goal with |- context [bind (compileLoop 34) _ ?s] => exists s end.
  split; [reflexivity|]. by cbn.
Qed.

Lemma initMaterials_rest_run (st2 : stage) :
  let r := initMaterials_rest st2 in
  _batchTextureCount r.2 = _batchTextureCount st2
  /\ _mainShader r.2 = _activeShader st2
  /\ (contextLost (host st2) = false ->
      r.1 = Return tt
      /\ length (_batchTextures r.2) = Z.to_nat (_batchTextureCount st2)
      /\ length (_baseTextures r.2) = Z.to_nat (_batchTextureCount st2)).
Proof.
  unfold initMaterials_rest, getBaseTexture, createTexture, resizeTexture,
    getTexture, updTexture.
  run_simpl. simpl.
  destruct (contextLost (host st2)); run_simpl; simpl.
  - repeat split; try done.
  - rewrite lookup_app_r by lia. rewrite Nat.sub_diag. simpl.
    run_simpl. simpl.
    repeat split; try done; by rewrite length_replicate.
Qed.

(** C8. [_initMaterials] compiles the batch shader with the device's
    sampler count and, each time that fails with a count above 1, halves
    the count (integer division) and tries again; it ends either with a
    successful compilation, whose count stays in [_batchTextureCount],
    sizes the slot tables and is not changed by drawing, or with the
    exception "Cannot compile shader" once the count is 1 or less, in
    which case the constructor's initialisation throws as well. *)
Theorem initMaterials_halves_until_compiled (st : stage) :
  let n := MAX_TEXTURE_IMAGE_UNITS (host st) in
  let compiles := batchShaderCompiles (host st) in
  let st' := exec _initMaterials st in
  (exists k,
     (forall j, (j < k)%nat ->
        compiles (halved n j) = false /\ 1 < halved n j)
     /\ ((compiles (halved n k) = true
          /\ _batchTextureCount st' = halved n k
          /\ _mainShader st' = Some (BatchProgram (halved n k))
          /\ (contextLost (host st) = false ->
              result _initMaterials st = Return tt
              /\ length (_batchTextures st') = Z.to_nat (halved n k)
              /\ length (_baseTextures st') = Z.to_nat (halved n k)))
         \/ (compiles (halved n k) = false /\ halved n k <= 1
             /\ result _initMaterials st
                = Throw (Thrown "Cannot compile shader")
             /\ _mainShader st' = _mainShader st
             /\ forall canvasWidth canvasHeight,
                  result (_initializeWebGL canvasWidth canvasHeight) st
                  = Throw (Thrown "Cannot compile shader"))))
  /\ (forall a, 0 <= a < 2 ^ 32 -> JS.half_int32 a = a / 2)
  /\ (forall content ignoreCache s,
        _batchTextureCount (exec (draw content ignoreCache) s)
        = _batchTextureCount s
        /\ length (_batchTextures (exec (draw content ignoreCache) s))
           = length (_batchTextures s)).
Proof.
  cbv zeta. split; [|split].
  - destruct (initMaterials_prefix st) as (st1 & Hrun & Hhost & Hmain & Hn).
    fold initMaterials_rest in Hrun.
    destruct (compileLoop_34 st1) as (k & Hpre & Hout).
    rewrite Hhost, Hn in *. exists k. split; [exact Hpre|].
    destruct Hout as [[Hc Hr]|(Hc & Hle & Hr)].
    + left. split; [exact Hc|].
      rewrite (bind_Return _ _ _ _ _ Hr) in Hrun.
      unfold exec, result. rewrite Hrun.
      destruct (initMaterials_rest_run
                  (compiled (halved (MAX_TEXTURE_IMAGE_UNITS (host st)) k)
                     st1)) as (Hcount & Hshader & Hok).
      split; [exact Hcount|]. split; [exact Hshader|].
      intros Hlost. apply Hok. simpl. by rewrite Hhost.
    + right. split; [exact Hc|]. split; [exact Hle|].
      rewrite (bind_Throw _ _ _ _ _ Hr) in Hrun.
      unfold exec, result. rewrite Hrun. simpl.
      split; [done|]. split; [exact Hmain|].
      intros cw ch. unfold _initializeWebGL.
      by rewrite (bind_Throw _ _ _ _ _ Hrun).
  - apply half_int32_small.
  - intros content ignoreCache s.
    pose proof (stable_draw s content ignoreCache s (stable_refl s)) as Hs.
    unfold stable in Hs. tauto.
Qed.

End ShaderInit.
Module RenderTargets.

Import StageGL Run Invariants.
Local Open Scope js_scope.

(** ** The unbound identifiers of [getRenderBufferTexture] *)


Lemma getRenderBufferTexture_throws st width height :
  unbound_w st ->
  getRenderBufferTexture width height st = (Throw (ReferenceError "w"), st).
Proof.
  intros Hw. unfold getRenderBufferTexture.
  erewrite bind_Throw; [reflexivity|].
  unfold resolveIdentifier. cbn [lookupScope app moduleScope String.eqb
    Ascii.eqb Bool.eqb].
  rewrite bind_gets_run. unfold unbound_w in Hw. by rewrite Hw.
Qed.

Lemma AJ_getRenderBufferTexture_throws st width height :
  unbound_w st ->
  AJStageGL.getRenderBufferTexture width height st
  = (Throw (ReferenceError "w"), st).
Proof.
  intros Hw. unfold AJStageGL.getRenderBufferTexture.
  erewrite bind_Throw; [reflexivity|].
  unfold resolveIdentifier. cbn [lookupScope app AJStageGL.moduleScope
    String.eqb Ascii.eqb Bool.eqb].
  rewrite bind_gets_run. unfold unbound_w in Hw. by rewrite Hw.
Qed.

Ltac plain_tac :=
  repeat first
    [ pstep
    | apply preserves_getTexture
    | apply preserves_getImage
    | (apply preserves_modify; intros ? HS; exact HS) ].


Lemma noRenderTarget_compileLoop fuel :
  preserves noRenderTarget (compileLoop fuel).
Proof.
  induction fuel as [|fuel IH]; simpl; [apply preserves_throw|].
  unfold _fetchShaderProgram. plain_tac. exact IH.
Qed.

Lemma noRenderTarget_initMaterials : preserves noRenderTarget _initMaterials.
Proof.
  unfold _initMaterials, getBaseTexture, createTexture, resizeTexture,
    updTexture.
  plain_tac. apply noRenderTarget_compileLoop.
Qed.

Lemma noRenderTarget_updateRenderMode m :
  preserves noRenderTarget (_updateRenderMode m).
Proof.
  intros st [Hw Hd].
  pose proof (quiet_updateRenderMode st m st (quiet_refl st)) as [Hs _].
  unfold stable in Hs. destruct Hs as (Hh & _ & _ & Hdd & _).
  unfold noRenderTarget, unbound_w in *. by rewrite Hh, Hdd.
Qed.

Lemma noRenderTarget_updateViewport w h :
  preserves noRenderTarget (updateViewport w h).
Proof. unfold updateViewport, resizeTexture, updTexture. plain_tac. Qed.

Lemma throws_after {A B} (P : stage -> Prop) (m : M A) (k : A -> M B) :
  preserves P m ->
  (forall a st, P st -> exists e, result (k a) st = Throw e) ->
  forall st, P st -> exists e, result (bind m k) st = Throw e.
Proof.
  intros Hm Hk st HP. specialize (Hm st HP). unfold exec, result, bind in *.
  destruct (m st) as [[a|e] st']; simpl in *; [by apply Hk|by exists e].
Qed.

Lemma initializeWebGL_throws st canvasWidth canvasHeight :
  noRenderTarget st ->
  exists e, result (_initializeWebGL canvasWidth canvasHeight) st = Throw e.
Proof.
  unfold _initializeWebGL.
  apply throws_after; [apply noRenderTarget_initMaterials|intros _].
  apply throws_after; [apply noRenderTarget_updateRenderMode|intros _].
  apply throws_after; [apply noRenderTarget_updateViewport|intros _].
  intros st1 [Hw Hd]. unfold result. rewrite bind_gets_run, Hd.
  unfold when, negb.
  rewrite (bind_Throw _ _ _ _ _
             (getRenderBufferTexture_throws st1 _ _ Hw)).
  by eexists.
Qed.

Lemma resizeTexture_keeps_host t w h :
  preserves unbound_w (resizeTexture t w h).
Proof. unfold resizeTexture, updTexture. plain_tac. Qed.

(** C9. Where the global object has no property [w], every call of
    [getRenderBufferTexture], in StageGL and in AJStageGL, throws a
    ReferenceError for [w] before doing anything; so does not return:
    the initialisation of a stage without [directDraw], the immediate
    render of a card when a role buffer is missing, and the update of a
    cache rendered by a stage that has no output buffer yet. *)
Theorem getRenderBufferTexture_unbound_identifier (st : stage) :
  globalObject (host st) !! "w"%string = None ->
  (forall width height,
     getRenderBufferTexture width height st
     = (Throw (ReferenceError "w"), st)
     /\ AJStageGL.getRenderBufferTexture width height st
        = (Throw (ReferenceError "w"), st))
  /\ (forall canvasWidth canvasHeight,
        _directDraw st = false ->
        exists e,
          result (_initializeWebGL canvasWidth canvasHeight) st = Throw e)
  /\ (_batchTextureConcat st = None ->
      _immediateBatchRender st = (Throw (ReferenceError "w"), st))
  /\ (_batchTextureTemp st = None ->
      exists e, result _immediateBatchRender st = Throw e)
  /\ (forall c, _stageGL c = true -> bc_bufferTextureOutput c = None ->
        BitmapCache_update c st = (Throw (ReferenceError "w"), st))
  /\ (forall c t, _stageGL c = true ->
        bc_bufferTextureOutput c = Some t -> 1 <= _filterCount c ->
        bc_bufferTextureConcat c = None ->
        match resizeTexture (Some (TargetTexture t)) (_drawWidth c)
                (_drawHeight c) st with
        | (Return _, st1) =>
          BitmapCache_update c st = (Throw (ReferenceError "w"), st1)
        | (Throw e, st1) => BitmapCache_update c st = (Throw e, st1)
        end).
Proof.
  intros Hw. repeat split.
  - by apply getRenderBufferTexture_throws.
  - by apply AJ_getRenderBufferTexture_throws.
  - intros cw ch Hd. by apply initializeWebGL_throws.
  - intros Hc. unfold _immediateBatchRender. rewrite bind_gets_run, Hc.
    erewrite bind_Throw; [reflexivity|].
    erewrite bind_Throw; [reflexivity|].
    by apply getRenderBufferTexture_throws.
  - intros Ht. unfold _immediateBatchRender, result.
    rewrite bind_gets_run, Ht.
    destruct (_batchTextureConcat st) as [c|].
    + pose proof (resizeTexture_keeps_host (Some c) (_viewportWidth st)
                    (_viewportHeight st) st Hw) as Hw'.
      unfold exec in Hw'.
      destruct (resizeTexture _ _ _ st) as [[[]|e] st1] eqn:Hres;
        simpl in Hw'.
      * rewrite (bind_Return _ _ _ _ _ Hres).
        erewrite bind_Throw; [by eexists|].
        erewrite bind_Throw; [reflexivity|].
        by apply getRenderBufferTexture_throws.
      * rewrite (bind_Throw _ _ _ _ _ Hres). by eexists.
    + erewrite bind_Throw; [by eexists|].
      erewrite bind_Throw; [reflexivity|].
      by apply getRenderBufferTexture_throws.
  - intros c Hgl Hout. unfold BitmapCache_update. rewrite Hgl, Hout.
    erewrite bind_Throw; [reflexivity|].
    erewrite bind_Throw; [reflexivity|].
    erewrite bind_Throw; [reflexivity|].
    by apply getRenderBufferTexture_throws.
  - intros c t Hgl Hout Hfc Hconcat.
    pose proof (resizeTexture_keeps_host (Some (TargetTexture t))
                  (_drawWidth c) (_drawHeight c) st Hw) as Hw'.
    unfold exec in Hw'. unfold BitmapCache_update.
    rewrite Hgl, Hout, Hconcat.
    destruct (Z.leb_spec 1 (_filterCount c)) as [_|?]; [|lia].
    unfold when.
    destruct (resizeTexture _ _ _ st) as [[[]|e] st1] eqn:Hres;
      simpl in Hw'.
    + erewrite bind_Throw; [reflexivity|].
      rewrite (bind_Return _ _ _ _ _ Hres).
      erewrite bind_Throw; [reflexivity|].
      by apply getRenderBufferTexture_throws.
    + erewrite bind_Throw; [reflexivity|].
      by rewrite (bind_Throw _ _ _ _ _ Hres).
Qed.

(** A stage asked for without [directDraw], on the host of the examples. *)
Lemma getRenderBufferTexture_unbound_identifier_witness :
  let st := newStage demoHost false 170 1200 [] in
  globalObject (host st) !! "w"%string = None
  /\ getRenderBufferTexture 640 480 st = (Throw (ReferenceError "w"), st)
  /\ (exists e, result (_initializeWebGL 640 480) st = Throw e)
  /\ _immediateBatchRender st = (Throw (ReferenceError "w"), st).
Proof.
  cbv zeta.
  assert (Hw : globalObject (host (newStage demoHost false 170 1200 []))
               !! "w"%string = None) by reflexivity.
  destruct (getRenderBufferTexture_unbound_identifier _ Hw)
    as (Hget & Hinit & Himm & _).
  split; [exact Hw|]. split; [apply Hget|]. split; [by apply Hinit|].
  by apply Himm.
Defined.

End RenderTargets.

(** ** Texture slots: [_insertTextureInBatch] *)

Module Slots.

Import StageGL Run Invariants.
Local Open Scope js_scope.

Section Scan.

Variable st : stage.
Let n := _batchTextureCount st.
Let start := (_lastTextureInsert st + 1) mod n.
Hypothesis n_pos : 0 < n.
Hypothesis slots_length : length (_batchTextures st) = Z.to_nat n.
Hypothesis slots_live :
  forall i occ, _batchTextures st !! i = Some occ ->
                is_Some (textures st !! occ).

Let look (j : nat) : Z := (_lastTextureInsert st + 1 + Z.of_nat j) mod n.

Lemma look_range j : 0 <= look j < n.
Proof. apply Z.mod_pos_bound, n_pos. Qed.

Lemma look_0 : look 0 = start.
Proof. unfold look, start. f_equal. simpl. lia. Qed.

Lemma look_next j :
  JS.rem (look j + 1) n = Some (look (S j)).
Proof.
  unfold JS.rem. destruct (Z.eqb_spec n 0) as [?|_]; [lia|].
  f_equal. pose proof (look_range j).
  rewrite Z.rem_mod_nonneg by lia. unfold look.
  rewrite Z.add_mod_idemp_l by lia. f_equal. lia.
Qed.

Lemma look_wraps j :
  (j < Z.to_nat n)%nat ->
  (look (S j) =? start) = bool_decide (S j = Z.to_nat n).
Proof.
  intros Hj. rewrite <- look_0. unfold look.
  destruct (decide (S j = Z.to_nat n)) as [He|Hne].
  - rewrite bool_decide_eq_true_2 by done. apply Z.eqb_eq.
    replace (_lastTextureInsert st + 1 + Z.of_nat (S j))
      with (_lastTextureInsert st + 1 + Z.of_nat 0 + 1 * n) by lia.
    by rewrite Z.mod_add by lia.
  - rewrite bool_decide_eq_false_2 by done. apply Z.eqb_neq.
    intros Heq.
    assert (Hd : (Z.of_nat (S j)) mod n = 0).
    { apply (f_equal (fun z =>
               (z - (_lastTextureInsert st + 1 + Z.of_nat 0) mod n)
               mod n)) in Heq.
      rewrite Z.sub_diag, Z.mod_0_l in Heq by lia.
      rewrite <- Zminus_mod in Heq.
      rewrite <- Heq. f_equal. lia. }
    rewrite Z.mod_small in Hd by lia. lia.
Qed.

Lemma scanSlots_spec (k : nat) : forall j fuel,
  (j + k = Z.to_nat n)%nat -> (0 < k)%nat -> (k <= fuel)%nat ->
  scanSlots st start fuel (look j)
  = Return (find (fun l => eligible st l)
              (map look (seq j k))).
Proof.
  induction k as [|k IH]; intros j fuel Hjk Hk Hfuel; [lia|].
  destruct fuel as [|fuel]; [lia|]. simpl.
  pose proof (look_range j) as Hr.
  unfold eligible, at_index.
  destruct (Z.ltb_spec (look j) 0) as [?|_]; [lia|].
  destruct (_batchTextures st !! Z.to_nat (look j)) as [occ|] eqn:Hocc.
  2:{ apply lookup_ge_None in Hocc. lia. }
  destruct (slots_live _ _ Hocc) as [o Ho]. rewrite Ho.
  destruct (negb _ && negb _); [done|].
  fold n. rewrite look_next, look_wraps by lia.
  destruct (decide (S j = Z.to_nat n)) as [He|Hne].
  - rewrite bool_decide_eq_true_2 by done.
    assert (k = 0)%nat as -> by lia. done.
  - rewrite bool_decide_eq_false_2 by done.
    apply IH; lia.
Qed.

Lemma findSlot_spec :
  findSlot start st = (Return (roundRobinChoice st), st).
Proof.
  unfold findSlot, roundRobinChoice, roundRobin. f_equal. fold n.
  transitivity (scanSlots st start (S (Z.to_nat n)) (look 0));
    [by rewrite look_0|].
  apply (scanSlots_spec (Z.to_nat n) 0%nat); lia.
Qed.

End Scan.

Lemma flush_cases reason st :
  (_batchVertexCount st <= 0
   /\ flush reason st = (Return tt, set_batchReason reason st))
  \/ (0 < _batchVertexCount st /\ _activeShader st = None
      /\ exists e st', flush reason st = (Throw e, st'))
  \/ (0 < _batchVertexCount st
      /\ exists prog, _activeShader st = Some prog
         /\ flush reason st = (Return tt, flushed reason prog st)).
Proof.
  unfold flush, _renderBatch, flushed. run_simpl. simpl.
  destruct (Z.leb_spec (_batchVertexCount st) 0) as [Hle|Hgt]; run_simpl.
  - by left.
  - right. simpl. destruct (_activeShader st) as [prog|]; run_simpl.
    + right. split; [done|]. by exists prog.
    + left. split; [done|]. split; [done|]. by eexists _, _.
Qed.

Lemma slotView_refl st t x :
  textures st !! t = Some x -> slotView st t (t_activeIndex x) st.
Proof. intros Hx. unfold slotView. repeat split; try done. by exists x. Qed.

Lemma alter_keeps_index (f : texture -> texture) (l : list texture)
    (t t' : texref) index :
  (forall y, t_activeIndex (f y) = t_activeIndex y) ->
  (exists x, l !! t = Some x /\ t_activeIndex x = index) ->
  exists x, alter f t' l !! t = Some x /\ t_activeIndex x = index.
Proof.
  intros Hf (x & Hx & Hi). destruct (decide (t' = t)) as [->|Hne].
  - rewrite list_lookup_alter_eq, Hx. simpl. eexists. split; [done|].
    by rewrite Hf.
  - rewrite list_lookup_alter_ne by done. by exists x.
Qed.

Lemma slotView_log st0 t index e : preserves (slotView st0 t index) (log e).
Proof.
  intros st (?&?&?&?&?&?&Hlog). unfold exec, log, modify, slotView; simpl.
  repeat split; try done. intros e' He'. right. by apply Hlog.
Qed.

Lemma slotView_updImage st0 t index i f :
  preserves (slotView st0 t index) (updImage i f).
Proof. intros st HV. exact HV. Qed.

Lemma slotView_updTexture st0 t index t' f :
  (forall y, t_activeIndex (f y) = t_activeIndex y) ->
  preserves (slotView st0 t index) (updTexture t' f).
Proof.
  intros Hf st (?&?&?&?&?&Hx&Hlog).
  unfold exec, updTexture, modify, slotView; simpl.
  repeat split; try done. by apply alter_keeps_index.
Qed.

Lemma slotView_updateTextureImageData st0 t index i :
  preserves (slotView st0 t index) (_updateTextureImageData i).
Proof.
  unfold _updateTextureImageData.
  repeat first
    [ pstep
    | apply preserves_getTexture
    | apply preserves_getImage
    | apply slotView_log
    | apply slotView_updImage
    | (apply slotView_updTexture; intros []; reflexivity) ].
Qed.

Lemma slotView_refreshSource st0 t index x :
  preserves (slotView st0 t index) (refreshSource x).
Proof.
  unfold refreshSource. destruct (firstSource x); [|apply preserves_ret].
  apply preserves_bind; [apply preserves_getImage|intros img].
  apply preserves_when, slotView_updateTextureImageData.
Qed.

Lemma roundRobinChoice_range st k :
  0 < _batchTextureCount st ->
  roundRobinChoice st = Some k -> 0 <= k < _batchTextureCount st.
Proof.
  intros Hn Hk. unfold roundRobinChoice in Hk.
  apply find_some in Hk as [Hin _]. unfold roundRobin in Hin.
  apply in_map_iff in Hin as (j & <- & _). by apply Z.mod_pos_bound.
Qed.

(** The slot written, the slot recorded and the stamps after the part
    of [_insertTextureInBatch] that follows the choice of a slot. *)
Lemma insert_at_slot (s s' : stage) (t : texref) (x : texture) (found : Z) :
  textures s !! t = Some x ->
  ((modify (fun st => set_batchTextures
              (<[Z.to_nat found := t]> (_batchTextures st)) st) ;;;
    updTexture t (set_t_activeIndex (Some found)) ;;;
    refreshSource x ;;;
    modify (set_lastTextureInsert found)) ;;;
   let* st := gets (fun st => st) in
   updTexture t (fun x => set_t_batchID (Some (_batchID st))
                            (set_t_drawID (Some (_drawID st)) x))) s
  = (Return tt, s') ->
  _batchTextures s' = <[Z.to_nat found := t]> (_batchTextures s)
  /\ _lastTextureInsert s' = found
  /\ _batchID s' = _batchID s /\ _drawID s' = _drawID s
  /\ _batchVertexCount s' = _batchVertexCount s
  /\ (forall e, e ∈ gl_log s -> e ∈ gl_log s')
  /\ exists x', textures s' !! t = Some x'
       /\ t_activeIndex x' = Some found
       /\ t_batchID x' = Some (_batchID s')
       /\ t_drawID x' = Some (_drawID s').
Proof.
  intros Hx Hm.
  rewrite <- !bind_assoc_run in Hm.
  rewrite bind_modify_run in Hm. cbv beta in Hm.
  rewrite <- !bind_assoc_run in Hm.
  unfold updTexture at 1 in Hm.
  rewrite bind_modify_run in Hm. cbv beta in Hm.
  rewrite <- ?bind_assoc_run in Hm.
  match type of Hm with
  | context [bind (refreshSource x) _ ?s1] => set (s1' := s1) in *
  end.
  assert (HV : slotView s1' t (Some found) s1').
  { apply (slotView_refl s1' t (set_t_activeIndex (Some found) x)).
    subst s1'. simpl. by rewrite list_lookup_alter_eq, Hx. }
  apply (slotView_refreshSource s1' t (Some found) x) in HV.
  unfold exec in HV.
  destruct (refreshSource x s1') as [[[]|e] s2] eqn:Hrefresh.
  2:{ rewrite (bind_Throw _ _ _ _ _ Hrefresh) in Hm. done. }
  rewrite (bind_Return _ _ _ _ _ Hrefresh) in Hm.
  rewrite <- ?bind_assoc_run in Hm.
  rewrite bind_modify_run, bind_gets_run in Hm.
  simpl in HV. destruct HV as (HB & Hb & Hd & Hl & Hc & (x2 & Hx2 & Hi2) & Hlog).
  unfold updTexture, modify in Hm. injection Hm as <-. simpl.
  rewrite HB, Hb, Hd, Hc. subst s1'; simpl.
  repeat split; try done.
  exists (set_t_batchID (Some (_batchID s))
            (set_t_drawID (Some (_drawID s)) x2)).
  rewrite list_lookup_alter_eq, Hx2. simpl. auto.
Qed.

Lemma rem_start st :
  0 < _batchTextureCount st -> -1 <= _lastTextureInsert st ->
  JS.rem (_lastTextureInsert st + 1) (_batchTextureCount st)
  = Some ((_lastTextureInsert st + 1) mod _batchTextureCount st).
Proof.
  intros Hn Hl. unfold JS.rem.
  destruct (Z.eqb_spec (_batchTextureCount st) 0); [lia|].
  by rewrite Z.rem_mod_nonneg by lia.
Qed.

Lemma insert_only_there (l : list texref) (t : texref) (k : nat) :
  (k < length l)%nat -> (forall i, l !! i <> Some t) ->
  forall i, <[k := t]> l !! i = Some t <-> i = k.
Proof.
  intros Hk Hno i. destruct (decide (i = k)) as [->|Hne].
  - by rewrite list_lookup_insert_eq.
  - rewrite list_lookup_insert_ne by done. split; [by intros ?%Hno|done].
Qed.

(** C2. A texture that is not in the slot it has recorded is given the
    slot that the round-robin search from [(last + 1) mod n] finds: the
    first slot whose occupant was not used in the current batch and that
    is not blacklisted; when the search comes round without one, the
    batch is rendered with reason textureOverflow and the starting slot
    is taken.  Afterwards the texture is in the chosen slot (and in no
    other, if it was in none before), the slot is recorded as the last
    insertion and on the texture, and the texture carries the current
    batch and draw ids. *)
Theorem insertTextureInBatch_round_robin (st : stage) (t : texref)
    (x : texture) :
  let n := _batchTextureCount st in
  let start := (_lastTextureInsert st + 1) mod n in
  textures st !! t = Some x ->
  at_index (_batchTextures st) (t_activeIndex x) <> Some t ->
  0 < n -> length (_batchTextures st) = Z.to_nat n ->
  -1 <= _lastTextureInsert st ->
  (forall i occ, _batchTextures st !! i = Some occ ->
                 is_Some (textures st !! occ)) ->
  result (_insertTextureInBatch t) st = Return tt ->
  let st' := exec (_insertTextureInBatch t) st in
  let chosen := default start (roundRobinChoice st) in
  findSlot start st = (Return (roundRobinChoice st), st)
  /\ (is_Some (roundRobinChoice st) ->
      _batchID st' = _batchID st
      /\ _batchVertexCount st' = _batchVertexCount st)
  /\ (roundRobinChoice st = None -> 0 < _batchVertexCount st ->
      exists prog, _activeShader st = Some prog
        /\ DrawArrays "textureOverflow" (Some prog) (_renderMode st)
             (_batchVertexCount st) ∈ gl_log st'
        /\ _batchID st' = _batchID st + 1
        /\ _batchVertexCount st' = 0)
  /\ _batchTextures st' = <[Z.to_nat chosen := t]> (_batchTextures st)
  /\ _batchTextures st' !! Z.to_nat chosen = Some t
  /\ ((forall i, _batchTextures st !! i <> Some t) ->
      forall i, _batchTextures st' !! i = Some t <-> i = Z.to_nat chosen)
  /\ _lastTextureInsert st' = chosen
  /\ exists x', textures st' !! t = Some x'
       /\ t_activeIndex x' = Some chosen
       /\ t_batchID x' = Some (_batchID st')
       /\ t_drawID x' = Some (_drawID st').
Proof.
  intros n start Hx Hslot Hn Hlen Hlast Hlive.
  pose proof (findSlot_spec st Hn Hlen Hlive) as Hfind. fold n start in Hfind.
  unfold exec, result.
  destruct (_insertTextureInBatch t st) as [r st'] eqn:Hrun. simpl.
  intros ->. split; [done|].
  unfold _insertTextureInBatch in Hrun.
  assert (Hget : getTexture t st = (Return x, st)).
  { unfold getTexture. by rewrite Hx. }
  rewrite (bind_Return _ _ _ _ _ Hget), bind_gets_run in Hrun.
  rewrite bool_decide_eq_false_2 in Hrun by done. cbn [negb] in Hrun.
  rewrite <- bind_assoc_run, bind_gets_run, rem_start in Hrun by done.
  fold n start in Hrun.
  rewrite <- bind_assoc_run, (bind_Return _ _ _ _ _ Hfind) in Hrun.
  assert (Hstart : 0 <= start < n) by (apply Z.mod_pos_bound, Hn).
  destruct (roundRobinChoice st) as [k|] eqn:Hchoice; simpl.
  - pose proof (roundRobinChoice_range st k Hn Hchoice) as Hk. fold n in Hk.
    rewrite <- bind_assoc_run, bind_ret_run in Hrun.
    destruct (insert_at_slot _ _ _ _ _ Hx Hrun)
      as (HB & HL & Hb & Hd & Hc & Hlog & Hx').
    split; [done|]. split; [done|]. split; [done|].
    rewrite HB. split; [apply list_lookup_insert_eq; lia|].
    split; [|done]. intros Hno. apply insert_only_there; [lia|done].
  - rewrite <- !bind_assoc_run in Hrun.
    destruct (flush_cases "textureOverflow" st)
      as [(Hc0 & Hfl)|[(Hc0 & _ & e & s1 & Hfl)|(Hc0 & prog & Hp & Hfl)]].
    + rewrite (bind_Return _ _ _ _ _ Hfl), bind_ret_run in Hrun.
      destruct (insert_at_slot (set_batchReason _ st) _ _ _ _ Hx Hrun)
        as (HB & HL & Hb & Hd & Hc & Hlog & Hx').
      split; [by intros [? ?]|]. split; [lia|].
      rewrite HB. simpl. split; [done|].
      split; [apply list_lookup_insert_eq; lia|].
      split; [|done]. intros Hno. apply insert_only_there; [lia|done].
    + by rewrite (bind_Throw _ _ _ _ _ Hfl) in Hrun.
    + rewrite (bind_Return _ _ _ _ _ Hfl), bind_ret_run in Hrun.
      destruct (insert_at_slot (flushed _ prog st) _ _ _ _ Hx Hrun)
        as (HB & HL & Hb & Hd & Hc & Hlog & Hx').
      split; [by intros [? ?]|]. split.
      { intros _ _. exists prog. split; [done|]. split; [|by rewrite Hb, Hc].
        apply Hlog. left. }
      rewrite HB. simpl. split; [done|].
      split; [apply list_lookup_insert_eq; lia|].
      split; [|done]. intros Hno. apply insert_only_there; [lia|done].
Qed.

Lemma slots_live_of_Forall (st : stage) :
  forallb (fun occ => bool_decide (is_Some (textures st !! occ)))
          (_batchTextures st) = true ->
  forall i occ, _batchTextures st !! i = Some occ ->
                is_Some (textures st !! occ).
Proof.
  intros H i occ Hi. rewrite forallb_forall in H.
  eapply bool_decide_eq_true_1.
  apply (H occ (proj1 (list_elem_of_In _ _)
                       (list_elem_of_lookup_2 _ i occ Hi))).
Qed.

(** A texture just created on the stage of the examples takes slot 0,
    the first of the round from slot [(-1 + 1) mod 8]. *)
Lemma insertTextureInBatch_round_robin_witness :
  let st := exec createTexture (demoStage true 0) in
  let st' := exec (_insertTextureInBatch 1%nat) st in
  roundRobinChoice st = Some 0
  /\ _batchTextures st' !! 0%nat = Some 1%nat
  /\ (forall i, _batchTextures st' !! i = Some 1%nat <-> i = 0%nat)
  /\ _lastTextureInsert st' = 0
  /\ exists x', textures st' !! 1%nat = Some x'
       /\ t_activeIndex x' = Some 0
       /\ t_batchID x' = Some (_batchID st')
       /\ t_drawID x' = Some (_drawID st').
Proof.
  cbv zeta.
  pose (st := exec createTexture (demoStage true 0)).
  assert (Hx : textures st !! 1%nat
               = Some (mkTexture None None None None None None None
                         false false)) by (vm_compute; reflexivity).
  assert (Hslot : at_index (_batchTextures st)
                    (t_activeIndex (mkTexture None None None None None None
                                      None false false)) <> Some 1%nat)
    by (vm_compute; discriminate).
  assert (Hn : 0 < _batchTextureCount st) by (vm_compute; reflexivity).
  assert (Hlen : length (_batchTextures st)
                 = Z.to_nat (_batchTextureCount st))
    by (vm_compute; reflexivity).
  assert (Hlast : -1 <= _lastTextureInsert st) by (vm_compute; discriminate).
  assert (Hlive : forall i occ, _batchTextures st !! i = Some occ ->
                                is_Some (textures st !! occ))
    by (apply slots_live_of_Forall; vm_compute; reflexivity).
  assert (Hret : result (_insertTextureInBatch 1%nat) st = Return tt)
    by (vm_compute; reflexivity).
  assert (Hchoice : roundRobinChoice st = Some 0) by (vm_compute; reflexivity).
  destruct (insertTextureInBatch_round_robin st 1%nat _
              Hx Hslot Hn Hlen Hlast Hlive Hret)
    as (_ & _ & _ & _ & Hin & Honly & Hl & Hstamp).
  fold st. rewrite Hchoice in Hin, Honly, Hl, Hstamp. simpl in *.
  split; [done|]. split; [exact Hin|]. split; [|split; [exact Hl|exact Hstamp]].
  apply Honly. intros i. destruct i as [|[|[|[|[|[|[|[|i]]]]]]]];
    vm_compute; discriminate.
Defined.

End Slots.

(** ** Purging textures: [purgeTextures] *)

Module Registry.

Import StageGL Run Invariants.
Local Open Scope js_scope.

Lemma set_i_storeID_twice v img :
  set_i_storeID v (set_i_storeID v img) = set_i_storeID v img.
Proof. by destruct img. Qed.

Lemma expired_set_storeID count d v img :
  expired count d (set_i_storeID v img) = expired count d img.
Proof. by destruct img. Qed.

Lemma cleared_refl count d data imgs : cleared count d data imgs imgs.
Proof. split; [done|]. intros item img H. by left. Qed.

Lemma cleared_weaken count d data data' imgs0 imgs :
  (forall item, item ∈ data -> item ∈ data') ->
  cleared count d data imgs0 imgs -> cleared count d data' imgs0 imgs.
Proof.
  intros Hsub [Hlen H]. split; [done|]. intros item img Hi.
  destruct (H item img Hi) as [?|(?&?&?)]; [by left|right]. auto.
Qed.

Lemma cleared_trans count d data imgs0 imgs1 imgs2 :
  cleared count d data imgs0 imgs1 -> cleared count d data imgs1 imgs2 ->
  cleared count d data imgs0 imgs2.
Proof.
  intros [Hl1 H1] [Hl2 H2]. split; [congruence|]. intros item img Hi.
  destruct (H1 item img Hi) as [Hs|(Hs & Hin & He)].
  - apply (H2 item img Hs).
  - destruct (H2 _ _ Hs) as [Hs2|(Hs2 & _ & _)]; right.
    + done.
    + by rewrite set_i_storeID_twice in Hs2.
Qed.

Lemma cleared_expiredRef count data st imgs item :
  cleared count (_drawID st) data (images st) imgs ->
  expiredRef count (set_images imgs st) item = expiredRef count st item.
Proof.
  intros [Hlen H]. unfold expiredRef. simpl.
  destruct (images st !! item) as [img|] eqn:Hi.
  - destruct (H item img Hi) as [->|(-> & _ & _)]; [done|].
    apply expired_set_storeID.
  - apply lookup_ge_None in Hi. rewrite <- Hlen in Hi.
    apply lookup_ge_None in Hi. by rewrite Hi.
Qed.

Lemma cleared_keptSources count data st imgs l :
  cleared count (_drawID st) data (images st) imgs ->
  keptSources count (set_images imgs st) l = keptSources count st l.
Proof.
  intros H. unfold keptSources. induction l as [|item l IH]; [done|].
  simpl. by rewrite IH, (cleared_expiredRef _ data).
Qed.

Lemma cleared_one count d item img imgs :
  imgs !! item = Some img -> expired count d img = true ->
  cleared count d [item] imgs (alter (set_i_storeID None) item imgs).
Proof.
  intros Hi He. split; [by rewrite length_alter|]. intros item' img' Hi'.
  destruct (decide (item' = item)) as [->|Hne].
  - right. rewrite list_lookup_alter_eq, Hi. simpl.
    assert (img' = img) as -> by congruence.
    split; [done|]. split; [apply list_elem_of_singleton; done|done].
  - left. by rewrite list_lookup_alter_ne.
Qed.

(** The inner loop of [purgeTextures]: the sources kept are the ones that
    are not expired, and only expired sources of the list lose their
    [_storeID]. *)
Lemma purgeSources_run count data : forall st,
  (forall item, item ∈ data -> is_Some (images st !! item)) ->
  exists imgs,
    purgeSources count data st
    = (Return (keptSources count st data), set_images imgs st)
    /\ cleared count (_drawID st) data (images st) imgs
    /\ forall item img, item ∈ data -> images st !! item = Some img ->
         expired count (_drawID st) img = true ->
         imgs !! item = Some (set_i_storeID None img).
Proof.
  induction data as [|item rest IH]; intros st Hlive.
  - exists (images st). split; [by destruct st|].
    split; [apply cleared_refl|]. intros item img Hin. by apply elem_of_nil in Hin.
  - destruct (Hlive item) as [img Himg]; [left|].
    assert (Hget : getImage item st = (Return img, st)).
    { unfold getImage. by rewrite Himg. }
    simpl. rewrite (bind_Return _ _ _ _ _ Hget), bind_gets_run.
    unfold keptSources. simpl. unfold expiredRef at 1. rewrite Himg.
    fold (keptSources count st rest).
    destruct (expired count (_drawID st) img) eqn:He; simpl.
    + unfold updImage. rewrite bind_modify_run.
      set (st1 := set_images (alter (set_i_storeID None) item (images st)) st).
      pose proof (cleared_one count (_drawID st) item img (images st)
                    Himg He) as Hc1.
      destruct (IH st1) as (imgs & Hrun & Hc & Hexp).
      { intros item' Hin. simpl.
        destruct (Hlive item') as [img' Hi']; [by right|].
        destruct Hc1 as [_ Hc1]. destruct (Hc1 _ _ Hi') as [->|(-> & _)]; done. }
      exists imgs. rewrite Hrun. subst st1.
      rewrite (cleared_keptSources count [item]) by done.
      split; [done|]. simpl in Hc, Hexp.
      assert (Hall : cleared count (_drawID st) (item :: rest)
                       (images st) imgs).
      { eapply cleared_trans.
        - eapply cleared_weaken; [|exact Hc1].
          intros i Hi. apply list_elem_of_singleton in Hi as ->. left.
        - eapply cleared_weaken; [|exact Hc]. intros i Hi. by right. }
      split; [done|]. intros item' img' Hin Hi' He'.
      destruct (decide (item' ∈ rest)) as [Hr|Hnr].
      * destruct Hc1 as [_ Hc1].
        destruct (Hc1 _ _ Hi') as [Hs|(Hs & _ & _)].
        -- by apply Hexp.
        -- rewrite <- (set_i_storeID_twice None img').
           apply Hexp; [done|done|by rewrite expired_set_storeID].
      * apply elem_of_cons in Hin as [->|?]; [|done].
        assert (img' = img) as -> by congruence.
        destruct Hc as [_ Hc].
        destruct (Hc item (set_i_storeID None img)) as [Hs|(Hs & _ & _)].
        { by rewrite list_lookup_alter_eq, Himg. }
        -- done.
        -- by rewrite set_i_storeID_twice in Hs.
    + destruct (IH st) as (imgs & Hrun & Hc & Hexp).
      { intros item' Hin. apply Hlive. by right. }
      exists imgs. rewrite (bind_Return _ _ _ _ _ Hrun).
      split; [done|]. split.
      { eapply cleared_weaken; [|exact Hc]. intros i Hi. by right. }
      intros item' img' Hin Hi' He'.
      apply elem_of_cons in Hin as [->|Hin]; [congruence|by apply Hexp].
Qed.

(** When no source of the list is expired the list and the instance are
    left as they were. *)
Lemma purgeSources_none count data : forall st,
  (forall item, item ∈ data -> is_Some (images st !! item)) ->
  (forall item, item ∈ data -> expiredRef count st item = false) ->
  purgeSources count data st = (Return data, st).
Proof.
  induction data as [|item rest IH]; intros st Hlive Hno; [done|].
  destruct (Hlive item) as [img Himg]; [left|].
  assert (Hget : getImage item st = (Return img, st)).
  { unfold getImage. by rewrite Himg. }
  simpl. rewrite (bind_Return _ _ _ _ _ Hget), bind_gets_run.
  pose proof (Hno item) as He. unfold expiredRef in He. rewrite Himg in He.
  rewrite He by left.
  assert (Hrest : purgeSources count rest st = (Return rest, st)).
  { apply IH; intros i Hi; [apply Hlive|apply Hno]; by right. }
  by rewrite (bind_Return _ _ _ _ _ Hrest).
Qed.

Lemma registered_lt st k t :
  registered st k = Some t -> (k < length (_textureDictionary st))%nat.
Proof.
  unfold registered. intros H. apply lookup_lt_is_Some.
  destruct (_textureDictionary st !! k); [done|discriminate].
Qed.

(** [_killTextureObject] on a registered texture without sources. *)
Lemma killTextureObject_run st t x k :
  textures st !! t = Some x -> t_storeID x = Some (Z.of_nat k) ->
  t_imageData x = Some [] ->
  (k < length (_textureDictionary st))%nat ->
  exists st',
    _killTextureObject (Some t) st = (Return tt, st')
    /\ _drawID st' = _drawID st /\ images st' = images st
    /\ _textureDictionary st' = <[k := None]> (_textureDictionary st)
    /\ gl_log st' = DeleteTexture t :: gl_log st
    /\ (forall t', t' <> t -> textures st' !! t' = textures st !! t')
    /\ exists x', textures st' !! t = Some x' /\ t_imageData x' = None
         /\ t_storeID x' = None /\ t_deleted x' = true.
Proof.
  intros Hx Hs Hd Hk.
  assert (Hget : getTexture t st = (Return x, st)).
  { unfold getTexture. by rewrite Hx. }
  unfold _killTextureObject. rewrite (bind_Return _ _ _ _ _ Hget).
  rewrite Hs, Hd. 
  destruct (Z.leb_spec 0 (Z.of_nat k)) as [_|?]; [|lia].
  unfold when at 1. rewrite Nat2Z.id. unfold updTexture, updImage, log.
  run_simpl. cbn [forEach rev default]. run_simpl. simpl.
  assert (Hset : array_set (_textureDictionary st) k None
                 = <[k := None]> (_textureDictionary st)).
  { unfold array_set. by rewrite (proj2 (Nat.ltb_lt _ _) Hk). }
  rewrite Hset.
  destruct (bool_decide _);
    [destruct (at_index (_baseTextures st) _);
       [destruct (t_activeIndex x)|]|];
    (eexists; split; [reflexivity|]; simpl;
     repeat split; try done;
     [ intros t' Hne; by rewrite !list_lookup_alter_ne
     | rewrite !list_lookup_alter_eq, Hx; simpl; eexists; split; [done|];
       by destruct x ]).
Qed.

Lemma purgeEntry_skip_hole count st k :
  registered st k = None -> purgeEntry count k st = (Return tt, st).
Proof.
  intros H. unfold purgeEntry. rewrite bind_gets_run.
  unfold registered in H. by rewrite H.
Qed.

Lemma purgeEntry_skip_plain count st k t x :
  registered st k = Some t -> textures st !! t = Some x ->
  t_imageData x = None -> purgeEntry count k st = (Return tt, st).
Proof.
  intros H Hx Hd. unfold purgeEntry. rewrite bind_gets_run.
  unfold registered in H. rewrite H.
  assert (Hget : getTexture t st = (Return x, st)).
  { unfold getTexture. by rewrite Hx. }
  by rewrite (bind_Return _ _ _ _ _ Hget), Hd.
Qed.

(** One iteration of the outer loop on an entry with a source list. *)
Lemma purgeEntry_run count st k t x data :
  registered st k = Some t -> textures st !! t = Some x ->
  t_storeID x = Some (Z.of_nat k) -> t_imageData x = Some data ->
  (forall item, item ∈ data -> is_Some (images st !! item)) ->
  exists st',
    purgeEntry count k st = (Return tt, st')
    /\ _drawID st' = _drawID st
    /\ cleared count (_drawID st) data (images st) (images st')
    /\ (forall item img, item ∈ data -> images st !! item = Some img ->
          expired count (_drawID st) img = true ->
          images st' !! item = Some (set_i_storeID None img))
    /\ (forall t', t' <> t -> textures st' !! t' = textures st !! t')
    /\ (keptSources count st data <> [] ->
        _textureDictionary st' = _textureDictionary st
        /\ gl_log st' = gl_log st
        /\ textures st' !! t
           = Some (set_t_imageData (Some (keptSources count st data)) x))
    /\ (keptSources count st data = [] ->
        _textureDictionary st' = <[k := None]> (_textureDictionary st)
        /\ gl_log st' = DeleteTexture t :: gl_log st
        /\ exists x', textures st' !! t = Some x' /\ t_imageData x' = None
             /\ t_storeID x' = None /\ t_deleted x' = true).
Proof.
  intros Hreg Hx Hs Hd Hlive.
  pose proof (registered_lt _ _ _ Hreg) as Hk.
  unfold purgeEntry. rewrite bind_gets_run.
  unfold registered in Hreg. rewrite Hreg.
  assert (Hget : getTexture t st = (Return x, st)).
  { unfold getTexture. by rewrite Hx. }
  rewrite (bind_Return _ _ _ _ _ Hget), Hd.
  destruct (purgeSources_run count data st Hlive)
    as (imgs & Hrun & Hc & Hexp).
  rewrite (bind_Return _ _ _ _ _ Hrun).
  set (kept := keptSources count st data) in *.
  unfold updTexture. rewrite bind_modify_run.
  set (st1 := set_textures _ _).
  destruct (decide (kept = [])) as [He|Hne].
  - rewrite bool_decide_eq_true_2 by done. unfold when.
    destruct (killTextureObject_run st1 t (set_t_imageData (Some kept) x) k)
      as (st' & Hkill & Hdr & Him & Hdict & Hlog & Hoth & Hx').
    + subst st1. simpl. by rewrite list_lookup_alter_eq, Hx.
    + by destruct x.
    + rewrite He. by destruct x.
    + done.
    + exists st'. split; [done|]. rewrite Hdr, Him, Hdict, Hlog.
      subst st1. simpl. split; [done|]. split; [done|]. split; [done|].
      split.
      { intros t' Hn. rewrite Hoth by done. simpl.
        by rewrite list_lookup_alter_ne. }
      split; [done|]. intros _. done.
  - rewrite bool_decide_eq_false_2 by done. unfold when, ret.
    exists st1. split; [done|]. subst st1. simpl.
    split; [done|]. split; [done|]. split; [done|]. split.
    { intros t' Hn. by rewrite list_lookup_alter_ne. }
    split; [|done]. intros _. split; [done|]. split; [done|].
    by rewrite list_lookup_alter_eq, Hx.
Qed.

Lemma sourcesCleared_expiredRef count st0 st item :
  _drawID st = _drawID st0 -> sourcesCleared count st0 st ->
  expiredRef count st item = expiredRef count st0 item.
Proof.
  intros Hd [Hlen H]. unfold expiredRef. rewrite Hd.
  destruct (images st0 !! item) as [img|] eqn:Hi.
  - destruct (H item img Hi) as [->|(-> & _)]; [done|].
    apply expired_set_storeID.
  - apply lookup_ge_None in Hi. rewrite <- Hlen in Hi.
    apply lookup_ge_None in Hi. by rewrite Hi.
Qed.

Lemma sourcesCleared_keptSources count st0 st data :
  _drawID st = _drawID st0 -> sourcesCleared count st0 st ->
  keptSources count st data = keptSources count st0 data.
Proof.
  intros Hd H. unfold keptSources. induction data as [|item l IH]; [done|].
  simpl. by rewrite IH, (sourcesCleared_expiredRef count st0 st).
Qed.

Lemma PurgeInv_start count st : PurgeInv count st 0 st.
Proof.
  split; [done|]. split; [done|]. split.
  { split; [done|]. intros item img H. by left. }
  split.
  { split; [done|]. intros e H. by left. }
  split; [done|]. split; [done|]. split; [by left|].
  intros j t data Hj. lia.
Qed.





Lemma purged_keep count st0 st st' j t data :
  purged count st0 st j t data ->
  registered st' j = registered st j ->
  textures st' !! t = textures st !! t ->
  (forall e, e ∈ gl_log st -> e ∈ gl_log st') ->
  (forall item img, images st !! item = Some img ->
     exists img', images st' !! item = Some img'
       /\ (i_storeID img = None -> i_storeID img' = None)) ->
  purged count st0 st' j t data.
Proof.
  intros (Hk & Hd & Hi) Hreg Htex Hlog Himg. split; [|split].
  - intros Hne. destruct (Hk Hne) as (Hr & x & Hx & Hdata).
    split; [congruence|]. exists x. by rewrite Htex.
  - intros He. destruct (Hd He) as (Hr & Hdel & Hx).
    split; [congruence|]. split; [by apply Hlog|]. by rewrite Htex.
  - intros item Hin Hex. destruct (Hi item Hin Hex) as (img & Him & Hs).
    destruct (Himg item img Him) as (img' & Him' & Hs').
    exists img'. auto.
Qed.

(** One entry of the outer loop keeps the invariant. *)
Lemma PurgeInv_step count st0 k st :
  registryOK st0 -> (k < length (_textureDictionary st0))%nat ->
  PurgeInv count st0 k st ->
  exists st', purgeEntry count k st = (Return tt, st')
              /\ PurgeInv count st0 (S k) st'.
Proof.
  intros Hok Hk (Hdr & Hlen & Hsc & Hdel & Hdict & Htex & Hun & Hdone).
  assert (Hreg : registered st k = registered st0 k).
  { unfold registered. by rewrite Hdict. }
  assert (Hsame : PurgeInv count st0 (S k) st ->
                  exists st', (Return tt, st) = (Return tt, st')
                              /\ PurgeInv count st0 (S k) st')
    by (intros ?; by exists st).
  assert (Hrest : (forall j, (S k <= j)%nat ->
                     _textureDictionary st !! j = _textureDictionary st0 !! j)
                  /\ (forall j t, (S k <= j)%nat -> registered st0 j = Some t ->
                        textures st !! t = textures st0 !! t)).
  { split; [intros j Hj; apply Hdict; lia|].
    intros j t Hj. apply Htex. lia. }
  destruct (registered st0 k) as [t|] eqn:Hr0.
  2:{ rewrite purgeEntry_skip_hole by done. apply Hsame.
      repeat (split; [done || apply Hrest|]).
      intros j t data Hj Hatt.
      destruct (decide (j = k)) as [->|?];
        [destruct Hatt as (Hr & _); congruence|].
      apply Hdone; [lia|done]. }
  destruct (Hok k t Hr0) as (x & Hx0 & Hs & Hlive0).
  assert (Hx : textures st !! t = Some x) by (by rewrite (Htex k t)).
  destruct (t_imageData x) as [data|] eqn:Hdata.
  2:{ rewrite (purgeEntry_skip_plain count st k t x) by done. apply Hsame.
      repeat (split; [done || apply Hrest|]).
      intros j t' data Hj Hatt.
      destruct (decide (j = k)) as [->|?]; [|apply Hdone; [lia|done]].
      destruct Hatt as (Hr & x' & Hx' & Hd'). congruence. }
  assert (Hlive : forall item, item ∈ data -> is_Some (images st !! item)).
  { intros item Hin. destruct (Hlive0 data item eq_refl Hin) as [img Hi].
    destruct Hsc as [_ Hsc]. destruct (Hsc item img Hi) as [->|(-> & _)]; done. }
  destruct (purgeEntry_run count st k t x data Hreg Hx Hs Hdata Hlive)
    as (st' & Hrun & Hdr' & Hc & Hexp & Hoth & Hkept & Hnone).
  rewrite (sourcesCleared_keptSources count st0 st) in Hkept, Hnone by done.
  exists st'. split; [done|].
  assert (Hatt : attached st0 k t data) by (split; [done|by exists x]).
  assert (Hlen' : length (_textureDictionary st')
                  = length (_textureDictionary st0)).
  { destruct (decide (keptSources count st0 data = [])) as [He|Hne].
    - destruct (Hnone He) as (-> & _). by rewrite length_insert.
    - destruct (Hkept Hne) as (-> & _). done. }
  assert (Hdict' : forall j, j <> k ->
            _textureDictionary st' !! j = _textureDictionary st !! j).
  { intros j Hj.
    destruct (decide (keptSources count st0 data = [])) as [He|Hne].
    - destruct (Hnone He) as (-> & _). by rewrite list_lookup_insert_ne.
    - destruct (Hkept Hne) as (-> & _). done. }
  assert (Hlog' : forall e, e ∈ gl_log st -> e ∈ gl_log st').
  { intros e He'.
    destruct (decide (keptSources count st0 data = [])) as [He|Hne].
    - destruct (Hnone He) as (_ & -> & _). by right.
    - destruct (Hkept Hne) as (_ & -> & _). done. }
  assert (Himg' : forall item img, images st !! item = Some img ->
            exists img', images st' !! item = Some img'
              /\ (i_storeID img = None -> i_storeID img' = None)).
  { intros item img Hi. destruct Hc as [_ Hc].
    destruct (Hc item img Hi) as [->|(-> & _)]; eexists; split; done. }
  split; [congruence|]. split; [done|]. split.
  { destruct Hsc as [Hl Hsc], Hc as [Hl' Hc]. split; [congruence|].
    intros item img Hi. rewrite Hdr in Hc.
    destruct (Hsc item img Hi) as [Hs1|(Hs1 & He1 & Hw1)].
    - destruct (Hc item img Hs1) as [Hs2|(Hs2 & Hin2 & He2)]; [by left|].
      right. split; [done|]. split; [done|]. by exists k, t, data.
    - right. split; [|done].
      destruct (Hc _ _ Hs1) as [Hs2|(Hs2 & _)]; [done|].
      by rewrite set_i_storeID_twice in Hs2. }
  split.
  { destruct Hdel as [Hd1 Hd2]. split; [by auto|]. intros e He'.
    destruct (decide (keptSources count st0 data = [])) as [He|Hne].
    - destruct (Hnone He) as (_ & Hl & _). rewrite Hl in He'.
      apply elem_of_cons in He' as [->|He']; [|by apply Hd2].
      right. by exists k, t, data.
    - destruct (Hkept Hne) as (_ & Hl & _). rewrite Hl in He'. by apply Hd2. }
  split.
  { intros j Hj. rewrite Hdict' by lia. apply Hdict. lia. }
  assert (Hinj : forall j t', j <> k -> registered st0 j = Some t' -> t' <> t).
  { intros j t' Hj Hr' ->. destruct (Hok j t Hr') as (x' & Hx' & Hs' & _).
    assert (x' = x) as -> by congruence. rewrite Hs in Hs'.
    injection Hs' as Hs'. lia. }
  split.
  { intros j t' Hj Hr'. rewrite Hoth; [apply (Htex j); [lia|done]|].
    apply (Hinj j); [lia|done]. }
  split.
  { intros j t' Hr'. destruct (decide (j = k)) as [->|Hjk].
    - assert (t' = t) as -> by congruence.
      destruct (decide (keptSources count st0 data = [])) as [He|Hne].
      + right. by exists data.
      + left. destruct (Hkept Hne) as (Hd1 & _).
        unfold registered. by rewrite Hd1, Hdict, <- Hr0.
    - destruct (Hun j t' Hr') as [Hl|Hr]; [left|by right].
      unfold registered. by rewrite Hdict'. }
  intros j t' data' Hj Hatt'.
  destruct (decide (j = k)) as [->|Hjk].
  - destruct Hatt' as (Hr' & x' & Hx' & Hd').
    assert (t' = t) as -> by congruence.
    assert (x' = x) as -> by congruence.
    assert (data' = data) as -> by congruence.
    split; [|split].
    + intros Hne. destruct (Hkept Hne) as (Hd1 & _ & Hx1).
      split; [unfold registered; by rewrite Hd1, Hdict, <- Hr0|].
      eexists. split; [exact Hx1|]. by destruct x.
    + intros He. destruct (Hnone He) as (Hd1 & Hl1 & x1 & Hx1 & ? & ? & ?).
      split.
      { unfold registered. rewrite Hd1, list_lookup_insert_eq; [done|lia]. }
      split; [rewrite Hl1; left|]. by exists x1.
    + intros item Hin Hex.
      rewrite <- (sourcesCleared_expiredRef count st0 st) in Hex by done.
      unfold expiredRef in Hex.
      destruct (images st !! item) as [img|] eqn:Hi; [|done].
      eexists. split; [by apply Hexp|]. by destruct img.
  - apply (purged_keep count st0 st); try done.
    + apply Hdone; [lia|done].
    + unfold registered. by rewrite Hdict'.
    + apply Hoth. destruct Hatt' as (Hr' & _). by apply (Hinj j).
Qed.
(** The outer loop from the entry [k] on. *)
Lemma purge_loop count st0 (m : nat) : forall k st,
  registryOK st0 -> (k + m = length (_textureDictionary st0))%nat ->
  PurgeInv count st0 k st ->
  exists st', forEach (purgeEntry count) (seq k m) st = (Return tt, st')
              /\ PurgeInv count st0 (k + m) st'.
Proof.
  induction m as [|m IH]; intros k st Hok Hkm Hinv.
  - exists st. by rewrite Nat.add_0_r.
  - destruct (PurgeInv_step count st0 k st Hok) as (st1 & Hrun & Hinv1);
      [lia|done|].
    destruct (IH (S k) st1 Hok) as (st' & Hrest & Hinv'); [lia|done|].
    exists st'. simpl. rewrite (bind_Return _ _ _ _ _ Hrun).
    split; [done|]. by replace (k + S m)%nat with (S k + m)%nat by lia.
Qed.

Lemma alter_same {A} (f : A -> A) (l : list A) (i : nat) (x : A) :
  l !! i = Some x -> f x = x -> alter f i l = l.
Proof.
  intros Hx Hf. apply list_eq. intros j.
  destruct (decide (j = i)) as [->|Hne].
  - rewrite list_lookup_alter_eq, Hx. simpl. by rewrite Hf.
  - by rewrite list_lookup_alter_ne.
Qed.

(** An entry whose sources are all recent is left alone. *)
Lemma purgeEntry_noop count st k :
  registryOK st ->
  (forall t data, attached st k t data ->
     data <> [] /\ forall item, item ∈ data -> expiredRef count st item = false) ->
  purgeEntry count k st = (Return tt, st).
Proof.
  intros Hok Hno.
  destruct (registered st k) as [t|] eqn:Hr;
    [|by apply purgeEntry_skip_hole].
  destruct (Hok k t Hr) as (x & Hx & Hs & Hlive).
  destruct (t_imageData x) as [data|] eqn:Hd;
    [|by apply (purgeEntry_skip_plain count st k t x)].
  destruct (Hno t data) as [Hne Hrecent]; [split; [done|by exists x]|].
  unfold purgeEntry. rewrite bind_gets_run.
  unfold registered in Hr. rewrite Hr.
  assert (Hget : getTexture t st = (Return x, st)).
  { unfold getTexture. by rewrite Hx. }
  rewrite (bind_Return _ _ _ _ _ Hget), Hd.
  rewrite (bind_Return _ _ _ _ _
             (purgeSources_none count data st
                (fun item => Hlive data item eq_refl) Hrecent)).
  unfold updTexture. rewrite bind_modify_run.
  rewrite bool_decide_eq_false_2 by done. unfold when, ret.
  rewrite (alter_same _ _ t x Hx).
  2:{ clear -Hd. destruct x. simpl in Hd. by rewrite Hd. }
  by destruct st.
Qed.

Lemma purge_noop count st (l : list nat) :
  registryOK st ->
  (forall i t data, attached st i t data ->
     data <> [] /\ forall item, item ∈ data -> expiredRef count st item = false) ->
  forEach (purgeEntry count) l st = (Return tt, st).
Proof.
  intros Hok Hno. induction l as [|k l IH]; [done|]. simpl.
  rewrite (bind_Return _ _ _ _ _ (purgeEntry_noop count st k Hok (Hno k))).
  exact IH.
Qed.
Lemma registryWithin_leaf st0 (f : stage -> stage) :
  (forall st, _textureDictionary (f st) = _textureDictionary st) ->
  preserves (registryWithin st0) (modify f).
Proof.
  intros Hf st H i t. unfold exec, modify, registered. simpl.
  rewrite Hf. apply H.
Qed.

Lemma registryWithin_unset st0 k :
  preserves (registryWithin st0)
    (modify (fun st => set_textureDictionary
               (array_set (_textureDictionary st) k None) st)).
Proof.
  intros st H i t. unfold exec, modify, registered, array_set. simpl.
  destruct (Nat.ltb_spec k (length (_textureDictionary st))) as [Hk|Hk].
  - destruct (decide (i = k)) as [->|Hne].
    + by rewrite list_lookup_insert_eq.
    + rewrite list_lookup_insert_ne by done. apply H.
  - intros Hi. destruct (decide (i < length (_textureDictionary st))%nat).
    + rewrite lookup_app_l in Hi by done. by apply H.
    + rewrite lookup_app_r in Hi by lia.
      destruct (decide (i - length (_textureDictionary st)
                        < k - length (_textureDictionary st))%nat).
      * rewrite lookup_app_l in Hi by (by rewrite length_replicate).
        rewrite lookup_replicate_2 in Hi by done. done.
      * rewrite lookup_app_r in Hi by (rewrite length_replicate; lia).
        rewrite length_replicate in Hi.
        by destruct (i - _ - _)%nat.
Qed.

Ltac within_tac :=
  repeat first
    [ pstep
    | apply preserves_getTexture
    | apply preserves_getImage
    | apply registryWithin_unset
    | (apply registryWithin_leaf; intros; reflexivity) ].

Lemma registryWithin_purgeSources st0 c l :
  preserves (registryWithin st0) (purgeSources c l).
Proof.
  induction l as [|i l IH]; simpl; unfold updImage; within_tac; apply IH.
Qed.

Lemma registryWithin_kill st0 t :
  preserves (registryWithin st0) (_killTextureObject t).
Proof. unfold _killTextureObject, updTexture, updImage, log. within_tac. Qed.

(** A purge registers nothing. *)
Lemma registryWithin_purgeTextures st0 c :
  preserves (registryWithin st0) (purgeTextures c).
Proof.
  unfold purgeTextures, purgeEntry, updTexture. within_tac.
  - apply registryWithin_purgeSources.
  - apply registryWithin_kill.
Qed.
(** C7. On a well-formed registry [purgeTextures] returns, and of
    every registered texture it keeps attached exactly the sources [item]
    for which [item._drawID + count <= this._drawID] fails, in order, and
    removes the [_storeID] of the others; a texture is unregistered and
    deleted only when none of its sources stays attached, and images lose
    their [_storeID] only as expired sources of registered textures.  When
    every registered source list has a source and none is expired the
    instance is left as it was.  No purge registers a texture: what an
    earlier call removed stays removed after any later call. *)
Theorem purgeTextures_removes_expired (st : stage) (count : option Z) :
  registryOK st ->
  let c := default 100 count in
  let st' := exec (purgeTextures count) st in
  result (purgeTextures count) st = Return tt
  /\ (forall i t data, attached st i t data -> purged c st st' i t data)
  /\ (forall i t, registered st i = Some t ->
        registered st' i = Some t
        \/ exists data, attached st i t data /\ keptSources c st data = [])
  /\ deletionsOnly c st st'
  /\ sourcesCleared c st st'
  /\ ((forall i t data, attached st i t data ->
         data <> []
         /\ forall item, item ∈ data -> expiredRef c st item = false) ->
      st' = st)
  /\ registryWithin st st'
  /\ forall count2, registryWithin st' (exec (purgeTextures count2) st').
Proof.
  intros Hok c st'.
  assert (Hrun : exists s, purgeTextures count st = (Return tt, s)
                           /\ PurgeInv c st (length (_textureDictionary st)) s).
  { unfold purgeTextures. rewrite bind_gets_run.
    apply (purge_loop c st _ 0%nat st Hok); [lia|apply PurgeInv_start]. }
  destruct Hrun as (s & Hrun & Hinv).
  assert (Hs : st' = s) by (subst st'; unfold exec; by rewrite Hrun).
  unfold result. rewrite Hrun, Hs. clear Hs st'.
  destruct Hinv as (Hdr & Hlen & Hsc & Hdel & Hdict & Htex & Hun & Hdone).
  split; [done|]. split.
  { intros i t data Hatt. apply Hdone; [|done].
    destruct Hatt as [Hr _]. by apply registered_lt in Hr. }
  split; [done|]. split; [done|]. split; [done|]. split.
  { intros Hno. unfold purgeTextures in Hrun. rewrite bind_gets_run in Hrun.
    rewrite (purge_noop c st _ Hok Hno) in Hrun. congruence. }
  split.
  { replace s with (exec (purgeTextures count) st)
      by (unfold exec; by rewrite Hrun).
    apply registryWithin_purgeTextures. by intros i t. }
  intros count2. apply registryWithin_purgeTextures. by intros i t.
Qed.
Lemma registryOKb_sound st : registryOKb st = true -> registryOK st.
Proof.
  unfold registryOKb. rewrite forallb_forall. intros H i t Hr.
  specialize (H i). rewrite Hr in H.
  destruct (textures st !! t) as [x|].
  2:{ discriminate H. apply in_seq. apply registered_lt in Hr. lia. }
  exists x. split; [done|].
  apply andb_prop in H as [Hs Hi];
    [|apply in_seq; apply registered_lt in Hr; lia].
  split; [by apply bool_decide_eq_true_1 in Hs|].
  intros data item Hd Hin. rewrite Hd in Hi. simpl in Hi.
  rewrite forallb_forall in Hi. eapply bool_decide_eq_true_1, Hi.
  by apply list_elem_of_In.
Qed.

Lemma attached_intro st i t x data :
  _textureDictionary st !! i = Some (Some t) ->
  textures st !! t = Some x -> t_imageData x = Some data ->
  attached st i t data.
Proof.
  intros Hd Hx Hdata. split; [unfold registered; by rewrite Hd|]. by exists x.
Qed.

(** After the two draws of the example a purge of the sources not drawn
    for one draw keeps the texture of the first bitmap and deletes that
    of the second. *)
Lemma purgeTextures_removes_expired_witness :
  registryOK twoDraws
  /\ result (purgeTextures (Some 1)) twoDraws = Return tt
  /\ attached (exec (purgeTextures (Some 1)) twoDraws) 0 1 [0%nat]
  /\ registered (exec (purgeTextures (Some 1)) twoDraws) 1 = None
  /\ DeleteTexture 2 ∈ gl_log (exec (purgeTextures (Some 1)) twoDraws).
Proof.
  assert (Hok : registryOK twoDraws)
    by (apply registryOKb_sound; vm_compute; reflexivity).
  assert (Ha0 : attached twoDraws 0 1 [0%nat])
    by (eapply attached_intro; vm_compute; reflexivity).
  assert (Ha1 : attached twoDraws 1 2 [1%nat])
    by (eapply attached_intro; vm_compute; reflexivity).
  assert (Hk0 : keptSources (default 100 (Some 1)) twoDraws [0%nat]
                = [0%nat]) by (vm_compute; reflexivity).
  assert (Hk1 : keptSources (default 100 (Some 1)) twoDraws [1%nat] = [])
    by (vm_compute; reflexivity).
  pose proof (purgeTextures_removes_expired twoDraws (Some 1) Hok) as H.
  cbv zeta in H. destruct H as (Hret & Hpurged & _).
  split; [exact Hok|]. split; [exact Hret|].
  destruct (Hpurged _ _ _ Ha0) as (Hkeep & _).
  destruct (Hpurged _ _ _ Ha1) as (_ & Hgone & _).
  rewrite Hk0 in Hkeep. rewrite Hk1 in Hgone.
  split; [apply Hkeep; discriminate|].
  destruct (Hgone eq_refl) as (Hr & Hdel & _). split; assumption.
Defined.

End Registry.

(** ** The vertex cursor and the capacity *)

Module Batching.

Import StageGL Run Invariants.
Local Open Scope js_scope.

Lemma batchLog_cards C c0 l :
  0 <= c0 -> batchLog C c0 l ->
  forall cfg v uv ti a m, WriteCard cfg v uv ti a m ∈ l ->
    0 <= v /\ v + INDICIES_PER_CARD <= C.
Proof.
  intros Hc. induction l as [|e l IH]; intros Hb cfg v uv ti a m Hin.
  - by apply elem_of_nil in Hin.
  - apply elem_of_cons in Hin as [<-|Hin].
    + destruct Hb as (-> & Hfit & _). split; [by apply cursorOf_nonneg|done].
    + apply (IH ltac:(destruct e; simpl in Hb; tauto) cfg v uv ti a m Hin).
Qed.

Lemma batchLog_draws C c0 l :
  0 <= c0 <= C -> batchLog C c0 l ->
  cursorOf c0 l <= C
  /\ forall reason p mode n, DrawArrays reason p mode n ∈ l ->
       0 < n <= C
       /\ (reason = "vertexOverflow"%string -> C < n + INDICIES_PER_CARD).
Proof.
  intros Hc. induction l as [|e l IH]; intros Hb.
  - simpl. split; [lia|]. intros ???? Hin. by apply elem_of_nil in Hin.
  - assert (Hl : batchLog C c0 l) by (destruct e; simpl in Hb; tauto).
    destruct (IH Hl) as [Hcur Hd]. split.
    + destruct e; simpl in *; try done; unfold INDICIES_PER_CARD in *; lia.
    + intros reason p mode n Hin. apply elem_of_cons in Hin as [<-|Hin].
      * destruct Hb as (-> & Hpos & _ & _ & Hov & _). split; [lia|done].
      * by apply (Hd reason p mode n).
Qed.

(** C1. From a cursor within the capacity, which holds a card, the
    traversal of a display list leaves the cursor within the capacity;
    every card in between was written at a cursor that left room for its
    six vertices, and every batch drawn held at most the capacity.  Before
    a card is written the cursor is tested: when six more vertices would
    exceed the capacity the batch is rendered with reason vertexOverflow,
    which, when it returns, leaves the cursor at zero; otherwise nothing
    is done. *)
Theorem appendToBatch_cursor_within_capacity (st : stage)
    (container : displayObject) (concatAlpha : Q) (ignoreCache : bool) :
  INDICIES_PER_CARD <= _maxBatchVertexCount st ->
  0 <= _batchVertexCount st <= _maxBatchVertexCount st ->
  let C := _maxBatchVertexCount st in
  let st' := exec (_appendToBatch container concatAlpha ignoreCache) st in
  _maxBatchVertexCount st' = C
  /\ 0 <= _batchVertexCount st' <= C
  /\ (exists new,
        gl_log st' = new ++ gl_log st
        /\ (forall cfg v uv ti a m, WriteCard cfg v uv ti a m ∈ new ->
              0 <= v /\ v + INDICIES_PER_CARD <= C)
        /\ (forall reason p mode n, DrawArrays reason p mode n ∈ new ->
              0 < n <= C
              /\ (reason = "vertexOverflow"%string ->
                  C < n + INDICIES_PER_CARD)))
  /\ (forall s,
        _batchVertexCount s + INDICIES_PER_CARD <= _maxBatchVertexCount s ->
        flushOnVertexOverflow s = (Return tt, s))
  /\ (forall s,
        _maxBatchVertexCount s < _batchVertexCount s + INDICIES_PER_CARD ->
        flushOnVertexOverflow s = flush "vertexOverflow" s
        /\ (result (flush "vertexOverflow") s = Return tt ->
            0 < _batchVertexCount s ->
            _batchVertexCount (exec (flush "vertexOverflow") s) = 0
            /\ exists prog,
                 gl_log (exec (flush "vertexOverflow") s)
                 = DrawArrays "vertexOverflow" (Some prog) (_renderMode s)
                     (_batchVertexCount s) :: gl_log s)).
Proof.
  intros HC Hcur C st'.
  assert (HB : BatchInv C (_batchVertexCount st) (gl_log st) 0 st).
  { split; [done|]. split; [done|]. unfold INDICIES_PER_CARD.
    split; [lia|]. split; [done|]. exists []. simpl.
    repeat split; try done; lia. }
  apply (BatchInv_appendToBatch C _ _ container concatAlpha ignoreCache)
    in HB.
  fold st' in HB.
  destruct HB as (_ & _ & _ & Hmax & new & Hlog & Hbl & Hc & Hfit & _).
  destruct (batchLog_draws C _ new Hcur Hbl) as [Hle Hdraws].
  split; [done|]. split.
  { rewrite Hc. split; [apply cursorOf_nonneg; lia|done]. }
  split.
  { exists new. split; [done|]. split; [|done].
    apply (batchLog_cards C (_batchVertexCount st)); [lia|done]. }
  split.
  - intros s Hs. unfold flushOnVertexOverflow. rewrite bind_gets_run.
    destruct (Z.gtb_spec (_batchVertexCount s + INDICIES_PER_CARD)
                (_maxBatchVertexCount s)) as [?|_]; [lia|done].
  - intros s Hs. split.
    + unfold flushOnVertexOverflow. rewrite bind_gets_run.
      destruct (Z.gtb_spec (_batchVertexCount s + INDICIES_PER_CARD)
                  (_maxBatchVertexCount s)) as [_|?]; [done|lia].
    + intros Hret Hpos. unfold result, exec in *.
      destruct (Slots.flush_cases "vertexOverflow" s)
        as [(Hc0 & Hfl)|[(Hc0 & _ & e & s1 & Hfl)|(Hc0 & prog & Hp & Hfl)]].
      * lia.
      * rewrite Hfl in Hret. discriminate Hret.
      * rewrite Hfl. simpl. split; [done|]. by exists prog.
Qed.

(** One bitmap more than the least capacity holds, on the stage of the
    examples: the cursor stays within the 1020 vertices. *)
Lemma appendToBatch_cursor_within_capacity_witness :
  let st := demoStage true 1 in
  let st' := exec (_appendToBatch
                     (sceneOf (replicate 171 (bitmapOf 0 1 None))) 1 false)
                  st in
  INDICIES_PER_CARD <= _maxBatchVertexCount st
  /\ 0 <= _batchVertexCount st <= _maxBatchVertexCount st
  /\ _maxBatchVertexCount st' = _maxBatchVertexCount st
  /\ 0 <= _batchVertexCount st' <= _maxBatchVertexCount st.
Proof.
  cbv zeta.
  assert (H1 : INDICIES_PER_CARD <= _maxBatchVertexCount (demoStage true 1))
    by (vm_compute; discriminate).
  assert (H2 : 0 <= _batchVertexCount (demoStage true 1)
               <= _maxBatchVertexCount (demoStage true 1))
    by (vm_compute; split; discriminate).
  pose proof (appendToBatch_cursor_within_capacity (demoStage true 1)
                (sceneOf (replicate 171 (bitmapOf 0 1 None))) 1 false
                H1 H2) as H.
  cbv zeta in H. destruct H as (Hm & Hc & _).
  split; [exact H1|]. split; [exact H2|]. split; [exact Hm|exact Hc].
Defined.

End Batching.

(** ** The batches of a draw: [_drawContent] *)

Module FlushCount.

Import StageGL Run Invariants Batching.
Local Open Scope js_scope.

Lemma batchLog_app C c0 l2 l1 : batchLog C c0 (l2 ++ l1) -> batchLog C c0 l1.
Proof.
  induction l2 as [|e l2 IH]; [done|]. simpl.
  intros H. apply IH. destruct e; simpl in H; tauto.
Qed.

Lemma cursorOf_no_draw c0 l2 l1 :
  drawCount l2 = 0%nat -> cursorOf c0 l1 <= cursorOf c0 (l2 ++ l1).
Proof.
  induction l2 as [|e l2 IH]; simpl; [lia|].
  destruct e; simpl; intros H; try discriminate H;
    specialize (IH H); unfold INDICIES_PER_CARD; lia.
Qed.

Lemma first_draw_split l :
  drawCount l <> 0%nat ->
  exists l2 r p m n l1,
    l = l2 ++ DrawArrays r p m n :: l1 /\ drawCount l1 = 0%nat.
Proof.
  induction l as [|e l IH]; [done|]. intros H.
  destruct (decide (drawCount l = 0%nat)) as [Hz|Hnz].
  - destruct e; simpl in H; try done. by exists [], reason, prog, mode, count, l.
  - destruct (IH Hnz) as (l2 & r & p & m & n & l1 & -> & Hl1).
    by exists (e :: l2), r, p, m, n, l1.
Qed.

Lemma cursorOf_cards l : (cursorOf 0 l) mod INDICIES_PER_CARD = 0.
Proof.
  unfold INDICIES_PER_CARD. induction l as [|e l IH]; simpl; [done|].
  destruct e; try done. unfold INDICIES_PER_CARD.
  rewrite <- Z.add_mod_idemp_l, IH by lia. done.
Qed.

(** The vertices drawn and the vertices pending are those of the cards
    written. *)
Lemma batchLog_vertices C l :
  batchLog C 0 l ->
  vertexSum l + cursorOf 0 l = INDICIES_PER_CARD * Z.of_nat (cardCount l).
Proof.
  unfold INDICIES_PER_CARD.
  induction l as [|e l IH]; simpl; [done|].
  destruct e; simpl; try (intros H; specialize (IH H); lia).
  - intros (-> & _ & _ & _ & _ & H). specialize (IH H). lia.
  - intros (_ & _ & H). specialize (IH H). unfold INDICIES_PER_CARD. lia.
Qed.

(** When the only flushes are for vertex overflow each one draws a full
    buffer. *)
Lemma batchLog_full_batches C l :
  INDICIES_PER_CARD <= C -> C mod INDICIES_PER_CARD = 0 ->
  batchLog C 0 l ->
  (forall r p m n, DrawArrays r p m n ∈ l -> r = "vertexOverflow"%string) ->
  Z.of_nat (drawCount l) * C + cursorOf 0 l
  = INDICIES_PER_CARD * Z.of_nat (cardCount l).
Proof.
  unfold INDICIES_PER_CARD. intros HC HC6.
  induction l as [|e l IH]; simpl; [done|]. intros Hb Hr.
  assert (Hr' : forall r p m n, DrawArrays r p m n ∈ l ->
                  r = "vertexOverflow"%string).
  { intros r p m n Hin. apply (Hr r p m n). by right. }
  destruct e; simpl; try (specialize (IH Hb Hr'); lia).
  - destruct Hb as (-> & Hpos & _ & _ & Hov & Hb).
    specialize (IH Hb Hr').
    pose proof (proj1 (batchLog_draws C 0 l ltac:(lia) Hb)) as Hle.
    pose proof (cursorOf_cards l) as H6. unfold INDICIES_PER_CARD in *.
    specialize (Hov (Hr _ _ _ _ ltac:(left))).
    assert (cursorOf 0 l = C).
    { apply Z.mod_divide in H6, HC6; try lia.
      destruct H6 as [a Ha], HC6 as [b Hb']. lia. }
    lia.
  - destruct Hb as (_ & _ & Hb). specialize (IH Hb Hr').
    unfold INDICIES_PER_CARD. lia.
Qed.

Lemma ceilDiv_batches (k r C : Z) :
  0 < C -> 0 <= k -> 0 < r <= C -> ceilDiv (k * C + r) C = k + 1.
Proof.
  intros HC Hk Hr. unfold ceilDiv.
  replace (k * C + r + C - 1) with ((r - 1) + (k + 1) * C) by lia.
  rewrite Z.div_add by lia. rewrite Z.div_small by lia. lia.
Qed.

Lemma ceilDiv_exact (k C : Z) :
  0 < C -> 0 <= k -> ceilDiv (k * C) C = k.
Proof.
  intros HC Hk. unfold ceilDiv.
  replace (k * C + C - 1) with ((C - 1) + k * C) by lia.
  rewrite Z.div_add by lia. rewrite Z.div_small by lia. lia.
Qed.

(** Every card of a batching log is covered by the draw that follows it,
    when there is one. *)
Lemma batchLog_card_drawn C pre post cfg v uv ti a m :
  0 <= C ->
  batchLog C 0 (post ++ WriteCard cfg v uv ti a m :: pre) ->
  v = cursorOf 0 pre
  /\ (drawCount post <> 0%nat ->
      exists post2 r p md n post1,
        post = post2 ++ DrawArrays r p md n :: post1
        /\ drawCount post1 = 0%nat
        /\ v + INDICIES_PER_CARD <= n <= C).
Proof.
  intros HC Hb. pose proof (batchLog_app _ _ _ _ Hb) as (Hv & Hfit & Hpre).
  split; [done|]. intros Hd.
  destruct (first_draw_split post Hd)
    as (post2 & r & p & md & n & post1 & -> & Hno).
  exists post2, r, p, md, n, post1. split; [done|]. split; [done|].
  rewrite <- app_assoc in Hb. apply batchLog_app in Hb.
  pose proof (proj2 (batchLog_draws C 0 _ ltac:(lia) Hb) r p md n
                ltac:(left)) as [Hn _].
  destruct Hb as (-> & _).
  pose proof (cursorOf_no_draw 0 post1 (WriteCard cfg v uv ti a m :: pre) Hno)
    as Hge.
  simpl in Hge. rewrite <- Hv in Hge. split; [done|lia].
Qed.

(** What the traversal and the final flush of [_drawContent] add to the
    log, from an empty buffer. *)
Lemma drawContent_log (st : stage) (content : displayObject)
    (ignoreCache : bool) :
  INDICIES_PER_CARD <= _maxBatchVertexCount st ->
  _batchVertexCount st = 0 ->
  result (_drawContent content ignoreCache) st = Return tt ->
  exists new,
    batchLog (_maxBatchVertexCount st) 0 new
    /\ (cursorOf 0 new = 0
        /\ gl_log (exec (_drawContent content ignoreCache) st)
           = new ++ gl_log st
        \/ 0 < cursorOf 0 new
           /\ exists prog mode,
                gl_log (exec (_drawContent content ignoreCache) st)
                = DrawArrays "contentEnd" prog mode (cursorOf 0 new)
                    :: new ++ gl_log st).
Proof.
  intros HC Hcur. unfold result, exec, _drawContent.
  rewrite bind_modify_run, bind_gets_run. simpl.
  destruct (_batchTextureOutput st); [|discriminate].
  rewrite bind_gets_run. simpl.
  set (st1 := set_activeShader (_mainShader st) st).
  assert (HB : BatchInv (_maxBatchVertexCount st) 0 (gl_log st) 0 st1).
  { split; [done|]. unfold INDICIES_PER_CARD in *. split; [lia|].
    split; [lia|]. split; [done|]. exists []. simpl.
    repeat split; try done. lia. }
  apply (BatchInv_appendToBatch _ _ _ content (alpha st) ignoreCache) in HB.
  unfold exec in HB.
  destruct (_appendToBatch content (alpha st) ignoreCache st1)
    as [[[]|e] s2] eqn:Hrun; [|rewrite (bind_Throw _ _ _ _ _ Hrun); discriminate].
  rewrite (bind_Return _ _ _ _ _ Hrun). simpl in HB.
  destruct HB as (_ & _ & _ & Hmax & new & Hlog & Hbl & Hc & _).
  intros Hret. exists new. split; [done|].
  pose proof (cursorOf_nonneg 0 new ltac:(lia)) as Hnn.
  destruct (Slots.flush_cases "contentEnd" s2)
    as [(Hc0 & Hfl)|[(Hc0 & _ & e & s3 & Hfl)|(Hc0 & prog & Hp & Hfl)]];
    rewrite Hfl in Hret |- *; simpl; [|discriminate|].
  - left. split; [lia|done].
  - right. split; [lia|]. exists (Some prog), (_renderMode s2).
    by rewrite Hlog, Hc.
Qed.

(** C3, as the code has it. A draw of the content from an empty buffer,
    with a capacity that is a multiple of six: the vertices drawn over
    all batches are six for each card written; each card is written at
    the cursor its batch has reached and lies within the batch next
    drawn; and when every batch was drawn for vertex overflow or at the
    end of the content, the batches are [ceil(6 N / C)] for [N] cards. *)
Theorem drawContent_flush_count (st : stage) (content : displayObject)
    (ignoreCache : bool) :
  INDICIES_PER_CARD <= _maxBatchVertexCount st ->
  (_maxBatchVertexCount st) mod INDICIES_PER_CARD = 0 ->
  _batchVertexCount st = 0 ->
  result (_drawContent content ignoreCache) st = Return tt ->
  let C := _maxBatchVertexCount st in
  exists new,
    gl_log (exec (_drawContent content ignoreCache) st) = new ++ gl_log st
    /\ vertexSum new = INDICIES_PER_CARD * Z.of_nat (cardCount new)
    /\ (forall pre post cfg v uv ti a m,
          new = post ++ WriteCard cfg v uv ti a m :: pre ->
          v = cursorOf 0 pre
          /\ exists post2 r p md n post1,
               post = post2 ++ DrawArrays r p md n :: post1
               /\ drawCount post1 = 0%nat
               /\ v + INDICIES_PER_CARD <= n <= C)
    /\ ((forall r p md n, DrawArrays r p md n ∈ new ->
           r = "vertexOverflow"%string \/ r = "contentEnd"%string) ->
        Z.of_nat (drawCount new)
        = ceilDiv (INDICIES_PER_CARD * Z.of_nat (cardCount new)) C).
Proof.
  intros HC HC6 Hcur Hret C.
  destruct (drawContent_log st content ignoreCache HC Hcur Hret)
    as (new & Hbl & [(Hz & Hlog)|(Hpos & prog & mode & Hlog)]).
  - exists new. split; [done|].
    pose proof (batchLog_vertices _ _ Hbl) as Hsum.
    split; [lia|]. split.
    + intros pre post cfg v uv ti a m ->.
      destruct (batchLog_card_drawn C pre post cfg v uv ti a m
                  ltac:(unfold INDICIES_PER_CARD in *; lia) Hbl)
        as [Hv Hd].
      split; [done|]. apply Hd. intros Hno.
      pose proof (cursorOf_no_draw 0 post
                    (WriteCard cfg v uv ti a m :: pre) Hno) as Hge.
      simpl in Hge. pose proof (cursorOf_nonneg 0 pre ltac:(lia)).
      unfold INDICIES_PER_CARD in *. lia.
    + intros Hr.
      pose proof (batchLog_full_batches C new HC HC6 Hbl) as Hfull.
      rewrite <- Hfull, Hz, Z.add_0_r.
      * rewrite ceilDiv_exact; unfold INDICIES_PER_CARD in *; lia.
      * intros r p md n Hin. destruct (Hr r p md n Hin) as [-> | ->]; [done|].
        apply list_elem_of_split in Hin as (l2 & l1 & Heq).
        rewrite Heq in Hbl. apply batchLog_app in Hbl. destruct Hbl as (_ & _ & _ & Hin & _).
        unfold traversalReasons in Hin.
        rewrite !elem_of_cons, elem_of_nil in Hin.
        destruct Hin as [?|[?|[?|[?|[?|[]]]]]]; discriminate.
  - exists (DrawArrays "contentEnd" prog mode (cursorOf 0 new) :: new).
    split; [done|].
    pose proof (batchLog_vertices _ _ Hbl) as Hsum.
    pose proof (proj1 (batchLog_draws C 0 new
                         ltac:(unfold INDICIES_PER_CARD in *; lia) Hbl))
      as Hle.
    split; [simpl; lia|]. split.
    + intros pre post cfg v uv ti a m Heq.
      destruct post as [|e post]; [discriminate Heq|].
      injection Heq as <- ->.
      destruct (batchLog_card_drawn C pre post cfg v uv ti a m
                  ltac:(unfold INDICIES_PER_CARD in *; lia) Hbl)
        as [Hv Hd].
      split; [done|].
      destruct (decide (drawCount post = 0%nat)) as [Hno|Hsome].
      * exists [], "contentEnd"%string, prog, mode,
          (cursorOf 0 (post ++ WriteCard cfg v uv ti a m :: pre)), post.
        split; [done|]. split; [done|].
        pose proof (cursorOf_no_draw 0 post
                      (WriteCard cfg v uv ti a m :: pre) Hno) as Hge.
        simpl in Hge. rewrite <- Hv in Hge. split; [done|exact Hle].
      * destruct (Hd Hsome) as (post2 & r & p & md & n & post1 & -> & Hrest).
        by exists (DrawArrays "contentEnd" prog mode
                     (cursorOf 0 ((post2 ++ DrawArrays r p md n :: post1)
                                  ++ WriteCard cfg v uv ti a m :: pre))
                   :: post2), r, p, md, n, post1.
    + intros Hr.
      pose proof (batchLog_full_batches C new HC HC6 Hbl) as Hfull.
      simpl drawCount. simpl cardCount. rewrite <- Hfull.
      * rewrite ceilDiv_batches; unfold INDICIES_PER_CARD in *; lia.
      * intros r p md n Hin.
        destruct (Hr r p md n ltac:(by right)) as [-> | ->]; [done|].
        apply list_elem_of_split in Hin as (l2 & l1 & Heq).
        rewrite Heq in Hbl. apply batchLog_app in Hbl. destruct Hbl as (_ & _ & _ & Hin & _).
        unfold traversalReasons in Hin.
        rewrite !elem_of_cons, elem_of_nil in Hin.
        destruct Hin as [?|[?|[?|[?|[?|[]]]]]]; discriminate.
Qed.

(** 171 bitmaps of one image on the stage of the examples. *)
Lemma drawContent_flush_count_witness :
  let st := demoStage true 1 in
  let content := sceneOf (replicate 171 (bitmapOf 0 1 None)) in
  (INDICIES_PER_CARD <= _maxBatchVertexCount st
   /\ (_maxBatchVertexCount st) mod INDICIES_PER_CARD = 0
   /\ _batchVertexCount st = 0
   /\ result (_drawContent content false) st = Return tt)
  /\ exists new,
       gl_log (exec (_drawContent content false) st) = new ++ gl_log st
       /\ vertexSum new = INDICIES_PER_CARD * Z.of_nat (cardCount new).
Proof.
  cbv zeta.
  assert (H1 : INDICIES_PER_CARD <= _maxBatchVertexCount (demoStage true 1))
    by (vm_compute; discriminate).
  assert (H2 : (_maxBatchVertexCount (demoStage true 1))
               mod INDICIES_PER_CARD = 0) by (vm_compute; reflexivity).
  assert (H3 : _batchVertexCount (demoStage true 1) = 0)
    by (vm_compute; reflexivity).
  assert (H4 : result (_drawContent
                         (sceneOf (replicate 171 (bitmapOf 0 1 None))) false)
                 (demoStage true 1) = Return tt)
    by (vm_compute; reflexivity).
  pose proof (drawContent_flush_count (demoStage true 1)
                (sceneOf (replicate 171 (bitmapOf 0 1 None))) false
                H1 H2 H3 H4) as H.
  cbv zeta in H. destruct H as (new & Hlog & Hsum & _).
  split; [split; [exact H1|split; [exact H2|split; [exact H3|exact H4]]]|].
  exists new. split; [exact Hlog|exact Hsum].
Defined.

(** The scene of 171 bitmaps over nine images, on the stage of the
    examples with its eight texture slots and its capacity of 1020
    vertices: the draw returns and has written 171 cards, drawn in 22
    batches, where [ceil(6 * 171 / 1020)] is 2. *)
Lemma flush_count_exceeds_ceiling :
  let st := demoStage true 9 in
  let st' := exec (_drawContent nineImageScene false) st in
  result (_drawContent nineImageScene false) st = Return tt
  /\ _maxBatchVertexCount st = 1020 /\ _batchVertexCount st = 0
  /\ cardCount (gl_log st) = 0%nat /\ drawCount (gl_log st) = 0%nat
  /\ cardCount (gl_log st') = 171%nat
  /\ vertexSum (gl_log st') = 1026
  /\ drawCount (gl_log st') = 22%nat
  /\ ceilDiv (INDICIES_PER_CARD * 171) 1020 = 2.
Proof. vm_compute. repeat split; reflexivity. Qed.

End FlushCount.

(** ** Render modes and batches: [_updateRenderMode] *)

Module RenderModes.

Import StageGL Run Invariants Stability Batching FlushCount.
Local Open Scope js_scope.

Lemma bind_inv {A B} (m : M A) (k : A -> M B) st b st' :
  bind m k st = (Return b, st') ->
  exists a s, m st = (Return a, s) /\ k a s = (Return b, st').
Proof.
  unfold bind. destruct (m st) as [[a|e] s]; [|discriminate].
  intros H. by exists a, s.
Qed.

(** A call of [_updateRenderMode] that returns either leaves the render
    mode, the log and the cursor as they were, or has rendered the
    pending batch for reason shaderSwap under the old mode and then set
    the new mode. *)
Lemma updateRenderMode_flushes_first (s : stage) (newMode : option string) :
  result (_updateRenderMode newMode) s = Return tt ->
  let s' := exec (_updateRenderMode newMode) s in
  (_renderMode s' = _renderMode s /\ gl_log s' = gl_log s
   /\ _batchVertexCount s' = _batchVertexCount s)
  \/ (_renderMode s' <> _renderMode s
      /\ ((0 < _batchVertexCount s /\ _batchVertexCount s' = 0
           /\ exists prog,
                gl_log s' = BlendFunc (_renderMode s')
                            :: DrawArrays "shaderSwap" (Some prog)
                                 (_renderMode s) (_batchVertexCount s)
                            :: gl_log s)
          \/ (_batchVertexCount s <= 0
              /\ _batchVertexCount s' = _batchVertexCount s
              /\ gl_log s' = BlendFunc (_renderMode s') :: gl_log s))).
Proof.
  unfold _updateRenderMode, exec, result.
  repeat (run_step;
    repeat match goal with
    | H : _fetchShaderProgram _ _ ?s = (_, ?s') |- _ =>
      apply fetchShaderProgram_state in H; subst s'
    | H : flush "shaderSwap" ?s1 = (?o, ?s2) |- _ =>
      destruct (Slots.flush_cases "shaderSwap" s1)
        as [(Hc0 & Hfl)|[(Hc0 & _ & ? & ? & Hfl)|(Hc0 & ? & Hp & Hfl)]];
      rewrite Hfl in H; injection H as <- <-; clear Hfl
    end).
  all: run_simpl; simpl in *; try discriminate; intros _.
  all: try (left; done).
  all: right;
    (split; [intros E; rewrite E, String.eqb_refl in *; discriminate|]).
  all: first [ left; split; [assumption|]; split; [reflexivity|];
               eexists; reflexivity
             | right; split; [assumption|]; split; reflexivity ].
Qed.

Lemma stable_appendItem st0 item concatAlpha ignoreCache :
  preserves (stable st0) (appendItem concatAlpha ignoreCache item).
Proof.
  apply (appendItem_preserves (stable st0) (stable st0)).
  - done.
  - intros m. apply stable_of_quiet. intros. apply quiet_updateRenderMode.
  - intros ic p. apply stable_of_quiet. intros. apply quiet_autoCache.
  - intros st Hs. apply run_call; [|done|done].
    apply stable_of_quiet. intros. apply quiet_flushOnVertexOverflow.
  - intros i. apply stable_of_quiet. intros. apply quiet_resolveTexture.
  - intros i f. apply stable_of_quiet. intros. apply quiet_updImage.
  - intros uv ti a st. apply stable_writeCard.
  - intros c st Hs. exact Hs.
  - apply stable_of_quiet. intros. apply quiet_immediateBatchRender.
Qed.

(** Switching back to a mode that is built. *)
Lemma updateRenderMode_restores (st s : stage) :
  modeRestorable st -> stable st s ->
  result (_updateRenderMode (Some (_renderMode st))) s = Return tt ->
  _renderMode (exec (_updateRenderMode (Some (_renderMode st))) s)
  = _renderMode st.
Proof.
  intros ([b Hb] & d & Hd & Hi) Hs.
  destruct Hs as (Hh & _ & _ & Hdd & _ & _ & _ & _ & _ & _ & _ & Hsub).
  assert (Hd' : _builtShaders s !! _renderMode st = Some d).
  { by apply (lookup_weaken _ _ _ _ Hd). }
  unfold _updateRenderMode, result, exec. simpl default.
  rewrite bind_gets_run, Hh, Hb, bind_gets_run.
  destruct (String.eqb_spec (_renderMode s) (_renderMode st)) as [He|Hne];
    [done|].
  rewrite bind_gets_run, Hd', bind_ret_run, bind_gets_run, Hdd, Hi.
  destruct (_batchTextureOutput s) as [out|] eqn:Hout.
  - destruct (immediate d); unfold when;
      rewrite ?bind_modify_run, ?bind_ret_run, bind_gets_run;
      cbn [set_activeConfig _batchTextureOutput]; rewrite Hout;
      match goal with
      | |- context [bind (flush "shaderSwap") _ ?s1] =>
        destruct (flush "shaderSwap" s1) as [[[]|e] s2] eqn:Hfl
      end;
      rewrite ?(bind_Return _ _ _ _ _ Hfl), ?(bind_Throw _ _ _ _ _ Hfl);
      try discriminate; done.
  - destruct (immediate d); unfold when;
      rewrite ?bind_modify_run, ?bind_ret_run, bind_gets_run;
      cbn [set_activeConfig _batchTextureOutput]; rewrite Hout;
      discriminate.
Qed.

(** The end of the loop body and of the loop: the mode is switched back
    when it differs. *)
Lemma restore_run (st s s' : stage) :
  modeRestorable st -> stable st s ->
  (let* current := gets _renderMode in
   when (negb (String.eqb current (_renderMode st)))
        (_updateRenderMode (Some (_renderMode st)))) s = (Return tt, s') ->
  _renderMode s' = _renderMode st.
Proof.
  intros Hm Hs. rewrite bind_gets_run.
  destruct (String.eqb_spec (_renderMode s) (_renderMode st)) as [He|Hne];
    simpl.
  - intros [= <-]. done.
  - intros Hrun.
    pose proof (updateRenderMode_restores st s Hm Hs) as H.
    unfold result, exec in H. rewrite Hrun in H. by apply H.
Qed.

Tactic Notation "step_run" hyp(H) ident(a) ident(s) ident(HP) :=
  apply bind_inv in H as (a & s & HP & H).

(** A child drawn as a card: when the card is written the mode of the
    container is the mode again afterwards. *)
Lemma appendCard_restores (st st' : stage) item useCache itemAlpha
    concatAlpha :
  modeRestorable st ->
  appendCard item useCache itemAlpha concatAlpha st = (Return tt, st') ->
  _renderMode st' = _renderMode st
  \/ cardCount (gl_log st') = cardCount (gl_log st).
Proof.
  intros Hm Hrun. unfold appendCard in Hrun. rewrite bind_gets_run in Hrun.
  step_run Hrun u1 s1 H1.
  apply (preserves_run (quiet st)) in H1;
    [|apply quiet_applyCompositeOperation|apply quiet_refl].
  step_run Hrun u2 s2 H2.
  apply (preserves_run (quiet st)) in H2;
    [|apply quiet_flushOnVertexOverflow|done].
  destruct (cardSource item useCache) as [image|].
  2:{ injection Hrun as <-. right. apply H2. }
  step_run Hrun tex s3 H3.
  apply (preserves_run (quiet st)) in H3; [|apply quiet_resolveTexture|done].
  destruct tex as [t|].
  2:{ injection Hrun as <-. right. apply H3. }
  left. destruct H3 as [H3 _].
  step_run Hrun x s4 H4.
  apply (preserves_run (stable st)) in H4; [|apply preserves_getTexture|done].
  rewrite bind_gets_run in Hrun.
  step_run Hrun u5 s5 H5.
  apply (preserves_run (stable st)) in H5;
    [|apply stable_of_quiet; intros; apply quiet_updImage|done].
  step_run Hrun img s6 H6.
  apply (preserves_run (stable st)) in H6; [|apply preserves_getImage|done].
  step_run Hrun uv s6' H6'.
  apply (preserves_run (stable st)) in H6';
    [|apply preserves_cardUVRect|done].
  step_run Hrun u7 s7 H7.
  apply (preserves_run (stable st)) in H7; [|apply stable_writeCard|done].
  rewrite bind_gets_run in Hrun.
  step_run Hrun u8 s8 H8.
  apply (preserves_run (stable st)) in H8; [|stable_tac|done].
  by apply (restore_run st s8 st').
Qed.

(** The children of a container: the mode before the loop is the mode
    again after it. *)
Lemma appendChildren_restores (st st' : stage) body p children :
  (forall item, preserves (stable st) (body item)) ->
  modeRestorable st ->
  appendChildren body p children st = (Return tt, st') ->
  _renderMode st' = _renderMode st.
Proof.
  intros Hbody Hm Hrun. unfold appendChildren in Hrun.
  rewrite bind_gets_run in Hrun.
  step_run Hrun u1 s1 H1.
  apply (preserves_run (stable st)) in H1;
    [|apply stable_of_quiet; intros; apply quiet_applyCompositeOperation
     |apply stable_refl].
  step_run Hrun u2 s2 H2.
  apply (preserves_run (stable st)) in H2;
    [|apply preserves_forEach; intros; apply Hbody|done].
  by apply (restore_run st s2 st').
Qed.

Lemma autoCache_returns ignoreCache p st s1 :
  autoCache ignoreCache p st = (Return tt, s1) -> s1 = st.
Proof.
  unfold autoCache. rewrite bind_gets_run.
  destruct (_ && _); [|by intros [= <-]].
  destruct (_autoGenerated _); [|by intros [= <-]].
  intros H. step_run H u1 s2 H1. step_run H nothing s3 H2.
  destruct nothing.
Qed.

(** One child of the loop: a container leaves the mode as it found it,
    and so does any other child that is drawn. *)
Lemma appendItem_restores (st st' : stage) item concatAlpha ignoreCache :
  modeRestorable st ->
  appendItem concatAlpha ignoreCache item st = (Return tt, st') ->
  _renderMode st' = _renderMode st
  \/ cardCount (gl_log st') = cardCount (gl_log st).
Proof.
  intros Hm Hrun.
  destruct item as [p children|p image sourceRect|p fs cf f|p]; simpl in Hrun.
  all: destruct (negb _); [injection Hrun as <-; by left|].
  all: step_run Hrun u1 s1 H1.
  all: assert (s1 = st) as ->
         by (destruct u1; unfold when in H1; destruct (bool_decide _);
             [by apply autoCache_returns in H1|by injection H1 as <-]).
  all: destruct (if ignoreCache then None else cacheCanvas p).
  all: try (by apply appendCard_restores in Hrun).
  left. apply appendChildren_restores in Hrun; [done| |done].
  intros item. apply stable_appendItem.
Qed.

Lemma batchLog_modes C c0 post r p mode n pre :
  batchLog C c0 (post ++ DrawArrays r p mode n :: pre) ->
  Forall (fun m => m = mode) (pendingModes pre).
Proof. intros H. apply batchLog_app in H. by destruct H as (_ & _ & H & _). Qed.

(** C4, as the code has it. Every batch the traversal draws holds only
    cards written under the mode it is drawn in, and so do the cards
    left pending.  A call of [_updateRenderMode] that changes the mode
    first renders the pending batch, for reason shaderSwap and under the
    old mode.  When the mode at the start is one that can be switched
    back to, it is the mode again after a child of the loop whose card
    was written, and after the children of a container. *)
Theorem render_mode_isolation (st : stage) (container : displayObject)
    (concatAlpha : Q) (ignoreCache : bool) :
  INDICIES_PER_CARD <= _maxBatchVertexCount st ->
  0 <= _batchVertexCount st <= _maxBatchVertexCount st ->
  modeRestorable st ->
  let st' := exec (_appendToBatch container concatAlpha ignoreCache) st in
  (exists new,
     gl_log st' = new ++ gl_log st
     /\ (forall post r p mode n pre,
           new = post ++ DrawArrays r p mode n :: pre ->
           Forall (fun m => m = mode) (pendingModes pre))
     /\ Forall (fun m => m = _renderMode st') (pendingModes new))
  /\ (forall newMode,
        result (_updateRenderMode newMode) st = Return tt ->
        let s' := exec (_updateRenderMode newMode) st in
        (_renderMode s' = _renderMode st /\ gl_log s' = gl_log st
         /\ _batchVertexCount s' = _batchVertexCount st)
        \/ (_renderMode s' <> _renderMode st
            /\ ((0 < _batchVertexCount st /\ _batchVertexCount s' = 0
                 /\ exists prog,
                      gl_log s' = BlendFunc (_renderMode s')
                                  :: DrawArrays "shaderSwap" (Some prog)
                                       (_renderMode st) (_batchVertexCount st)
                                  :: gl_log st)
                \/ (_batchVertexCount st <= 0
                    /\ _batchVertexCount s' = _batchVertexCount st
                    /\ gl_log s' = BlendFunc (_renderMode s') :: gl_log st))))
  /\ (forall item ca ic,
        result (appendItem ca ic item) st = Return tt ->
        (cardCount (gl_log st)
         < cardCount (gl_log (exec (appendItem ca ic item) st)))%nat ->
        _renderMode (exec (appendItem ca ic item) st) = _renderMode st)
  /\ (result (_appendToBatch container concatAlpha ignoreCache) st
      = Return tt ->
      _renderMode st' = _renderMode st).
Proof.
  intros HC Hcur Hm st'. split; [|split; [|split]].
  - assert (HB : BatchInv (_maxBatchVertexCount st) (_batchVertexCount st)
                   (gl_log st) 0 st).
    { split; [done|]. split; [done|]. unfold INDICIES_PER_CARD.
      split; [lia|]. split; [done|]. exists []. simpl.
      repeat split; try done; lia. }
    apply (BatchInv_appendToBatch _ _ _ container concatAlpha ignoreCache)
      in HB.
    fold st' in HB.
    destruct HB as (_ & _ & _ & _ & new & Hlog & Hbl & _ & _ & Hmodes).
    exists new. split; [done|]. split; [|done].
    intros post r p mode n pre ->. by apply batchLog_modes in Hbl.
  - intros newMode. apply updateRenderMode_flushes_first.
  - intros item ca ic Hret. unfold result, exec in *.
    destruct (appendItem ca ic item st) as [[[]|e] s1] eqn:Hrun;
      [|discriminate].
    apply appendItem_restores in Hrun; [|done]. simpl.
    destruct Hrun as [Hmode|Hcards]; [done|lia].
  - subst st'. unfold result, exec.
    destruct (_appendToBatch container concatAlpha ignoreCache st)
      as [[[]|e] s1] eqn:Hrun; [intros _|discriminate]. simpl.
    destruct container as [p children| | |]; try discriminate Hrun.
    apply appendChildren_restores in Hrun; [done| |done].
    intros item. apply stable_appendItem.
Qed.

Lemma modeRestorable_intro st b d :
  blendSources (host st) !! _renderMode st = Some b ->
  _builtShaders st !! _renderMode st = Some d ->
  immediate d && _directDraw st = false ->
  modeRestorable st.
Proof. intros Hb Hd Hi. split; [by exists b|by exists d]. Qed.

(** The scenario with a mode that only changes the blend function, on
    the stage of the examples: three batches, one for each bitmap. *)
Lemma render_mode_isolation_witness :
  let st := demoStage true 3 in
  let st' := exec (_drawContent (blendScene "lighter") false) st in
  (INDICIES_PER_CARD <= _maxBatchVertexCount st
   /\ 0 <= _batchVertexCount st <= _maxBatchVertexCount st
   /\ modeRestorable st)
  /\ _renderMode (exec (_appendToBatch (blendScene "lighter") 1 false) st)
     = _renderMode st
  /\ drawsOf (gl_log st')
     = [("shaderSwap", "source-over", 6); ("shaderSwap", "lighter", 6);
        ("contentEnd", "source-over", 6)]%string
  /\ cardsOf (gl_log st')
     = [(0, 1%Q, "source-over"); (0, 1%Q, "lighter");
        (0, 1%Q, "source-over")]%string.
Proof.
  cbv zeta.
  assert (H1 : INDICIES_PER_CARD <= _maxBatchVertexCount (demoStage true 3))
    by (vm_compute; discriminate).
  assert (H2 : 0 <= _batchVertexCount (demoStage true 3)
               <= _maxBatchVertexCount (demoStage true 3))
    by (vm_compute; split; discriminate).
  assert (H3 : modeRestorable (demoStage true 3))
    by (eapply modeRestorable_intro; vm_compute; reflexivity).
  assert (H4 : result (_appendToBatch (blendScene "lighter") 1 false)
                 (demoStage true 3) = Return tt)
    by (vm_compute; reflexivity).
  pose proof (render_mode_isolation (demoStage true 3)
                (blendScene "lighter") 1 false H1 H2 H3) as H.
  cbv zeta in H. destruct H as (_ & _ & _ & Hrestore).
  split; [split; [exact H1|split; [exact H2|exact H3]]|].
  split; [exact (Hrestore H4)|].
  split; vm_compute; reflexivity.
Defined.

(** The scenario with [multiply], a mode that needs a shader of its own,
    on the stage of the examples, which is built with [directDraw]: the
    mode is refused, the three bitmaps are drawn in one batch under
    [source-over].  Without [directDraw] no stage is built. *)
Lemma multiply_scenario_single_render :
  let st := demoStage true 3 in
  let st' := exec (draw (blendScene "multiply") false) st in
  result (draw (blendScene "multiply") false) st = Return tt
  /\ drawsOf (gl_log st') = [("contentEnd", "source-over", 18)]%string
  /\ _renderPerDraw st' = 1
  /\ cardsOf (gl_log st')
     = [(0, 1%Q, "source-over"); (6, 1%Q, "source-over");
        (12, 1%Q, "source-over")]%string
  /\ (construct demoHost false 170 1200
        (map (fun k => loadedImage ("img" ++ pretty (Z.of_nat k)))
             (seq 0 3)) 640 480).1
     = Throw (ReferenceError "w").
Proof. vm_compute. repeat split; reflexivity. Qed.

End RenderModes.

(** ** Children that are passed over *)

Module Visibility.

Import StageGL Run Invariants Stability RenderModes.
Local Open Scope js_scope.

Lemma untouched_flush st0 r : preserves (texturesUntouched st0) (flush r).
Proof.
  intros st H. unfold flush, _renderBatch, exec.
  repeat run_step; run_simpl; exact H.
Qed.

Lemma untouched_updateRenderMode st0 m :
  preserves (texturesUntouched st0) (_updateRenderMode m).
Proof.
  intros st H. unfold _updateRenderMode, exec.
  repeat (run_step;
    repeat match goal with
    | H : _fetchShaderProgram _ _ ?s = (_, ?s') |- _ =>
      apply fetchShaderProgram_state in H; subst s'
    | H : flush _ ?s = (_, ?s') |- _ =>
      apply (preserves_run (texturesUntouched st0)) in H;
      [|apply untouched_flush|]; [|clear H]
    end).
  all: run_simpl; try exact H; try assumption.
Qed.

Lemma untouched_applyCompositeOperation st0 p :
  preserves (texturesUntouched st0) (applyCompositeOperation p).
Proof.
  unfold applyCompositeOperation. destruct (truthy _);
    [apply untouched_updateRenderMode|apply preserves_ret].
Qed.

(** A child that is not visible, or whose container has an accumulated
    alpha of 0.0035 or less, is passed over. *)
Lemma appendItem_skipped st item concatAlpha ignoreCache :
  visible (propsOf item) = false \/ alphaVisible concatAlpha = false ->
  appendItem concatAlpha ignoreCache item st = (Return tt, st).
Proof.
  intros H.
  assert (Hn : negb (visible (propsOf item) && alphaVisible concatAlpha)
               = true).
  { destruct H as [-> | ->]; [done|]. by rewrite andb_false_r. }
  destruct item; simpl in *; by rewrite Hn.
Qed.

Lemma forEach_skipped st concatAlpha ignoreCache children :
  alphaVisible concatAlpha = false ->
  forEach (appendItem concatAlpha ignoreCache) children st = (Return tt, st).
Proof.
  intros H. induction children as [|c l IH]; [done|]. simpl.
  rewrite (bind_Return _ _ _ _ _
             (appendItem_skipped st c concatAlpha ignoreCache (or_intror H))).
  exact IH.
Qed.

(** C5, as the code has it. The test of the loop is on the visibility of
    the child and on the accumulated alpha of its container, the child's
    own alpha not yet counted: a child that is not visible, or whose
    container has an accumulated alpha of 0.0035 or less, is passed over
    with its subtree, the instance left as it was.  A child's own alpha
    counts for its children: none of the children of a container whose
    alpha brings the product to 0.0035 or less writes a card or has a
    texture resolved. *)
Theorem appendItem_skips_faded (st : stage) (item : displayObject)
    (concatAlpha : Q) (ignoreCache : bool) :
  (forall a, alphaVisible a = true <-> (35 # 10000 < a)%Q)
  /\ (visible (propsOf item) = false \/ alphaVisible concatAlpha = false ->
      appendItem concatAlpha ignoreCache item st = (Return tt, st))
  /\ (forall p children st',
        item = Container p children ->
        (if ignoreCache then None else cacheCanvas p) = None ->
        alphaVisible (item_alpha p * concatAlpha) = false ->
        appendItem concatAlpha ignoreCache item st = (Return tt, st') ->
        cardCount (gl_log st') = cardCount (gl_log st)
        /\ texturesUntouched st st').
Proof.
  split; [|split].
  - intros a. unfold alphaVisible. rewrite negb_true_iff.
    rewrite <- not_true_iff_false, Qle_bool_iff.
    split; [apply Qnot_le_lt|apply Qlt_not_le].
  - apply appendItem_skipped.
  - intros p children st' -> Hcache Hfaded Hrun. simpl in Hrun.
    rewrite Hcache in Hrun.
    destruct (negb _).
    { injection Hrun as <-. done. }
    step_run Hrun u1 s1 H1.
    assert (s1 = st) as ->
      by (destruct u1; unfold when in H1; destruct (bool_decide _);
          [by apply autoCache_returns in H1|by injection H1 as <-]).
    unfold appendChildren in Hrun. rewrite bind_gets_run in Hrun.
    step_run Hrun u2 s2 H2.
    rewrite (bind_Return _ _ _ _ _
               (forEach_skipped s2 _ false children Hfaded)) in Hrun.
    rewrite bind_gets_run in Hrun.
    assert (Hq : quiet st s2 /\ texturesUntouched st s2).
    { split.
      - apply (preserves_run (quiet st)) in H2;
          [done|apply quiet_applyCompositeOperation|apply quiet_refl].
      - apply (preserves_run (texturesUntouched st)) in H2;
          [done|apply untouched_applyCompositeOperation|done]. }
    destruct Hq as [Hq Hu].
    assert (Hq' : quiet st st' /\ texturesUntouched st st').
    { split.
      - apply (preserves_run (quiet st)) in Hrun;
          [done|apply preserves_when, quiet_updateRenderMode|done].
      - apply (preserves_run (texturesUntouched st)) in Hrun;
          [done|apply preserves_when, untouched_updateRenderMode|done]. }
    destruct Hq' as [[_ Hcards] Hu']. done.
Qed.

(** A bitmap with alpha 0 on the stage of the examples, a stage of
    alpha 1: the product is 0, yet a texture is created and loaded for its
    image and a card is written, with alpha 0. *)
Lemma faded_bitmap_is_drawn :
  let st := demoStage true 1 in
  let st' := exec (_drawContent (sceneOf [bitmapOf 0 0 None]) false) st in
  alpha st == 1 /\ alphaVisible (0 * alpha st) = false
  /\ result (_drawContent (sceneOf [bitmapOf 0 0 None]) false) st = Return tt
  /\ cardsOf (gl_log st') = [(0, 0%Q, "source-over"%string)]
  /\ drawsOf (gl_log st') = [("contentEnd", "source-over", 6)]%string
  /\ length (textures st) = 1%nat /\ length (textures st') = 2%nat
  /\ _textureDictionary st = [] /\ _textureDictionary st' = [Some 1%nat]
  /\ i_storeID <$> images st !! 0%nat = Some None
  /\ i_storeID <$> images st' !! 0%nat = Some (Some 0).
Proof. vm_compute. repeat split; reflexivity. Qed.

End Visibility.

(** ** UV coordinates of bitmap cards *)

Module UVFacts.

Import StageGL Run Invariants Stability RenderModes Visibility.
Local Open Scope js_scope.

Create HintDb since.

Section Since.

Variable st0 : stage.
Variable S : list image -> Prop.
Variable C : list (list (float * float)) -> Prop.
Hypothesis S_alter :
  forall f i imgs,
    (forall x, imageSize (f x) = imageSize x) -> S imgs ->
    S (alter f i imgs).

Let P := cardsSince st0 S C.

Lemma since_log e :
  match e with WriteCard _ _ _ _ _ _ => False | _ => True end ->
  preserves P (log e).
Proof.
  intros He. unfold log. apply preserves_modify.
  intros st [Hs (new & Hl & Hc)]. split; [exact Hs|].
  exists (e :: new). simpl. rewrite Hl. split; [done|].
  assert (E : cardUVsOf (e :: new) = cardUVsOf new).
  { unfold cardUVsOf. simpl. rewrite omap_app. simpl.
    destruct e; try done; by rewrite app_nil_r. }
  by rewrite E.
Qed.

Lemma since_updImage j f :
  (forall x, imageSize (f x) = imageSize x) -> preserves P (updImage j f).
Proof.
  intros Hf. unfold updImage. apply preserves_modify.
  intros st [Hs Hl]. split; [|exact Hl]. simpl. by apply S_alter.
Qed.

Ltac since_tac :=
  repeat first
    [ pstep
    | apply preserves_getTexture
    | apply preserves_getImage
    | apply preserves_findSlot
    | apply preserves_cardUVRect
    | solve [auto with since]
    | (apply since_log; exact I)
    | (apply since_updImage; intros []; reflexivity)
    | (let H := fresh in apply preserves_modify; intros ? H; exact H) ].

Lemma since_updTexture t f : preserves P (updTexture t f).
Proof. unfold updTexture. since_tac. Qed.
Hint Resolve since_updTexture : since.

Lemma since_renderBatch : preserves P _renderBatch.
Proof. unfold _renderBatch. since_tac. Qed.
Hint Resolve since_renderBatch : since.

Lemma since_renderCover : preserves P _renderCover.
Proof. unfold _renderCover. since_tac. Qed.
Hint Resolve since_renderCover : since.

Lemma since_flush r : preserves P (flush r).
Proof. unfold flush. since_tac. Qed.
Hint Resolve since_flush : since.

Lemma since_fetchShaderProgram c f : preserves P (_fetchShaderProgram c f).
Proof. unfold _fetchShaderProgram. since_tac. Qed.
Hint Resolve since_fetchShaderProgram : since.

Lemma since_resizeTexture t w h : preserves P (resizeTexture t w h).
Proof. unfold resizeTexture. since_tac. Qed.
Hint Resolve since_resizeTexture : since.

Lemma since_createTexture : preserves P createTexture.
Proof. unfold createTexture. since_tac. Qed.
Hint Resolve since_createTexture : since.

Lemma since_getBaseTexture w h : preserves P (getBaseTexture w h).
Proof. unfold getBaseTexture. since_tac. Qed.
Hint Resolve since_getBaseTexture : since.

Lemma since_getSafeTexture w h : preserves P (_getSafeTexture w h).
Proof. unfold _getSafeTexture. since_tac. Qed.
Hint Resolve since_getSafeTexture : since.

Lemma since_resolveIdentifier sc n : preserves P (resolveIdentifier sc n).
Proof. unfold resolveIdentifier. since_tac. Qed.
Hint Resolve since_resolveIdentifier : since.

Lemma since_getRenderBufferTexture w h :
  preserves P (getRenderBufferTexture w h).
Proof. unfold getRenderBufferTexture. since_tac. Qed.
Hint Resolve since_getRenderBufferTexture : since.

Lemma since_updateTextureImageData j :
  preserves P (_updateTextureImageData j).
Proof. unfold _updateTextureImageData. since_tac. Qed.
Hint Resolve since_updateTextureImageData : since.

Lemma since_refreshSource x : preserves P (refreshSource x).
Proof. unfold refreshSource. since_tac. Qed.
Hint Resolve since_refreshSource : since.

Lemma since_insertTextureInBatch t : preserves P (_insertTextureInBatch t).
Proof. unfold _insertTextureInBatch. since_tac. Qed.
Hint Resolve since_insertTextureInBatch : since.

Lemma since_loadTextureImage j : preserves P (_loadTextureImage j).
Proof. unfold _loadTextureImage. since_tac. Qed.
Hint Resolve since_loadTextureImage : since.

Lemma since_drawCover : preserves P _drawCover.
Proof. unfold _drawCover. since_tac. Qed.
Hint Resolve since_drawCover : since.

Lemma since_immediateBatchRender : preserves P _immediateBatchRender.
Proof. unfold _immediateBatchRender. since_tac. Qed.
Hint Resolve since_immediateBatchRender : since.

Lemma since_BitmapCache_update c : preserves P (BitmapCache_update c).
Proof. unfold BitmapCache_update. since_tac. Qed.
Hint Resolve since_BitmapCache_update : since.

Lemma since_autoCache ic p : preserves P (autoCache ic p).
Proof.
  unfold autoCache, BitmapCache_define, surfaceStale, _updateSurface,
    updateViewport.
  since_tac.
Qed.
Hint Resolve since_autoCache : since.

Lemma since_flushOnVertexOverflow : preserves P flushOnVertexOverflow.
Proof. unfold flushOnVertexOverflow. since_tac. Qed.
Hint Resolve since_flushOnVertexOverflow : since.

Lemma since_updateRenderMode m : preserves P (_updateRenderMode m).
Proof. unfold _updateRenderMode. since_tac. Qed.
Hint Resolve since_updateRenderMode : since.

Lemma since_applyCompositeOperation p :
  preserves P (applyCompositeOperation p).
Proof. unfold applyCompositeOperation. since_tac. Qed.
Hint Resolve since_applyCompositeOperation : since.

Lemma since_resolveTexture j : preserves P (resolveTexture j).
Proof. unfold resolveTexture. since_tac. Qed.
Hint Resolve since_resolveTexture : since.

End Since.

Lemma sameSizes_alter st0 f i imgs :
  (forall x, imageSize (f x) = imageSize x) ->
  sameSizes st0 imgs -> sameSizes st0 (alter f i imgs).
Proof.
  unfold sameSizes. intros Hf <-.
  apply list_eq. intros k. rewrite !list_lookup_fmap.
  destruct (decide (k = i)) as [->|Hne].
  - rewrite list_lookup_alter_eq. destruct (imgs !! i); simpl; [|done].
    by rewrite Hf.
  - by rewrite list_lookup_alter_ne.
Qed.

Section Sized.

Variable st0 : stage.
Variable C : list (list (float * float)) -> Prop.

Let P := cardsSince st0 (sameSizes st0) C.

Lemma sized_updImage j f :
  (forall x, imageSize (f x) = imageSize x) -> preserves P (updImage j f).
Proof. first [apply since_updImage, sameSizes_alter | apply since_updImage]. Qed.

Lemma sized_autoCache ic p : preserves P (autoCache ic p).
Proof. first [apply since_autoCache, sameSizes_alter | apply since_autoCache]. Qed.

Lemma sized_applyCompositeOperation p :
  preserves P (applyCompositeOperation p).
Proof. first [apply since_applyCompositeOperation, sameSizes_alter | apply since_applyCompositeOperation]. Qed.

Lemma sized_flushOnVertexOverflow : preserves P flushOnVertexOverflow.
Proof. first [apply since_flushOnVertexOverflow, sameSizes_alter | apply since_flushOnVertexOverflow]. Qed.

Lemma sized_resolveTexture j : preserves P (resolveTexture j).
Proof. first [apply since_resolveTexture, sameSizes_alter | apply since_resolveTexture]. Qed.

Lemma sized_immediateBatchRender : preserves P _immediateBatchRender.
Proof. first [apply since_immediateBatchRender, sameSizes_alter | apply since_immediateBatchRender]. Qed.

Lemma sized_updateRenderMode m : preserves P (_updateRenderMode m).
Proof. first [apply since_updateRenderMode, sameSizes_alter | apply since_updateRenderMode]. Qed.

End Sized.

Lemma since_start st : cardsSince st (sameSizes st) (eq []) st.
Proof. split; [done|]. by exists []. Qed.

Lemma since_writeCard st0 S (C C' : list (list (float * float)) -> Prop)
    uv ti a st :
  (forall cs, C cs -> C' (cs ++ [cardUVs uv])) ->
  cardsSince st0 S C st ->
  cardsSince st0 S C' (exec (writeCard uv ti a) st).
Proof.
  intros HC [Hs (new & Hl & Hc)]. unfold writeCard, exec. run_simpl. simpl.
  split; [exact Hs|].
  eexists (_ :: new). rewrite Hl. split; [reflexivity|].
  unfold cardUVsOf in *. simpl. rewrite omap_app. simpl. by apply HC.
Qed.

Lemma since_size st0 C st i img img' :
  cardsSince st0 (sameSizes st0) C st ->
  images st0 !! i = Some img -> images st !! i = Some img' ->
  imageSize img' = imageSize img.
Proof.
  intros [Hs _] H0 H1. unfold sameSizes in Hs.
  assert (E : (imageSize <$> images st) !! i = (imageSize <$> images st0) !! i)
    by (by rewrite Hs).
  rewrite !list_lookup_fmap, H0, H1 in E. simpl in E. congruence.
Qed.

Lemma untouched_flushOnVertexOverflow st0 :
  preserves (texturesUntouched st0) flushOnVertexOverflow.
Proof.
  unfold flushOnVertexOverflow.
  apply preserves_bind; [apply preserves_gets|intros s].
  apply preserves_when, untouched_flush.
Qed.

(** The texture of an image is found when the image has none yet (it is
    loaded, or the call throws) or has one in the dictionary. *)
Lemma resolveTexture_found i img st tex st' :
  images st !! i = Some img -> textureKnown img st ->
  resolveTexture i st = (Return tex, st') -> is_Some tex.
Proof.
  intros Hi Hk. unfold resolveTexture.
  assert (Hget : getImage i st = (Return img, st)).
  { unfold getImage. by rewrite Hi. }
  rewrite (bind_Return _ _ _ _ _ Hget).
  destruct (i_storeID img) as [id|] eqn:Hid.
  - destruct Hk as [Hk|[t Ht]]; [congruence|]. rewrite Hid in Ht.
    rewrite bind_gets_run, Ht. intros H.
    step_run H x s1 H1. rewrite bind_gets_run in H.
    step_run H u s2 H2. injection H as <- _. done.
  - intros H. step_run H t s1 H1.
    destruct t as [t|]; [|discriminate]. injection H as <- _. done.
Qed.

(** The UV rectangle of a Bitmap drawn from its image. *)
Lemma cardUVRect_bitmap p image sr img st :
  cardUVRect (Bitmap p image sr) None img st
  = (Return match sr with
            | Some src => sourceRectUV src (i_width img) (i_height img)
            | None => UV_RECT
            end, st).
Proof. by destruct sr. Qed.

Section Card.

Variables (st0 : stage) (p : props) (image : imgref) (img : StageGL.image).
Variable sourceRect : option rectangle.
Variables itemAlpha concatAlpha : Q.
Hypothesis Himg : images st0 !! image = Some img.

Let item := Bitmap p (Some image) sourceRect.
Let uvs :=
  cardUVs match sourceRect with
          | Some src => sourceRectUV src (i_width img) (i_height img)
          | None => UV_RECT
          end.
Let P0 := cardsSince st0 (sameSizes st0) (eq []).
Let P1 := cardsSince st0 (sameSizes st0) (eq [uvs]).
Let T := fun st => P0 st \/ P1 st.

Lemma P0_write img' ti a st :
  images st !! image = Some img' -> P0 st ->
  P1 (exec (bind (cardUVRect item None img')
                 (fun uv => writeCard uv ti a)) st).
Proof.
  intros Hi H0. unfold exec, item.
  rewrite (bind_Return _ _ _ _ _ (cardUVRect_bitmap _ _ _ _ _)).
  pose proof (since_size _ _ _ _ _ _ H0 Himg Hi) as Hsz.
  injection Hsz as Hw Hh. rewrite Hw, Hh.
  apply (since_writeCard st0 _ (eq []) (eq [uvs]) _ ti a st); [by intros ? <-|exact H0].
Qed.

Lemma getImage_Return i st x st' :
  getImage i st = (Return x, st') -> st' = st /\ images st !! i = Some x.
Proof.
  unfold getImage. destruct (images st !! i); [|discriminate].
  by intros [= <- <-].
Qed.

(** The tail of [appendCard] from the reading of the image on. *)
Lemma appendCard_tail_cards ti mode st :
  P0 st ->
  T (exec (let* img' := getImage image in
           let* uvRect_ := cardUVRect item None img' in
           writeCard uvRect_ ti (itemAlpha * concatAlpha) ;;;
           let* immediateRender := gets _immediateRender in
           when immediateRender
             (modify (set_activeConfig cfg_default) ;;;
              _immediateBatchRender) ;;;
           let* current := gets _renderMode in
           when (negb (String.eqb current mode))
                (_updateRenderMode (Some mode))) st).
Proof.
  intros H0. unfold exec.
  destruct (getImage image st) as [[img'|e] s1] eqn:Hget.
  2:{ rewrite (bind_Throw _ _ _ _ _ Hget). simpl. left.
      unfold getImage in Hget. destruct (images st !! image); [done|].
      by injection Hget as _ <-. }
  rewrite (bind_Return _ _ _ _ _ Hget).
  apply getImage_Return in Hget as [-> Hi].
  rewrite bind_assoc_run.
  pose proof (P0_write img' ti (itemAlpha * concatAlpha)%Q st Hi H0) as H1.
  unfold exec in H1. unfold bind at 1.
  destruct (bind (cardUVRect item None img') _ st) as [[[]|e] s2];
    simpl in *; [|by right].
  right.
  match goal with
  | |- P1 (snd (?m s2)) => change (P1 (exec m s2)); revert s2 H1
  end.
  change (preserves P1
    (let* immediateRender := gets _immediateRender in
     when immediateRender
       (modify (set_activeConfig cfg_default) ;;; _immediateBatchRender) ;;;
     let* current := gets _renderMode in
     when (negb (String.eqb current mode)) (_updateRenderMode (Some mode)))).
  repeat first
    [ pstep
    | apply sized_immediateBatchRender
    | apply sized_updateRenderMode
    | (let H := fresh in apply preserves_modify; intros ? H; exact H) ].
Qed.

Lemma appendCard_cards st :
  P0 st -> T (exec (appendCard item None itemAlpha concatAlpha) st).
Proof.
  unfold appendCard. revert st.
  apply (run_bind P0 P0 T); [by apply run_call; [|left]|intros mode].
  apply (run_bind P0 P0 T);
    [apply run_call; [apply sized_applyCompositeOperation|by left]
    |intros _].
  apply (run_bind P0 P0 T);
    [apply run_call; [apply sized_flushOnVertexOverflow|by left]
    |intros _].
  cbn [cardSource item].
  apply (run_bind P0 P0 T);
    [apply run_call; [apply sized_resolveTexture|by left]|intros [t|]];
    [|by left].
  apply (run_bind P0 P0 T);
    [apply run_call; [apply preserves_getTexture|by left]|intros x].
  apply (run_bind P0 P0 T); [by apply run_call; [|left]|intros drawID].
  apply (run_bind P0 P0 T);
    [apply run_call; [|by left]|intros _].
  { apply sized_updImage. by intros []. }
  intros st. apply appendCard_tail_cards.
Qed.


(** A call of [appendCard] that returns, for an image whose texture is
    found, has written the card. *)
Lemma appendCard_writes st st' :
  textureKnown img st0 -> P0 st -> texturesUntouched st0 st ->
  appendCard item None itemAlpha concatAlpha st = (Return tt, st') ->
  P1 st'.
Proof.
  intros Hk H0 Hu Hrun. unfold appendCard in Hrun.
  rewrite bind_gets_run in Hrun.
  step_run Hrun u1 s1 H1.
  pose proof (preserves_run _ _ _ _ _
                (untouched_applyCompositeOperation st0 _) Hu H1) as Hu1.
  apply (preserves_run P0) in H1;
    [|apply sized_applyCompositeOperation|done].
  step_run Hrun u2 s2 H2.
  pose proof (preserves_run _ _ _ _ _
                (untouched_flushOnVertexOverflow st0) Hu1 H2) as Hu2.
  apply (preserves_run P0) in H2;
    [|apply sized_flushOnVertexOverflow|done].
  cbn [cardSource item] in Hrun.
  step_run Hrun tex s3 H3.
  assert (Htex : is_Some tex).
  { destruct Hu2 as (_ & Hi2 & Hd2 & _).
    apply (resolveTexture_found image img s2 tex s3); [by rewrite Hi2| |done].
    destruct Hk as [Hk|Hk]; [by left|right].
    unfold dictLookup in *. by rewrite Hd2. }
  apply (preserves_run P0) in H3; [|apply sized_resolveTexture|done].
  destruct Htex as [t ->].
  step_run Hrun x s4 H4.
  apply (preserves_run P0) in H4; [|apply preserves_getTexture|done].
  rewrite bind_gets_run in Hrun.
  step_run Hrun u5 s5 H5.
  apply (preserves_run P0) in H5;
    [|apply sized_updImage; by intros []|done].
  step_run Hrun img' s6 H6.
  apply getImage_Return in H6 as [-> Hi].
  step_run Hrun uv s7 H7.
  unfold item in H7. rewrite cardUVRect_bitmap in H7.
  injection H7 as <- <-.
  pose proof (since_size _ _ _ _ _ _ H5 Himg Hi) as Hsz.
  injection Hsz as Hw Hh. rewrite Hw, Hh in Hrun.
  step_run Hrun u8 s8 H8.
  assert (H1' : P1 s8).
  { match type of H8 with
    | writeCard ?uv _ _ _ = _ =>
      pose proof (since_writeCard st0 _ (eq []) (eq [uvs]) uv
                    (t_activeIndex x) (itemAlpha * concatAlpha)%Q s5
                    ltac:(by intros ? <-) H5) as Hw8
    end.
    unfold exec in Hw8. by rewrite H8 in Hw8. }
  revert Hrun. apply (preserves_run P1); [|exact H1'].
  repeat first
    [ pstep
    | apply sized_immediateBatchRender
    | apply sized_updateRenderMode
    | (let H := fresh in apply preserves_modify; intros ? H; exact H) ].
Qed.

End Card.

Lemma untouched_refl st : texturesUntouched st st.
Proof. by repeat split. Qed.

Lemma cardUVs_shaped uv : cardShaped (cardUVs uv).
Proof. by exists (uv_l uv), (uv_t uv), (uv_b uv), (uv_r uv). Qed.

(** Every card the traversal writes gets its six UV pairs in the same
    order. *)
Lemma appendToBatch_shaped st container concatAlpha ignoreCache :
  exists new,
    gl_log (exec (_appendToBatch container concatAlpha ignoreCache) st)
    = new ++ gl_log st
    /\ Forall cardShaped (cardUVsOf new).
Proof.
  pose (P := cardsSince st (fun _ => True) (Forall cardShaped)).
  assert (HS : forall (f : image -> image) (i : nat) (imgs : list image),
             (forall x, imageSize (f x) = imageSize x) ->
             (fun _ : list image => True) imgs ->
             (fun _ : list image => True) (alter f i imgs)) by done.
  assert (H0 : P st).
  { split; [done|]. exists []. by split; [|constructor]. }
  assert (HP : preserves P
                 (_appendToBatch container concatAlpha ignoreCache)).
  2:{ by destruct (HP st H0) as [_ H]. }
  apply (appendToBatch_preserves P P).
  - done.
  - intros m. first [apply since_updateRenderMode, HS
                    | apply since_updateRenderMode].
  - intros ic p. first [apply since_autoCache, HS | apply since_autoCache].
  - apply run_call; [|done].
    first [apply since_flushOnVertexOverflow, HS
          | apply since_flushOnVertexOverflow].
  - intros i. first [apply since_resolveTexture, HS
                    | apply since_resolveTexture].
  - intros i f. unfold updImage. apply preserves_modify.
    intros s [_ Hl]. by split.
  - intros uv ti a s. apply since_writeCard.
    intros cs Hcs. apply Forall_app. split; [done|].
    constructor; [apply cardUVs_shaped|constructor].
  - intros c s Hs. exact Hs.
  - first [apply since_immediateBatchRender, HS
          | apply since_immediateBatchRender].
Qed.



End UVFacts.

(** ** UV rectangles of sprite sheets *)

Module SpriteSheets.

Import StageGL Run Invariants.
Local Open Scope js_scope.

Lemma frameUVRect_ready st f :
  frameReady st f ->
  exists r, frameUVRect f st = (Return r, st)
    /\ match f_uvRect f with
       | Some r0 => r = Some r0
       | None =>
         forall i img, f_image f = Some i -> images st !! i = Some img ->
           r = if (i_width img <=? 0) || (i_height img <=? 0) then None
               else Some (sourceRectUV (f_rect f) (i_width img)
                            (i_height img))
       end.
Proof.
  intros [[r0 Hr]|(i & Hi & img & Himg)]; unfold frameUVRect.
  - rewrite Hr. by exists (Some r0).
  - destruct (f_uvRect f) as [r0|]; [by exists (Some r0)|].
    rewrite Hi. unfold bind, getImage. rewrite Himg.
    destruct ((i_width img <=? 0) || (i_height img <=? 0)) eqn:E.
    + exists None. split; [done|]. intros i' img' [= <-] Hi'.
      rewrite Himg in Hi'. injection Hi' as <-. by rewrite E.
    + eexists. split; [done|]. intros i' img' [= <-] Hi'.
      rewrite Himg in Hi'. injection Hi' as <-. by rewrite E.
Qed.

Lemma forEach_frames_ready st fs :
  Forall (frameReady st) fs ->
  forEach (fun f => frameUVRect f ;;; ret tt) fs st = (Return tt, st).
Proof.
  induction 1 as [|f fs Hf _ IH]; [done|]. simpl.
  destruct (frameUVRect_ready st f Hf) as (r & Hr & _).
  rewrite <- bind_assoc_run, (bind_Return _ _ _ _ _ Hr), bind_ret_run.
  exact IH.
Qed.

Lemma frameUVRect_bare st f :
  frameBare f -> frameUVRect f st = (Throw (TypeError "f.image.width"), st).
Proof. intros [Hu Hi]. unfold frameUVRect. by rewrite Hu, Hi. Qed.

Lemma forEach_frames_bare st fs f :
  f ∈ fs -> frameBare f ->
  exists e, forEach (fun f => frameUVRect f ;;; ret tt) fs st = (Throw e, st).
Proof.
  intros Hin Hb. induction fs as [|g fs IH]; [by apply elem_of_nil in Hin|].
  simpl. rewrite <- bind_assoc_run.
  destruct (frameUVRect g st) as [[r|e] s1] eqn:E.
  - pose proof (frameUVRect_state _ _ _ _ E) as ->.
    rewrite (bind_Return _ _ _ _ _ E), bind_ret_run.
    apply elem_of_cons in Hin as [->|Hin]; [|by apply IH].
    by rewrite (frameUVRect_bare st g Hb) in E.
  - pose proof (frameUVRect_state _ _ _ _ E) as ->.
    rewrite (bind_Throw _ _ _ _ _ E). by exists e.
Qed.

(** X7. [buildUVRects] on the frames of a sprite sheet. When every frame
    has a [uvRect] or an image, the call returns for a target that is a
    frame of the sheet, with the rectangle that frame holds or, computed
    from its [rect] (x, y, w, h) and the size (W, H) of its image when
    that is positive, left x/W, right (x+w)/W, top 1 - y/H and bottom
    1 - (y+h)/H, the formula of a Bitmap with a [sourceRect]; with the
    generic rectangle otherwise. It throws for a target that is no frame
    of the sheet, and whenever some frame of the sheet has neither
    [uvRect] nor image, whatever the target. The stage is never
    changed. *)
Theorem buildUVRects_of_sheet (st : stage) (fs : list frame) (target : Z) :
  (Forall (frameReady st) fs ->
   match targetFrame fs target with
   | None =>
     buildUVRects (Some fs) target st
     = (Throw (TypeError "_frames[target].uvRect"), st)
   | Some f =>
     exists r,
       buildUVRects (Some fs) target st = (Return (Some r), st)
       /\ match f_uvRect f with
          | Some r0 => r = r0
          | None =>
            forall i img,
              f_image f = Some i -> images st !! i = Some img ->
              let W := JS.Number_of_Z (i_width img) in
              let H := JS.Number_of_Z (i_height img) in
              r = if (i_width img <=? 0) || (i_height img <=? 0)
                  then {| uv_t := 0; uv_l := 0; uv_b := 1; uv_r := 1 |}%float
                  else {| uv_l := r_x (f_rect f) / W;
                          uv_r := (r_x (f_rect f) + r_width (f_rect f)) / W;
                          uv_t := 1 - r_y (f_rect f) / H;
                          uv_b := 1 - (r_y (f_rect f) + r_height (f_rect f))
                                      / H |}%float
          end
   end)
  /\ (forall f, f ∈ fs -> frameBare f ->
      exists e, buildUVRects (Some fs) target st = (Throw e, st))
  /\ (forall o st', buildUVRects (Some fs) target st = (o, st') -> st' = st)
  /\ buildUVRects None target st = (Return None, st).
Proof.
  split; [|split; [|split]].
  - intros Hall. unfold buildUVRects, targetFrame.
    rewrite (bind_Return _ _ _ _ _ (forEach_frames_ready st fs Hall)).
    destruct (at_index fs _) as [f|] eqn:Hf; [|done].
    assert (Hin : f ∈ fs).
    { unfold at_index in Hf. destruct (_ <? 0); [done|].
      by apply list_elem_of_lookup_2 in Hf. }
    rewrite Forall_forall in Hall.
    destruct (frameUVRect_ready st f (Hall f Hin)) as (r & Hr & Hspec).
    rewrite (bind_Return _ _ _ _ _ Hr). eexists.
    split; [reflexivity|].
    destruct (f_uvRect f) as [r0|]; [by subst r|].
    intros i img Hi Himg. cbv zeta. rewrite (Hspec i img Hi Himg).
    by destruct (_ || _).
  - intros f Hin Hb. unfold buildUVRects.
    destruct (forEach_frames_bare st fs f Hin Hb) as [e He].
    exists e. by rewrite (bind_Throw _ _ _ _ _ He).
  - intros o st'. apply buildUVRects_state.
  - reflexivity.
Qed.

(** A sheet of two frames on the image of 64 by 32 pixels of the stage of
    the examples: the second frame shows the rectangle (16, 8, 32, 16). *)
Lemma buildUVRects_of_sheet_witness :
  let st := demoStage true 1 in
  let fs := [mkFrame (Some 0%nat) (mkRect 0 0 32 16) None;
             mkFrame (Some 0%nat) (mkRect 16 8 32 16) None] in
  Forall (frameReady st) fs
  /\ buildUVRects (Some fs) 1 st
     = (Return (Some {| uv_t := 0.75; uv_l := 0.25; uv_b := 0.25;
                        uv_r := 0.75 |}%float), st).
Proof.
  cbv zeta.
  assert (Hi : images (demoStage true 1) !! 0%nat
               = Some (loadedImage "img0")) by (vm_compute; reflexivity).
  assert (Hall : Forall (frameReady (demoStage true 1))
                   [mkFrame (Some 0%nat) (mkRect 0 0 32 16) None;
                    mkFrame (Some 0%nat) (mkRect 16 8 32 16) None]).
  { assert (Hf : forall r, frameReady (demoStage true 1)
                               (mkFrame (Some 0%nat) r None)).
    { intros r. right. exists 0%nat. split; [reflexivity|].
      rewrite Hi. by eexists. }
    constructor; [apply Hf|]. constructor; [apply Hf|constructor]. }
  split; [exact Hall|].
  destruct (proj1 (buildUVRects_of_sheet (demoStage true 1)
                     [mkFrame (Some 0%nat) (mkRect 0 0 32 16) None;
                      mkFrame (Some 0%nat) (mkRect 16 8 32 16) None] 1)
              Hall) as (r & Hr & Hspec).
  rewrite Hr. simpl in Hspec.
  rewrite (Hspec 0%nat (loadedImage "img0") eq_refl Hi).
  vm_compute. reflexivity.
Defined.

End SpriteSheets.

(** ** What a draw leaves of the instance *)

Module Frame.

Import StageGL Run Invariants Stability.
Local Open Scope js_scope.

Create HintDb frame.

Lemma sameFrame_refl st : sameFrame st st.
Proof. unfold sameFrame. repeat split; reflexivity. Qed.

Lemma sameFrame_trans st0 st1 st2 :
  sameFrame st0 st1 -> sameFrame st1 st2 -> sameFrame st0 st2.
Proof.
  unfold sameFrame. intros (?&?&?&?&?&?&?&?) (?&?&?&?&?&?&?&?).
  repeat split; congruence.
Qed.

Ltac frame_leaf := apply preserves_modify; intros ? HF; exact HF.

Ltac frame_tac :=
  repeat first
    [ pstep
    | apply preserves_getTexture
    | apply preserves_getImage
    | apply preserves_findSlot
    | solve [auto with frame]
    | frame_leaf ].

Lemma frame_updTexture st0 t f : preserves (sameFrame st0) (updTexture t f).
Proof. unfold updTexture. frame_tac. Qed.
#[export] Hint Resolve frame_updTexture : frame.

Lemma frame_updImage st0 t f : preserves (sameFrame st0) (updImage t f).
Proof. unfold updImage. frame_tac. Qed.
#[export] Hint Resolve frame_updImage : frame.

Lemma frame_renderBatch st0 : preserves (sameFrame st0) _renderBatch.
Proof. unfold _renderBatch. frame_tac. Qed.
#[export] Hint Resolve frame_renderBatch : frame.

Lemma frame_renderCover st0 : preserves (sameFrame st0) _renderCover.
Proof. unfold _renderCover. frame_tac. Qed.
#[export] Hint Resolve frame_renderCover : frame.

Lemma frame_flush st0 r : preserves (sameFrame st0) (flush r).
Proof. unfold flush. frame_tac. Qed.
#[export] Hint Resolve frame_flush : frame.

Lemma frame_log st0 e : preserves (sameFrame st0) (log e).
Proof. unfold log. frame_tac. Qed.
#[export] Hint Resolve frame_log : frame.

Lemma frame_fetchShaderProgram st0 c f : preserves (sameFrame st0) (_fetchShaderProgram c f).
Proof. unfold _fetchShaderProgram. frame_tac. Qed.
#[export] Hint Resolve frame_fetchShaderProgram : frame.

Lemma frame_resizeTexture st0 t w h : preserves (sameFrame st0) (resizeTexture t w h).
Proof. unfold resizeTexture. frame_tac. Qed.
#[export] Hint Resolve frame_resizeTexture : frame.

Lemma frame_createTexture st0 : preserves (sameFrame st0) createTexture.
Proof. unfold createTexture. frame_tac. Qed.
#[export] Hint Resolve frame_createTexture : frame.

Lemma frame_getBaseTexture st0 w h : preserves (sameFrame st0) (getBaseTexture w h).
Proof. unfold getBaseTexture. frame_tac. Qed.
#[export] Hint Resolve frame_getBaseTexture : frame.

Lemma frame_getSafeTexture st0 w h : preserves (sameFrame st0) (_getSafeTexture w h).
Proof. unfold _getSafeTexture. frame_tac. Qed.
#[export] Hint Resolve frame_getSafeTexture : frame.

Lemma frame_resolveIdentifier st0 sc n : preserves (sameFrame st0) (resolveIdentifier sc n).
Proof. unfold resolveIdentifier. frame_tac. Qed.
#[export] Hint Resolve frame_resolveIdentifier : frame.

Lemma frame_getRenderBufferTexture st0 w h : preserves (sameFrame st0) (getRenderBufferTexture w h).
Proof. unfold getRenderBufferTexture. frame_tac. Qed.
#[export] Hint Resolve frame_getRenderBufferTexture : frame.

Lemma frame_updateTextureImageData st0 i : preserves (sameFrame st0) (_updateTextureImageData i).
Proof. unfold _updateTextureImageData. frame_tac. Qed.
#[export] Hint Resolve frame_updateTextureImageData : frame.

Lemma frame_refreshSource st0 x : preserves (sameFrame st0) (refreshSource x).
Proof. unfold refreshSource. frame_tac. Qed.
#[export] Hint Resolve frame_refreshSource : frame.

Lemma frame_insertTextureInBatch st0 t : preserves (sameFrame st0) (_insertTextureInBatch t).
Proof. unfold _insertTextureInBatch.
  frame_tac. Qed.
#[export] Hint Resolve frame_insertTextureInBatch : frame.

Lemma frame_loadTextureImage st0 i : preserves (sameFrame st0) (_loadTextureImage i).
Proof. unfold _loadTextureImage. frame_tac. Qed.
#[export] Hint Resolve frame_loadTextureImage : frame.

Lemma frame_killTextureObject st0 t : preserves (sameFrame st0) (_killTextureObject t).
Proof. unfold _killTextureObject. frame_tac. Qed.
#[export] Hint Resolve frame_killTextureObject : frame.

Lemma frame_purgeSources st0 c l : preserves (sameFrame st0) (purgeSources c l).
Proof. induction l as [|i l IH]; simpl; frame_tac. Qed.
#[export] Hint Resolve frame_purgeSources : frame.

Lemma frame_purgeEntry st0 c i : preserves (sameFrame st0) (purgeEntry c i).
Proof. unfold purgeEntry. frame_tac. Qed.
#[export] Hint Resolve frame_purgeEntry : frame.

Lemma frame_purgeTextures st0 c : preserves (sameFrame st0) (purgeTextures c).
Proof. unfold purgeTextures. frame_tac. Qed.
#[export] Hint Resolve frame_purgeTextures : frame.

Lemma frame_drawCover st0 : preserves (sameFrame st0) _drawCover.
Proof. unfold _drawCover. frame_tac. Qed.
#[export] Hint Resolve frame_drawCover : frame.

Lemma frame_immediateBatchRender st0 : preserves (sameFrame st0) _immediateBatchRender.
Proof. unfold _immediateBatchRender. frame_tac. Qed.
#[export] Hint Resolve frame_immediateBatchRender : frame.

Lemma frame_BitmapCache_update st0 c : preserves (sameFrame st0) (BitmapCache_update c).
Proof. unfold BitmapCache_update. frame_tac. Qed.
#[export] Hint Resolve frame_BitmapCache_update : frame.

(** On a stage built with [directDraw] no cache is generated. *)
Lemma frame_autoCache st0 ic p :
  _directDraw st0 = true -> preserves (sameFrame st0) (autoCache ic p).
Proof.
  intros Hd st HF. unfold autoCache, exec. rewrite bind_gets_run.
  assert (_directDraw st = true) as ->.
  { destruct HF as (_ & _ & _ & Hdd & _). congruence. }
  exact HF.
Qed.
#[export] Hint Resolve frame_autoCache : frame.

Lemma frame_flushOnVertexOverflow st0 : preserves (sameFrame st0) flushOnVertexOverflow.
Proof. unfold flushOnVertexOverflow. frame_tac. Qed.
#[export] Hint Resolve frame_flushOnVertexOverflow : frame.

Lemma frame_resolveTexture st0 i : preserves (sameFrame st0) (resolveTexture i).
Proof. unfold resolveTexture. frame_tac. Qed.
#[export] Hint Resolve frame_resolveTexture : frame.

Lemma frame_updateRenderMode st0 m : preserves (sameFrame st0) (_updateRenderMode m).
Proof. unfold _updateRenderMode. frame_tac. Qed.
#[export] Hint Resolve frame_updateRenderMode : frame.

Lemma frame_applyCompositeOperation st0 p : preserves (sameFrame st0) (applyCompositeOperation p).
Proof. unfold applyCompositeOperation. frame_tac. Qed.
#[export] Hint Resolve frame_applyCompositeOperation : frame.
Lemma frame_writeCard st0 uv ti a : preserves (sameFrame st0) (writeCard uv ti a).
Proof. unfold writeCard. frame_tac. Qed.
#[export] Hint Resolve frame_writeCard : frame.

Lemma frame_appendToBatch st0 container concatAlpha ignoreCache :
  _directDraw st0 = true ->
  preserves (sameFrame st0) (_appendToBatch container concatAlpha ignoreCache).
Proof.
  intros Hd.
  apply (appendToBatch_preserves (sameFrame st0) (sameFrame st0)).
  - done.
  - intros m. apply frame_updateRenderMode.
  - intros ic p. by apply frame_autoCache.
  - intros st Hs. apply run_call; [|done|done].
    apply frame_flushOnVertexOverflow.
  - intros i. apply frame_resolveTexture.
  - intros i f. apply frame_updImage.
  - intros uv ti a st. apply frame_writeCard.
  - intros c st Hs. exact Hs.
  - apply frame_immediateBatchRender.
Qed.
#[export] Hint Resolve frame_appendToBatch : frame.

Lemma frame_drawContent st0 content ignoreCache :
  _directDraw st0 = true ->
  preserves (sameFrame st0) (_drawContent content ignoreCache).
Proof. intros Hd. unfold _drawContent. frame_tac. Qed.
#[export] Hint Resolve frame_drawContent : frame.

(** X1. A draw on a stage built with [directDraw], on its own WebGL
    context, counts the draw and nothing else of the frame: whatever the
    content and however the draw ends, [_drawID] has grown by one, and
    the host, the options, the capacity and the viewport are as they
    were. *)
Theorem draw_advances_drawID (st : stage) (content : displayObject)
    (ignoreCache : bool) :
  _directDraw st = true ->
  let st' := exec (draw content ignoreCache) st in
  _drawID st' = _drawID st + 1
  /\ _viewportWidth st' = _viewportWidth st
  /\ _viewportHeight st' = _viewportHeight st
  /\ _maxBatchVertexCount st' = _maxBatchVertexCount st
  /\ host st' = host st /\ alpha st' = alpha st
  /\ _autoPurge st' = _autoPurge st /\ _directDraw st' = _directDraw st.
Proof.
  intros Hd. cbv zeta. unfold draw, exec.
  rewrite !bind_gets_run, !bind_modify_run.
  set (s1 := set_drawID _ _).
  assert (Hd1 : _directDraw s1 = true) by exact Hd.
  assert (H : sameFrame s1 s1) by apply sameFrame_refl.
  match goal with
  | |- context [snd (?m s1)] =>
    assert (HF : preserves (sameFrame s1) m) by frame_tac;
    apply HF in H; unfold exec in H
  end.
  destruct H as (Hh & Ha & Hp & Hdd & Hm & Hi & Hw & Hv).
  rewrite Hh, Ha, Hp, Hdd, Hm, Hi, Hw, Hv. subst s1. simpl. done.
Qed.

(** A draw of one bitmap on the stage of the examples. *)
Lemma draw_advances_drawID_witness :
  let st := demoStage true 1 in
  let st' := exec (draw (sceneOf [bitmapOf 0 1 None]) false) st in
  _directDraw st = true
  /\ _drawID st' = _drawID st + 1
  /\ _viewportWidth st' = _viewportWidth st
  /\ _viewportHeight st' = _viewportHeight st
  /\ _maxBatchVertexCount st' = _maxBatchVertexCount st
  /\ host st' = host st /\ alpha st' = alpha st
  /\ _autoPurge st' = _autoPurge st /\ _directDraw st' = _directDraw st.
Proof.
  cbv zeta.
  assert (Hd : _directDraw (demoStage true 1) = true)
    by (vm_compute; reflexivity).
  split; [exact Hd|].
  exact (draw_advances_drawID (demoStage true 1)
           (sceneOf [bitmapOf 0 1 None]) false Hd).
Defined.

End Frame.

(** ** The registry stays well formed *)

Module RegistrySound.

Import StageGL Run Invariants Stability Registry.
Local Open Scope js_scope.

Create HintDb reg.

Ltac reg_leaf :=
  let H := fresh in apply preserves_modify; intros ? H; exact H.

Lemma reg_updImage i f : preserves registrySound (updImage i f).
Proof.
  intros st [Hh Hok]. split; [exact Hh|]. intros k t Hr.
  destruct (Hok k t Hr) as (x & Hx & Hs & Hlive).
  exists x. split; [exact Hx|]. split; [exact Hs|].
  intros data item Hd Hin. destruct (Hlive data item Hd Hin) as [img Hi].
  unfold exec, updImage, modify. simpl.
  destruct (decide (item = i)) as [->|Hne].
  - rewrite list_lookup_alter_eq, Hi. by eexists.
  - rewrite list_lookup_alter_ne by done. by exists img.
Qed.
#[export] Hint Resolve reg_updImage : reg.

Lemma reg_updTexture t f :
  (forall x, t_storeID (f x) = t_storeID x
             /\ t_imageData (f x) = t_imageData x) ->
  preserves registrySound (updTexture t f).
Proof.
  intros Hf st [Hh Hok]. split; [exact Hh|]. intros k t' Hr.
  destruct (Hok k t' Hr) as (x & Hx & Hs & Hlive).
  unfold exec, updTexture, modify. simpl.
  destruct (decide (t' = t)) as [->|Hne].
  - exists (f x). rewrite list_lookup_alter_eq, Hx.
    destruct (Hf x) as [H1 H2]. split; [done|]. split; [congruence|].
    intros data item Hd. apply Hlive. congruence.
  - exists x. rewrite list_lookup_alter_ne by done. done.
Qed.

Lemma reg_createTexture : preserves registrySound createTexture.
Proof.
  intros st [Hh Hok]. unfold exec, createTexture.
  rewrite bind_gets_run, Hh, bind_gets_run, bind_modify_run. simpl.
  split; [exact Hh|]. intros k t Hr.
  destruct (Hok k t Hr) as (x & Hx & Hs & Hlive).
  exists x. split; [|done]. by apply lookup_app_l_Some.
Qed.
#[export] Hint Resolve reg_createTexture : reg.

Ltac reg_tac :=
  repeat first
    [ pstep
    | apply preserves_getTexture
    | apply preserves_getImage
    | apply preserves_findSlot
    | solve [auto with reg]
    | (apply reg_updTexture; intros []; split; reflexivity)
    | reg_leaf ].

Lemma reg_renderBatch  : preserves registrySound _renderBatch.
Proof. unfold _renderBatch. reg_tac. Qed.
#[export] Hint Resolve reg_renderBatch : reg.

Lemma reg_renderCover  : preserves registrySound _renderCover.
Proof. unfold _renderCover. reg_tac. Qed.
#[export] Hint Resolve reg_renderCover : reg.

Lemma reg_flush r : preserves registrySound (flush r).
Proof. unfold flush. reg_tac. Qed.
#[export] Hint Resolve reg_flush : reg.

Lemma reg_log e : preserves registrySound (log e).
Proof. unfold log. reg_tac. Qed.
#[export] Hint Resolve reg_log : reg.

Lemma reg_fetchShaderProgram c f : preserves registrySound (_fetchShaderProgram c f).
Proof. unfold _fetchShaderProgram. reg_tac. Qed.
#[export] Hint Resolve reg_fetchShaderProgram : reg.

Lemma reg_resizeTexture t w h : preserves registrySound (resizeTexture t w h).
Proof. unfold resizeTexture. reg_tac. Qed.
#[export] Hint Resolve reg_resizeTexture : reg.

Lemma reg_getBaseTexture w h : preserves registrySound (getBaseTexture w h).
Proof. unfold getBaseTexture. reg_tac. Qed.
#[export] Hint Resolve reg_getBaseTexture : reg.

Lemma reg_getSafeTexture w h : preserves registrySound (_getSafeTexture w h).
Proof. unfold _getSafeTexture. reg_tac. Qed.
#[export] Hint Resolve reg_getSafeTexture : reg.

Lemma reg_resolveIdentifier sc n : preserves registrySound (resolveIdentifier sc n).
Proof. unfold resolveIdentifier. reg_tac. Qed.
#[export] Hint Resolve reg_resolveIdentifier : reg.

Lemma reg_updateTextureImageData i : preserves registrySound (_updateTextureImageData i).
Proof. unfold _updateTextureImageData. reg_tac. Qed.
#[export] Hint Resolve reg_updateTextureImageData : reg.

Lemma reg_refreshSource x : preserves registrySound (refreshSource x).
Proof. unfold refreshSource. reg_tac. Qed.
#[export] Hint Resolve reg_refreshSource : reg.

Lemma reg_insertTextureInBatch t : preserves registrySound (_insertTextureInBatch t).
Proof. unfold _insertTextureInBatch.
  reg_tac. Qed.
#[export] Hint Resolve reg_insertTextureInBatch : reg.

Lemma reg_drawCover  : preserves registrySound _drawCover.
Proof. unfold _drawCover. reg_tac. Qed.
#[export] Hint Resolve reg_drawCover : reg.

Lemma reg_flushOnVertexOverflow  : preserves registrySound flushOnVertexOverflow.
Proof. unfold flushOnVertexOverflow. reg_tac. Qed.
#[export] Hint Resolve reg_flushOnVertexOverflow : reg.

Lemma reg_updateRenderMode m : preserves registrySound (_updateRenderMode m).
Proof. unfold _updateRenderMode. reg_tac. Qed.
#[export] Hint Resolve reg_updateRenderMode : reg.

Lemma reg_applyCompositeOperation p : preserves registrySound (applyCompositeOperation p).
Proof. unfold applyCompositeOperation. reg_tac. Qed.
#[export] Hint Resolve reg_applyCompositeOperation : reg.

Lemma array_set_end {A} (l : list (option A)) v :
  array_set l (length l) v = l ++ [v].
Proof.
  unfold array_set. rewrite (proj2 (Nat.ltb_ge _ _)) by lia.
  by rewrite Nat.sub_diag.
Qed.

Lemma alter_end {A} (f : A -> A) (l : list A) x :
  alter f (length l) (l ++ [x]) = l ++ [f x].
Proof.
  apply list_eq. intros i. destruct (decide (i = length l)) as [->|Hne].
  - rewrite list_lookup_alter_eq, !lookup_app_r by lia.
    by rewrite Nat.sub_diag.
  - rewrite list_lookup_alter_ne by done.
    destruct (decide (i < length l)%nat).
    + by rewrite !lookup_app_l by lia.
    + rewrite !lookup_app_r by lia. by destruct (i - length l)%nat as [|[|?]] eqn:?; [lia| |].
Qed.

Lemma createTexture_run st :
  contextLost (host st) = false ->
  createTexture st
  = (Return (Some (length (textures st))),
     set_textures
       (textures st
        ++ [mkTexture None None None None None None None false false]) st).
Proof. intros Hh. unfold createTexture. by rewrite bind_gets_run, Hh. Qed.

(** [getBaseTexture] on a live context returns a new texture, last in
    the store and not registered. *)
Lemma getBaseTexture_fresh w h st r s1 :
  contextLost (host st) = false ->
  getBaseTexture w h st = (r, s1) ->
  exists x,
    r = Return (Some (length (textures st)))
    /\ textures s1 = textures st ++ [x]
    /\ t_storeID x = None /\ t_imageData x = None
    /\ images s1 = images st
    /\ _textureDictionary s1 = _textureDictionary st
    /\ _textureIDs s1 = _textureIDs st
    /\ host s1 = host st.
Proof.
  intros Hh. unfold getBaseTexture.
  rewrite (bind_Return _ _ _ _ _ (createTexture_run st Hh)).
  cbn [fmap option_fmap option_map]. unfold resizeTexture.
  set (s0 := set_textures _ st).
  assert (Hget : getTexture (length (textures st)) s0
                 = (Return (mkTexture None None None None None None None
                              false false), s0)).
  { unfold getTexture. subst s0. simpl.
    rewrite lookup_app_r, Nat.sub_diag by lia. done. }
  rewrite <- bind_assoc_run, (bind_Return _ _ _ _ _ Hget).
  destruct (decide _) as [[? _]|_]; [discriminate|].
  unfold updTexture. rewrite bind_modify_run. unfold ret.
  intros [= <- <-]. subst s0. simpl. rewrite alter_end.
  eexists. repeat split; reflexivity.
Qed.

(** A new texture registered at the end of the dictionary. *)
Lemma registryOK_extend st st' x' :
  registryOK st ->
  _textureDictionary st'
  = _textureDictionary st ++ [Some (length (textures st))] ->
  textures st' = textures st ++ [x'] ->
  t_storeID x' = Some (Z.of_nat (length (_textureDictionary st))) ->
  length (images st') = length (images st) ->
  (forall data item, t_imageData x' = Some data -> item ∈ data ->
     is_Some (images st' !! item)) ->
  registryOK st'.
Proof.
  intros Hok Hd Ht Hs Hi Hlive i t Hr. unfold registered in Hr.
  rewrite Hd in Hr.
  destruct (decide (i < length (_textureDictionary st))%nat) as [Hlt|Hge].
  - rewrite lookup_app_l in Hr by done.
    destruct (Hok i t Hr) as (x & Hx & Hsx & Hl). exists x.
    split; [rewrite Ht; by apply lookup_app_l_Some|]. split; [done|].
    intros data item Hdata Hin. destruct (Hl data item Hdata Hin) as [? Hq].
    apply lookup_lt_is_Some. rewrite Hi. by apply lookup_lt_Some in Hq.
  - rewrite lookup_app_r in Hr by lia.
    destruct (i - length (_textureDictionary st))%nat as [|[|?]] eqn:He;
      simpl in Hr; try discriminate.
    injection Hr as <-. exists x'. rewrite Ht.
    rewrite lookup_app_r, Nat.sub_diag by lia.
    split; [done|]. split; [|done].
    rewrite Hs. do 2 f_equal. lia.
Qed.

Lemma resolveIdentifier_state sc n st r s :
  resolveIdentifier sc n st = (r, s) -> s = st.
Proof.
  unfold resolveIdentifier, ret. destruct (lookupScope sc n).
  - by intros [= _ <-].
  - rewrite bind_gets_run. unfold ret, throw.
    destruct (globalObject (host st) !! n); by intros [= _ <-].
Qed.

Lemma reg_getRenderBufferTexture w h :
  preserves registrySound (getRenderBufferTexture w h).
Proof.
  intros st [Hh Hok]. unfold exec, getRenderBufferTexture.
  match goal with
  | |- context [resolveIdentifier ?sc "w"] =>
    destruct (resolveIdentifier sc "w" st) as [[a|e] s0] eqn:Hw
  end.
  2:{ rewrite (bind_Throw _ _ _ _ _ Hw).
      apply resolveIdentifier_state in Hw as ->. done. }
  assert (s0 = st) as -> by (by apply resolveIdentifier_state in Hw).
  rewrite (bind_Return _ _ _ _ _ Hw).
  match goal with
  | |- context [resolveIdentifier ?sc "h"] =>
    destruct (resolveIdentifier sc "h" st) as [[b|e] s0] eqn:Hh'
  end.
  2:{ rewrite (bind_Throw _ _ _ _ _ Hh').
      apply resolveIdentifier_state in Hh' as ->. done. }
  assert (s0 = st) as -> by (by apply resolveIdentifier_state in Hh').
  rewrite (bind_Return _ _ _ _ _ Hh').
  destruct (getBaseTexture a b st) as [r s1] eqn:Hbase.
  destruct (getBaseTexture_fresh _ _ _ _ _ Hh Hbase)
    as (x & -> & Htex & Hsx & Hdx & Himg & Hdict & Hids & Hhost).
  rewrite (bind_Return _ _ _ _ _ Hbase), bind_gets_run, Hhost, Hh.
  unfold updTexture. rewrite !bind_modify_run, bind_gets_run, !bind_modify_run.
  unfold ret. simpl. split; [simpl; by rewrite Hhost|].
  eapply (registryOK_extend st); [done|..]; simpl.
  - rewrite Hdict. apply array_set_end.
  - rewrite Htex, !alter_end. reflexivity.
  - by rewrite Hdict.
  - by rewrite Himg.
  - intros data item Hd. destruct x; simpl in *. congruence.
Qed.
#[export] Hint Resolve reg_getRenderBufferTexture : reg.

Lemma dictLookup_registered st id t :
  dictLookup st (Some id) = Some t ->
  0 <= id /\ registered st (Z.to_nat id) = Some t.
Proof.
  unfold dictLookup, at_index, registered.
  destruct (Z.ltb_spec id 0); [discriminate|]. done.
Qed.

(** An image attached to the texture registered for its source. *)
Lemma reg_track_known st id t image :
  registrySound st -> dictLookup st (Some id) = Some t ->
  is_Some (images st !! image) ->
  registrySound
    (exec (updTexture t (fun x =>
             set_t_imageData (Some (default [] (t_imageData x) ++ [image]))
               (set_t_storeID (Some id) x))) st).
Proof.
  intros [Hh Hok] Hlook Himg. split; [exact Hh|].
  apply dictLookup_registered in Hlook as [Hid Hreg].
  destruct (Hok _ _ Hreg) as (x & Hx & Hs & Hlive).
  intros k t' Hr. unfold exec, updTexture, modify in *. simpl in *.
  change (registered st k = Some t') in Hr.
  destruct (Hok k t' Hr) as (x' & Hx' & Hs' & Hlive').
  destruct (decide (t' = t)) as [->|Hne].
  - assert (x' = x) as -> by congruence.
    rewrite list_lookup_alter_eq, Hx. simpl. eexists. split; [done|].
    split.
    + destruct x; simpl in *. rewrite Hs in Hs'.
      injection Hs' as Hs'. f_equal. lia.
    + intros data item Hd Hin. destruct x; simpl in *.
      injection Hd as <-. apply elem_of_app in Hin as [Hin|Hin].
      * destruct t_imageData0 as [old|]; simpl in Hin;
          [by apply (Hlive old)|by apply elem_of_nil in Hin].
      * apply list_elem_of_singleton in Hin as ->. done.
  - exists x'. rewrite list_lookup_alter_ne by done. done.
Qed.

Lemma srcPath_run image img st :
  images st !! image = Some img -> registrySound st ->
  exists r s1,
    (match i_kind img with
     | ImageElement src =>
       if String.eqb src "" then ret None else ret (Some src)
     | CanvasElement =>
       updImage image (set_i_isCanvas true) ;;;
       modify (fun st => set_lastTrackedCanvas (_lastTrackedCanvas st + 1) st) ;;;
       let* n := gets _lastTrackedCanvas in
       ret (Some ("canvas_" ++ pretty n)%string)
     | OtherSource => ret None
     end) st = (Return r, s1)
    /\ registrySound s1 /\ is_Some (images s1 !! image).
Proof.
  intros Himg HR. destruct (i_kind img) as [src| |].
  - destruct (String.eqb src ""); eexists _, st; by split.
  - unfold updImage at 1.
    rewrite bind_modify_run, bind_modify_run, bind_gets_run.
    eexists _, _. split; [reflexivity|]. split.
    + apply (reg_updImage image (set_i_isCanvas true) st HR).
    + simpl. apply lookup_lt_is_Some. rewrite length_alter.
      by apply lookup_lt_Some in Himg.
  - eexists _, st. by split.
Qed.

Lemma reg_loadTextureImage image :
  preserves registrySound (_loadTextureImage image).
Proof.
  intros st HR. unfold exec, _loadTextureImage.
  destruct (getImage image st) as [[img|e] s0] eqn:Hget.
  2:{ rewrite (bind_Throw _ _ _ _ _ Hget).
      by apply (preserves_run registrySound) in Hget;
        [|apply preserves_getImage|]. }
  assert (s0 = st /\ images st !! image = Some img) as [-> Himg].
  { unfold getImage in Hget. destruct (images st !! image) as [i|];
      [|discriminate]. injection Hget as Hi Hs. by subst. }
  rewrite (bind_Return _ _ _ _ _ Hget).
  destruct (srcPath_run image img st Himg HR) as (srcPath & s1 & Hsrc & Hs1).
  rewrite (bind_Return _ _ _ _ _ Hsrc). clear Hsrc Hget HR st Himg.
  destruct Hs1 as [HR Himg].
  destruct srcPath as [srcPath|]; [|exact HR].
  rewrite bind_gets_run.
  destruct (_textureIDs s1 !! srcPath) as [id|] eqn:Hknown.
  - (* a source seen before *)
    rewrite <- bind_assoc_run. unfold updImage at 1.
    rewrite bind_modify_run. cbv beta.
    rewrite <- bind_assoc_run, bind_gets_run, bind_ret_run.
    set (s2 := set_images _ s1).
    assert (HR2 : registrySound s2).
    { apply (reg_updImage image (set_i_storeID (Some id)) s1 HR). }
    assert (Himg2 : is_Some (images s2 !! image)).
    { subst s2. simpl. apply lookup_lt_is_Some. rewrite length_alter.
      by apply lookup_lt_is_Some. }
    destruct (dictLookup s2 (Some id)) as [t|] eqn:Hlook; [|exact HR2].
    destruct (getTexture t s2) as [[x|e] s3] eqn:Hx.
    2:{ rewrite (bind_Throw _ _ _ _ _ Hx).
        by apply (preserves_run registrySound) in Hx;
          [|apply preserves_getTexture|]. }
    assert (s3 = s2) as ->.
    { unfold getTexture in Hx. destruct (textures s2 !! t);
        injection Hx as _ Hs; by subst. }
    rewrite (bind_Return _ _ _ _ _ Hx).
    assert (Hins : forall s, registrySound s ->
              registrySound (snd ((_insertTextureInBatch t ;;; ret (Some t)) s))).
    { intros s Hs. apply (preserves_bind registrySound); [| |done].
      - apply reg_insertTextureInBatch.
      - intros; apply preserves_ret. }
    unfold when. destruct (negb _).
    + unfold updTexture at 1. rewrite bind_modify_run. apply Hins.
      apply (reg_track_known s2 id t image HR2 Hlook Himg2).
    + rewrite bind_ret_run. by apply Hins.
  - (* a new source *)
    rewrite <- bind_assoc_run, bind_gets_run.
    rewrite <- !bind_assoc_run, bind_modify_run. cbv beta.
    unfold updImage at 1. rewrite <- !bind_assoc_run, bind_modify_run.
    cbv beta. set (s2 := set_images _ _).
    assert (HR2 : registrySound s2).
    { apply (reg_updImage image _ (set_textureIDs _ s1)). exact HR. }
    assert (Himg2 : is_Some (images s2 !! image)).
    { subst s2. simpl. apply lookup_lt_is_Some. rewrite length_alter.
      by apply lookup_lt_is_Some. }
    assert (Hd2 : _textureDictionary s2 = _textureDictionary s1) by done.
    unfold _getSafeTexture. rewrite <- !bind_assoc_run.
    destruct (getBaseTexture None None s2) as [r s3] eqn:Hbase.
    destruct (getBaseTexture_fresh _ _ _ _ _ (proj1 HR2) Hbase)
      as (x & -> & Htex & Hsx & Hdx & Himg3 & Hdict & Hids & Hhost).
    rewrite (bind_Return _ _ _ _ _ Hbase), bind_ret_run.
    rewrite <- bind_assoc_run, bind_modify_run, bind_ret_run.
    set (s4 := set_textureDictionary _ s3).
    assert (Hget : getTexture (length (textures s2)) s4 = (Return x, s4)).
    { unfold getTexture. subst s4. simpl. rewrite Htex.
      by rewrite list_lookup_middle. }
    rewrite (bind_Return _ _ _ _ _ Hget), Hsx. simpl negb. unfold when.
    unfold updTexture at 1. rewrite bind_modify_run.
    apply (preserves_bind registrySound); [| |].
    + apply reg_insertTextureInBatch.
    + intros; apply preserves_ret.
    + split; [simpl; rewrite Hhost; apply HR2|].
      eapply (registryOK_extend s2); [apply HR2|..]; simpl.
      * rewrite Hdict, Hd2. apply array_set_end.
      * rewrite Htex, alter_end. reflexivity.
      * destruct x; reflexivity.
      * by rewrite Himg3.
      * intros data item Hd Hin. destruct x; simpl in *.
        rewrite Hdx in Hd. simpl in Hd. injection Hd as <-.
        apply list_elem_of_singleton in Hin as ->. by rewrite Himg3.
Qed.
#[export] Hint Resolve reg_loadTextureImage : reg.

Lemma reg_resolveTexture i : preserves registrySound (resolveTexture i).
Proof. unfold resolveTexture. reg_tac. Qed.
#[export] Hint Resolve reg_resolveTexture : reg.

Lemma registered_unset st k j :
  registered (set_textureDictionary
                (array_set (_textureDictionary st) k None) st) j
  = if decide (j = k) then None else registered st j.
Proof.
  unfold registered, array_set. simpl.
  destruct (Nat.ltb_spec k (length (_textureDictionary st))) as [Hk|Hk].
  - destruct (decide (j = k)) as [->|Hne].
    + by rewrite list_lookup_insert_eq.
    + by rewrite list_lookup_insert_ne.
  - destruct (decide (j < length (_textureDictionary st))%nat).
    + rewrite lookup_app_l by done. destruct (decide (j = k)); [lia|done].
    + rewrite lookup_app_r by lia.
      rewrite (lookup_ge_None_2 (_textureDictionary st) j) by lia.
      destruct (decide (j - length (_textureDictionary st)
                        < k - length (_textureDictionary st))%nat).
      * rewrite lookup_app_l by (by rewrite length_replicate).
        rewrite lookup_replicate_2 by done. by destruct (decide _).
      * rewrite lookup_app_r by (rewrite length_replicate; lia).
        rewrite length_replicate.
        destruct (decide (j = k)) as [->|Hne].
        -- by rewrite Nat.sub_diag.
        -- destruct (j - _ - _)%nat eqn:E; [lia|done].
Qed.

(** Clearing the entry of a texture's own store id leaves the texture
    unregistered. *)
Lemma unset_unregisters st t x sid :
  registrySound st -> textures st !! t = Some x ->
  t_storeID x = Some sid ->
  let st' := set_textureDictionary
               (array_set (_textureDictionary st) (Z.to_nat sid) None) st in
  registrySound st' /\ unregistered t st'.
Proof.
  intros [Hh Hok] Hx Hs st'. split; [split; [exact Hh|]|].
  - intros k t' Hr. subst st'. rewrite registered_unset in Hr.
    destruct (decide _); [discriminate|]. by apply Hok.
  - intros k Hr. subst st'. rewrite registered_unset in Hr.
    destruct (decide (k = Z.to_nat sid)) as [->|Hne]; [discriminate|].
    destruct (Hok k t Hr) as (x' & Hx' & Hs' & _).
    rewrite Hx in Hx'. injection Hx' as <-. rewrite Hs in Hs'.
    injection Hs' as ->. by rewrite Nat2Z.id in Hne.
Qed.

Lemma without_updImage t i f : preserves (soundWithout t) (updImage i f).
Proof.
  intros st [HR Hu]. split; [by apply reg_updImage|exact Hu].
Qed.

Lemma without_leaf t (f : stage -> stage) st :
  soundWithout t st ->
  _textureDictionary (f st) = _textureDictionary st ->
  textures (f st) = textures st -> images (f st) = images st ->
  host (f st) = host st ->
  soundWithout t (f st).
Proof.
  intros [[Hh Hok] Hu] Hd Ht Hi Hho. unfold soundWithout, registrySound,
    registryOK, unregistered, registered in *.
  rewrite Hd, Ht, Hi, Hho. done.
Qed.

(** Any update of a texture that is not registered. *)
Lemma reg_updTexture_unregistered t f st :
  soundWithout t st -> registrySound (exec (updTexture t f) st).
Proof.
  intros [[Hh Hok] Hu]. split; [exact Hh|]. intros k t' Hr.
  change (registered st k = Some t') in Hr.
  destruct (Hok k t' Hr) as (x & Hx & Hrest).
  exists x. split; [|exact Hrest].
  unfold exec, updTexture, modify. simpl.
  rewrite list_lookup_alter_ne; [done|]. intros ->. by apply (Hu k).
Qed.

Lemma exec_bind_at {A B} (P : stage -> Prop) (m : M A) (k : A -> M B) st :
  P (exec m st) -> (forall a, preserves P (k a)) -> P (exec (bind m k) st).
Proof.
  intros Hm Hk. unfold exec, bind in *.
  destruct (m st) as [[a|e] st']; simpl in *; [by apply Hk|done].
Qed.

Lemma reg_killTextureObject texture :
  preserves registrySound (_killTextureObject texture).
Proof.
  intros st HR. destruct texture as [t|]; [|exact HR].
  unfold exec, _killTextureObject.
  destruct (getTexture t st) as [[x|e] s0] eqn:Hget.
  2:{ rewrite (bind_Throw _ _ _ _ _ Hget).
      by apply (preserves_run registrySound) in Hget;
        [|apply preserves_getTexture|]. }
  assert (s0 = st /\ textures st !! t = Some x) as [-> Hx].
  { unfold getTexture in Hget. destruct (textures st !! t);
      [|discriminate]. injection Hget as Hi Hs. by subst. }
  rewrite (bind_Return _ _ _ _ _ Hget).
  apply (exec_bind_at registrySound).
  2:{ intros _. reg_tac. }
  clear Hget.
  destruct (t_storeID x) as [sid|] eqn:Hsid; [|exact HR].
  unfold when. destruct (0 <=? sid) eqn:Hpos; [|exact HR].
  unfold exec. rewrite bind_modify_run, bind_modify_run.
  destruct (unset_unregisters st t x sid) as [HR1 Hu1]; [done..|].
  set (s1 := set_textureIDs _ _).
  assert (HQ : soundWithout t s1) by (by split).
  destruct (forEach (fun i => updImage i (set_i_storeID None))
              (rev (default [] (t_imageData x))) s1) as [[u|e] s2] eqn:Hf.
  - rewrite (bind_Return _ _ _ _ _ Hf).
    apply reg_updTexture_unregistered.
    eapply (preserves_run (soundWithout t)); [|exact HQ|exact Hf].
    apply preserves_forEach. intros; apply without_updImage.
  - rewrite (bind_Throw _ _ _ _ _ Hf).
    eapply (preserves_run (soundWithout t)) in Hf; [apply Hf| |exact HQ].
    apply preserves_forEach. intros; apply without_updImage.
Qed.
#[export] Hint Resolve reg_killTextureObject : reg.

Lemma purgeSources_sub count data : forall st r s,
  purgeSources count data st = (r, s) ->
  textures s = textures st /\ _textureDictionary s = _textureDictionary st
  /\ host s = host st /\ length (images s) = length (images st)
  /\ forall l, r = Return l -> forall item, item ∈ l -> item ∈ data.
Proof.
  induction data as [|item rest IH]; intros st r s; cbn [purgeSources].
  - unfold ret. intros [= <- <-]. repeat split; try done.
    by intros l [= <-].
  - destruct (getImage item st) as [[img|e] s0] eqn:Hget.
    2:{ rewrite (bind_Throw _ _ _ _ _ Hget). intros [= <- <-].
        unfold getImage in Hget. destruct (images st !! item);
          injection Hget as _ <-; repeat split; try done; intros ? [=]. }
    rewrite (bind_Return _ _ _ _ _ Hget).
    assert (s0 = st) as ->.
    { unfold getImage in Hget. destruct (images st !! item);
        by injection Hget as _ <-. }
    rewrite bind_gets_run.
    destruct (expired _ _ _).
    + unfold updImage. rewrite bind_modify_run. intros Hrun.
      apply IH in Hrun as (Ht & Hd & Hh & Hl & Hsub). simpl in *.
      rewrite length_alter in Hl. repeat split; try done.
      intros l Hr i Hi. right. by apply (Hsub l).
    + destruct (purgeSources count rest st) as [[l'|e] s'] eqn:Hrun.
      * rewrite (bind_Return _ _ _ _ _ Hrun). unfold ret.
        intros [= <- <-].
        apply IH in Hrun as (Ht & Hd & Hh & Hl & Hsub).
        repeat split; try done. intros l [= <-] i Hi.
        apply elem_of_cons in Hi as [->|Hi]; [left|right].
        by apply (Hsub l').
      * rewrite (bind_Throw _ _ _ _ _ Hrun). intros [= <- <-].
        apply IH in Hrun as (Ht & Hd & Hh & Hl & Hsub).
        repeat split; try done; intros ? [=].
Qed.

Lemma reg_purgeSources count data :
  preserves registrySound (purgeSources count data).
Proof.
  induction data as [|item rest IH]; simpl; reg_tac; apply IH.
Qed.

Lemma reg_purgeEntry count i : preserves registrySound (purgeEntry count i).
Proof.
  intros st HR. unfold exec, purgeEntry. rewrite bind_gets_run.
  fold (registered st i).
  destruct (registered st i) as [t|] eqn:Hreg; [|exact HR].
  destruct (proj2 HR i t Hreg) as (x & Hx & Hsid & Hlive).
  assert (Hget : getTexture t st = (Return x, st)).
  { unfold getTexture. by rewrite Hx. }
  rewrite (bind_Return _ _ _ _ _ Hget).
  destruct (t_imageData x) as [data|] eqn:Hdata; [|exact HR].
  destruct (purgeSources count data st) as [[data'|e] s1] eqn:Hrun.
  2:{ rewrite (bind_Throw _ _ _ _ _ Hrun).
      eapply (preserves_run registrySound); [|exact HR|exact Hrun].
      apply reg_purgeSources. }
  rewrite (bind_Return _ _ _ _ _ Hrun).
  assert (HR1 : registrySound s1).
  { eapply (preserves_run registrySound); [|exact HR|exact Hrun].
    apply reg_purgeSources. }
  apply purgeSources_sub in Hrun as (Ht & Hd & Hh & Hl & Hsub).
  apply (exec_bind_at registrySound).
  2:{ intros _. reg_tac. }
  split; [apply HR1|]. intros k t' Hr.
  change (registered s1 k = Some t') in Hr.
  destruct (proj2 HR1 k t' Hr) as (x' & Hx' & Hs' & Hlive').
  unfold exec, updTexture, modify. simpl.
  destruct (decide (t' = t)) as [->|Hne].
  - rewrite list_lookup_alter_eq, Hx'. eexists. split; [done|].
    split; [by destruct x'|]. intros d item Hd' Hin.
    assert (d = data') as ->.
    { destruct x'; simpl in Hd'. by injection Hd' as <-. }
    apply lookup_lt_is_Some. rewrite Hl. apply lookup_lt_is_Some.
    apply (Hlive data); [done|]. by apply (Hsub data').
  - exists x'. by rewrite list_lookup_alter_ne.
Qed.
#[export] Hint Resolve reg_purgeEntry : reg.

Lemma reg_purgeTextures count : preserves registrySound (purgeTextures count).
Proof. unfold purgeTextures. reg_tac. Qed.
#[export] Hint Resolve reg_purgeTextures : reg.

Lemma reg_immediateBatchRender : preserves registrySound _immediateBatchRender.
Proof. unfold _immediateBatchRender. reg_tac. Qed.
#[export] Hint Resolve reg_immediateBatchRender : reg.

Lemma reg_BitmapCache_update c : preserves registrySound (BitmapCache_update c).
Proof. unfold BitmapCache_update. reg_tac. Qed.
#[export] Hint Resolve reg_BitmapCache_update : reg.

Lemma reg_autoCache ic p : preserves registrySound (autoCache ic p).
Proof. unfold autoCache, BitmapCache_define, surfaceStale, _updateSurface,
    updateViewport. reg_tac. Qed.
#[export] Hint Resolve reg_autoCache : reg.

Lemma reg_writeCard uv ti a : preserves registrySound (writeCard uv ti a).
Proof. unfold writeCard. reg_tac. Qed.
#[export] Hint Resolve reg_writeCard : reg.

Lemma reg_appendToBatch c a ic :
  preserves registrySound (_appendToBatch c a ic).
Proof.
  apply (appendToBatch_preserves registrySound registrySound); auto with reg.
  intros st HR. apply (reg_flushOnVertexOverflow) in HR. unfold exec in HR.
  by destruct (flushOnVertexOverflow st) as [[?|?] ?].
Qed.
#[export] Hint Resolve reg_appendToBatch : reg.

Lemma reg_drawContent c ic : preserves registrySound (_drawContent c ic).
Proof. unfold _drawContent. reg_tac. Qed.
#[export] Hint Resolve reg_drawContent : reg.

Lemma reg_draw c ic : preserves registrySound (draw c ic).
Proof. unfold draw. reg_tac. Qed.
#[export] Hint Resolve reg_draw : reg.

Ltac empty_tac :=
  repeat first
    [ pstep
    | apply preserves_getTexture
    | (let H := fresh in apply preserves_modify; intros ? H; exact H) ].

Lemma empty_fetchShaderProgram c f :
  preserves emptyRegistry (_fetchShaderProgram c f).
Proof. unfold _fetchShaderProgram. empty_tac. Qed.

Lemma empty_compileLoop fuel : preserves emptyRegistry (compileLoop fuel).
Proof.
  induction fuel as [|fuel IH]; simpl; [apply preserves_throw|].
  empty_tac; [apply empty_fetchShaderProgram|apply IH].
Qed.

Lemma empty_getBaseTexture w h : preserves emptyRegistry (getBaseTexture w h).
Proof.
  unfold getBaseTexture, createTexture, resizeTexture, updTexture. empty_tac.
Qed.

Lemma emptyRegistry_sound st : emptyRegistry st -> registrySound st.
Proof.
  intros [Hh Hd]. split; [exact Hh|]. intros i t. unfold registered.
  by rewrite Hd.
Qed.

Lemma exec_modify_bind {B} (P : stage -> Prop) f (k : unit -> M B) st :
  P (exec (k tt) (f st)) -> P (exec (bind (modify f) k) st).
Proof. unfold exec. by rewrite bind_modify_run. Qed.

Lemma initMaterials_tail :
  preserves emptyRegistry
    (modify (set_textureIDs ∅) ;;;
     modify (set_baseTextures []) ;;;
     modify (set_batchTextures []) ;;;
     modify (fun st => set_gpuTextureCount
                         (MAX_TEXTURE_IMAGE_UNITS (host st)) st) ;;;
     modify (fun st => set_gpuTextureMax
                         (MAX_COMBINED_TEXTURE_IMAGE_UNITS (host st)) st) ;;;
     modify (fun st => set_batchTextureCount (_gpuTextureCount st) st) ;;;
     compileLoop 34 ;;;
     modify (fun st => set_mainShader (_activeShader st) st) ;;;
     let* texture := getBaseTexture None None in
     match texture with
     | None => throw (Thrown "Problems creating basic textures")
     | Some t =>
       updTexture t (set_t_storeID (Some (-1))) ;;;
       let* n := gets _batchTextureCount in
       modify (set_baseTextures (replicate (Z.to_nat n) t)) ;;;
       modify (set_batchTextures (replicate (Z.to_nat n) t))
     end).
Proof.
  unfold updTexture. empty_tac;
    [apply empty_compileLoop|apply empty_getBaseTexture].
Qed.

Lemma initMaterials_registry st :
  contextLost (host st) = false -> emptyRegistry (exec _initMaterials st).
Proof.
  intros Hh. unfold _initMaterials.
  apply exec_modify_bind, exec_modify_bind, initMaterials_tail.
  split; [exact Hh|reflexivity].
Qed.

Lemma reg_updateViewport w h : preserves registrySound (updateViewport w h).
Proof. unfold updateViewport. reg_tac. Qed.
#[export] Hint Resolve reg_updateViewport : reg.

Lemma reg_initializeWebGL w h st :
  contextLost (host st) = false ->
  registrySound (exec (_initializeWebGL w h) st).
Proof.
  intros Hh. unfold _initializeWebGL. apply (exec_bind_at registrySound).
  - by apply emptyRegistry_sound, initMaterials_registry.
  - intros _. reg_tac.
Qed.

Lemma reg_perform c : preserves registrySound (perform c).
Proof. destruct c; simpl; auto with reg. Qed.

Lemma reg_afterCalls calls : forall st,
  registrySound st -> registrySound (afterCalls calls st).
Proof.
  induction calls as [|c calls IH]; intros st HR; [exact HR|].
  simpl. apply IH. by apply reg_perform.
Qed.

(** X3. Whatever a client draws, purges and resizes on an instance
    built on a live context, a texture registered under a store id is in
    the store with that id as its [_storeID], and its sources are
    images. *)
Theorem registry_sound_after_calls (h : hostEnv) (directDraw : bool)
    (batchSize autoPurge : Z) (sources : list image)
    (canvasWidth canvasHeight : Z) (calls : list stageCall) :
  contextLost h = false ->
  let st := afterCalls calls
              (exec (_initializeWebGL canvasWidth canvasHeight)
                 (newStage h directDraw batchSize autoPurge sources)) in
  forall i t, registered st i = Some t ->
    exists x, textures st !! t = Some x /\ t_storeID x = Some (Z.of_nat i)
      /\ forall data item, t_imageData x = Some data -> item ∈ data ->
           is_Some (images st !! item).
Proof.
  intros Hh st. apply (reg_afterCalls calls). by apply reg_initializeWebGL.
Qed.

Lemma registry_sound_after_calls_witness :
  contextLost demoHost = false
  /\ let st := afterCalls
                 [CallDraw (sceneOf [bitmapOf 0 1 None; bitmapOf 1 1 None])
                    false;
                  CallPurgeTextures (Some 0);
                  CallUpdateViewport 320 200;
                  CallDraw (sceneOf [bitmapOf 0 1 None]) false]
                 (exec (_initializeWebGL 640 480)
                    (newStage demoHost true 170 1200
                       [loadedImage "a"; loadedImage "b"])) in
     forall i t, registered st i = Some t ->
       exists x, textures st !! t = Some x /\ t_storeID x = Some (Z.of_nat i)
         /\ forall data item, t_imageData x = Some data -> item ∈ data ->
              is_Some (images st !! item).
Proof.
  split; [reflexivity|].
  exact (registry_sound_after_calls demoHost true 170 1200
           [loadedImage "a"; loadedImage "b"] 640 480 _ eq_refl).
Defined.

End RegistrySound.

(** ** Colours *)

Module Colour.

Import StageGL Run.
Local Open Scope js_scope.

Lemma toInt32_bits (v : Z) (i : Z) :
  0 <= i < 32 -> Z.testbit (JS.toInt32 v) i = Z.testbit v i.
Proof.
  intros Hi. unfold JS.toInt32. cbv zeta.
  destruct (v mod 2 ^ 32 <? 2 ^ 31).
  - apply Z.mod_pow2_bits_low. lia.
  - replace (v mod 2 ^ 32 - 2 ^ 32) with (v mod 2 ^ 32 + (-1) * 2 ^ 32) by lia.
    rewrite <- (Z.mod_pow2_bits_low (_ + _) 32 i) by lia.
    rewrite Z.mod_add by lia. rewrite Z.mod_mod by lia.
    apply Z.mod_pow2_bits_low. lia.
Qed.

Lemma byteOf_bits k n i :
  0 <= k -> 0 <= i ->
  Z.testbit (byteOf k n) i = if i <? 8 then Z.testbit n (i + 8 * k) else false.
Proof.
  intros Hk Hi. unfold byteOf. change 256 with (2 ^ 8).
  destruct (Z.ltb_spec i 8).
  - rewrite Z.mod_pow2_bits_low by lia.
    rewrite <- Z.shiftr_div_pow2 by lia. by rewrite Z.shiftr_spec by lia.
  - apply Z.mod_pow2_bits_high. lia.
Qed.

Lemma byteOf_range k n : 0 <= byteOf k n < 256.
Proof. unfold byteOf. apply Z.mod_pos_bound. lia. Qed.

(** The field of eight bits at [8 * k], by mask and shift. *)
Lemma mask_shift (color mask k : Z) :
  0 <= k <= 3 ->
  (forall j, 0 <= j < 32 ->
     Z.testbit (JS.toInt32 mask) j
     = (8 * k <=? j) && (j <? 8 * k + 8)) ->
  unsignedShiftRight (bitAnd color mask) (8 * k) = byteOf k color.
Proof.
  intros Hk Hmask. unfold unsignedShiftRight, bitAnd, toUint32.
  rewrite (Z.mod_small (8 * k) 32) by lia.
  apply Z.bits_inj'. intros i Hi.
  rewrite Z.shiftr_spec, byteOf_bits by lia.
  destruct (Z.ltb_spec (i + 8 * k) 32) as [Hlow|Hhigh].
  - rewrite Z.mod_pow2_bits_low, Z.land_spec by lia.
    rewrite toInt32_bits, Hmask by lia.
    destruct (Z.ltb_spec i 8).
    + replace (8 * k <=? i + 8 * k) with true by lia.
      replace (i + 8 * k <? 8 * k + 8) with true by lia.
      apply andb_true_r.
    + replace (i + 8 * k <? 8 * k + 8) with false by lia.
      by rewrite andb_false_r, andb_false_r.
  - rewrite Z.mod_pow2_bits_high by lia.
    destruct (Z.ltb_spec i 8); [lia|done].
Qed.

Lemma mask_bits (m lo : Z) (j : Z) :
  0 <= lo -> 0 <= j ->
  Z.testbit (Z.shiftl (Z.ones 8) lo) j = (lo <=? j) && (j <? lo + 8).
Proof.
  intros Hlo Hj. rewrite Z.shiftl_spec by lia.
  destruct (Z.leb_spec lo j); simpl.
  - destruct (Z.ltb_spec j (lo + 8)).
    + apply Z.ones_spec_low. lia.
    + apply Z.ones_spec_high. lia.
  - apply Z.testbit_neg_r. lia.
Qed.

Lemma red_field color :
  unsignedShiftRight (bitAnd color 0xFF000000) 24 = byteOf 3 color.
Proof.
  apply (mask_shift color _ 3); [lia|]. intros j Hj.
  change (JS.toInt32 0xFF000000) with (Z.lnot (Z.ones 24)).
  rewrite Z.lnot_spec by lia.
  destruct (Z.leb_spec (8 * 3) j); simpl.
  - rewrite Z.ones_spec_high by lia. simpl. symmetry. apply Z.ltb_lt. lia.
  - rewrite Z.ones_spec_low by lia. done.
Qed.

Lemma green_field color :
  unsignedShiftRight (bitAnd color 0x00FF0000) 16 = byteOf 2 color.
Proof.
  apply (mask_shift color _ 2); [lia|]. intros j Hj.
  change (JS.toInt32 0x00FF0000) with (Z.shiftl (Z.ones 8) 16).
  apply (mask_bits 0); lia.
Qed.

Lemma blue_field color :
  unsignedShiftRight (bitAnd color 0x0000FF00) 8 = byteOf 1 color.
Proof.
  apply (mask_shift color _ 1); [lia|]. intros j Hj.
  change (JS.toInt32 0x0000FF00) with (Z.shiftl (Z.ones 8) 8).
  apply (mask_bits 0); lia.
Qed.

Lemma alpha_field color : bitAnd color 0x000000FF = byteOf 0 color.
Proof.
  unfold bitAnd. apply Z.bits_inj'. intros i Hi.
  rewrite Z.land_spec, byteOf_bits by lia.
  change (JS.toInt32 255) with (Z.ones 8).
  destruct (Z.ltb_spec i 8).
  - rewrite Z.ones_spec_low, toInt32_bits by lia.
    rewrite andb_true_r. f_equal. lia.
  - rewrite Z.ones_spec_high by lia. apply andb_false_r.
Qed.

Lemma clampUnit_byte (v : Z) :
  0 <= v < 256 ->
  clampUnit (over255 (JS.of_Z v)) = JS.Finite (inject_Z v / 255).
Proof.
  intros Hv. unfold clampUnit, over255, JS.of_Z, JS.Math_max, JS.Math_min.
  assert (H0 : Qle_bool (inject_Z 0) (inject_Z v / 255) = true).
  { apply Qle_bool_iff. unfold Qle, Qdiv, Qmult, Qinv, inject_Z. simpl. lia. }
  rewrite H0.
  assert (H1 : Qle_bool (inject_Z v / 255) (inject_Z 1) = true).
  { apply Qle_bool_iff. unfold Qle, Qdiv, Qmult, Qinv, inject_Z. simpl. lia. }
  by rewrite H1.
Qed.

Lemma colorToObj_number color :
  colorToObj (NumberColour color)
  = Some (colourOfBytes (byteOf 3 color) (byteOf 2 color) (byteOf 1 color)
            (byteOf 0 color)).
Proof.
  unfold colorToObj. cbv zeta.
  rewrite red_field, green_field, blue_field, alpha_field.
  rewrite !clampUnit_byte by apply byteOf_range. reflexivity.
Qed.

Lemma bytes_sum n :
  n mod 2 ^ 32
  = byteOf 3 n * 2 ^ 24 + byteOf 2 n * 2 ^ 16 + byteOf 1 n * 2 ^ 8
    + byteOf 0 n.
Proof.
  unfold byteOf.
  change (2 ^ (8 * 0)) with 1. rewrite Z.div_1_r.
  change (2 ^ (8 * 3)) with (256 * 256 * 256).
  change (2 ^ (8 * 2)) with (256 * 256).
  change (2 ^ (8 * 1)) with 256.
  change (2 ^ 32) with (256 * (256 * (256 * 256))).
  change (2 ^ 24) with (256 * (256 * 256)).
  change (2 ^ 16) with (256 * 256). change (2 ^ 8) with 256.
  rewrite !Z.rem_mul_r by lia.
  rewrite <- !Z.div_div by lia. lia.
Qed.

(** X4. A colour given as an integer Number is read as the four bytes
    [0xRRGGBBAA] of the number modulo [2^32], red first, whatever its sign
    and size: each component is its byte over 255. *)
Theorem colorToObj_number_bytes (color : Z) :
  exists r g b a,
    0 <= r < 256 /\ 0 <= g < 256 /\ 0 <= b < 256 /\ 0 <= a < 256
    /\ color mod 2 ^ 32 = r * 2 ^ 24 + g * 2 ^ 16 + b * 2 ^ 8 + a
    /\ colorToObj (NumberColour color) = Some (colourOfBytes r g b a).
Proof.
  exists (byteOf 3 color), (byteOf 2 color), (byteOf 1 color),
    (byteOf 0 color).
  repeat split; try apply byteOf_range.
  - apply bytes_sum.
  - apply colorToObj_number.
Qed.

Lemma hexDigit_range c d : hexDigit c = Some d -> 0 <= d < 16.
Proof.
  unfold hexDigit. cbv zeta. set (n := Z.of_nat (nat_of_ascii c)).
  destruct (Z.leb_spec 48 n), (Z.leb_spec n 57); simpl;
    try (intros [= <-]; lia).
  all: destruct (Z.leb_spec 65 n), (Z.leb_spec n 70); simpl;
    try (intros [= <-]; lia).
  all: destruct (Z.leb_spec 97 n), (Z.leb_spec n 102); simpl;
    try (intros [= <-]; lia); try discriminate.
Qed.

Lemma hexDigit_not_white c d : hexDigit c = Some d -> isWhiteSpace c = false.
Proof.
  destruct c as [[] [] [] [] [] [] [] []]; vm_compute;
    intros; first [reflexivity|discriminate].
Qed.

(** Two hexadecimal digits after [0x]. *)
Lemma Number_0x_pair c1 c2 d1 d2 :
  hexDigit c1 = Some d1 -> hexDigit c2 = Some d2 ->
  Number_0x (String c1 (String c2 EmptyString)) = JS.of_Z (16 * d1 + d2).
Proof.
  intros H1 H2. unfold Number_0x. cbn [trimEnd].
  rewrite (hexDigit_not_white _ _ H2). cbn [hexDigits].
  rewrite H1, H2. do 2 f_equal.
Qed.

Lemma byteOf_digits d1 d2 d3 d4 d5 d6 d7 d8 :
  0 <= d1 < 16 -> 0 <= d2 < 16 -> 0 <= d3 < 16 -> 0 <= d4 < 16 ->
  0 <= d5 < 16 -> 0 <= d6 < 16 -> 0 <= d7 < 16 -> 0 <= d8 < 16 ->
  let v := 16 * (16 * (16 * (16 * (16 * (16 * (16 * (16 * 0 + d1) + d2) + d3)
                 + d4) + d5) + d6) + d7) + d8 in
  byteOf 3 v = 16 * d1 + d2 /\ byteOf 2 v = 16 * d3 + d4
  /\ byteOf 1 v = 16 * d5 + d6 /\ byteOf 0 v = 16 * d7 + d8.
Proof.
  intros. subst v. unfold byteOf.
  change (2 ^ (8 * 0)) with 1. change (2 ^ (8 * 3)) with 16777216.
  change (2 ^ (8 * 2)) with 65536. change (2 ^ (8 * 1)) with 256.
  repeat split.
  all: match goal with
       | |- (?x / ?k) mod 256 = ?r =>
         let q := fresh in
         assert (q : x / k = x / k) by reflexivity;
         clear q
       end.
  all: Z.div_mod_to_equations; lia.
Qed.

Lemma hexDigits_eight s v :
  String.length s = 8%nat -> hexDigits 0 s = Some v ->
  exists c1 c2 c3 c4 c5 c6 c7 c8 d1 d2 d3 d4 d5 d6 d7 d8,
    s = String c1 (String c2 (String c3 (String c4 (String c5 (String c6
          (String c7 (String c8 EmptyString)))))))
    /\ hexDigit c1 = Some d1 /\ hexDigit c2 = Some d2
    /\ hexDigit c3 = Some d3 /\ hexDigit c4 = Some d4
    /\ hexDigit c5 = Some d5 /\ hexDigit c6 = Some d6
    /\ hexDigit c7 = Some d7 /\ hexDigit c8 = Some d8
    /\ v = 16 * (16 * (16 * (16 * (16 * (16 * (16 * (16 * 0 + d1) + d2) + d3)
                 + d4) + d5) + d6) + d7) + d8.
Proof.
  intros Hl Hv.
  do 8 (destruct s as [|? s]; [discriminate|]).
  destruct s; [|discriminate]. cbn [hexDigits] in Hv.
  repeat match type of Hv with
         | context [hexDigit ?c] =>
           destruct (hexDigit c) eqn:?; [|discriminate]
         end.
  injection Hv as <-. do 16 eexists. repeat split; eassumption.
Qed.

(** X5. A string [#RRGGBBAA] of eight hexadecimal digits names the
    colour of the number [0xRRGGBBAA]. *)
Theorem colorToObj_hex8_is_number (s : string) (v : Z) :
  String.length s = 8%nat -> hexDigits 0 s = Some v ->
  colorToObj (StringColour ("#" ++ s)) = colorToObj (NumberColour v).
Proof.
  intros Hl Hv.
  destruct (hexDigits_eight s v Hl Hv)
    as (c1 & c2 & c3 & c4 & c5 & c6 & c7 & c8 & d1 & d2 & d3 & d4 & d5 & d6
        & d7 & d8 & -> & H1 & H2 & H3 & H4 & H5 & H6 & H7 & H8 & ->).
  rewrite colorToObj_number.
  pose proof (hexDigit_range _ _ H1). pose proof (hexDigit_range _ _ H2).
  pose proof (hexDigit_range _ _ H3). pose proof (hexDigit_range _ _ H4).
  pose proof (hexDigit_range _ _ H5). pose proof (hexDigit_range _ _ H6).
  pose proof (hexDigit_range _ _ H7). pose proof (hexDigit_range _ _ H8).
  destruct (byteOf_digits d1 d2 d3 d4 d5 d6 d7 d8) as (-> & -> & -> & ->);
    try done.
  unfold colorToObj. cbv [String.append].
  cbn -[Number_0x clampUnit over255 Z.mul Z.add].
  rewrite (Number_0x_pair _ _ _ _ H1 H2), (Number_0x_pair _ _ _ _ H3 H4),
    (Number_0x_pair _ _ _ _ H5 H6), (Number_0x_pair _ _ _ _ H7 H8).
  rewrite !clampUnit_byte by lia. reflexivity.
Qed.

Lemma colorToObj_hex8_is_number_witness :
  String.length "FF8000cc" = 8%nat /\ hexDigits 0 "FF8000cc" = Some 0xFF8000CC
  /\ colorToObj (StringColour "#FF8000cc")
     = colorToObj (NumberColour 0xFF8000CC).
Proof.
  split; [reflexivity|]. split; [reflexivity|].
  exact (colorToObj_hex8_is_number "FF8000cc" 0xFF8000CC eq_refl eq_refl).
Defined.

(** X6. A string [#RRGGBB] of six hexadecimal digits names the opaque
    colour of those bytes, and the short form [#RGB] the colour of
    [#RRGGBB]. *)
Theorem colorToObj_hex6_opaque (s : string) (v : Z) :
  String.length s = 6%nat -> hexDigits 0 s = Some v ->
  colorToObj (StringColour ("#" ++ s))
  = Some (mkColour (JS.Finite (inject_Z (byteOf 2 v) / 255))
            (JS.Finite (inject_Z (byteOf 1 v) / 255))
            (JS.Finite (inject_Z (byteOf 0 v) / 255)) (JS.of_Z 1))
  /\ forall c1 c2 c3,
       s = String c1 (String c1 (String c2 (String c2 (String c3
             (String c3 EmptyString))))) ->
       colorToObj (StringColour
                     (String "#" (String c1 (String c2 (String c3
                        EmptyString)))))
       = colorToObj (StringColour ("#" ++ s)).
Proof.
  intros Hl Hv. split.
  - destruct s as [|c1 s]; [discriminate|].
    destruct s as [|c2 s]; [discriminate|].
    destruct s as [|c3 s]; [discriminate|].
    destruct s as [|c4 s]; [discriminate|].
    destruct s as [|c5 s]; [discriminate|].
    destruct s as [|c6 s]; [discriminate|].
    destruct s; [|discriminate]. cbn [hexDigits] in Hv.
    destruct (hexDigit c1) as [d|] eqn:H1; [|discriminate].
    destruct (hexDigit c2) as [d0|] eqn:H2; [|discriminate].
    destruct (hexDigit c3) as [d1|] eqn:H3; [|discriminate].
    destruct (hexDigit c4) as [d2|] eqn:H4; [|discriminate].
    destruct (hexDigit c5) as [d3|] eqn:H5; [|discriminate].
    destruct (hexDigit c6) as [d4|] eqn:H6; [|discriminate].
    injection Hv as <-.
    pose proof (hexDigit_range _ _ H1). pose proof (hexDigit_range _ _ H2).
    pose proof (hexDigit_range _ _ H3). pose proof (hexDigit_range _ _ H4).
    pose proof (hexDigit_range _ _ H5). pose proof (hexDigit_range _ _ H6).
    match goal with
    | |- context [byteOf 2 ?x] =>
      replace x with
        (16 * (16 * (16 * (16 * (16 * (16 * (16 * (16 * 0 + 0) + 0) + d)
                   + d0) + d1) + d2) + d3) + d4) by lia
    end.
    destruct (byteOf_digits 0 0 d d0 d1 d2 d3 d4) as (_ & -> & -> & ->);
      try done.
    unfold colorToObj. cbv [String.append].
    cbn -[Number_0x clampUnit over255 Z.mul Z.add].
    rewrite (Number_0x_pair _ _ _ _ H1 H2), (Number_0x_pair _ _ _ _ H3 H4),
      (Number_0x_pair _ _ _ _ H5 H6).
    rewrite !clampUnit_byte by lia. reflexivity.
  - intros c1 c2 c3 ->. reflexivity.
Qed.

Lemma colorToObj_hex6_opaque_witness :
  String.length "ff8800" = 6%nat /\ hexDigits 0 "ff8800" = Some 0xFF8800
  /\ colorToObj (StringColour "#ff8800")
     = Some (mkColour (JS.Finite (inject_Z (byteOf 2 0xFF8800) / 255))
               (JS.Finite (inject_Z (byteOf 1 0xFF8800) / 255))
               (JS.Finite (inject_Z (byteOf 0 0xFF8800) / 255)) (JS.of_Z 1))
  /\ forall c1 c2 c3,
       "ff8800"%string
       = String c1 (String c1 (String c2 (String c2 (String c3
           (String c3 EmptyString))))) ->
       colorToObj (StringColour
                     (String "#" (String c1 (String c2 (String c3
                        EmptyString)))))
       = colorToObj (StringColour "#ff8800").
Proof.
  split; [reflexivity|]. split; [reflexivity|].
  exact (colorToObj_hex6_opaque "ff8800" 0xFF8800 eq_refl eq_refl).
Defined.

End Colour.

(** ** Images that share a texture *)

Module TextureSharing.

Import StageGL Run Invariants Stability Registry RegistrySound.
Local Open Scope js_scope.

Create HintDb tracked.

Section Tracked.

Variables (n : nat) (src : string) (id : Z) (t : texref)
  (data : list imgref).

Let P := trackedAmong n src id t data.

Lemma tracked_updTexture t' f :
  (forall x, t_storeID (f x) = t_storeID x
             /\ t_imageData (f x) = t_imageData x) ->
  preserves P (updTexture t' f).
Proof.
  intros Hf st [(Hids & Hd & (x & Hx & Hs & Hdat) & Himg) Hn].
  unfold exec, updTexture, modify. simpl.
  split; [|simpl; by rewrite length_alter].
  split; [exact Hids|]. split; [exact Hd|]. split; [|exact Himg].
  simpl. destruct (decide (t = t')) as [<-|Hne].
  - exists (f x). rewrite list_lookup_alter_eq, Hx.
    destruct (Hf x) as [-> ->]. done.
  - exists x. by rewrite list_lookup_alter_ne.
Qed.

Lemma tracked_updImage i f :
  (forall x, i_storeID (f x) = i_storeID x) -> preserves P (updImage i f).
Proof.
  intros Hf st [(Hids & Hd & Hx & Himg) Hn].
  unfold exec, updImage, modify. simpl.
  split; [|exact Hn].
  split; [exact Hids|]. split; [exact Hd|]. split; [exact Hx|].
  intros j Hj. destruct (Himg j Hj) as (img & Hi & Hs). simpl.
  destruct (decide (j = i)) as [->|Hne].
  - exists (f img). rewrite list_lookup_alter_eq, Hi. by rewrite Hf.
  - exists img. by rewrite list_lookup_alter_ne.
Qed.

Ltac tracked_tac :=
  repeat first
    [ pstep
    | apply preserves_getTexture
    | apply preserves_getImage
    | apply preserves_findSlot
    | solve [auto with tracked]
    | (apply tracked_updTexture; intros []; split; reflexivity)
    | (apply tracked_updImage; intros []; reflexivity)
    | (let H := fresh in apply preserves_modify; intros ? H; exact H) ].

Lemma tracked_renderBatch : preserves P _renderBatch.
Proof. unfold _renderBatch, log. tracked_tac. Qed.

Lemma tracked_flush r : preserves P (flush r).
Proof. unfold flush. tracked_tac. apply tracked_renderBatch. Qed.

Lemma tracked_updateTextureImageData i :
  preserves P (_updateTextureImageData i).
Proof. unfold _updateTextureImageData, log. tracked_tac. Qed.

Lemma tracked_refreshSource x : preserves P (refreshSource x).
Proof.
  unfold refreshSource. tracked_tac. apply tracked_updateTextureImageData.
Qed.

Lemma tracked_insertTextureInBatch t' :
  preserves P (_insertTextureInBatch t').
Proof.
  unfold _insertTextureInBatch. tracked_tac;
    first [apply tracked_flush|apply tracked_refreshSource].
Qed.

End Tracked.

Lemma getImage_run st i img :
  images st !! i = Some img -> getImage i st = (Return img, st).
Proof. intros H. unfold getImage. by rewrite H. Qed.

Lemma getTexture_run st t x :
  textures st !! t = Some x -> getTexture t st = (Return x, st).
Proof. intros H. unfold getTexture. by rewrite H. Qed.

Lemma insert_then_return {A} (P : stage -> Prop) t (a : A) st :
  preserves P (_insertTextureInBatch t) -> P st ->
  let r := (_insertTextureInBatch t ;;; ret a) st in
  P r.2 /\ (r.1 = Return a \/ exists e, r.1 = Throw e).
Proof.
  intros Hp HP. cbv zeta. unfold bind.
  specialize (Hp st HP). unfold exec in Hp.
  destruct (_insertTextureInBatch t st) as [[[]|e] s]; simpl in *.
  - split; [done|by left].
  - split; [done|right; by eexists].
Qed.

(** An image of a registered source path is attached to the texture of
    that path. *)
Lemma load_known st src id t data image img :
  sourceTracked src id t data st ->
  images st !! image = Some img -> i_kind img = ImageElement src ->
  src <> ""%string ->
  let r := _loadTextureImage image st in
  trackedAmong (length (textures st)) src id t (data ++ [image]) r.2
  /\ (r.1 = Return (Some t) \/ exists e, r.1 = Throw e).
Proof.
  intros (Hids & Hd & (x & Hx & Hs & Hdat) & Himg) Hi Hk Hsrc. cbv zeta.
  apply dictLookup_registered in Hd as Hpos.
  assert (E : _loadTextureImage image st
              = (_insertTextureInBatch t ;;; ret (Some t))
                  (set_textures
                     (alter (fun x =>
                               set_t_imageData
                                 (Some (default [] (t_imageData x) ++ [image]))
                                 (set_t_storeID (Some id) x)) t (textures st))
                     (set_images
                        (alter (set_i_storeID (Some id)) image (images st))
                        st))).
  { unfold _loadTextureImage.
    rewrite (bind_Return _ _ _ _ _ (getImage_run _ _ _ Hi)), Hk.
    destruct (String.eqb_spec src ""); [done|].
    rewrite bind_ret_run, bind_gets_run, Hids.
    rewrite <- bind_assoc_run. unfold updImage at 1.
    rewrite bind_modify_run. cbv beta.
    rewrite <- bind_assoc_run, bind_gets_run, bind_ret_run.
    set (s2 := set_images _ st).
    change (dictLookup s2 (Some id)) with (dictLookup st (Some id)).
    rewrite Hd.
    assert (Hx2 : textures s2 !! t = Some x) by exact Hx.
    rewrite (bind_Return _ _ _ _ _ (getTexture_run _ _ _ Hx2)).
    rewrite Hs. rewrite bool_decide_eq_false_2 by (intros [= ?]; lia).
    unfold when, negb. unfold updTexture at 1.
    by rewrite bind_modify_run. }
  rewrite E.
  apply (insert_then_return
           (trackedAmong (length (textures st)) src id t (data ++ [image]))).
  { apply tracked_insertTextureInBatch. }
  split; [|simpl; by rewrite length_alter].
  split; [exact Hids|]. split; [exact Hd|]. split.
  - simpl. rewrite list_lookup_alter_eq, Hx. simpl. eexists. split; [done|].
    destruct x; simpl in *. by rewrite Hdat.
  - intros i Hin. simpl. apply elem_of_app in Hin as [Hin|Hin].
    + destruct (Himg i Hin) as (img' & Hi' & Hs').
      destruct (decide (i = image)) as [->|Hne].
      * rewrite list_lookup_alter_eq, Hi'. by eexists.
      * exists img'. by rewrite list_lookup_alter_ne.
    + apply list_elem_of_singleton in Hin as ->.
      rewrite list_lookup_alter_eq, Hi. by eexists.
Qed.

(** X8. An image whose [src] is already registered shares the texture
    of that path: loading it creates no texture, appends the image to the
    sources of the texture and gives it the store id; the texture is the
    result unless its insertion into the batch throws. *)
Theorem loadTextureImage_shares_texture (st : stage) (src : string)
    (id : Z) (t : texref) (data : list imgref) (image : imgref)
    (img : StageGL.image) :
  sourceTracked src id t data st ->
  images st !! image = Some img -> i_kind img = ImageElement src ->
  src <> ""%string ->
  let r := _loadTextureImage image st in
  sourceTracked src id t (data ++ [image]) r.2
  /\ length (textures r.2) = length (textures st)
  /\ (r.1 = Return (Some t) \/ exists e, r.1 = Throw e).
Proof.
  intros Ht Hi Hk Hsrc.
  destruct (load_known st src id t data image img Ht Hi Hk Hsrc)
    as [[H1 H2] H3].
  done.
Qed.

(** An image of a source path that is not registered yet. *)
Lemma load_new st src image img :
  contextLost (host st) = false ->
  images st !! image = Some img -> i_kind img = ImageElement src ->
  src <> ""%string -> _textureIDs st !! src = None ->
  let r := _loadTextureImage image st in
  trackedAmong (S (length (textures st))) src
    (Z.of_nat (length (_textureDictionary st))) (length (textures st))
    [image] r.2
  /\ (r.1 = Return (Some (length (textures st)))
      \/ exists e, r.1 = Throw e).
Proof.
  intros Hh Hi Hk Hsrc Hids. cbv zeta.
  set (id := length (_textureDictionary st)).
  set (s2 := set_images
               (alter (fun i => set_i_invalid (Some true)
                                  (set_i_storeID (Some (Z.of_nat id)) i))
                      image (images st))
               (set_textureIDs (<[src := Z.of_nat id]> (_textureIDs st)) st)).
  destruct (getBaseTexture None None s2) as [r0 s3] eqn:Hbase.
  destruct (getBaseTexture_fresh None None s2 _ _ Hh Hbase)
    as (x & -> & Htex & Hsx & Hdx & Himg3 & Hdict & Hids3 & Hhost).
  change (textures s2) with (textures st) in Htex, Hbase.
  assert (E : _loadTextureImage image st
              = (_insertTextureInBatch (length (textures st)) ;;;
                 ret (Some (length (textures st))))
                  (set_textures
                     (alter (fun x =>
                               set_t_imageData
                                 (Some (default [] (t_imageData x) ++ [image]))
                                 (set_t_storeID (Some (Z.of_nat id)) x))
                        (length (textures st)) (textures s3))
                     (set_textureDictionary
                        (array_set (_textureDictionary s3) id
                           (Some (length (textures st)))) s3))).
  { unfold _loadTextureImage.
    rewrite (bind_Return _ _ _ _ _ (getImage_run _ _ _ Hi)), Hk.
    destruct (String.eqb_spec src ""); [done|].
    rewrite bind_ret_run, bind_gets_run, Hids.
    rewrite <- bind_assoc_run, bind_gets_run.
    rewrite <- !bind_assoc_run, bind_modify_run. cbv beta.
    unfold updImage at 1. rewrite <- !bind_assoc_run, bind_modify_run.
    cbv beta. fold id. fold s2.
    unfold _getSafeTexture. rewrite <- !bind_assoc_run.
    rewrite (bind_Return _ _ _ _ _ Hbase), bind_ret_run.
    rewrite <- bind_assoc_run, bind_modify_run, bind_ret_run.
    set (s4 := set_textureDictionary _ s3).
    assert (Hget : getTexture (length (textures st)) s4 = (Return x, s4)).
    { apply getTexture_run. subst s4. simpl. rewrite Htex.
      by rewrite list_lookup_middle. }
    rewrite (bind_Return _ _ _ _ _ Hget), Hsx. simpl negb. unfold when.
    unfold updTexture at 1. by rewrite bind_modify_run. }
  rewrite E.
  apply (insert_then_return
           (trackedAmong (S (length (textures st))) src (Z.of_nat id)
              (length (textures st)) [image])).
  { apply tracked_insertTextureInBatch. }
  assert (Hd2 : _textureDictionary s3 = _textureDictionary st) by exact Hdict.
  split.
  2:{ simpl. rewrite length_alter, Htex, length_app. simpl. lia. }
  split; [|split; [|split]]; simpl.
  - rewrite Hids3. simpl. by rewrite lookup_insert_eq.
  - unfold dictLookup, at_index. simpl.
    destruct (Z.ltb_spec (Z.of_nat id) 0); [lia|].
    rewrite Nat2Z.id, Hd2. subst id. rewrite array_set_end.
    by rewrite list_lookup_middle.
  - rewrite Htex, alter_end. rewrite list_lookup_middle by done.
    eexists. split; [done|]. destruct x; simpl in *. by rewrite Hdx.
  - intros i Hin. apply list_elem_of_singleton in Hin as ->.
    rewrite Himg3. simpl. rewrite list_lookup_alter_eq, Hi. by eexists.
Qed.

(** X9. An image whose [src] is not registered gets a texture of its
    own: loading it creates one texture, registers it under the next store
    id for that path, with the image as its only source, and gives the
    image the id; the texture is the result unless its insertion into the
    batch throws. *)
Theorem loadTextureImage_registers_new (st : stage) (src : string)
    (image : imgref) (img : StageGL.image) :
  contextLost (host st) = false ->
  images st !! image = Some img -> i_kind img = ImageElement src ->
  src <> ""%string -> _textureIDs st !! src = None ->
  let r := _loadTextureImage image st in
  sourceTracked src (Z.of_nat (length (_textureDictionary st)))
    (length (textures st)) [image] r.2
  /\ length (textures r.2) = S (length (textures st))
  /\ (r.1 = Return (Some (length (textures st)))
      \/ exists e, r.1 = Throw e).
Proof.
  intros Hh Hi Hk Hsrc Hids.
  destruct (load_new st src image img Hh Hi Hk Hsrc Hids) as [[H1 H2] H3].
  done.
Qed.

Lemma loadTextureImage_registers_new_witness :
  contextLost (host sharedStage) = false
  /\ images sharedStage !! 0%nat = Some (loadedImage "a")
  /\ i_kind (loadedImage "a") = ImageElement "a"
  /\ "a"%string <> ""%string
  /\ _textureIDs sharedStage !! "a"%string = None
  /\ let r := _loadTextureImage 0%nat sharedStage in
     sourceTracked "a" (Z.of_nat (length (_textureDictionary sharedStage)))
       (length (textures sharedStage)) [0%nat] r.2
     /\ length (textures r.2) = S (length (textures sharedStage))
     /\ (r.1 = Return (Some (length (textures sharedStage)))
         \/ exists e, r.1 = Throw e).
Proof.
  assert (H1 : contextLost (host sharedStage) = false)
    by (vm_compute; reflexivity).
  assert (H2 : images sharedStage !! 0%nat = Some (loadedImage "a"))
    by (vm_compute; reflexivity).
  assert (H4 : "a"%string <> ""%string) by discriminate.
  assert (H5 : _textureIDs sharedStage !! "a"%string = None)
    by (vm_compute; reflexivity).
  split; [exact H1|]. split; [exact H2|]. split; [reflexivity|].
  split; [exact H4|]. split; [exact H5|].
  exact (loadTextureImage_registers_new sharedStage "a" 0%nat
           (loadedImage "a") H1 H2 eq_refl H4 H5).
Defined.

Lemma loadTextureImage_shares_texture_witness :
  sourceTracked "a" (Z.of_nat (length (_textureDictionary sharedStage)))
    (length (textures sharedStage)) [0%nat]
    (_loadTextureImage 0%nat sharedStage).2
  /\ images (_loadTextureImage 0%nat sharedStage).2 !! 1%nat
     = Some (loadedImage "a")
  /\ i_kind (loadedImage "a") = ImageElement "a"
  /\ "a"%string <> ""%string
  /\ let r := _loadTextureImage 1%nat
                (_loadTextureImage 0%nat sharedStage).2 in
     sourceTracked "a" (Z.of_nat (length (_textureDictionary sharedStage)))
       (length (textures sharedStage)) ([0%nat] ++ [1%nat]) r.2
     /\ length (textures r.2)
        = length (textures (_loadTextureImage 0%nat sharedStage).2)
     /\ (r.1 = Return (Some (length (textures sharedStage)))
         \/ exists e, r.1 = Throw e).
Proof.
  assert (H1 : contextLost (host sharedStage) = false)
    by (vm_compute; reflexivity).
  assert (H2 : images sharedStage !! 0%nat = Some (loadedImage "a"))
    by (vm_compute; reflexivity).
  assert (H4 : "a"%string <> ""%string) by discriminate.
  assert (H5 : _textureIDs sharedStage !! "a"%string = None)
    by (vm_compute; reflexivity).
  destruct (load_new sharedStage "a" 0%nat (loadedImage "a") H1 H2 eq_refl
              H4 H5) as [[Ht _] _].
  assert (H6 : images (_loadTextureImage 0%nat sharedStage).2 !! 1%nat
               = Some (loadedImage "a")) by (vm_compute; reflexivity).
  split; [exact Ht|]. split; [exact H6|]. split; [reflexivity|].
  split; [exact H4|].
  exact (loadTextureImage_shares_texture _ "a" _ _ [0%nat] 1%nat
           (loadedImage "a") Ht H6 eq_refl H4).
Defined.

End TextureSharing.

(** ** Images that are no source *)

Module InvalidSource.

Import StageGL Run Invariants Stability.
Local Open Scope js_scope.

Create HintDb unload.

Section Unloadable.

Variables (i : imgref) (a : Q).

Let P := unloadable i a.


Lemma unload_updImage_keep j f :
  (forall x, i_kind (f x) = i_kind x
             /\ (i_storeID x = None -> i_storeID (f x) = None)) ->
  preserves P (updImage j f).
Proof.
  intros Hf st [Ha (img & Hi & Hs & Hk)]. split; [exact Ha|].
  unfold noSource, exec, updImage, modify. simpl.
  destruct (decide (i = j)) as [<-|Hne].
  - exists (f img). rewrite list_lookup_alter_eq, Hi.
    destruct (Hf img) as [-> Hs']. by split; [|split; [apply Hs'|]].
  - exists img. by rewrite list_lookup_alter_ne.
Qed.

Lemma unload_updImage_ne j f : i <> j -> preserves P (updImage j f).
Proof.
  intros Hne st [Ha (img & Hi & Hs & Hk)]. split; [exact Ha|].
  unfold noSource, exec, updImage, modify. simpl.
  exists img. by rewrite list_lookup_alter_ne.
Qed.

Ltac unload_tac :=
  repeat first
    [ pstep
    | apply preserves_getTexture
    | apply preserves_getImage
    | apply preserves_findSlot
    | solve [auto with unload]
    | (apply unload_updImage_keep; intros []; split; [reflexivity|done])
    | (apply unload_updImage_ne; assumption)
    | (let H := fresh in apply preserves_modify; intros ? H; exact H) ].

Lemma unload_updTexture t f : preserves P (updTexture t f).
Proof. unfold updTexture. unload_tac. Qed.
Hint Resolve unload_updTexture : unload.

Lemma unload_log e : preserves P (log e).
Proof. unfold log. unload_tac. Qed.
Hint Resolve unload_log : unload.

Lemma unload_renderBatch : preserves P _renderBatch.
Proof. unfold _renderBatch. unload_tac. Qed.
Hint Resolve unload_renderBatch : unload.

Lemma unload_renderCover : preserves P _renderCover.
Proof. unfold _renderCover. unload_tac. Qed.
Hint Resolve unload_renderCover : unload.

Lemma unload_flush r : preserves P (flush r).
Proof. unfold flush. unload_tac. Qed.
Hint Resolve unload_flush : unload.

Lemma unload_fetchShaderProgram c f : preserves P (_fetchShaderProgram c f).
Proof. unfold _fetchShaderProgram. unload_tac. Qed.
Hint Resolve unload_fetchShaderProgram : unload.

Lemma unload_resizeTexture t w h : preserves P (resizeTexture t w h).
Proof. unfold resizeTexture. unload_tac. Qed.
Hint Resolve unload_resizeTexture : unload.

Lemma unload_createTexture : preserves P createTexture.
Proof. unfold createTexture. unload_tac. Qed.
Hint Resolve unload_createTexture : unload.

Lemma unload_getBaseTexture w h : preserves P (getBaseTexture w h).
Proof. unfold getBaseTexture. unload_tac. Qed.
Hint Resolve unload_getBaseTexture : unload.

Lemma unload_getSafeTexture w h : preserves P (_getSafeTexture w h).
Proof. unfold _getSafeTexture. unload_tac. Qed.
Hint Resolve unload_getSafeTexture : unload.

Lemma unload_resolveIdentifier sc n : preserves P (resolveIdentifier sc n).
Proof. unfold resolveIdentifier. unload_tac. Qed.
Hint Resolve unload_resolveIdentifier : unload.

Lemma unload_getRenderBufferTexture w h :
  preserves P (getRenderBufferTexture w h).
Proof. unfold getRenderBufferTexture. unload_tac. Qed.
Hint Resolve unload_getRenderBufferTexture : unload.

Lemma unload_updateTextureImageData j :
  preserves P (_updateTextureImageData j).
Proof. unfold _updateTextureImageData. unload_tac. Qed.
Hint Resolve unload_updateTextureImageData : unload.

Lemma unload_refreshSource x : preserves P (refreshSource x).
Proof. unfold refreshSource. unload_tac. Qed.
Hint Resolve unload_refreshSource : unload.

Lemma unload_insertTextureInBatch t : preserves P (_insertTextureInBatch t).
Proof. unfold _insertTextureInBatch. unload_tac. Qed.
Hint Resolve unload_insertTextureInBatch : unload.

Lemma unload_drawCover : preserves P _drawCover.
Proof. unfold _drawCover. unload_tac. Qed.
Hint Resolve unload_drawCover : unload.

Lemma unload_flushOnVertexOverflow : preserves P flushOnVertexOverflow.
Proof. unfold flushOnVertexOverflow. unload_tac. Qed.
Hint Resolve unload_flushOnVertexOverflow : unload.

Lemma unload_updateRenderMode m : preserves P (_updateRenderMode m).
Proof. unfold _updateRenderMode. unload_tac. Qed.
Hint Resolve unload_updateRenderMode : unload.

Lemma unload_applyCompositeOperation p :
  preserves P (applyCompositeOperation p).
Proof. unfold applyCompositeOperation. unload_tac. Qed.
Hint Resolve unload_applyCompositeOperation : unload.

Lemma unload_immediateBatchRender : preserves P _immediateBatchRender.
Proof. unfold _immediateBatchRender. unload_tac. Qed.
Hint Resolve unload_immediateBatchRender : unload.

Lemma unload_BitmapCache_update c : preserves P (BitmapCache_update c).
Proof. unfold BitmapCache_update. unload_tac. Qed.
Hint Resolve unload_BitmapCache_update : unload.

Lemma unload_autoCache ic p : preserves P (autoCache ic p).
Proof. unfold autoCache, BitmapCache_define, surfaceStale, _updateSurface,
    updateViewport. unload_tac. Qed.
Hint Resolve unload_autoCache : unload.

Lemma unload_writeCard uv ti ca : preserves P (writeCard uv ti ca).
Proof. unfold writeCard. unload_tac. Qed.
Hint Resolve unload_writeCard : unload.

(** Loading the image itself gives up before anything is changed. *)
Lemma load_unloadable st :
  P st -> _loadTextureImage i st = (Return None, st).
Proof.
  intros [Ha (img & Hi & Hs & Hk)]. unfold _loadTextureImage.
  assert (Hget : getImage i st = (Return img, st)).
  { unfold getImage. by rewrite Hi. }
  rewrite (bind_Return _ _ _ _ _ Hget).
  destruct Hk as [-> | ->]; reflexivity.
Qed.

Lemma unload_loadTextureImage j : preserves P (_loadTextureImage j).
Proof.
  destruct (decide (i = j)) as [<-|Hne].
  - intros st HP. unfold exec. by rewrite load_unloadable.
  - unfold _loadTextureImage. unload_tac.
Qed.
Hint Resolve unload_loadTextureImage : unload.

Lemma unload_resolveTexture j : preserves P (resolveTexture j).
Proof. unfold resolveTexture. unload_tac. Qed.
Hint Resolve unload_resolveTexture : unload.

Lemma unload_appendCard item uc ia ca :
  preserves P (appendCard item uc ia ca).
Proof.
  unfold appendCard.
  repeat first [apply preserves_cardUVRect | unload_tac].
Qed.
Hint Resolve unload_appendCard : unload.

Lemma unload_appendChildren body p children :
  (forall c, c ∈ children -> preserves P (body c)) ->
  preserves P (appendChildren body p children).
Proof. intros Hb. unfold appendChildren. unload_tac. Qed.

Lemma unload_appendItem item :
  forall ca ic, preserves P (appendItem ca ic item).
Proof.
  induction item as [p children IH|p image sourceRect|p fs cf f|p]
    using displayObject_induction; intros ca ic; simpl.
  all: destruct (negb _); [apply preserves_ret|].
  all: apply preserves_bind;
    [apply preserves_when, unload_autoCache|intros _].
  all: try (destruct (if ic then None else _); apply unload_appendCard).
  destruct (if ic then None else _); [apply unload_appendCard|].
  apply unload_appendChildren. intros c Hc.
  rewrite Forall_forall in IH. apply IH, Hc.
Qed.

End Unloadable.

Lemma neverReturns_bind_l {A B} (m : M A) (k : A -> M B) st :
  neverReturns m st -> neverReturns (bind m k) st.
Proof.
  intros [e He]. exists e. unfold result, bind in *.
  destruct (m st) as [[?|?] ?]; simpl in *; congruence.
Qed.

Lemma neverReturns_bind_r {A B} (P : stage -> Prop) (m : M A)
    (k : A -> M B) st :
  preserves P m -> (forall x s, P s -> neverReturns (k x) s) -> P st ->
  neverReturns (bind m k) st.
Proof.
  intros Hm Hk HP. specialize (Hm st HP). unfold neverReturns, result, exec,
    bind in *.
  destruct (m st) as [[x|e] s]; simpl in *; [by apply Hk|by eexists].
Qed.

Lemma resolveTexture_unloadable i a st :
  unloadable i a st -> neverReturns (resolveTexture i) st.
Proof.
  intros HP. pose proof HP as [Ha (img & Hi & Hs & Hk)].
  exists (TypeError "texture._activeIndex").
  unfold result, resolveTexture.
  assert (Hget : getImage i st = (Return img, st)).
  { unfold getImage. by rewrite Hi. }
  rewrite (bind_Return _ _ _ _ _ Hget), Hs.
  by rewrite (bind_Return _ _ _ _ _ (load_unloadable i a st HP)).
Qed.

Lemma appendCard_unloadable i a p sr ia ca st :
  unloadable i a st ->
  neverReturns (appendCard (Bitmap p (Some i) sr) None ia ca) st.
Proof.
  unfold appendCard.
  apply (neverReturns_bind_r (unloadable i a)); [apply preserves_gets|].
  intros mode s1. clear st.
  apply (neverReturns_bind_r (unloadable i a));
    [apply unload_applyCompositeOperation|].
  intros _ s2.
  apply (neverReturns_bind_r (unloadable i a));
    [apply unload_flushOnVertexOverflow|].
  intros _ s3 HP.
  cbn [cardSource].
  by apply neverReturns_bind_l, (resolveTexture_unloadable i a).
Qed.

Lemma appendItem_unloadable i a p sr ca ic st :
  visible p = true -> alphaVisible ca = true ->
  ic = true \/ cacheCanvas p = None ->
  unloadable i a st ->
  neverReturns (appendItem ca ic (Bitmap p (Some i) sr)) st.
Proof.
  intros Hv Ha Hc. simpl. rewrite Hv, Ha. simpl.
  assert ((if ic then None else cacheCanvas p) = None) as ->.
  { destruct Hc as [-> | ->]; [done|by destruct ic]. }
  apply (neverReturns_bind_r (unloadable i a)).
  - apply preserves_when, unload_autoCache.
  - intros _ s. apply appendCard_unloadable.
Qed.

Lemma forEach_unloadable {A} (P : stage -> Prop) (body : A -> M unit)
    (l : list A) (x : A) :
  x ∈ l -> (forall y, preserves P (body y)) ->
  (forall s, P s -> neverReturns (body x) s) ->
  forall st, P st -> neverReturns (forEach body l) st.
Proof.
  intros Hin Hp Hx. induction l as [|y r IH]; intros st HP.
  - by apply elem_of_nil in Hin.
  - simpl. apply elem_of_cons in Hin as [<-|Hin].
    + by apply neverReturns_bind_l, Hx.
    + apply (neverReturns_bind_r P); [apply Hp| |done].
      intros _ s. by apply IH.
Qed.

Lemma appendToBatch_unloadable i a sp p sr children ic st :
  Bitmap p (Some i) sr ∈ children ->
  visible p = true -> alphaVisible a = true ->
  ic = true \/ cacheCanvas p = None ->
  unloadable i a st ->
  neverReturns (_appendToBatch (Container sp children) a ic) st.
Proof.
  intros Hin Hv Ha Hc. simpl. unfold appendChildren.
  apply (neverReturns_bind_r (unloadable i a)); [apply preserves_gets|].
  intros mode s1. clear st.
  apply (neverReturns_bind_r (unloadable i a));
    [apply unload_applyCompositeOperation|].
  intros _ s2 HP. apply neverReturns_bind_l. revert s2 HP.
  apply (forEach_unloadable (unloadable i a) _ _ _ Hin).
  - intros y. apply unload_appendItem.
  - intros s. by apply appendItem_unloadable.
Qed.

Lemma neverReturns_gets {A B} (f : stage -> A) (k : A -> M B) st :
  neverReturns (k (f st)) st -> neverReturns (bind (gets f) k) st.
Proof. unfold neverReturns, result. by rewrite bind_gets_run. Qed.

Lemma drawContent_unloadable i a sp p sr children ic st :
  Bitmap p (Some i) sr ∈ children ->
  visible p = true -> alphaVisible a = true ->
  ic = true \/ cacheCanvas p = None ->
  unloadable i a st ->
  neverReturns (_drawContent (Container sp children) ic) st.
Proof.
  intros Hin Hv Ha Hc. unfold _drawContent.
  apply (neverReturns_bind_r (unloadable i a)).
  { apply preserves_modify. intros ? H. exact H. }
  intros _ s1 HP. clear st. apply neverReturns_gets.
  destruct (_batchTextureOutput s1); [|by eexists].
  apply neverReturns_gets. rewrite (proj1 HP).
  by apply neverReturns_bind_l, (appendToBatch_unloadable i a sp p sr).
Qed.

Lemma draw_unloadable i a sp p sr children ic st :
  Bitmap p (Some i) sr ∈ children ->
  visible p = true -> alphaVisible a = true ->
  ic = true \/ cacheCanvas p = None ->
  unloadable i a st ->
  neverReturns (draw (Container sp children) ic) st.
Proof.
  intros Hin Hv Ha Hc. unfold draw.
  do 3 (apply (neverReturns_bind_r (unloadable i a));
        [apply preserves_gets|intros ? ?]).
  do 3 (apply (neverReturns_bind_r (unloadable i a));
        [apply preserves_modify; intros ? H; exact H|intros ? ?]).
  apply (neverReturns_bind_r (unloadable i a));
    [apply preserves_gets|intros dd ?].
  apply (neverReturns_bind_r (unloadable i a)).
  { destruct dd; repeat first
      [ pstep | apply preserves_modify; intros ? H; exact H ]. }
  intros ? ?.
  apply (neverReturns_bind_r (unloadable i a));
    [apply unload_updateRenderMode|intros ? ?].
  intros HP. by apply neverReturns_bind_l,
               (drawContent_unloadable i a sp p sr).
Qed.

(** X10. A draw does not return when a visible Bitmap among the
    children of the stage, drawn without a cache, has an image that is
    neither an image element with a [src] nor a canvas: the texture of
    such an image is undefined, and reading its slot throws, at that
    child at the latest. *)
Theorem draw_throws_on_invalid_image (st : stage) (sp p : props)
    (children : list displayObject) (image : imgref)
    (sourceRect : option rectangle) (ignoreCache : bool) :
  noSource image st ->
  Bitmap p (Some image) sourceRect ∈ children ->
  visible p = true -> alphaVisible (alpha st) = true ->
  ignoreCache = true \/ cacheCanvas p = None ->
  neverReturns (draw (Container sp children) ignoreCache) st.
Proof.
  intros Hno Hin Hv Ha Hc.
  apply (draw_unloadable image (alpha st) sp p sourceRect); try done.
Qed.

Lemma draw_throws_on_invalid_image_witness :
  noSource 1%nat srclessStage
  /\ bitmapOf 1 1 None ∈ [bitmapOf 0 1 None; bitmapOf 1 1 None]
  /\ visible (plainProps 1 None) = true
  /\ alphaVisible (alpha srclessStage) = true
  /\ (false = true \/ cacheCanvas (plainProps 1 None) = None)
  /\ neverReturns
       (draw (Container (plainProps 1 None)
                [bitmapOf 0 1 None; bitmapOf 1 1 None]) false)
       srclessStage.
Proof.
  assert (H1 : noSource 1%nat srclessStage).
  { exists (loadedImage ""). split; [by vm_compute|].
    split; [reflexivity|by left]. }
  assert (H2 : bitmapOf 1 1 None ∈ [bitmapOf 0 1 None; bitmapOf 1 1 None]).
  { apply list_elem_of_further, list_elem_of_here. }
  assert (H4 : alphaVisible (alpha srclessStage) = true) by (by vm_compute).
  split; [exact H1|]. split; [exact H2|]. split; [reflexivity|].
  split; [exact H4|]. split; [by right|].
  exact (draw_throws_on_invalid_image srclessStage (plainProps 1 None)
           (plainProps 1 None) _ 1%nat None false H1 H2 eq_refl H4
           (or_intror eq_refl)).
Defined.

End InvalidSource.

(** ** A stage that renders through a buffer *)

Module BufferedStage.

Import StageGL Run Invariants Stability RegistrySound InvalidSource.
Local Open Scope js_scope.

Ltac bufferless_tac :=
  repeat first
    [ pstep
    | apply preserves_getTexture
    | apply preserves_getImage
    | apply preserves_findSlot
    | solve [auto]
    | (let H := fresh in apply preserves_modify; intros ? H; exact H) ].

Lemma bufferless_compileLoop fuel : preserves bufferless (compileLoop fuel).
Proof.
  induction fuel as [|fuel IH]; simpl; [apply preserves_throw|].
  unfold _fetchShaderProgram. bufferless_tac.
Qed.

Lemma bufferless_initMaterials : preserves bufferless _initMaterials.
Proof.
  pose proof bufferless_compileLoop.
  unfold _initMaterials, getBaseTexture, createTexture, resizeTexture,
    updTexture.
  bufferless_tac.
Qed.

Lemma bufferless_updateRenderMode (P : stage -> Prop) m :
  (forall f st, P st -> host (f st) = host st ->
     _directDraw (f st) = _directDraw st ->
     _bufferTextureOutput (f st) = _bufferTextureOutput st ->
     _batchTextureOutput (f st) = _batchTextureOutput st -> P (f st)) ->
  preserves P (_updateRenderMode m).
Proof.
  intros HP.
  assert (Hleaf : forall f,
            (forall st, host (f st) = host st
                        /\ _directDraw (f st) = _directDraw st
                        /\ _bufferTextureOutput (f st) = _bufferTextureOutput st
                        /\ _batchTextureOutput (f st) = _batchTextureOutput st) ->
            preserves P (modify f)).
  { intros f Hf. apply preserves_modify. intros st H.
    destruct (Hf st) as (?&?&?&?). by apply HP. }
  unfold _updateRenderMode, flush, _renderBatch, _fetchShaderProgram, log.
  repeat first
    [ pstep
    | (apply Hleaf; intros ?; repeat split; reflexivity) ].
Qed.

Lemma bufferless_updateViewport w h : preserves bufferless (updateViewport w h).
Proof.
  unfold updateViewport, resizeTexture, updTexture. bufferless_tac.
Qed.

Lemma bufferless_purgeSources c l : preserves bufferless (purgeSources c l).
Proof.
  induction l as [|i l IH]; simpl; unfold updImage; bufferless_tac.
Qed.

Lemma bufferless_purgeTextures c : preserves bufferless (purgeTextures c).
Proof.
  pose proof bufferless_purgeSources.
  unfold purgeTextures, purgeEntry, _killTextureObject, updTexture, updImage,
    log.
  bufferless_tac.
Qed.

Lemma getRenderBufferTexture_bufferless w h st :
  bufferless st ->
  getRenderBufferTexture w h st = (Throw (ReferenceError "w"), st).
Proof.
  intros (_ & _ & Hw). unfold getRenderBufferTexture, resolveIdentifier.
  cbn [lookupScope app moduleScope String.eqb Ascii.eqb Bool.eqb].
  rewrite <- bind_assoc_run, bind_gets_run, Hw. reflexivity.
Qed.

Lemma throwsKeeping_bind_l {A B} P (m : M A) (k : A -> M B) st :
  throwsKeeping P m st -> throwsKeeping P (bind m k) st.
Proof.
  intros [HP [e He]]. unfold throwsKeeping, neverReturns, result, exec,
    bind in *.
  destruct (m st) as [[?|?] ?]; simpl in *; [discriminate|].
  split; [done|by eexists].
Qed.

Lemma throwsKeeping_bind_r {A B} (P Q : stage -> Prop) (m : M A)
    (k : A -> M B) st :
  preserves P m -> (forall s, P s -> Q s) ->
  (forall x s, P s -> throwsKeeping Q (k x) s) ->
  P st -> throwsKeeping Q (bind m k) st.
Proof.
  intros Hm HPQ Hk HP. specialize (Hm st HP).
  unfold throwsKeeping, neverReturns, result, exec, bind in *.
  destruct (m st) as [[x|e] s]; simpl in *; [by apply Hk|].
  split; [by apply HPQ|by eexists].
Qed.

Lemma throwsKeeping_gets {A B} P (f : stage -> A) (k : A -> M B) st :
  throwsKeeping P (k (f st)) st -> throwsKeeping P (bind (gets f) k) st.
Proof.
  unfold throwsKeeping, neverReturns, result, exec.
  by rewrite bind_gets_run.
Qed.

Lemma throwsKeeping_modify {B} P (f : stage -> stage) (k : unit -> M B) st :
  throwsKeeping P (k tt) (f st) -> throwsKeeping P (bind (modify f) k) st.
Proof.
  unfold throwsKeeping, neverReturns, result, exec.
  by rewrite bind_modify_run.
Qed.

Lemma initializeWebGL_bufferless cw ch st :
  bufferless st -> throwsKeeping bufferless (_initializeWebGL cw ch) st.
Proof.
  unfold _initializeWebGL.
  apply (throwsKeeping_bind_r bufferless bufferless);
    [apply bufferless_initMaterials|done|intros _ s1]. clear st.
  apply (throwsKeeping_bind_r bufferless bufferless);
    [|done|intros _ s2]. clear s1.
  { apply bufferless_updateRenderMode. intros f st (H1 & H2 & H3) Hh Hd Hb _.
    unfold bufferless. by rewrite Hh, Hd, Hb. }
  apply (throwsKeeping_bind_r bufferless bufferless);
    [apply bufferless_updateViewport|done|intros _ s3 HP]. clear s2.
  apply throwsKeeping_gets. rewrite (proj1 HP). simpl negb. unfold when.
  apply throwsKeeping_bind_l. unfold throwsKeeping, neverReturns, result,
    exec.
  rewrite (getRenderBufferTexture_bufferless _ _ _ HP). split; [done|].
  by eexists.
Qed.

Lemma throwsKeeping_assoc {A B C} P (m : M A) (k1 : A -> M B)
    (k2 : B -> M C) st :
  throwsKeeping P (bind m (fun a => bind (k1 a) k2)) st ->
  throwsKeeping P (bind (bind m k1) k2) st.
Proof.
  unfold throwsKeeping, neverReturns, result, exec.
  by rewrite <- bind_assoc_run.
Qed.

Lemma drawContent_bufferless content ic st :
  bufferlessDraw st -> throwsKeeping bufferless (_drawContent content ic) st.
Proof.
  intros [HP Hout]. unfold _drawContent.
  apply throwsKeeping_modify, throwsKeeping_gets.
  cbn [_batchTextureOutput set_activeShader eta_stage]. rewrite Hout.
  split; [exact HP|by eexists].
Qed.

Lemma draw_bufferless content ic st :
  bufferless st -> throwsKeeping bufferless (draw content ic) st.
Proof.
  intros HP. unfold draw.
  do 3 apply throwsKeeping_gets. do 3 apply throwsKeeping_modify.
  apply throwsKeeping_gets. cbn [_directDraw set_drawID set_batchVertexCount
    set_renderPerDraw eta_stage].
  rewrite (proj1 HP).
  do 2 apply throwsKeeping_assoc, throwsKeeping_modify.
  apply throwsKeeping_modify.
  apply (throwsKeeping_bind_r bufferlessDraw bufferless).
  - apply bufferless_updateRenderMode.
    intros f s [(H1 & H2 & H3) H4] Hh Hd Hb Ho.
    unfold bufferlessDraw, bufferless. by rewrite Hh, Hd, Hb, Ho.
  - by intros s [H _].
  - intros _ s Hs. by apply throwsKeeping_bind_l, drawContent_bufferless.
  - destruct HP as (H1 & H2 & H3). repeat split; try done.
Qed.

Lemma bufferless_perform c : preserves bufferless (perform c).
Proof.
  destruct c; simpl.
  - intros st HP. by apply draw_bufferless.
  - apply bufferless_purgeTextures.
  - apply bufferless_updateViewport.
Qed.

Lemma bufferless_afterCalls calls : forall st,
  bufferless st -> bufferless (afterCalls calls st).
Proof.
  induction calls as [|c calls IH]; intros st HP; [exact HP|].
  simpl. apply IH. by apply bufferless_perform.
Qed.

(** X11. Unless the global object has a [w], a stage built without
    [directDraw] never draws: the constructor throws before it has a buffer
    to render into, and whatever is called on the instance afterwards,
    every [draw] throws. *)
Theorem buffered_stage_never_draws (h : hostEnv) (batchSize autoPurge : Z)
    (sources : list image) (canvasWidth canvasHeight : Z) :
  globalObject h !! "w"%string = None ->
  let new := newStage h false batchSize autoPurge sources in
  neverReturns (_initializeWebGL canvasWidth canvasHeight) new
  /\ forall calls content ignoreCache,
       neverReturns (draw content ignoreCache)
         (afterCalls calls
            (exec (_initializeWebGL canvasWidth canvasHeight) new)).
Proof.
  intros Hw new.
  assert (H0 : bufferless new) by (by repeat split).
  destruct (initializeWebGL_bufferless canvasWidth canvasHeight new H0)
    as [H1 H2].
  split; [exact H2|]. intros calls content ic.
  apply (draw_bufferless content ic), bufferless_afterCalls, H1.
Qed.

Lemma buffered_stage_never_draws_witness :
  globalObject demoHost !! "w"%string = None
  /\ let new := newStage demoHost false 170 1200 [loadedImage "a"] in
     neverReturns (_initializeWebGL 640 480) new
     /\ forall calls content ignoreCache,
          neverReturns (draw content ignoreCache)
            (afterCalls calls (exec (_initializeWebGL 640 480) new)).
Proof.
  split; [reflexivity|].
  exact (buffered_stage_never_draws demoHost 170 1200 [loadedImage "a"]
           640 480 eq_refl).
Defined.

End BufferedStage.

(** ** Releasing textures by hand *)

Module Release.

Import StageGL Run Invariants Stability Registry RegistrySound TextureSharing.
Local Open Scope js_scope.

Lemma forEach_updImage_run f (l : list imgref) : forall st,
  forEach (fun i => updImage i f) l st
  = (Return tt,
     set_images (foldl (fun imgs i => alter f i imgs) (images st) l) st).
Proof.
  induction l as [|i l IH]; intros st; simpl.
  - by destruct st.
  - unfold updImage at 1. rewrite bind_modify_run, IH. by destruct st.
Qed.

Lemma clear_lookup_out (l : list imgref) :
  forall (imgs : list StageGL.image) (j : imgref),
  j ∉ l ->
  foldl (fun imgs i => alter (set_i_storeID None) i imgs) imgs l !! j
  = imgs !! j.
Proof.
  induction l as [|i l IH]; intros imgs j Hout; [done|]. simpl.
  rewrite IH by (intros ?; apply Hout; by right).
  apply list_lookup_alter_ne. intros ->. apply Hout. left.
Qed.

Lemma clear_lookup_in (l : list imgref) :
  forall (imgs : list StageGL.image) (j : imgref),
  j ∈ l -> is_Some (imgs !! j) ->
  exists img,
    foldl (fun imgs i => alter (set_i_storeID None) i imgs) imgs l !! j
    = Some img /\ i_storeID img = None.
Proof.
  induction l as [|i l IH]; intros imgs j Hin [img Hj].
  - by apply elem_of_nil in Hin.
  - simpl. destruct (decide (j ∈ l)) as [Hl|Hl].
    + apply IH; [done|]. apply lookup_lt_is_Some. rewrite length_alter.
      by apply lookup_lt_Some in Hj.
    + apply elem_of_cons in Hin as [->|?]; [|done].
      exists (set_i_storeID None img). split; [|by destruct img].
      by rewrite clear_lookup_out, list_lookup_alter_eq, Hj.
Qed.

(** [_killTextureObject] on a texture with a store id and sources. *)
Lemma kill_run st t x id data :
  textures st !! t = Some x -> t_storeID x = Some id -> 0 <= id ->
  t_imageData x = Some data ->
  exists st',
    _killTextureObject (Some t) st = (Return tt, st')
    /\ _textureDictionary st'
       = array_set (_textureDictionary st) (Z.to_nat id) None
    /\ _textureIDs st' = filter (fun kv => kv.2 <> id) (_textureIDs st)
    /\ images st' = clearSources data (images st)
    /\ gl_log st' = DeleteTexture t :: gl_log st
    /\ (forall t', t' <> t -> textures st' !! t' = textures st !! t')
    /\ exists x', textures st' !! t = Some x' /\ t_imageData x' = None
         /\ t_storeID x' = None /\ t_deleted x' = true.
Proof.
  intros Hx Hs Hid Hd.
  unfold _killTextureObject.
  rewrite (bind_Return _ _ _ _ _ (getTexture_run _ _ _ Hx)), Hs, Hd.
  destruct (Z.leb_spec 0 id) as [_|?]; [|lia].
  unfold when at 1.
  rewrite <- !bind_assoc_run, bind_modify_run. cbv beta.
  rewrite <- !bind_assoc_run, bind_modify_run. cbv beta.
  rewrite <- !bind_assoc_run.
  rewrite (bind_Return _ _ _ _ _ (forEach_updImage_run _ _ _)).
  unfold updTexture, log. run_simpl. simpl.
  destruct (bool_decide _);
    [destruct (at_index (_baseTextures st) _);
       [destruct (t_activeIndex x)|]|];
    (eexists; split; [reflexivity|]; simpl;
     repeat split; try done;
     [ intros t' Hne; by rewrite !list_lookup_alter_ne
     | rewrite !list_lookup_alter_eq, Hx; simpl; eexists; split; [done|];
       by destruct x ]).
Qed.

Lemma dictLookup_unset st st' id :
  0 <= id ->
  _textureDictionary st'
  = array_set (_textureDictionary st) (Z.to_nat id) None ->
  dictLookup st' (Some id) = None.
Proof.
  intros Hid Hd. unfold dictLookup, at_index.
  destruct (Z.ltb_spec id 0); [done|].
  change (registered st' (Z.to_nat id) = None).
  unfold registered. rewrite Hd.
  change (registered (set_textureDictionary
                        (array_set (_textureDictionary st) (Z.to_nat id) None)
                        st) (Z.to_nat id) = None).
  rewrite registered_unset. by destruct (decide _).
Qed.

Lemma kill_killed st t x id data :
  textures st !! t = Some x -> t_storeID x = Some id -> 0 <= id ->
  t_imageData x = Some data ->
  (forall j, j ∈ data -> is_Some (images st !! j)) ->
  exists st',
    _killTextureObject (Some t) st = (Return tt, st')
    /\ killed id t data st st'
    /\ forall t', t' <> t -> textures st' !! t' = textures st !! t'.
Proof.
  intros Hx Hs Hid Hd Hlive.
  destruct (kill_run st t x id data Hx Hs Hid Hd)
    as (st' & Hrun & Hdict & Hids & Himg & Hlog & Hother & Hx').
  exists st'. split; [exact Hrun|]. split; [|exact Hother].
  split; [by apply (dictLookup_unset st)|].
  split.
  { intros s. rewrite Hids. intros Hl.
    apply map_lookup_filter_Some in Hl as [_ Hne]. by apply Hne. }
  split; [|by split].
  intros j Hj. rewrite Himg. unfold clearSources.
  apply clear_lookup_in; [|by apply Hlive].
  apply list_elem_of_In. rewrite <- in_rev. by apply list_elem_of_In.
Qed.

Lemma tracked_facts src id t data st i :
  sourceTracked src id t data st -> i ∈ data ->
  0 <= id
  /\ (exists img, images st !! i = Some img /\ i_storeID img = Some id)
  /\ (forall j, j ∈ data -> is_Some (images st !! j)).
Proof.
  intros (Hids & Hd & Hx & Himg) Hin.
  apply dictLookup_registered in Hd as [Hpos _].
  split; [done|]. split; [by apply Himg|].
  intros j Hj. destruct (Himg j Hj) as (img & -> & _). by eexists.
Qed.

(** X12. Given an image (or a Bitmap of it) that is a source of a
    registered texture, or that texture itself, [releaseTexture] without
    [safe] deletes the texture whoever else uses it: the entry and the
    path of its store id are gone and every one of its sources, not only
    the image given, loses its store id. *)
Theorem releaseTexture_deletes_shared (st : stage) (src : string) (id : Z)
    (t : texref) (data : list imgref) (i : imgref) (item : releaseItem) :
  sourceTracked src id t data st -> i ∈ data ->
  item = ReleaseImage i \/ item = ReleaseBitmap i \/ item = ReleaseTexture t ->
  exists st',
    releaseTexture item false st = (Return tt, st')
    /\ killed id t data st st'.
Proof.
  intros Htr Hin Hitem.
  destruct (tracked_facts _ _ _ _ _ _ Htr Hin)
    as (Hpos & (img & Hi & Hsi) & Hlive).
  destruct Htr as (Hids & Hd & (x & Hx & Hs & Hdat) & Himg).
  destruct (kill_killed st t x id data Hx Hs Hpos Hdat Hlive)
    as (st' & Hrun & Hk & Hother).
  destruct Hitem as [-> | [-> | ->]]; unfold releaseTexture.
  - exists st'.
    rewrite (bind_Return _ _ _ _ _ (getImage_run _ _ _ Hi)), Hsi.
    rewrite bind_gets_run, Hd. by split.
  - exists st'.
    rewrite (bind_Return _ _ _ _ _ (getImage_run _ _ _ Hi)), Hsi.
    rewrite bind_gets_run, Hd. by split.
  - rewrite (bind_Return _ _ _ _ _ (getTexture_run _ _ _ Hx)), Hs.
    rewrite bind_gets_run, Hd. rewrite bool_decide_eq_true_2 by done.
    rewrite (bind_Return _ _ _ _ _ Hrun).
    eexists. split; [reflexivity|].
    destruct Hk as (K1 & K2 & K3 & (x' & Hx' & K4 & K5 & K6) & K7).
    unfold updTexture, modify; simpl.
    split; [exact K1|]. split; [exact K2|]. split; [exact K3|].
    split; [|exact K7].
    exists (set_t_storeID None x'). cbn.
    rewrite list_lookup_alter_eq, Hx'.
    split; [done|]. by destruct x'.
Qed.

(** X13. With [safe], [releaseTexture] on an image (or a Bitmap of it)
    that is a source of a registered texture only detaches that image:
    it loses its store id and its first entry among the sources; the
    texture stays registered, with the other sources, as long as one is
    left, and is deleted when none is. *)
Theorem releaseTexture_safe_detaches (st : stage) (src : string) (id : Z)
    (t : texref) (data : list imgref) (i : imgref) (item : releaseItem) :
  sourceTracked src id t data st -> i ∈ data ->
  item = ReleaseImage i \/ item = ReleaseBitmap i ->
  exists st',
    releaseTexture item true st = (Return tt, st')
    /\ (exists img, images st' !! i = Some img /\ i_storeID img = None)
    /\ (removeFirst i data <> [] ->
        gl_log st' = gl_log st
        /\ _textureIDs st' !! src = Some id
        /\ dictLookup st' (Some id) = Some t
        /\ (exists x', textures st' !! t = Some x' /\ t_storeID x' = Some id
              /\ t_imageData x' = Some (removeFirst i data))
        /\ forall j, j ∈ data -> j <> i ->
             exists img, images st' !! j = Some img
                         /\ i_storeID img = Some id)
    /\ (removeFirst i data = [] -> killed id t [] st st').
Proof.
  intros Htr Hin Hitem.
  destruct (tracked_facts _ _ _ _ _ _ Htr Hin)
    as (Hpos & (img & Hi & Hsi) & Hlive).
  destruct Htr as (Hids & Hd & (x & Hx & Hs & Hdat) & Himg).
  set (s2 := set_images (alter (set_i_storeID None) i (images st))
               (set_textures
                  (alter (set_t_imageData (Some (removeFirst i data))) t
                     (textures st)) st)).
  assert (E : releaseTexture item true st
              = when (bool_decide (removeFirst i data = []))
                  (_killTextureObject (Some t)) s2).
  { destruct Hitem as [-> | ->]; unfold releaseTexture.
    all: rewrite (bind_Return _ _ _ _ _ (getImage_run _ _ _ Hi)), ?Hsi.
    all: rewrite bind_gets_run, Hd. all: unfold releaseFound.
    all: rewrite (bind_Return _ _ _ _ _ (getTexture_run _ _ _ Hx)), Hdat.
    all: unfold updTexture at 1, updImage.
    all: by rewrite !bind_modify_run. }
  rewrite E.
  assert (Hi2 : exists img', images s2 !! i = Some img'
                             /\ i_storeID img' = None).
  { exists (set_i_storeID None img). subst s2. simpl.
    rewrite list_lookup_alter_eq, Hi. split; [done|by destruct img]. }
  assert (Hx2 : textures s2 !! t
                = Some (set_t_imageData (Some (removeFirst i data)) x)).
  { subst s2. simpl. by rewrite list_lookup_alter_eq, Hx. }
  destruct (decide (removeFirst i data = [])) as [He|Hne].
  - rewrite bool_decide_eq_true_2 by done. unfold when.
    destruct (kill_killed s2 t _ id [] Hx2) as (st' & Hrun & Hk & Hother).
    { by destruct x. } { done. } { rewrite He. by destruct x. }
    { intros j Hj. by apply elem_of_nil in Hj. }
    exists st'. split; [exact Hrun|].
    destruct (kill_run s2 t _ id [] Hx2) as (st'' & Hrun' & _ & _ & Him & _).
    { by destruct x. } { done. } { rewrite He. by destruct x. }
    rewrite Hrun in Hrun'. injection Hrun' as <-.
    split; [by rewrite Him|]. split; [done|]. intros _. exact Hk.
  - rewrite bool_decide_eq_false_2 by done. unfold when, ret.
    exists s2. split; [done|]. split; [exact Hi2|]. split; [|done].
    intros _. split; [done|]. split; [exact Hids|]. split; [exact Hd|].
    split.
    + eexists. split; [exact Hx2|]. by destruct x.
    + intros j Hj Hji. destruct (Himg j Hj) as (img' & Hj' & Hs').
      exists img'. subst s2. simpl. by rewrite list_lookup_alter_ne.
Qed.

(** X14. A Bitmap whose image has never been drawn: [releaseTexture]
    with [safe] throws a TypeError on it, for there is no texture to read
    the sources of; without [safe], or given the image itself, the call
    returns and nothing is changed. *)
Theorem releaseTexture_never_drawn (st : stage) (i : imgref)
    (img : StageGL.image) :
  images st !! i = Some img -> i_storeID img = None ->
  releaseTexture (ReleaseBitmap i) true st
  = (Throw (TypeError "texture._imageData"), st)
  /\ releaseTexture (ReleaseBitmap i) false st = (Return tt, st)
  /\ forall safe, releaseTexture (ReleaseImage i) safe st = (Return tt, st).
Proof.
  intros Hi Hs. unfold releaseTexture.
  rewrite !(bind_Return _ _ _ _ _ (getImage_run _ _ _ Hi)), Hs.
  rewrite !bind_gets_run. split; [reflexivity|]. split; [reflexivity|].
  intros safe. by rewrite (bind_Return _ _ _ _ _ (getImage_run _ _ _ Hi)), Hs.
Qed.

Lemma sharedLoaded_tracked :
  sourceTracked "a" (Z.of_nat (length (_textureDictionary sharedStage)))
    (length (textures sharedStage)) [0%nat; 1%nat] sharedLoaded.
Proof.
  assert (H1 : contextLost (host sharedStage) = false)
    by (vm_compute; reflexivity).
  assert (H2 : images sharedStage !! 0%nat = Some (loadedImage "a"))
    by (vm_compute; reflexivity).
  assert (H4 : "a"%string <> ""%string) by discriminate.
  assert (H5 : _textureIDs sharedStage !! "a"%string = None)
    by (vm_compute; reflexivity).
  destruct (load_new sharedStage "a" 0%nat (loadedImage "a") H1 H2 eq_refl
              H4 H5) as [[Ht _] _].
  assert (H6 : images (_loadTextureImage 0%nat sharedStage).2 !! 1%nat
               = Some (loadedImage "a")) by (vm_compute; reflexivity).
  destruct (load_known _ "a" _ _ [0%nat] 1%nat (loadedImage "a") Ht H6
              eq_refl H4) as [[Ht' _] _].
  exact Ht'.
Qed.

Lemma releaseTexture_deletes_shared_witness :
  sourceTracked "a" (Z.of_nat (length (_textureDictionary sharedStage)))
    (length (textures sharedStage)) [0%nat; 1%nat] sharedLoaded
  /\ 0%nat ∈ [0%nat; 1%nat]
  /\ (ReleaseImage 0 = ReleaseImage 0 \/ ReleaseImage 0 = ReleaseBitmap 0
      \/ ReleaseImage 0 = ReleaseTexture (length (textures sharedStage)))
  /\ exists st',
       releaseTexture (ReleaseImage 0) false sharedLoaded = (Return tt, st')
       /\ killed (Z.of_nat (length (_textureDictionary sharedStage)))
            (length (textures sharedStage)) [0%nat; 1%nat] sharedLoaded st'.
Proof.
  assert (Hin : 0%nat ∈ [0%nat; 1%nat]) by apply list_elem_of_here.
  split; [exact sharedLoaded_tracked|]. split; [exact Hin|].
  split; [by left|].
  exact (releaseTexture_deletes_shared sharedLoaded "a" _ _ _ 0%nat
           (ReleaseImage 0) sharedLoaded_tracked Hin (or_introl eq_refl)).
Defined.

Lemma releaseTexture_safe_detaches_witness :
  sourceTracked "a" (Z.of_nat (length (_textureDictionary sharedStage)))
    (length (textures sharedStage)) [0%nat; 1%nat] sharedLoaded
  /\ 0%nat ∈ [0%nat; 1%nat]
  /\ (ReleaseBitmap 0 = ReleaseImage 0 \/ ReleaseBitmap 0 = ReleaseBitmap 0)
  /\ exists st',
       releaseTexture (ReleaseBitmap 0) true sharedLoaded = (Return tt, st')
       /\ (exists img, images st' !! 0%nat = Some img
                       /\ i_storeID img = None)
       /\ (removeFirst 0%nat [0%nat; 1%nat] <> [] ->
           gl_log st' = gl_log sharedLoaded
           /\ _textureIDs st' !! "a"%string
              = Some (Z.of_nat (length (_textureDictionary sharedStage)))
           /\ dictLookup st'
                (Some (Z.of_nat (length (_textureDictionary sharedStage))))
              = Some (length (textures sharedStage))
           /\ (exists x',
                 textures st' !! length (textures sharedStage) = Some x'
                 /\ t_storeID x'
                    = Some (Z.of_nat (length (_textureDictionary sharedStage)))
                 /\ t_imageData x' = Some (removeFirst 0%nat [0%nat; 1%nat]))
           /\ forall j, j ∈ [0%nat; 1%nat] -> j <> 0%nat ->
                exists img, images st' !! j = Some img
                  /\ i_storeID img
                     = Some (Z.of_nat
                               (length (_textureDictionary sharedStage))))
       /\ (removeFirst 0%nat [0%nat; 1%nat] = [] ->
           killed (Z.of_nat (length (_textureDictionary sharedStage)))
             (length (textures sharedStage)) [] sharedLoaded st').
Proof.
  assert (Hin : 0%nat ∈ [0%nat; 1%nat]) by apply list_elem_of_here.
  split; [exact sharedLoaded_tracked|]. split; [exact Hin|].
  split; [by right|].
  exact (releaseTexture_safe_detaches sharedLoaded "a" _ _ _ 0%nat
           (ReleaseBitmap 0) sharedLoaded_tracked Hin (or_intror eq_refl)).
Defined.

Lemma releaseTexture_never_drawn_witness :
  images sharedStage !! 0%nat = Some (loadedImage "a")
  /\ i_storeID (loadedImage "a") = None
  /\ releaseTexture (ReleaseBitmap 0) true sharedStage
     = (Throw (TypeError "texture._imageData"), sharedStage)
  /\ releaseTexture (ReleaseBitmap 0) false sharedStage
     = (Return tt, sharedStage)
  /\ forall safe,
       releaseTexture (ReleaseImage 0) safe sharedStage
       = (Return tt, sharedStage).
Proof.
  assert (H : images sharedStage !! 0%nat = Some (loadedImage "a"))
    by (vm_compute; reflexivity).
  split; [exact H|]. split; [reflexivity|].
  exact (releaseTexture_never_drawn sharedStage 0%nat (loadedImage "a") H
           eq_refl).
Defined.

End Release.

(** ** Caches and uploads *)

Module Uploads.

Import StageGL Run Invariants Stability Registry RegistrySound TextureSharing.
Local Open Scope js_scope.

(** X15. A cache that has no surface yet cannot be set up with a
    StageGL as its renderer. On a stage that is [isCacheControlled],
    [define] throws a TypeError where [_updateSurface] sizes the missing
    surface. On any other stage, when the cache has no output buffer
    either and the global object has no [w], it throws the ReferenceError
    of [getRenderBufferTexture]. Nothing is drawn or changed before. *)
Theorem BitmapCache_define_throws (c : bitmapCache)
    (drawWidth drawHeight filterCount : Z) (st : stage) :
  _cacheCanvas c = None ->
  (isCacheControlled st = true ->
   BitmapCache_define c drawWidth drawHeight filterCount st
   = (Throw (TypeError "surface.width"), st))
  /\ (isCacheControlled st = false ->
      globalObject (host st) !! "w"%string = None ->
      bc_bufferTextureOutput c = None ->
      BitmapCache_define c drawWidth drawHeight filterCount st
      = (Throw (ReferenceError "w"), st)).
Proof.
  intros Hs. unfold BitmapCache_define, surfaceStale, _updateSurface.
  cbn [_cacheCanvas _drawWidth _drawHeight _autoGenerated
       bc_bufferTextureOutput bc_bufferTextureConcat]. rewrite Hs.
  split.
  - intros Hc. rewrite bind_ret_run, <- bind_assoc_run, bind_gets_run, Hc.
    reflexivity.
  - intros Hc Hw Hb.
    rewrite bind_ret_run, <- bind_assoc_run, bind_gets_run, Hc.
    rewrite <- bind_assoc_run, !bind_ret_run.
    unfold BitmapCache_update.
    cbn [_stageGL bc_bufferTextureOutput _drawWidth _drawHeight].
    rewrite Hb.
    assert (E : getRenderBufferTexture drawWidth drawHeight st
                = (Throw (ReferenceError "w"), st)).
    { unfold getRenderBufferTexture, resolveIdentifier.
      cbn [lookupScope app moduleScope String.eqb Ascii.eqb Bool.eqb].
      rewrite <- bind_assoc_run, bind_gets_run, Hw. reflexivity. }
    rewrite <- !bind_assoc_run. by rewrite (bind_Throw _ _ _ _ _ E).
Qed.

(** The cache a draw generates for an item with filters, on a new
    stage. *)
Lemma BitmapCache_define_throws_witness :
  _cacheCanvas (mkCache true false 0 0 0 None None None) = None
  /\ BitmapCache_define (mkCache true false 0 0 0 None None None) 64 32 1
       (newStage demoHost true 170 1200 [])
     = (Throw (ReferenceError "w"), newStage demoHost true 170 1200 []).
Proof.
  split; [reflexivity|].
  exact (proj2 (BitmapCache_define_throws
                  (mkCache true false 0 0 0 None None None) 64 32 1
                  (newStage demoHost true 170 1200 []) eq_refl)
           eq_refl eq_refl eq_refl).
Defined.

(** X16. The first source of a texture is uploaded once: when it is a
    loaded image element marked invalid, [refreshSource] uploads it, gives
    the texture its size and clears the mark, and a second refresh does
    nothing; while the image is not loaded nothing is uploaded and the
    mark stays. *)
Theorem refreshSource_uploads_once (st : stage) (src : string) (id : Z)
    (t : texref) (data : list imgref) (i : imgref) (img : StageGL.image)
    (x : texture) :
  sourceTracked src id t (i :: data) st ->
  textures st !! t = Some x -> images st !! i = Some img ->
  i_isCanvas img = false -> i_invalid img = Some true ->
  (i_ready img = false -> refreshSource x st = (Return tt, st))
  /\ (i_ready img = true ->
      exists st' x',
        refreshSource x st = (Return tt, st')
        /\ gl_log st' = TexImage2D i :: gl_log st
        /\ images st' !! i = Some (set_i_invalid (Some false) img)
        /\ textures st' !! t = Some x'
        /\ t_width x' = Some (i_width img)
        /\ t_height x' = Some (i_height img)
        /\ refreshSource x' st' = (Return tt, st')).
Proof.
  intros (Hids & Hd & (x0 & Hx0 & Hs & Hdat) & Himg) Hx Hi Hcan Hinv.
  assert (x0 = x) as -> by congruence.
  destruct (Himg i) as (img0 & Hi0 & Hsi); [left|].
  assert (img0 = img) as -> by congruence.
  assert (Hfirst : firstSource x = Some i).
  { unfold firstSource. by rewrite Hdat. }
  assert (Hneed : needsUpload img = true).
  { unfold needsUpload. by rewrite Hinv. }
  split.
  - intros Hr. unfold refreshSource. rewrite Hfirst.
    rewrite (bind_Return _ _ _ _ _ (getImage_run _ _ _ Hi)), Hneed.
    unfold when, _updateTextureImageData.
    rewrite (bind_Return _ _ _ _ _ (getImage_run _ _ _ Hi)).
    by rewrite Hr, Hcan.
  - intros Hr.
    set (st' := set_textures
                  (alter (fun x => set_t_height (Some (i_height img))
                                     (set_t_width (Some (i_width img)) x))
                         t (textures st))
                  (set_images
                     (alter (set_i_invalid (Some false)) i (images st))
                     (set_gl_log (TexImage2D i :: gl_log st) st))).
    exists st', (set_t_height (Some (i_height img))
                   (set_t_width (Some (i_width img)) x)).
    assert (E : refreshSource x st = (Return tt, st')).
    { unfold refreshSource. rewrite Hfirst.
      rewrite (bind_Return _ _ _ _ _ (getImage_run _ _ _ Hi)), Hneed.
      unfold when, _updateTextureImageData.
      rewrite (bind_Return _ _ _ _ _ (getImage_run _ _ _ Hi)).
      rewrite Hr. cbn [negb orb].
      rewrite bind_gets_run, Hsi, Hd.
      rewrite (bind_Return _ _ _ _ _ (getTexture_run _ _ _ Hx)).
      unfold log. rewrite bind_modify_run, Hinv.
      rewrite bool_decide_eq_true_2 by (by eexists).
      unfold when, updImage, updTexture. by rewrite bind_modify_run. }
    split; [exact E|]. split; [done|].
    assert (Hi' : images st' !! i = Some (set_i_invalid (Some false) img)).
    { subst st'. simpl. by rewrite list_lookup_alter_eq, Hi. }
    split; [exact Hi'|].
    split; [subst st'; simpl; by rewrite list_lookup_alter_eq, Hx|].
    split; [by destruct x|]. split; [by destruct x|].
    unfold refreshSource.
    assert (Hfirst' : firstSource (set_t_height (Some (i_height img))
                         (set_t_width (Some (i_width img)) x)) = Some i).
    { destruct x; simpl in *. unfold firstSource. simpl. by rewrite Hdat. }
    rewrite Hfirst'.
    rewrite (bind_Return _ _ _ _ _ (getImage_run _ _ _ Hi')).
    by destruct img.
Qed.

Lemma refreshSource_uploads_once_witness :
  sourceTracked "a" 0 1%nat (0%nat :: []) reflaggedStage
  /\ textures reflaggedStage !! 1%nat = Some reflaggedTexture
  /\ images reflaggedStage !! 0%nat = Some reflaggedImage
  /\ i_isCanvas reflaggedImage = false
  /\ i_invalid reflaggedImage = Some true
  /\ (i_ready reflaggedImage = false ->
      refreshSource reflaggedTexture reflaggedStage
      = (Return tt, reflaggedStage))
  /\ (i_ready reflaggedImage = true ->
      exists st' x',
        refreshSource reflaggedTexture reflaggedStage = (Return tt, st')
        /\ gl_log st' = TexImage2D 0%nat :: gl_log reflaggedStage
        /\ images st' !! 0%nat
           = Some (set_i_invalid (Some false) reflaggedImage)
        /\ textures st' !! 1%nat = Some x'
        /\ t_width x' = Some (i_width reflaggedImage)
        /\ t_height x' = Some (i_height reflaggedImage)
        /\ refreshSource x' st' = (Return tt, st')).
Proof.
  assert (Hx : textures reflaggedStage !! 1%nat = Some reflaggedTexture)
    by (vm_compute; reflexivity).
  assert (Hi : images reflaggedStage !! 0%nat = Some reflaggedImage)
    by (vm_compute; reflexivity).
  assert (Ht : sourceTracked "a" 0 1%nat [0%nat] reflaggedStage).
  { split; [vm_compute; reflexivity|]. split; [vm_compute; reflexivity|].
    split; [exists reflaggedTexture; by split|].
    intros j Hj. apply list_elem_of_singleton in Hj as ->.
    exists reflaggedImage. by split. }
  split; [exact Ht|]. split; [exact Hx|]. split; [exact Hi|].
  split; [reflexivity|]. split; [reflexivity|].
  exact (refreshSource_uploads_once reflaggedStage "a" 0 1%nat []
           0%nat reflaggedImage reflaggedTexture Ht Hx Hi eq_refl eq_refl).
Defined.

End Uploads.

(** ** Drawing without the automatic purge *)

Module Unpurged.

Import StageGL Run Invariants Stability Registry RegistrySound.
Local Open Scope js_scope.

Create HintDb keep.

Section Keeping.

Variable st0 : stage.

Let P := keepsTextures st0.

Ltac keep_leaf :=
  let H := fresh in apply preserves_modify; intros ? H; exact H.

Ltac keep_tac :=
  repeat first
    [ pstep
    | apply preserves_getTexture
    | apply preserves_getImage
    | apply preserves_findSlot
    | solve [auto with keep]
    | keep_leaf ].

Lemma keep_updTexture t f : preserves P (updTexture t f).
Proof. unfold updTexture. keep_tac. Qed.
Hint Resolve keep_updTexture : keep.

Lemma keep_updImage t f : preserves P (updImage t f).
Proof. unfold updImage. keep_tac. Qed.
Hint Resolve keep_updImage : keep.

Lemma keep_renderBatch : preserves P _renderBatch.
Proof. unfold _renderBatch, log. keep_tac. Qed.
Hint Resolve keep_renderBatch : keep.

Lemma keep_renderCover : preserves P _renderCover.
Proof. unfold _renderCover, log. keep_tac. Qed.
Hint Resolve keep_renderCover : keep.

Lemma keep_flush r : preserves P (flush r).
Proof. unfold flush. keep_tac. Qed.
Hint Resolve keep_flush : keep.

Lemma keep_fetchShaderProgram c f : preserves P (_fetchShaderProgram c f).
Proof. unfold _fetchShaderProgram. keep_tac. Qed.
Hint Resolve keep_fetchShaderProgram : keep.

Lemma keep_resizeTexture t w h : preserves P (resizeTexture t w h).
Proof. unfold resizeTexture. keep_tac. Qed.
Hint Resolve keep_resizeTexture : keep.

Lemma keep_createTexture : preserves P createTexture.
Proof. unfold createTexture. keep_tac. Qed.
Hint Resolve keep_createTexture : keep.

Lemma keep_getBaseTexture w h : preserves P (getBaseTexture w h).
Proof. unfold getBaseTexture. keep_tac. Qed.
Hint Resolve keep_getBaseTexture : keep.

Lemma keep_getSafeTexture w h : preserves P (_getSafeTexture w h).
Proof. unfold _getSafeTexture. keep_tac. Qed.
Hint Resolve keep_getSafeTexture : keep.

Lemma keep_resolveIdentifier sc n : preserves P (resolveIdentifier sc n).
Proof. unfold resolveIdentifier. keep_tac. Qed.
Hint Resolve keep_resolveIdentifier : keep.

Lemma keep_updateTextureImageData j :
  preserves P (_updateTextureImageData j).
Proof. unfold _updateTextureImageData, log. keep_tac. Qed.
Hint Resolve keep_updateTextureImageData : keep.

Lemma keep_refreshSource x : preserves P (refreshSource x).
Proof. unfold refreshSource. keep_tac. Qed.
Hint Resolve keep_refreshSource : keep.

Lemma keep_insertTextureInBatch t : preserves P (_insertTextureInBatch t).
Proof. unfold _insertTextureInBatch. keep_tac. Qed.
Hint Resolve keep_insertTextureInBatch : keep.

Lemma keep_drawCover : preserves P _drawCover.
Proof. unfold _drawCover. keep_tac. Qed.
Hint Resolve keep_drawCover : keep.

Lemma keep_flushOnVertexOverflow : preserves P flushOnVertexOverflow.
Proof. unfold flushOnVertexOverflow. keep_tac. Qed.
Hint Resolve keep_flushOnVertexOverflow : keep.

Lemma keep_updateRenderMode m : preserves P (_updateRenderMode m).
Proof. unfold _updateRenderMode, log. keep_tac. Qed.
Hint Resolve keep_updateRenderMode : keep.

Lemma keep_writeCard uv ti ca : preserves P (writeCard uv ti ca).
Proof. unfold writeCard, log. keep_tac. Qed.
Hint Resolve keep_writeCard : keep.

(** A write at the end of the dictionary keeps what is registered. *)
Lemma keep_register st v :
  P st ->
  P (set_textureDictionary
       (array_set (_textureDictionary st) (length (_textureDictionary st)) v)
       st).
Proof.
  intros (Ha & Hd & Hr). split; [exact Ha|]. split; [exact Hd|].
  intros i t Hi. specialize (Hr i t Hi). unfold registered in *. simpl.
  rewrite array_set_end.
  destruct (_textureDictionary st !! i) as [e|] eqn:He; [|discriminate].
  by rewrite (lookup_app_l_Some _ _ _ _ He).
Qed.

Lemma keep_getRenderBufferTexture w h :
  preserves P (getRenderBufferTexture w h).
Proof.
  unfold getRenderBufferTexture.
  apply preserves_bind; [keep_tac|intros a].
  apply preserves_bind; [keep_tac|intros b].
  apply preserves_bind; [keep_tac|intros [t|]]; [|keep_tac].
  apply preserves_bind; [keep_tac|intros lost].
  destruct lost; [keep_tac|].
  apply preserves_bind; [keep_tac|intros _].
  apply preserves_bind; [keep_tac|intros _].
  intros st HP. unfold exec, updTexture.
  rewrite bind_gets_run, !bind_modify_run. unfold ret. simpl.
  apply (keep_register (set_textures _ st)). exact HP.
Qed.
Hint Resolve keep_getRenderBufferTexture : keep.

Lemma keep_immediateBatchRender : preserves P _immediateBatchRender.
Proof. unfold _immediateBatchRender. keep_tac. Qed.
Hint Resolve keep_immediateBatchRender : keep.

Lemma keep_BitmapCache_update c : preserves P (BitmapCache_update c).
Proof. unfold BitmapCache_update. keep_tac. Qed.
Hint Resolve keep_BitmapCache_update : keep.

Lemma keep_autoCache ic p : preserves P (autoCache ic p).
Proof. unfold autoCache, BitmapCache_define, surfaceStale, _updateSurface,
    updateViewport. keep_tac. Qed.
Hint Resolve keep_autoCache : keep.

Lemma exec_gets_bind {A B} (R : stage -> Prop) (f : stage -> A)
    (k : A -> M B) st :
  R (exec (k (f st)) st) -> R (exec (bind (gets f) k) st).
Proof. unfold exec. by rewrite bind_gets_run. Qed.

Lemma keepWith_getSafeTexture d w h :
  preserves (keepsWith d st0) (_getSafeTexture w h).
Proof.
  unfold _getSafeTexture, getBaseTexture, createTexture, resizeTexture,
    updTexture.
  repeat first [ pstep | apply preserves_getTexture | keep_leaf ].
Qed.

Lemma keep_loadTextureImage j : preserves P (_loadTextureImage j).
Proof.
  unfold _loadTextureImage.
  apply preserves_bind; [keep_tac|intros img].
  apply preserves_bind; [keep_tac|intros [srcPath|]]; [|keep_tac].
  apply preserves_bind; [keep_tac|intros known].
  apply preserves_bind; [|intros [sid [t|]]; keep_tac].
  destruct known as [id|]; [keep_tac|].
  intros st HP. apply exec_gets_bind, exec_modify_bind.
  unfold updImage at 1. apply exec_modify_bind.
  match goal with
  | |- P (exec _ ?s) => set (s2 := s)
  end.
  assert (H2 : keepsWith (_textureDictionary st) st0 s2) by (by split).
  revert H2. generalize s2. clear s2.
  apply (run_bind (keepsWith (_textureDictionary st) st0)
           (keepsWith (_textureDictionary st) st0) P).
  - apply run_call; [apply keepWith_getSafeTexture|by intros ? [? _]].
  - intros tex s [Hs Hd]. apply exec_modify_bind. unfold exec, ret. simpl.
    rewrite <- Hd. by apply keep_register.
Qed.
Hint Resolve keep_loadTextureImage : keep.

Lemma keep_resolveTexture j : preserves P (resolveTexture j).
Proof. unfold resolveTexture. keep_tac. Qed.
Hint Resolve keep_resolveTexture : keep.

Lemma keep_appendToBatch c a ic : preserves P (_appendToBatch c a ic).
Proof.
  apply (appendToBatch_preserves P P); auto with keep.
  intros st HP. apply keep_flushOnVertexOverflow in HP. unfold exec in HP.
  by destruct (flushOnVertexOverflow st) as [[?|?] ?].
Qed.
Hint Resolve keep_appendToBatch : keep.

Lemma keep_drawContent c ic : preserves P (_drawContent c ic).
Proof. unfold _drawContent. keep_tac. Qed.
Hint Resolve keep_drawContent : keep.

Lemma keep_draw c ic : preserves P (draw c ic).
Proof.
  unfold draw.
  do 17 (apply preserves_bind; [keep_tac|intros ?]).
  intros st HP. apply exec_gets_bind. rewrite (proj1 HP). exact HP.
Qed.

End Keeping.

Lemma keepsTextures_refl st : _autoPurge st = -1 -> keepsTextures st st.
Proof. intros H. by split. Qed.

(** X17. With the automatic purge off ([autoPurge] -1), a draw,
    whether it returns or throws, deletes no texture and unregisters
    none: every texture registered before it is registered after it under
    the same store id. *)
Theorem draw_without_autoPurge_keeps_textures (st : stage)
    (content : displayObject) (ignoreCache : bool) :
  _autoPurge st = -1 ->
  let st' := exec (draw content ignoreCache) st in
  _autoPurge st' = -1
  /\ deletions (gl_log st') = deletions (gl_log st)
  /\ forall i t, registered st i = Some t -> registered st' i = Some t.
Proof.
  intros Ha. apply (keep_draw st content ignoreCache st).
  by apply keepsTextures_refl.
Qed.

Lemma draw_without_autoPurge_keeps_textures_witness :
  _autoPurge unpurgedStage = -1
  /\ let st' := exec (draw (sceneOf [bitmapOf 0 1 None; bitmapOf 1 1 None])
                        false) unpurgedStage in
     _autoPurge st' = -1
     /\ deletions (gl_log st') = deletions (gl_log unpurgedStage)
     /\ forall i t, registered unpurgedStage i = Some t ->
          registered st' i = Some t.
Proof.
  assert (H : _autoPurge unpurgedStage = -1) by (vm_compute; reflexivity).
  split; [exact H|].
  exact (draw_without_autoPurge_keeps_textures unpurgedStage _ false H).
Defined.

End Unpurged.

(** ** The safe texture *)

Module SafeTexture.

Import StageGL Run Invariants Stability Registry RegistrySound.
Local Open Scope js_scope.

(** X18. The fallback of [_getSafeTexture] is never taken: on a lost
    context [getBaseTexture] does not return null but throws, reading the
    width of the missing texture, before anything is changed; on a live
    context the result is the texture just created. *)
Theorem getSafeTexture_never_falls_back (st : stage)
    (width height : option Z) :
  (contextLost (host st) = true ->
   _getSafeTexture width height st = (Throw (TypeError "texture.width"), st))
  /\ (contextLost (host st) = false ->
      exists st',
        _getSafeTexture width height st
        = (Return (Some (length (textures st))), st')
        /\ length (textures st') = S (length (textures st))
        /\ _baseTextures st' = _baseTextures st)
  /\ forall r st',
       _getSafeTexture width height st = (Return r, st') ->
       r = Some (length (textures st)).
Proof.
  assert (Hlost : contextLost (host st) = true ->
            _getSafeTexture width height st
            = (Throw (TypeError "texture.width"), st)).
  { intros Hl. unfold _getSafeTexture, getBaseTexture, createTexture.
    rewrite <- !bind_assoc_run, bind_gets_run, Hl. reflexivity. }
  assert (Hlive : contextLost (host st) = false ->
            exists st',
              _getSafeTexture width height st
              = (Return (Some (length (textures st))), st')
              /\ length (textures st') = S (length (textures st))
              /\ _baseTextures st' = _baseTextures st).
  { intros Hl.
    destruct (getBaseTexture width height st) as [r s1] eqn:Hbase.
    destruct (getBaseTexture_fresh _ _ _ _ _ Hl Hbase)
      as (x & -> & Htex & _).
    exists s1. unfold _getSafeTexture.
    rewrite (bind_Return _ _ _ _ _ Hbase). split; [done|].
    split; [rewrite Htex, length_app; simpl; lia|].
    eapply (preserves_run (fun s => _baseTextures s = _baseTextures st));
      [|reflexivity|exact Hbase].
    unfold getBaseTexture, createTexture, resizeTexture, updTexture.
    repeat first
      [ pstep | apply preserves_getTexture
      | (let H := fresh in apply preserves_modify; intros ? H; exact H) ]. }
  split; [exact Hlost|]. split; [exact Hlive|].
  intros r st' Hrun. destruct (contextLost (host st)) eqn:Hl.
  - rewrite Hlost in Hrun by done. discriminate.
  - destruct Hlive as (s & Hs & _); [done|]. congruence.
Qed.

End SafeTexture.

(** ** The slot tables stay well formed *)

Module SlotTables.

Import StageGL Run Invariants Stability ShaderInit Registry RegistrySound Unpurged.
Local Open Scope js_scope.

Create HintDb slots.

Lemma slots_updTexture t0 k0 t f : preserves (slotsFor t0 k0) (updTexture t f).
Proof.
  intros st ((H1 & H2 & H3 & H4 & H5 & H6) & H7 & H8).
  unfold exec, updTexture, modify. simpl.
  split; [|split; [|exact H8]].
  2:{ apply lookup_lt_is_Some. simpl. rewrite length_alter.
      by apply lookup_lt_is_Some. }
  do 4 (split; [done|]). split.
  - intros i occ Hi. apply lookup_lt_is_Some. simpl. rewrite length_alter.
    apply lookup_lt_is_Some. by apply (H5 i).
  - intros i occ Hi. apply lookup_lt_is_Some. simpl. rewrite length_alter.
    apply lookup_lt_is_Some. by apply (H6 i).
Qed.
#[export] Hint Resolve slots_updTexture : slots.

Lemma slots_createTexture t0 k0 : preserves (slotsFor t0 k0) createTexture.
Proof.
  intros st ((H1 & H2 & H3 & H4 & H5 & H6) & H7 & H8).
  unfold exec, createTexture.
  rewrite bind_gets_run. destruct (contextLost (host st)).
  { split; [|by split]. by do 5 (split; [done|]). }
  rewrite bind_gets_run, bind_modify_run. simpl.
  split; [|split; [|exact H8]].
  2:{ apply lookup_lt_is_Some. simpl. rewrite length_app.
      apply lookup_lt_is_Some in H7. lia. }
  do 4 (split; [done|]). split.
  - intros i occ Hi. apply lookup_lt_is_Some. simpl. rewrite length_app.
    pose proof (H5 i occ Hi) as Hl. apply lookup_lt_is_Some in Hl. lia.
  - intros i occ Hi. apply lookup_lt_is_Some. simpl. rewrite length_app.
    pose proof (H6 i occ Hi) as Hl. apply lookup_lt_is_Some in Hl. lia.
Qed.
#[export] Hint Resolve slots_createTexture : slots.

Ltac slots_leaf :=
  let H := fresh in apply preserves_modify; intros ? H; exact H.

Ltac slots_tac :=
  repeat first
    [ pstep
    | apply preserves_getTexture
    | apply preserves_getImage
    | apply preserves_findSlot
    | solve [auto with slots]
    | slots_leaf ].

Lemma slots_updImage t0 k0 t f : preserves (slotsFor t0 k0) (updImage t f).
Proof. unfold updImage. slots_tac. Qed.
#[export] Hint Resolve slots_updImage : slots.

Lemma slots_renderBatch t0 k0 : preserves (slotsFor t0 k0) _renderBatch.
Proof. unfold _renderBatch, log. slots_tac. Qed.
#[export] Hint Resolve slots_renderBatch : slots.

Lemma slots_renderCover t0 k0 : preserves (slotsFor t0 k0) _renderCover.
Proof. unfold _renderCover, log. slots_tac. Qed.
#[export] Hint Resolve slots_renderCover : slots.

Lemma slots_flush t0 k0 r : preserves (slotsFor t0 k0) (flush r).
Proof. unfold flush. slots_tac. Qed.
#[export] Hint Resolve slots_flush : slots.

Lemma slots_fetchShaderProgram t0 k0 c f :
  preserves (slotsFor t0 k0) (_fetchShaderProgram c f).
Proof. unfold _fetchShaderProgram. slots_tac. Qed.
#[export] Hint Resolve slots_fetchShaderProgram : slots.

Lemma slots_resizeTexture t0 k0 t w h : preserves (slotsFor t0 k0) (resizeTexture t w h).
Proof. unfold resizeTexture. slots_tac. Qed.
#[export] Hint Resolve slots_resizeTexture : slots.

Lemma slots_getBaseTexture t0 k0 w h : preserves (slotsFor t0 k0) (getBaseTexture w h).
Proof. unfold getBaseTexture. slots_tac. Qed.
#[export] Hint Resolve slots_getBaseTexture : slots.

Lemma slots_getSafeTexture t0 k0 w h : preserves (slotsFor t0 k0) (_getSafeTexture w h).
Proof. unfold _getSafeTexture. slots_tac. Qed.
#[export] Hint Resolve slots_getSafeTexture : slots.

Lemma slots_resolveIdentifier t0 k0 sc n :
  preserves (slotsFor t0 k0) (resolveIdentifier sc n).
Proof. unfold resolveIdentifier. slots_tac. Qed.
#[export] Hint Resolve slots_resolveIdentifier : slots.

Lemma slots_getRenderBufferTexture t0 k0 w h :
  preserves (slotsFor t0 k0) (getRenderBufferTexture w h).
Proof. unfold getRenderBufferTexture. slots_tac. Qed.
#[export] Hint Resolve slots_getRenderBufferTexture : slots.

Lemma slots_updateTextureImageData t0 k0 j :
  preserves (slotsFor t0 k0) (_updateTextureImageData j).
Proof. unfold _updateTextureImageData, log. slots_tac. Qed.
#[export] Hint Resolve slots_updateTextureImageData : slots.

Lemma slots_refreshSource t0 k0 x : preserves (slotsFor t0 k0) (refreshSource x).
Proof. unfold refreshSource. slots_tac. Qed.
#[export] Hint Resolve slots_refreshSource : slots.

Lemma slots_drawCover t0 k0 : preserves (slotsFor t0 k0) _drawCover.
Proof. unfold _drawCover. slots_tac. Qed.
#[export] Hint Resolve slots_drawCover : slots.

Lemma slots_flushOnVertexOverflow t0 k0 : preserves (slotsFor t0 k0) flushOnVertexOverflow.
Proof. unfold flushOnVertexOverflow. slots_tac. Qed.
#[export] Hint Resolve slots_flushOnVertexOverflow : slots.

Lemma slots_updateRenderMode t0 k0 m : preserves (slotsFor t0 k0) (_updateRenderMode m).
Proof. unfold _updateRenderMode, log. slots_tac. Qed.
#[export] Hint Resolve slots_updateRenderMode : slots.

Lemma slots_writeCard t0 k0 uv ti ca : preserves (slotsFor t0 k0) (writeCard uv ti ca).
Proof. unfold writeCard, log. slots_tac. Qed.
#[export] Hint Resolve slots_writeCard : slots.

Lemma slots_immediateBatchRender t0 k0 : preserves (slotsFor t0 k0) _immediateBatchRender.
Proof. unfold _immediateBatchRender. slots_tac. Qed.
#[export] Hint Resolve slots_immediateBatchRender : slots.

Lemma slots_BitmapCache_update t0 k0 c : preserves (slotsFor t0 k0) (BitmapCache_update c).
Proof. unfold BitmapCache_update. slots_tac. Qed.
#[export] Hint Resolve slots_BitmapCache_update : slots.

Lemma slots_autoCache t0 k0 ic p : preserves (slotsFor t0 k0) (autoCache ic p).
Proof. unfold autoCache, BitmapCache_define, surfaceStale, _updateSurface,
    updateViewport. slots_tac. Qed.
#[export] Hint Resolve slots_autoCache : slots.

Lemma slots_updateViewport t0 k0 w h : preserves (slotsFor t0 k0) (updateViewport w h).
Proof. unfold updateViewport. slots_tac. Qed.
#[export] Hint Resolve slots_updateViewport : slots.

Lemma preserves_and {A} (P Q : stage -> Prop) (m : M A) :
  preserves P m -> preserves Q m -> preserves (fun s => P s /\ Q s) m.
Proof. intros HP HQ st [H1 H2]. split; [by apply HP|by apply HQ]. Qed.

Lemma scanSlots_range st start fuel : forall look k,
  scanSlots st start fuel look = Return (Some k) ->
  0 <= k /\ (Z.to_nat k < length (_batchTextures st))%nat.
Proof.
  induction fuel as [|fuel IH]; intros look k; simpl; [discriminate|].
  unfold at_index. destruct (Z.ltb_spec look 0); [discriminate|].
  destruct (_batchTextures st !! Z.to_nat look) as [occ|] eqn:Hocc;
    [|discriminate].
  destruct (textures st !! occ); [|discriminate].
  destruct (_ && _).
  - intros [= <-]. split; [done|]. by apply lookup_lt_Some in Hocc.
  - destruct (JS.rem _ _) as [look'|]; [|discriminate].
    destruct (look' =? start); [discriminate|]. apply IH.
Qed.

(** The slot table with [t] put into a slot. *)
Lemma slots_put t0 k0 t k st :
  slotsFor t0 k0 st -> is_Some (textures st !! t) ->
  slotsFor t0 k0
    (set_batchTextures (<[k := t]> (_batchTextures st)) st).
Proof.
  intros ((H1 & H2 & H3 & H4 & H5 & H6) & H7 & H8) Ht.
  split; [|by split]. split; [done|]. split.
  { simpl. by rewrite length_insert. }
  do 2 (split; [done|]). split; [|done].
  intros i occ. simpl. destruct (decide (i = k)) as [->|Hne].
  - destruct (decide (k < length (_batchTextures st))%nat).
    + rewrite list_lookup_insert_eq by done. by intros [= <-].
    + rewrite list_insert_ge by lia. apply H5.
  - rewrite list_lookup_insert_ne by done. apply H5.
Qed.

Lemma slots_last t0 k0 found st :
  slotsFor t0 k0 st -> 0 <= found < _batchTextureCount st ->
  slotsFor t0 k0 (set_lastTextureInsert found st).
Proof.
  intros ((H1 & H2 & H3 & H4 & H5 & H6) & H7 & H8) Hf.
  split; [|by split]. do 3 (split; [done|]). split; [simpl; lia|].
  by split.
Qed.

Lemma exec_getTexture_bind {B} (P : stage -> Prop) t (k : texture -> M B)
    st :
  P st -> (forall x, textures st !! t = Some x -> P (exec (k x) st)) ->
  P (exec (bind (getTexture t) k) st).
Proof.
  intros HP Hk. unfold exec, bind, getTexture.
  destruct (textures st !! t) as [x|] eqn:Hx; simpl; [by apply Hk|done].
Qed.

Lemma exec_bind_mid {A B} (P Q : stage -> Prop) (m : M A) (k : A -> M B)
    st :
  Q (exec m st) -> (forall s, Q s -> P s) ->
  (forall a s, Q s -> P (exec (k a) s)) -> P (exec (bind m k) st).
Proof.
  intros Hm HQP Hk. unfold exec, bind in *.
  destruct (m st) as [[a|e] s]; simpl in *; [by apply Hk|by apply HQP].
Qed.

Lemma slots_insertTextureInBatch t0 k0 t :
  preserves (slotsFor t0 k0) (_insertTextureInBatch t).
Proof.
  intros st HP. unfold _insertTextureInBatch.
  apply exec_getTexture_bind; [exact HP|intros x Hx].
  apply (exec_gets_bind (slotsFor t0 k0)).
  assert (Hrefresh : forall t1 k1, preserves
            (fun s => slotsFor t0 k0 s /\ slotsFor t1 k1 s)
            (refreshSource x)).
  { intros. apply preserves_and; apply slots_refreshSource. }
  apply (exec_bind_at (slotsFor t0 k0)); [|intros _; slots_tac].
  destruct (negb _).
  2:{ apply (exec_gets_bind (slotsFor t0 k0)).
      by apply preserves_when; [apply slots_refreshSource|]. }
  apply (exec_gets_bind (slotsFor t0 k0)).
  destruct HP as (Hok & Ht0 & Hk0). pose proof Hok as (H1 & H2 & H3 & H4 & _).
  unfold JS.rem. destruct (Z.eqb_spec (_batchTextureCount st) 0); [lia|].
  set (start := Z.rem (_lastTextureInsert st + 1) (_batchTextureCount st)).
  assert (Hstart : 0 <= start < _batchTextureCount st).
  { subst start. apply Z.rem_bound_pos; lia. }
  assert (Hrest : forall found s,
            slotsFor t0 k0 s /\ slotsFor t found s ->
            slotsFor t0 k0
              (exec (modify (fun st => set_batchTextures
                        (<[Z.to_nat found := t]> (_batchTextures st)) st) ;;;
                     updTexture t (set_t_activeIndex (Some found)) ;;;
                     refreshSource x ;;;
                     modify (set_lastTextureInsert found)) s)).
  { intros found s HR.
    cut ((fun s => slotsFor t0 k0 s /\ slotsFor t found s)
           (exec (modify (fun st => set_batchTextures
                     (<[Z.to_nat found := t]> (_batchTextures st)) st) ;;;
                  updTexture t (set_t_activeIndex (Some found)) ;;;
                  refreshSource x ;;;
                  modify (set_lastTextureInsert found)) s));
      [by intros [? _]|].
    apply exec_modify_bind.
    apply (exec_bind_at (fun s => slotsFor t0 k0 s /\ slotsFor t found s)).
    - apply (preserves_and (slotsFor t0 k0) (slotsFor t found));
        [apply slots_updTexture..|].
      destruct HR as [Ha Hb]. split; apply slots_put; try done; apply Hb.
    - intros _. apply preserves_bind; [apply Hrefresh|intros _].
      apply preserves_modify. intros s' [Ha Hb].
      split; apply slots_last; try done; apply Hb. }
  assert (HR : forall found, 0 <= found < _batchTextureCount st ->
                 slotsFor t0 k0 st /\ slotsFor t found st).
  { intros found Hf. split; [by split|]. split; [done|]. split; [|done].
    by eexists. }
  unfold findSlot. unfold exec, bind at 1.
  destruct (scanSlots st start _ start) as [[k|]|e] eqn:Hscan; simpl.
  - rewrite bind_ret_run. apply Hrest, HR.
    apply scanSlots_range in Hscan. lia.
  - rewrite <- bind_assoc_run.
    match goal with
    | |- slotsFor t0 k0 (snd (bind (flush ?r) ?k st)) =>
      change (slotsFor t0 k0 (exec (bind (flush r) k) st))
    end.
    apply (exec_bind_mid (slotsFor t0 k0)
             (fun s => slotsFor t0 k0 s /\ slotsFor t start s)).
    + apply (preserves_and (slotsFor t0 k0) (slotsFor t start));
        [apply slots_flush..|]. by apply HR.
    + by intros s [? _].
    + intros _ s Hs. unfold exec. rewrite bind_ret_run. by apply Hrest.
  - by split.
Qed.
#[export] Hint Resolve slots_insertTextureInBatch : slots.

Lemma slots_log t0 k0 e : preserves (slotsFor t0 k0) (log e).
Proof. unfold log. slots_tac. Qed.
#[export] Hint Resolve slots_log : slots.

Lemma slots_killTextureObject t0 k0 texture :
  preserves (slotsFor t0 k0) (_killTextureObject texture).
Proof.
  destruct texture as [t|]; [|apply preserves_ret].
  unfold _killTextureObject.
  apply preserves_bind; [apply preserves_getTexture|intros x].
  apply preserves_bind; [slots_tac|intros _].
  intros st HP. apply (exec_gets_bind (slotsFor t0 k0)).
  apply (exec_bind_at (slotsFor t0 k0)); [|intros _; slots_tac].
  unfold when. destruct (bool_decide _); [|exact HP].
  destruct (at_index (_baseTextures st) (t_activeIndex x)) as [base|] eqn:Hb;
    [|exact HP].
  destruct (t_activeIndex x) as [k|]; [|exact HP].
  unfold exec, modify; simpl. apply slots_put; [done|].
  destruct HP as ((_ & _ & _ & _ & _ & H6) & _).
  unfold at_index in Hb. destruct (k <? 0); [discriminate|].
  by apply (H6 _ _ Hb).
Qed.
#[export] Hint Resolve slots_killTextureObject : slots.

Lemma slots_purgeSources t0 k0 c l :
  preserves (slotsFor t0 k0) (purgeSources c l).
Proof. induction l as [|i l IH]; simpl; slots_tac. Qed.
#[export] Hint Resolve slots_purgeSources : slots.

Lemma slots_purgeTextures t0 k0 c :
  preserves (slotsFor t0 k0) (purgeTextures c).
Proof. unfold purgeTextures, purgeEntry. slots_tac. Qed.
#[export] Hint Resolve slots_purgeTextures : slots.

Lemma slots_loadTextureImage t0 k0 j :
  preserves (slotsFor t0 k0) (_loadTextureImage j).
Proof. unfold _loadTextureImage. slots_tac. Qed.
#[export] Hint Resolve slots_loadTextureImage : slots.

Lemma slots_resolveTexture t0 k0 j :
  preserves (slotsFor t0 k0) (resolveTexture j).
Proof. unfold resolveTexture. slots_tac. Qed.
#[export] Hint Resolve slots_resolveTexture : slots.

Lemma slots_appendToBatch t0 k0 c a ic :
  preserves (slotsFor t0 k0) (_appendToBatch c a ic).
Proof.
  apply (appendToBatch_preserves (slotsFor t0 k0) (slotsFor t0 k0));
    auto with slots.
  intros st HP. apply (slots_flushOnVertexOverflow t0 k0) in HP.
  unfold exec in HP. by destruct (flushOnVertexOverflow st) as [[?|?] ?].
Qed.
#[export] Hint Resolve slots_appendToBatch : slots.

Lemma slots_drawContent t0 k0 c ic :
  preserves (slotsFor t0 k0) (_drawContent c ic).
Proof. unfold _drawContent. slots_tac. Qed.
#[export] Hint Resolve slots_drawContent : slots.

Lemma slots_draw t0 k0 c ic : preserves (slotsFor t0 k0) (draw c ic).
Proof. unfold draw. slots_tac. Qed.
#[export] Hint Resolve slots_draw : slots.

Lemma slots_perform t0 k0 c : preserves (slotsFor t0 k0) (perform c).
Proof. destruct c; simpl; auto with slots. Qed.

(** A well-formed slot table has a first base texture. *)
Lemma slotsOK_for st :
  slotsOK st -> exists t, slotsFor t 0 st.
Proof.
  intros Hok. pose proof Hok as (H1 & H2 & H3 & H4 & H5 & H6).
  destruct (_baseTextures st) as [|t r] eqn:Hb; [simpl in H3; lia|].
  exists t. split; [done|]. split; [|lia].
  by apply (H6 0%nat).
Qed.

Lemma slotsOK_lift {A} (m : M A) :
  (forall t k, preserves (slotsFor t k) m) -> preserves slotsOK m.
Proof.
  intros Hm st Hok. destruct (slotsOK_for st Hok) as [t Ht].
  by apply (Hm t 0 st).
Qed.

Lemma slotsOK_afterCalls calls : forall st,
  slotsOK st -> slotsOK (afterCalls calls st).
Proof.
  induction calls as [|c calls IH]; intros st HP; [exact HP|].
  simpl. apply IH. apply (slotsOK_lift (perform c)); [|done].
  intros. apply slots_perform.
Qed.

Lemma half_int32_sampler n : 2 <= n < 2 ^ 31 -> 0 < JS.half_int32 n < 2 ^ 31.
Proof.
  intros Hn. unfold JS.half_int32, JS.toInt32. cbv zeta.
  assert (Hq : 1 <= Z.quot n 2 < 2 ^ 30).
  { rewrite Z.quot_div_nonneg by lia.
    split; [apply Z.div_le_lower_bound; lia|].
    apply Z.div_lt_upper_bound; lia. }
  rewrite Z.mod_small by lia.
  destruct (Z.ltb_spec (Z.quot n 2) (2 ^ 31)); lia.
Qed.

Lemma samplers_compileLoop fuel : forall st u s,
  samplersOK st -> compileLoop fuel st = (Return u, s) -> samplersOK s.
Proof.
  induction fuel as [|fuel IH]; intros st u s [Hc Hl]; [discriminate|].
  rewrite compileLoop_step. cbv zeta.
  destruct (batchShaderCompiles _ _).
  { intros [= _ <-]. by split. }
  destruct (Z.leb_spec (_batchTextureCount st) 1); [discriminate|].
  apply IH. split; [|done]. simpl. apply half_int32_sampler. lia.
Qed.

Lemma samplers_getBaseTexture w h : preserves samplersOK (getBaseTexture w h).
Proof.
  unfold getBaseTexture, createTexture, resizeTexture, updTexture.
  repeat first [ pstep | apply preserves_getTexture | slots_leaf ].
Qed.

(** [_initMaterials], when it returns, leaves the slot tables filled. *)
Lemma initMaterials_slots st :
  0 < MAX_TEXTURE_IMAGE_UNITS (host st) < 2 ^ 31 ->
  result _initMaterials st = Return tt -> slotsOK (exec _initMaterials st).
Proof.
  intros Hmax. unfold result, exec, _initMaterials.
  rewrite !bind_modify_run.
  match goal with |- context [bind (compileLoop 34) _ ?s] => set (s1 := s) end.
  assert (H1 : samplersOK s1) by (by split).
  destruct (compileLoop 34 s1) as [[u|e] s2] eqn:Hloop.
  2:{ by rewrite (bind_Throw _ _ _ _ _ Hloop). }
  rewrite (bind_Return _ _ _ _ _ Hloop), bind_modify_run.
  apply samplers_compileLoop in Hloop; [|exact H1]. clear H1 s1.
  set (s3 := set_mainShader _ s2).
  assert (H3 : samplersOK s3) by exact Hloop.
  destruct (getBaseTexture None None s3) as [[[t|]|e] s4] eqn:Hbase.
  3:{ by rewrite (bind_Throw _ _ _ _ _ Hbase). }
  2:{ by rewrite (bind_Return _ _ _ _ _ Hbase). }
  rewrite (bind_Return _ _ _ _ _ Hbase).
  assert (H4 : samplersOK s4).
  { eapply (preserves_run samplersOK); [|exact H3|exact Hbase].
    apply samplers_getBaseTexture. }
  assert (Hlive : is_Some (textures s4 !! t)).
  { destruct (contextLost (host s3)) eqn:Hl.
    - unfold getBaseTexture, createTexture in Hbase.
      rewrite <- !bind_assoc_run, bind_gets_run, Hl in Hbase. discriminate.
    - destruct (getBaseTexture_fresh _ _ _ _ _ Hl Hbase)
        as (x & [= ->] & -> & _).
      rewrite list_lookup_middle by done. by eexists. }
  unfold updTexture. rewrite bind_modify_run, bind_gets_run, !bind_modify_run.
  simpl. intros _. destruct H4 as [Hc Hl].
  assert (Hrep : forall i occ,
            replicate (Z.to_nat (_batchTextureCount s4)) t !! i = Some occ ->
            is_Some (alter (set_t_storeID (Some (-1))) t (textures s4) !! occ)).
  { intros i occ Hi. apply lookup_replicate in Hi as [-> _].
    apply lookup_lt_is_Some. rewrite length_alter.
    by apply lookup_lt_is_Some. }
  split; [simpl; lia|]. split; [simpl; by rewrite length_replicate|].
  split; [simpl; by rewrite length_replicate|].
  split; [simpl; lia|]. split; exact Hrep.
Qed.

(** X19. Once [_initMaterials] has returned on a device with a positive
    sampler count, the slot tables stay well formed whatever is drawn,
    purged or resized: [_batchTextures] and [_baseTextures] have one
    entry for each sampler of the batch shader, every entry is a texture of
    the store, and [_lastTextureInsert] is -1 or the index of a slot. *)
Theorem slots_well_formed_after_calls (h : hostEnv) (directDraw : bool)
    (batchSize autoPurge : Z) (sources : list image)
    (canvasWidth canvasHeight : Z) (calls : list stageCall) :
  0 < MAX_TEXTURE_IMAGE_UNITS h < 2 ^ 31 ->
  let new := newStage h directDraw batchSize autoPurge sources in
  result _initMaterials new = Return tt ->
  let st := afterCalls calls
              (exec (_initializeWebGL canvasWidth canvasHeight) new) in
  0 < _batchTextureCount st
  /\ length (_batchTextures st) = Z.to_nat (_batchTextureCount st)
  /\ length (_baseTextures st) = Z.to_nat (_batchTextureCount st)
  /\ -1 <= _lastTextureInsert st < _batchTextureCount st
  /\ (forall i occ, _batchTextures st !! i = Some occ ->
        is_Some (textures st !! occ))
  /\ (forall i occ, _baseTextures st !! i = Some occ ->
        is_Some (textures st !! occ)).
Proof.
  intros Hmax new Hret st. apply slotsOK_afterCalls.
  unfold _initializeWebGL. apply (exec_bind_at slotsOK).
  - by apply initMaterials_slots.
  - intros _. apply slotsOK_lift. intros t k. slots_tac.
Qed.

Lemma slots_well_formed_after_calls_witness :
  0 < MAX_TEXTURE_IMAGE_UNITS demoHost < 2 ^ 31
  /\ let new := newStage demoHost true 170 1200
                  [loadedImage "a"; loadedImage "b"] in
     result _initMaterials new = Return tt
     /\ let st := afterCalls
                    [CallDraw (sceneOf [bitmapOf 0 1 None; bitmapOf 1 1 None])
                       false;
                     CallPurgeTextures (Some 0)]
                    (exec (_initializeWebGL 640 480) new) in
        0 < _batchTextureCount st
        /\ length (_batchTextures st) = Z.to_nat (_batchTextureCount st)
        /\ length (_baseTextures st) = Z.to_nat (_batchTextureCount st)
        /\ -1 <= _lastTextureInsert st < _batchTextureCount st
        /\ (forall i occ, _batchTextures st !! i = Some occ ->
              is_Some (textures st !! occ))
        /\ (forall i occ, _baseTextures st !! i = Some occ ->
              is_Some (textures st !! occ)).
Proof.
  assert (H1 : 0 < MAX_TEXTURE_IMAGE_UNITS demoHost < 2 ^ 31)
    by (by vm_compute).
  assert (H2 : result _initMaterials
                 (newStage demoHost true 170 1200
                    [loadedImage "a"; loadedImage "b"]) = Return tt)
    by (vm_compute; reflexivity).
  split; [exact H1|]. split; [exact H2|].
  exact (slots_well_formed_after_calls demoHost true 170 1200
           [loadedImage "a"; loadedImage "b"] 640 480 _ H1 H2).
Defined.

End SlotTables.

(** ** The colour cleared with *)

Module Clearing.

Import StageGL Run Colour.
Local Open Scope js_scope.

Lemma isPositive_byte (v : Z) :
  0 <= v -> isPositive (JS.Finite (inject_Z v / 255)) = (0 <? v).
Proof.
  intros Hv. unfold isPositive. destruct (Z.ltb_spec 0 v).
  - apply negb_true_iff, not_true_iff_false. rewrite Qle_bool_iff.
    unfold Qle, Qdiv, Qmult, Qinv, inject_Z. simpl. lia.
  - apply negb_false_iff, Qle_bool_iff.
    unfold Qle, Qdiv, Qmult, Qinv, inject_Z. simpl. lia.
Qed.

Lemma isNegative_byte (v : Z) :
  0 <= v -> isNegative (JS.Finite (inject_Z v / 255)) = false.
Proof.
  intros Hv. unfold isNegative. apply negb_false_iff, Qle_bool_iff.
  unfold Qle, Qdiv, Qmult, Qinv, inject_Z. simpl. lia.
Qed.

(** X20. The alpha of the clear colour is a switch: after
    [setClearColor] with a number [0xRRGGBBAA], [clear] clears with
    alpha 1 and the colour components as they are when the stage is not
    transparent or the alpha byte is not zero; otherwise the alpha byte
    is zero, and so is the alpha the components are multiplied by. *)
Theorem clear_alpha_is_binary (transparent : bool) (color : Z) :
  let r := byteOf 3 color in
  let g := byteOf 2 color in
  let b := byteOf 1 color in
  let a := byteOf 0 color in
  clearWith transparent (NumberColour color)
  = Some (if negb transparent || (0 <? a)
          then mkColour (JS.Finite (inject_Z r / 255 * inject_Z 1))
                 (JS.Finite (inject_Z g / 255 * inject_Z 1))
                 (JS.Finite (inject_Z b / 255 * inject_Z 1)) (JS.of_Z 1)
          else mkColour (JS.Finite (inject_Z r / 255 * (inject_Z a / 255)))
                 (JS.Finite (inject_Z g / 255 * (inject_Z a / 255)))
                 (JS.Finite (inject_Z b / 255 * (inject_Z a / 255)))
                 (JS.Finite (inject_Z a / 255)))
    /\ (negb transparent || (0 <? a) = false -> a = 0).
Proof.
  cbv zeta. unfold clearWith. rewrite colorToObj_number. simpl fmap.
  pose proof (byteOf_range 0 color) as Ha.
  split.
  2:{ intros H. apply orb_false_iff in H as [_ H].
      apply Z.ltb_ge in H. lia. }
  f_equal. unfold clear, _clearFrameBuffer, colourOfBytes. cbn [c_a c_r c_g c_b].
  destruct transparent; cbn [negb orb].
  - rewrite isPositive_byte by lia. destruct (0 <? byteOf 0 color) eqn:E.
    + reflexivity.
    + rewrite isNegative_byte by lia. reflexivity.
  - reflexivity.
Qed.

End Clearing.

(** ** What a draw and a purge return to *)

Module DrawTargets.

Import StageGL Run Invariants Stability Registry RenderModes RegistrySound.
Local Open Scope js_scope.

Lemma targets_purgeSources a b c n l :
  preserves (batchTargets a b c) (purgeSources n l).
Proof.
  induction l as [|i l IH]; simpl; unfold updImage;
    repeat first
      [ pstep | apply preserves_getImage | exact IH
      | (let H := fresh in apply preserves_modify; intros ? H; exact H) ].
Qed.

Lemma targets_purgeTextures a b c n :
  preserves (batchTargets a b c) (purgeTextures n).
Proof.
  pose proof (targets_purgeSources a b c) as Hs.
  unfold purgeTextures, purgeEntry, _killTextureObject, updTexture, updImage,
    log.
  repeat first
    [ pstep | apply preserves_getTexture | apply Hs
    | (let H := fresh in apply preserves_modify; intros ? H; exact H) ].
Qed.

(** X21. A draw that returns leaves the three batch targets,
    [_batchTextureOutput], [_batchTextureConcat] and [_batchTextureTemp],
    as they were before it, whatever the traversal did with them. *)
Theorem draw_restores_batch_targets (st st' : stage)
    (content : displayObject) (ignoreCache : bool) :
  draw content ignoreCache st = (Return tt, st') ->
  _batchTextureOutput st' = _batchTextureOutput st
  /\ _batchTextureConcat st' = _batchTextureConcat st
  /\ _batchTextureTemp st' = _batchTextureTemp st.
Proof.
  intros Hrun. unfold draw in Hrun.
  rewrite !bind_gets_run, !bind_modify_run, bind_gets_run in Hrun.
  step_run Hrun u1 s1 H1. step_run Hrun u2 s2 H2.
  step_run Hrun u3 s3 H3. step_run Hrun u4 s4 H4.
  rewrite !bind_modify_run, bind_gets_run in Hrun.
  eapply (preserves_run
            (batchTargets (_batchTextureOutput st) (_batchTextureConcat st)
               (_batchTextureTemp st))) in Hrun; [exact Hrun| |by split].
  apply preserves_when, targets_purgeTextures.
Qed.

Lemma draw_restores_batch_targets_witness :
  draw (sceneOf [bitmapOf 0 1 None]) false (demoStage true 1)
  = (Return tt, exec (draw (sceneOf [bitmapOf 0 1 None]) false)
                  (demoStage true 1))
  /\ _batchTextureOutput
       (exec (draw (sceneOf [bitmapOf 0 1 None]) false) (demoStage true 1))
     = _batchTextureOutput (demoStage true 1)
  /\ _batchTextureConcat
       (exec (draw (sceneOf [bitmapOf 0 1 None]) false) (demoStage true 1))
     = _batchTextureConcat (demoStage true 1)
  /\ _batchTextureTemp
       (exec (draw (sceneOf [bitmapOf 0 1 None]) false) (demoStage true 1))
     = _batchTextureTemp (demoStage true 1).
Proof.
  assert (H : draw (sceneOf [bitmapOf 0 1 None]) false (demoStage true 1)
              = (Return tt, exec (draw (sceneOf [bitmapOf 0 1 None]) false)
                              (demoStage true 1)))
    by (vm_compute; reflexivity).
  split; [exact H|].
  exact (draw_restores_batch_targets _ _ _ false H).
Defined.

(** X22. On a stage built on a live context, whatever has been drawn,
    purged or resized before, [purgeTextures] returns: it never throws. *)
Theorem purgeTextures_always_returns (h : hostEnv) (directDraw : bool)
    (batchSize autoPurge : Z) (sources : list image)
    (canvasWidth canvasHeight : Z) (calls : list stageCall)
    (count : option Z) :
  contextLost h = false ->
  result (purgeTextures count)
    (afterCalls calls
       (exec (_initializeWebGL canvasWidth canvasHeight)
          (newStage h directDraw batchSize autoPurge sources)))
  = Return tt.
Proof.
  intros Hh.
  set (st := afterCalls calls _).
  assert (Hok : registryOK st).
  { apply (reg_afterCalls calls). by apply reg_initializeWebGL. }
  unfold result, purgeTextures. rewrite bind_gets_run.
  destruct (purge_loop (default 100 count) st
              (length (_textureDictionary st)) 0%nat st Hok)
    as (s & -> & _); [lia|apply PurgeInv_start|done].
Qed.

Lemma purgeTextures_always_returns_witness :
  contextLost demoHost = false
  /\ result (purgeTextures (Some 0))
       (afterCalls
          [CallDraw (sceneOf [bitmapOf 0 1 None; bitmapOf 1 1 None]) false]
          (exec (_initializeWebGL 640 480)
             (newStage demoHost true 170 1200
                [loadedImage "a"; loadedImage "b"])))
     = Return tt.
Proof.
  split; [reflexivity|].
  exact (purgeTextures_always_returns demoHost true 170 1200
           [loadedImage "a"; loadedImage "b"] 640 480 _ (Some 0) eq_refl).
Defined.

End DrawTargets.
